(** * ETERNITY-Bot: stream-session tracker, crash recovery and reports

    A shallow embedding of
    - [src/models/StreamActivity.js]  (schema, [startStream], [endStream]),
    - [src/utils/streamUtils.js]      (session tracker, leaderboard),
    - [src/index.js]                  ([checkPreviousSessionStreams]),
    - the report generator            ([generateHourlyReport],
                                       [generateDailyReport]),
    followed by the properties that the specification states about them.

    Conventions.
    - A JavaScript [Date] is its [getTime()] value: an integer number of
      milliseconds, a [Z].  All durations handled by the code are quotients
      of such integers, so [Math.floor (a / b)] is [a / b] on [Z] and
      [Math.round (a / b)] is [(2 * a + b) / (2 * b)] (round half up).
    - [null] / [undefined] fields are [option]s; a document's [streams]
      array is a [list]; the MongoDB collection is the list of its
      documents in natural order, a document's [_id] being its position. *)

From Stdlib Require Import ZArith Lia Bool Sorted.
From Stdlib Require QArith Qround.
From stdpp Require Import base list strings pretty gmap.

Local Open Scope Z_scope.

(** ** JavaScript arithmetic *)

Module Js.

(** [Math.floor (a / b)] for integers [a] and [b > 0]. *)
Definition floor_div (a b : Z) : Z := a / b.

(** [Math.round (a / b)] for integers [a] and [b > 0]: the nearest
    integer, a tie going up. *)
Definition round_div (a b : Z) : Z := (2 * a + b) / (2 * b).

(** [Array.prototype.slice (0, n)] on a list of length [len]: the index at
    which the copy stops.  A negative [n] counts from the end. *)
Definition slice_end (len : nat) (n : Z) : nat :=
  if n <? 0 then Z.to_nat (Z.max (Z.of_nat len + n) 0)
  else Z.to_nat (Z.min n (Z.of_nat len)).

Definition slice0 {A} (l : list A) (n : Z) : list A :=
  take (slice_end (length l) n) l.

(** [Array.prototype.sort ((a, b) => key (b) - key (a))]: descending,
    and stable, so the result is the one of this insertion sort. *)
Fixpoint insertDesc {A} (key : A -> Z) (x : A) (l : list A) : list A :=
  match l with
  | [] => [x]
  | y :: l' =>
      if key x <? key y then y :: insertDesc key x l' else x :: y :: l'
  end.

Definition sortDesc {A} (key : A -> Z) (l : list A) : list A :=
  foldr (insertDesc key) [] l.

(** What a [try] block produces: a value, or a thrown error message. *)
Inductive Result (A : Type) : Type :=
| Ok (a : A)
| Throw (message : string).
Arguments Ok {A} a.
Arguments Throw {A} message.

Definition bind {A B} (r : Result A) (k : A -> Result B) : Result B :=
  match r with
  | Ok a => k a
  | Throw m => Throw m
  end.

End Js.

Notation "'let?' x ':=' r 'in' k" := (Js.bind r (fun x => k))
  (at level 10, x name, r at level 100, k at level 200).

(** ** The schema of [StreamActivity] *)

Module Model.

(** One element of [streams]. *)
Record Stream := mkStream {
  startTime : Z;
  endTime : option Z;
  channelId : string;
  channelName : string;
  duration : Z;
  day : string;
  week : string;
  month : string;
  interrupted : bool;
  notificationMessageId : option string;
  notificationChannelId : option string
}.

(** [currentDailyTotal], [currentWeeklyTotal], [currentMonthlyTotal]: the
    key field is called [day], [week] or [month] in the schema. *)
Record PeriodTotal := mkPeriodTotal {
  periodKey : string;
  totalMinutes : Z;
  streamCount : Z
}.

Record StreamActivity := mkStreamActivity {
  userId : string;
  username : string;
  guildId : string;
  guildName : string;
  streams : list Stream;
  currentDailyTotal : option PeriodTotal;
  currentWeeklyTotal : option PeriodTotal;
  currentMonthlyTotal : option PeriodTotal;
  totalStreams : Z;
  totalStreamTime : Z;
  lastUpdated : Z
}.

(** The result of [getTimePeriods ()]. *)
Record Periods := mkPeriods {
  p_day : string;
  p_week : string;
  p_month : string
}.

(** One reading of the clock: [new Date ()] and the period tags that
    [getTimePeriods ()] derives from it.  The tags depend on the process's
    time zone and are taken as read. *)
Record Clock := mkClock {
  now : Z;
  today : Periods
}.

Inductive Period := Daily | Weekly | Monthly.

Definition tag (p : Period) (ps : Periods) : string :=
  match p with
  | Daily => p_day ps
  | Weekly => p_week ps
  | Monthly => p_month ps
  end.

Definition total (p : Period) (a : StreamActivity) : option PeriodTotal :=
  match p with
  | Daily => currentDailyTotal a
  | Weekly => currentWeeklyTotal a
  | Monthly => currentMonthlyTotal a
  end.

(** Field assignments. *)
Definition with_streams (l : list Stream) (a : StreamActivity) :=
  mkStreamActivity (userId a) (username a) (guildId a) (guildName a) l
    (currentDailyTotal a) (currentWeeklyTotal a) (currentMonthlyTotal a)
    (totalStreams a) (totalStreamTime a) (lastUpdated a).

Definition with_total (p : Period) (w : option PeriodTotal) (a : StreamActivity) :=
  mkStreamActivity (userId a) (username a) (guildId a) (guildName a) (streams a)
    (match p with Daily => w | _ => currentDailyTotal a end)
    (match p with Weekly => w | _ => currentWeeklyTotal a end)
    (match p with Monthly => w | _ => currentMonthlyTotal a end)
    (totalStreams a) (totalStreamTime a) (lastUpdated a).

Definition with_totalStreams (n : Z) (a : StreamActivity) :=
  mkStreamActivity (userId a) (username a) (guildId a) (guildName a) (streams a)
    (currentDailyTotal a) (currentWeeklyTotal a) (currentMonthlyTotal a)
    n (totalStreamTime a) (lastUpdated a).

Definition with_totalStreamTime (n : Z) (a : StreamActivity) :=
  mkStreamActivity (userId a) (username a) (guildId a) (guildName a) (streams a)
    (currentDailyTotal a) (currentWeeklyTotal a) (currentMonthlyTotal a)
    (totalStreams a) n (lastUpdated a).

Definition with_lastUpdated (t : Z) (a : StreamActivity) :=
  mkStreamActivity (userId a) (username a) (guildId a) (guildName a) (streams a)
    (currentDailyTotal a) (currentWeeklyTotal a) (currentMonthlyTotal a)
    (totalStreams a) (totalStreamTime a) t.

Definition with_endTime (t : Z) (s : Stream) :=
  mkStream (startTime s) (Some t) (channelId s) (channelName s) (duration s)
    (day s) (week s) (month s) (interrupted s)
    (notificationMessageId s) (notificationChannelId s).

Definition with_duration (d : Z) (s : Stream) :=
  mkStream (startTime s) (endTime s) (channelId s) (channelName s) d
    (day s) (week s) (month s) (interrupted s)
    (notificationMessageId s) (notificationChannelId s).

Definition with_interrupted (b : bool) (s : Stream) :=
  mkStream (startTime s) (endTime s) (channelId s) (channelName s) (duration s)
    (day s) (week s) (month s) b
    (notificationMessageId s) (notificationChannelId s).

(** [!latestStream.endTime]: a [Date] object is always truthy, so a
    stream is open exactly when its [endTime] is [null]. *)
Definition isOpen (s : Stream) : bool :=
  match endTime s with
  | None => true
  | Some _ => false
  end.

(** [streams[streams.length - 1]]. *)
Definition latestStream (a : StreamActivity) : option Stream := last (streams a).

Definition latestIndex (a : StreamActivity) : nat := pred (length (streams a)).

(** The number of sessions of an aggregate whose [endTime] is absent. *)
Definition openCount (a : StreamActivity) : nat :=
  length (filter (fun s => isOpen s = true) (streams a)).

End Model.

(** ** Documents and the collection

    The persistence library is not part of the repository.  What the
    tracker relies on is its change tracking: a document returned by
    [findOne] is a private in-memory copy; every assignment made through it
    is applied to that copy and remembered; [save ()] sends the remembered
    assignments, and only those, to the stored document with the same
    [_id] ([streams.push (s)] is sent as a push of [s], an assignment to
    [streams[i].f] as a positional set).  Two copies of one stored document
    can therefore be alive at once, which is what [startStreamSession]
    does. *)

Module Mongoose.
Import Model.

(** The assignments that the tracker makes through a document. *)
Inductive Update :=
| Push (s : Stream)
| SetEndTime (i : nat) (t : Z)
| SetDuration (i : nat) (d : Z)
| SetInterrupted (i : nat) (b : bool)
| SetTotal (p : Period) (w : PeriodTotal)
| SetTotalMinutes (p : Period) (m : Z)
| SetStreamCount (p : Period) (n : Z)
| SetTotalStreamTime (n : Z)
| SetTotalStreams (n : Z)
| SetLastUpdated (t : Z).

(** A positional set on a nested object that the target lacks creates the
    object with that one field; the others read as falsy. *)
Definition orBlank (w : option PeriodTotal) : PeriodTotal :=
  default (mkPeriodTotal "" 0 0) w.

(** The effect of an assignment on a value, in memory or stored. *)
Definition apply (a : StreamActivity) (u : Update) : StreamActivity :=
  match u with
  | Push s => with_streams (streams a ++ [s]) a
  | SetEndTime i t => with_streams (alter (with_endTime t) i (streams a)) a
  | SetDuration i d => with_streams (alter (with_duration d) i (streams a)) a
  | SetInterrupted i b => with_streams (alter (with_interrupted b) i (streams a)) a
  | SetTotal p w => with_total p (Some w) a
  | SetTotalMinutes p m =>
      let w := orBlank (total p a) in
      with_total p (Some (mkPeriodTotal (periodKey w) m (streamCount w))) a
  | SetStreamCount p n =>
      let w := orBlank (total p a) in
      with_total p (Some (mkPeriodTotal (periodKey w) (totalMinutes w) n)) a
  | SetTotalStreamTime n => with_totalStreamTime n a
  | SetTotalStreams n => with_totalStreams n a
  | SetLastUpdated t => with_lastUpdated t a
  end.

Abbreviation Collection := (list StreamActivity).

(** A document: the [_id] of the stored document it is a copy of, its
    in-memory value, and the assignments made through it since it was read
    or saved. *)
Record Document := mkDocument {
  _id : nat;
  this : StreamActivity;
  modified : list Update
}.

(** One assignment through a document. *)
Definition assign (u : Update) (d : Document) : Document :=
  mkDocument (_id d) (apply (this d) u) (modified d ++ [u]).

(** [StreamActivity.findOne ({ userId, guildId })]: the first match. *)
Definition findOne (uid gid : string) (c : Collection) : option Document :=
  match list_find (fun a => userId a = uid /\ guildId a = gid) c with
  | Some (i, a) => Some (mkDocument i a [])
  | None => None
  end.

(** [doc.save ()] of a document that is already stored. *)
Definition save (d : Document) (c : Collection) : Collection * Document :=
  (alter (fun a => fold_left apply (modified d) a) (_id d) c,
   mkDocument (_id d) (this d) []).

(** [new StreamActivity (a).save ()]. *)
Definition create (a : StreamActivity) (c : Collection) : Collection * Document :=
  (c ++ [a], mkDocument (length c) a []).

End Mongoose.

(** ** The session tracker *)

Module Tracker.
Import Model Mongoose.

(** *** Methods of the schema ([src/models/StreamActivity.js]) *)

(** [!this.currentDailyTotal || !this.currentDailyTotal.day] *)
Definition missing (w : option PeriodTotal) : bool :=
  match w with
  | None => true
  | Some w => bool_decide (periodKey w = "")
  end.

(** [if (...) { this.currentDailyTotal = { day, totalMinutes: 0,
     streamCount: 0 } }], for one of the three periods. *)
Definition initTotal (p : Period) (ps : Periods) (d : Document) : Document :=
  if missing (total p (this d))
  then assign (SetTotal p (mkPeriodTotal (tag p ps) 0 0)) d
  else d.

(** [streamActivitySchema.methods.startStream] *)
Definition startStream (clk : Clock) (channelId channelName : string)
    (d : Document) : Document :=
  let ps := today clk in
  let d := assign (Push (mkStream (now clk) None channelId channelName 0
                           (p_day ps) (p_week ps) (p_month ps)
                           false None None)) d in
  let d := initTotal Daily ps d in
  let d := initTotal Weekly ps d in
  let d := initTotal Monthly ps d in
  assign (SetLastUpdated (now clk)) d.

(** [if (this.currentDailyTotal.day !== currentPeriods.day) { reset }];
    the total exists at this point, [initTotal] having run. *)
Definition resetTotal (p : Period) (ps : Periods) (d : Document) : Document :=
  match total p (this d) with
  | Some w =>
      if bool_decide (periodKey w = tag p ps) then d
      else assign (SetTotal p (mkPeriodTotal (tag p ps) 0 0)) d
  | None => d
  end.

(** [this.currentDailyTotal.totalMinutes += duration;
     this.currentDailyTotal.streamCount += 1] *)
Definition addToTotal (p : Period) (duration : Z) (d : Document) : Document :=
  let d := assign (SetTotalMinutes p
                     (totalMinutes (orBlank (total p (this d))) + duration)) d in
  assign (SetStreamCount p (streamCount (orBlank (total p (this d))) + 1)) d.

(** [this.totalStreamTime += duration] *)
Definition addTotalStreamTime (duration : Z) (d : Document) : Document :=
  assign (SetTotalStreamTime (totalStreamTime (this d) + duration)) d.

(** [this.totalStreams += 1] *)
Definition incTotalStreams (d : Document) : Document :=
  assign (SetTotalStreams (totalStreams (this d) + 1)) d.

(** [streamActivitySchema.methods.endStream] *)
Definition endStream (clk : Clock) (d : Document) : Document :=
  match latestStream (this d) with
  | Some latest =>
      if isOpen latest then
        let i := latestIndex (this d) in
        let currentPeriods := today clk in
        let d := assign (SetEndTime i (now clk)) d in
        let duration := Js.floor_div (now clk - startTime latest) (1000 * 60) in
        let d := assign (SetDuration i duration) d in
        let d := addTotalStreamTime duration d in
        let d := incTotalStreams d in
        let d := initTotal Daily currentPeriods d in
        let d := initTotal Weekly currentPeriods d in
        let d := initTotal Monthly currentPeriods d in
        let d := resetTotal Daily currentPeriods d in
        let d := resetTotal Weekly currentPeriods d in
        let d := resetTotal Monthly currentPeriods d in
        let d := addToTotal Daily duration d in
        let d := addToTotal Weekly duration d in
        let d := addToTotal Monthly duration d in
        assign (SetLastUpdated (now clk)) d
      else d
  | None => d
  end.

(** *** [src/utils/streamUtils.js] *)

(** The schema defaults of a document built with [streams: []]. *)
Definition newStreamActivity (clk : Clock) (uid uname gid gname : string) :=
  let ps := today clk in
  mkStreamActivity uid uname gid gname []
    (Some (mkPeriodTotal (p_day ps) 0 0))
    (Some (mkPeriodTotal (p_week ps) 0 0))
    (Some (mkPeriodTotal (p_month ps) 0 0))
    0 0 (now clk).

Definition getOrCreateStreamActivity (clk : Clock) (uid uname gid gname : string)
    (c : Collection) : Collection * Document :=
  match findOne uid gid c with
  | Some d => (c, d)
  | None => create (newStreamActivity clk uid uname gid gname) c
  end.

(** [sessionDetails] *)
Record SessionDetails := mkSessionDetails {
  sd_startTime : Z;
  sd_endTime : option Z;
  sd_duration : Z;
  sd_channelName : string;
  sd_interrupted : bool
}.

(** The details are read from [latestStream] after the assignments. *)
Definition detailsOf (d : Document) : option SessionDetails :=
  match latestStream (this d) with
  | Some s => Some (mkSessionDetails (startTime s) (endTime s) (duration s)
                      (channelName s) (interrupted s))
  | None => None
  end.

(** The returned pair [{ streamActivity, sessionDetails }]; both are
    [null] together. *)
Definition Ended : Type := option (Document * option SessionDetails).

Definition endStreamSession (clk : Clock) (uid gid : string)
    (c : Collection) : Collection * Ended :=
  match findOne uid gid c with
  | None => (c, None)
  | Some streamActivity =>
      match latestStream (this streamActivity) with
      | None => (c, None)
      | Some latest =>
          if isOpen latest then
            let streamActivity := endStream clk streamActivity in
            let '(c, streamActivity) := save streamActivity c in
            (c, Some (streamActivity, detailsOf streamActivity))
          else (c, None)
      end
  end.

(** The three clock readings are those of the creation of the document
    (when there is none), of the inner [endStreamSession] and of
    [startStream].  The document that receives the new session is the one
    read by [getOrCreateStreamActivity], before [endStreamSession] reads
    and saves its own copy. *)
Definition startStreamSession (clkNew clkEnd clkStart : Clock)
    (uid uname gid gname channelId channelName : string)
    (c : Collection) : Collection * Document :=
  let '(c, streamActivity) := getOrCreateStreamActivity clkNew uid uname gid gname c in
  let '(c, _) := endStreamSession clkEnd uid gid c in
  let streamActivity := startStream clkStart channelId channelName streamActivity in
  save streamActivity c.

(** [if (streamActivity.currentDailyTotal) { ....streamCount += 1 }] *)
Definition countOnly (p : Period) (d : Document) : Document :=
  match total p (this d) with
  | Some w => assign (SetStreamCount p (streamCount w + 1)) d
  | None => d
  end.

(** The assignments of the [if (!latestStream.endTime)] branch of
    [markStreamAsInterrupted], up to [save ()]. *)
Definition interruptLatest (clk : Clock) (latest : Stream) (d : Document) : Document :=
  let i := latestIndex (this d) in
  let d := assign (SetInterrupted i true) d in
  let d := assign (SetEndTime i (now clk)) d in
  let duration := Js.floor_div (now clk - startTime latest) (1000 * 60) in
  let d := assign (SetDuration i duration) d in
  let d := incTotalStreams d in
  let d := countOnly Daily d in
  let d := countOnly Weekly d in
  let d := countOnly Monthly d in
  assign (SetLastUpdated (now clk)) d.

Definition markStreamAsInterrupted (clk : Clock) (uid gid : string)
    (c : Collection) : Collection * Ended :=
  match findOne uid gid c with
  | None => (c, None)
  | Some streamActivity =>
      match latestStream (this streamActivity) with
      | None => (c, None)
      | Some latest =>
          if isOpen latest then
            let streamActivity := interruptLatest clk latest streamActivity in
            let '(c, streamActivity) := save streamActivity c in
            (c, Some (streamActivity, detailsOf streamActivity))
          else (c, None)
      end
  end.

(** *** Sequences of tracker calls *)

(** A call of the tracker, with its clock readings and arguments. *)
Inductive Op :=
| StartSession (clkNew clkEnd clkStart : Clock)
    (uid uname gid gname channelId channelName : string)
| EndSession (clk : Clock) (uid gid : string)
| MarkInterrupted (clk : Clock) (uid gid : string).

Definition step (c : Collection) (o : Op) : Collection :=
  match o with
  | StartSession clkNew clkEnd clkStart uid uname gid gname ch chn =>
      fst (startStreamSession clkNew clkEnd clkStart uid uname gid gname ch chn c)
  | EndSession clk uid gid => fst (endStreamSession clk uid gid c)
  | MarkInterrupted clk uid gid => fst (markStreamAsInterrupted clk uid gid c)
  end.

(** The collection after the calls [ops], in this order, on [c]. *)
Definition run (ops : list Op) (c : Collection) : Collection :=
  fold_left step ops c.

End Tracker.

(** ** The leaderboard ([getServerStreamLeaderboard]) *)

Module Leaderboard.
Import Mongoose.

(** An element of the returned array. *)
Record Entry := mkEntry {
  userId : string;
  username : string;
  streamTime : Z;
  streamCount : Z
}.

(** The [switch (period)] of the [map] callback. *)
Definition entryOf (period : string) (user : Model.StreamActivity) : Entry :=
  let stats (w : option Model.PeriodTotal) :=
    match w with
    | Some w => (Model.totalMinutes w, Model.streamCount w)
    | None => (0, 0)
    end in
  let '(streamTime, streamCount) :=
    if bool_decide (period = "day") then stats (Model.currentDailyTotal user)
    else if bool_decide (period = "week") then stats (Model.currentWeeklyTotal user)
    else if bool_decide (period = "month") then stats (Model.currentMonthlyTotal user)
    else (Model.totalStreamTime user, Model.totalStreams user) in
  mkEntry (Model.userId user) (Model.username user) streamTime streamCount.

(** [users] is the result of [StreamActivity.find ({ guildId })]. *)
Definition getServerStreamLeaderboard (guildId period : string) (limit : Z)
    (c : Collection) : list Entry :=
  let users := filter (fun a => Model.guildId a = guildId) c in
  match users with
  | [] => []
  | _ =>
      let leaderboardData := entryOf period <$> users in
      Js.slice0
        (Js.sortDesc streamTime
           (filter (fun user => 0 < streamTime user) leaderboardData))
        limit
  end.

End Leaderboard.

(** ** Crash recovery ([checkPreviousSessionStreams]) *)

Module Recovery.
Import Mongoose Tracker.

(** An element of the array returned by [getAllActiveStreams]. *)
Record ActiveStream := mkActiveStream {
  userId : string;
  username : string;
  guildId : string;
  guildName : string;
  channelId : string;
  channelName : string;
  startTime : Z
}.

(** [member.voice] *)
Record VoiceState := mkVoiceState {
  voiceChannelId : option string;
  streaming : bool
}.

(** What the process sees of the outside when it starts. *)
Record Env := mkEnv {
  (** [mongoose.connection.readyState === 1], and the [find] resolves *)
  storeReady : bool;
  (** [client.guilds.cache.get (guildId)] is defined *)
  guildCached : string -> bool;
  (** [client.users.fetch (userId)] resolves *)
  userFetched : string -> bool;
  (** [guild.members.fetch (userId)]: the member's voice state, or [None]
      when the promise is rejected *)
  memberVoice : string -> string -> option VoiceState;
  (** the store rejects the calls made for this key by
      [markStreamAsInterrupted] *)
  storeRejects : string -> string -> bool
}.

Definition getAllActiveStreams (env : Env) (c : Collection) : list ActiveStream :=
  if storeReady env then
    let activeStreamActivities :=
      filter (fun a => Exists (fun s => Model.isOpen s = true) (Model.streams a)) c in
    fold_left
      (fun activeStreams activity =>
         match Model.latestStream activity with
         | Some latestStream =>
             if Model.isOpen latestStream then
               activeStreams ++
               [mkActiveStream (Model.userId activity) (Model.username activity)
                  (Model.guildId activity) (Model.guildName activity)
                  (Model.channelId latestStream) (Model.channelName latestStream)
                  (Model.startTime latestStream)]
             else activeStreams
         | None => activeStreams
         end)
      activeStreamActivities []
  else [].

(** [markStreamAsInterrupted] as its caller sees it: its [catch] logs and
    rethrows, and its only write is the final [save ()], so a rejected
    store call leaves the collection as it was. *)
Definition markStreamAsInterrupted (env : Env) (clk : Model.Clock)
    (uid gid : string) (c : Collection) : Js.Result (Collection * Ended) :=
  if storeRejects env uid gid then Js.Throw "store unavailable"
  else Js.Ok (Tracker.markStreamAsInterrupted clk uid gid c).

(** [member && member.voice.channelId && member.voice.streaming &&
     member.voice.channelId === stream.channelId] *)
Definition isCurrentlyStreaming (env : Env) (stream : ActiveStream) : bool :=
  match memberVoice env (guildId stream) (userId stream) with
  | Some voice =>
      match voiceChannelId voice with
      | Some ch =>
          negb (bool_decide (ch = "")) && streaming voice
          && bool_decide (ch = channelId stream)
      | None => false
      end
  | None => false
  end.

(** What the pass did, in order. *)
Inductive Event :=
| MarkedInterrupted (uid gid : string)
| NotifiedInterrupted (uid gid channelId : string) (duration : Z)
| StillStreaming (uid gid : string).

(** The body of the [for] loop for one stream. *)
Definition reconcile (env : Env) (clk : Model.Clock) (stream : ActiveStream)
    (c : Collection) : Js.Result (Collection * list Event) :=
  let uid := userId stream in
  let gid := guildId stream in
  if negb (guildCached env gid) then
    let? r := markStreamAsInterrupted env clk uid gid c in
    Js.Ok (fst r, [MarkedInterrupted uid gid])
  else if negb (userFetched env uid) then
    let? r := markStreamAsInterrupted env clk uid gid c in
    Js.Ok (fst r, [MarkedInterrupted uid gid])
  else if negb (isCurrentlyStreaming env stream) then
    let? r := markStreamAsInterrupted env clk uid gid c in
    match snd r with
    | Some (_, Some details) =>
        Js.Ok (fst r, [MarkedInterrupted uid gid;
                       NotifiedInterrupted uid gid (channelId stream)
                         (sd_duration details)])
    | _ => Js.Ok (fst r, [MarkedInterrupted uid gid])
    end
  else Js.Ok (c, [StillStreaming uid gid]).

(** The [for] loop inside the single [try]: the first throw ends it. *)
Fixpoint forEach (env : Env) (clk : Model.Clock) (activeStreams : list ActiveStream)
    (c : Collection) (log : list Event) : Collection * list Event * option string :=
  match activeStreams with
  | [] => (c, log, None)
  | stream :: rest =>
      match reconcile env clk stream c with
      | Js.Ok (c', events) => forEach env clk rest c' (log ++ events)
      | Js.Throw message => (c, log, Some message)
      end
  end.

(** The collection after the pass, what the pass did, and the error that
    its [catch] logged, if any.  One clock reading stands for the whole
    pass. *)
Definition checkPreviousSessionStreams (env : Env) (clk : Model.Clock)
    (c : Collection) : Collection * list Event * option string :=
  forEach env clk (getAllActiveStreams env c) c [].

End Recovery.

(** ** The report generator ([generateHourlyReport], [generateDailyReport]) *)

Module Report.
Import Mongoose.

Definition MAX_STREAMS_PER_PAGE : Z := 6.

(** An element of [processedStreams]. *)
Record ProcessedStream := mkProcessedStream {
  userId : string;
  username : string;
  startTime : Z;
  endTime : option Z;
  channelId : string;
  channelName : string;
  interrupted : bool;
  isIncomplete : bool;
  duration : Z
}.

(** An element of [userStreams[userId].streams]; [rsDuration] is in
    seconds. *)
Record ReportStream := mkReportStream {
  rsChannelId : string;
  rsChannelName : string;
  rsStartTime : Z;
  rsEndTime : option Z;
  rsDuration : Z;
  rsInterrupted : bool;
  rsIsIncomplete : bool
}.

(** A value of the object [userStreams]. *)
Record UserStreams := mkUserStreams {
  usUsername : string;
  usStreamCount : Z;
  usTotalDuration : Z;
  usIncompleteCount : Z;
  usStreams : list ReportStream
}.

(** [userStreams]: user ids are not array indices, so the keys of the
    object are enumerated in insertion order. *)
Abbreviation UserMap := (list (string * UserStreams)).

Definition lookupUser (m : UserMap) (id : string) : option UserStreams :=
  (fun r => snd (snd r)) <$> list_find (fun kv => fst kv = id) m.

Fixpoint updateUser (id : string) (f : UserStreams -> UserStreams) (m : UserMap)
    : UserMap :=
  match m with
  | [] => []
  | (k, v) :: m' =>
      if bool_decide (k = id) then (k, f v) :: m' else (k, v) :: updateUser id f m'
  end.

(** The three tests made on each stream of each activity. *)
Definition overlaps (startTime endTime : Z) (stream : Model.Stream) : bool :=
  let streamStartInPeriod :=
    (startTime <=? Model.startTime stream) && (Model.startTime stream <=? endTime) in
  let streamEndInPeriod :=
    match Model.endTime stream with
    | Some e => (startTime <=? e) && (e <=? endTime)
    | None => false
    end in
  let streamSpansPeriod :=
    (Model.startTime stream <=? startTime) &&
    match Model.endTime stream with
    | Some e => endTime <=? e
    | None => true
    end in
  streamStartInPeriod || streamEndInPeriod || streamSpansPeriod.

(** [StreamActivity.find ({ guildId, streams: { $elemMatch: ... } })] *)
Definition find (storeUp : bool) (guildId : string) (startTime endTime : Z)
    (c : Collection) : Js.Result Collection :=
  if storeUp then
    Js.Ok (filter (fun a => Model.guildId a = guildId /\
                            Exists (fun s => overlaps startTime endTime s = true)
                              (Model.streams a)) c)
  else Js.Throw "store unavailable".

Definition processedOf (activity : Model.StreamActivity) (stream : Model.Stream)
    : ProcessedStream :=
  mkProcessedStream (Model.userId activity) (Model.username activity)
    (Model.startTime stream) (Model.endTime stream)
    (Model.channelId stream) (Model.channelName stream)
    (Model.interrupted stream) (Model.isOpen stream) (Model.duration stream).

(** The identity [(userId, `${startTime.getTime ()}-${channelId}`)] under
    which a stream is remembered in [userStreamCounts]. *)
Abbreviation StreamId := (string * (Z * string))%type.

Definition streamIdOf (activity : Model.StreamActivity) (stream : Model.Stream)
    : StreamId :=
  (Model.userId activity, (Model.startTime stream, Model.channelId stream)).

(** The body of the inner [for] loop: [seen] is [userStreamCounts]. *)
Definition visit (startTime endTime : Z)
    (acc : list StreamId * list ProcessedStream)
    (x : Model.StreamActivity * Model.Stream)
    : list StreamId * list ProcessedStream :=
  let '(seen, processedStreams) := acc in
  let '(activity, stream) := x in
  if overlaps startTime endTime stream then
    if bool_decide (streamIdOf activity stream ∈ seen)
    then (seen, processedStreams)
    else (streamIdOf activity stream :: seen,
          processedStreams ++ [processedOf activity stream])
  else (seen, processedStreams).

(** The two nested [for] loops that fill [processedStreams]. *)
Definition processStreams (startTime endTime : Z) (streamActivities : Collection)
    : list ProcessedStream :=
  snd (fold_left (visit startTime endTime)
         (streamActivities ≫= fun activity =>
            (fun stream => (activity, stream)) <$> Model.streams activity)
         ([], [])).

(** [durationSec]: the seconds a stream is counted for in the report of
    the window [[startTime, endTime]]. *)
Definition durationSec (windowStart windowEnd : Z) (stream : ProcessedStream) : Z :=
  if isIncomplete stream then
    let streamStart :=
      if windowStart <? startTime stream then startTime stream else windowStart in
    let streamEnd := windowEnd in
    Z.max 0 (Js.round_div (streamEnd - streamStart) 1000)
  else if 0 <? duration stream then duration stream * 60
  else
    let streamStart :=
      if windowStart <? startTime stream then startTime stream else windowStart in
    let streamEnd :=
      match endTime stream with
      | Some e => if e <? windowEnd then e else windowEnd
      | None => windowEnd
      end in
    Z.max 0 (Js.round_div (streamEnd - streamStart) 1000).

(** The totals kept next to [userStreams]. *)
Record Totals := mkTotals {
  totalStreamTime : Z;
  totalStreamCount : Z;
  incompleteStreamCount : Z
}.

(** One call of the [processedStreams.forEach] callback. *)
Definition groupOne (windowStart windowEnd : Z)
    (acc : UserMap * Totals) (stream : ProcessedStream) : UserMap * Totals :=
  let '(userStreams, totals) := acc in
  let userStreams :=
    match lookupUser userStreams (userId stream) with
    | Some _ => userStreams
    | None => userStreams ++ [(userId stream, mkUserStreams (username stream) 0 0 0 [])]
    end in
  let sec := durationSec windowStart windowEnd stream in
  let inc := if isIncomplete stream then 1 else 0 in
  let userStreams :=
    updateUser (userId stream)
      (fun u => mkUserStreams (usUsername u) (usStreamCount u + 1)
                  (usTotalDuration u + sec) (usIncompleteCount u + inc)
                  (usStreams u ++
                   [mkReportStream (channelId stream) (channelName stream)
                      (startTime stream) (endTime stream) sec
                      (interrupted stream) (isIncomplete stream)]))
      userStreams in
  (userStreams,
   mkTotals (totalStreamTime totals + sec) (totalStreamCount totals + 1)
     (incompleteStreamCount totals + inc)).

Definition group (windowStart windowEnd : Z) (processedStreams : list ProcessedStream)
    : UserMap * Totals :=
  fold_left (groupOne windowStart windowEnd) processedStreams ([], mkTotals 0 0 0).

(** An element of [allStreamEntries]. *)
Inductive Entry :=
| UserHeader (username : string) (streamCount totalDuration incompleteCount : Z)
| StreamEntry (stream : ReportStream).

Definition isUserHeader (e : Entry) : bool :=
  match e with
  | UserHeader _ _ _ _ => true
  | StreamEntry _ => false
  end.

Definition entriesOf (users : UserMap) : list Entry :=
  users ≫= fun '(_, user) =>
    UserHeader (usUsername user) (usStreamCount user) (usTotalDuration user)
      (usIncompleteCount user)
    :: (StreamEntry <$> usStreams user).

(** The summary field, the same on every page. *)
Record Summary := mkSummary {
  sumTotalStreams : Z;
  sumIncomplete : Z;
  sumTotalTime : Z;
  sumUniqueStreamers : nat
}.

(** A field of a page below the summary: the user whose name and totals
    head it, and the streams listed in it. *)
Record UserField := mkUserField {
  fieldUser : UserStreams;
  fieldStreams : list ReportStream
}.

Inductive Title :=
| Plain
| PageNumber (page : Z)
| PageOf (page total : nat).

Inductive Embed :=
| NoStreams
| ErrorReport (message : string)
| Page (title : Title) (summary : Summary) (fields : list UserField).

Definition pageFields (e : Embed) : list UserField :=
  match e with
  | Page _ _ fields => fields
  | _ => []
  end.

(** [currentUserId]: [null], [undefined] (a [find] without result), or an
    id. *)
Inductive UserRef :=
| Null
| Undefined
| Id (id : string).

(** [userStreams[currentUserId]] followed by a property read. *)
Definition userOf (userStreams : UserMap) (r : UserRef) : Js.Result UserStreams :=
  match r with
  | Id id =>
      match lookupUser userStreams id with
      | Some user => Js.Ok user
      | None => Js.Throw "Cannot read properties of undefined"
      end
  | _ => Js.Throw "Cannot read properties of undefined"
  end.

Record Loop := mkLoop {
  embeds : list Embed;
  currentPage : Z;
  streamsOnCurrentPage : Z;
  currentEmbed : option Embed;
  currentUserContent : list ReportStream;
  currentUserId : UserRef
}.

Definition addFields (f : UserField) (e : Embed) : Embed :=
  match e with
  | Page t s fields => Page t s (fields ++ [f])
  | _ => e
  end.

(** [Object.keys (userStreams).find (id => userStreams[id].username ===
     entry.username)] *)
Definition findByUsername (keys : list string) (userStreams : UserMap)
    (name : string) : UserRef :=
  match list_find (fun id => usUsername <$> lookupUser userStreams id = Some name) keys with
  | Some (_, id) => Id id
  | None => Undefined
  end.

(** One turn of the [for] loop over [allStreamEntries]. *)
Definition paginateOne (keys : list string) (userStreams : UserMap)
    (summary : Summary) (estimatedPageCount : Z)
    (st : Loop) (entry : Entry) : Js.Result Loop :=
  let? st :=
    if match currentEmbed st with None => true | Some _ => false end
       || ((MAX_STREAMS_PER_PAGE <=? streamsOnCurrentPage st) && isUserHeader entry)
    then
      let? embeds :=
        match currentEmbed st, currentUserContent st with
        | Some e, _ :: _ =>
            let? user := userOf userStreams (currentUserId st) in
            Js.Ok (embeds st ++ [addFields (mkUserField user (currentUserContent st)) e])
        | _, _ => Js.Ok (embeds st)
        end in
      Js.Ok (mkLoop embeds (currentPage st + 1) 0
               (Some (Page (if 1 <? estimatedPageCount
                            then PageNumber (currentPage st + 1) else Plain)
                        summary []))
               [] Null)
    else Js.Ok st in
  match entry with
  | UserHeader name _ _ _ =>
      let? st :=
        match currentUserId st, currentUserContent st with
        | Null, _ | _, [] => Js.Ok st
        | r, _ :: _ =>
            let? user := userOf userStreams r in
            Js.Ok (mkLoop (embeds st) (currentPage st) (streamsOnCurrentPage st)
                     (addFields (mkUserField user (currentUserContent st))
                        <$> currentEmbed st)
                     [] (currentUserId st))
        end in
      Js.Ok (mkLoop (embeds st) (currentPage st) (streamsOnCurrentPage st)
               (currentEmbed st) (currentUserContent st)
               (findByUsername keys userStreams name))
  | StreamEntry stream =>
      Js.Ok (mkLoop (embeds st) (currentPage st) (streamsOnCurrentPage st + 1)
               (currentEmbed st) (currentUserContent st ++ [stream])
               (currentUserId st))
  end.

Fixpoint paginateLoop (keys : list string) (userStreams : UserMap)
    (summary : Summary) (estimatedPageCount : Z)
    (entries : list Entry) (st : Loop) : Js.Result Loop :=
  match entries with
  | [] => Js.Ok st
  | entry :: rest =>
      let? st := paginateOne keys userStreams summary estimatedPageCount st entry in
      paginateLoop keys userStreams summary estimatedPageCount rest st
  end.

Definition retitle (pages : list Embed) : list Embed :=
  if (1 <? length pages)%nat then
    imap (fun index e =>
            match e with
            | Page _ s fields => Page (PageOf (S index) (length pages)) s fields
            | _ => e
            end) pages
  else pages.

(** After the loop: [if (currentEmbed && currentUserContent)], the last
    user's field is added and the last page is pushed. *)
Definition finish (userStreams : UserMap) (st : Loop) : Js.Result (list Embed) :=
  match currentEmbed st, currentUserContent st with
  | Some e, _ :: _ =>
      let? user := userOf userStreams (currentUserId st) in
      Js.Ok (embeds st ++ [addFields (mkUserField user (currentUserContent st)) e])
  | _, _ => Js.Ok (embeds st)
  end.

(** The pagination: the loop, the last page, the page numbers. *)
Definition paginate (keys : list string) (userStreams : UserMap)
    (summary : Summary) (estimatedPageCount : Z) (allStreamEntries : list Entry)
    : Js.Result (list Embed) :=
  let? st := paginateLoop keys userStreams summary estimatedPageCount
               allStreamEntries (mkLoop [] 0 0 None [] Null) in
  let? embeds := finish userStreams st in
  Js.Ok (retitle embeds).

(** [{ pageCount, totalStreams: totalStreamCount }]: no [pageCount] is
    declared in the function or in the module (the count is called
    [estimatedPageCount] there), so evaluating the object literal throws a
    [ReferenceError]. *)
Definition creatingPagesStep : Js.Result unit :=
  Js.Throw "pageCount is not defined".

(** [Math.ceil (totalStreamCount / MAX_STREAMS_PER_PAGE)] *)
Definition ceilDiv (a b : Z) : Z := - ((- a) / b).

(** The [try] block, from the query on; [daily] tells the two reports
    apart: the daily one orders the users by decreasing total. *)
Definition tryReport (daily storeUp : bool) (guildId : string)
    (startTime endTime : Z) (c : Collection) : Js.Result (list Embed) :=
  let? streamActivities := find storeUp guildId startTime endTime c in
  let processedStreams :=
    Js.sortDesc Report.startTime (processStreams startTime endTime streamActivities) in
  match processedStreams with
  | [] => Js.Ok [NoStreams]
  | _ =>
      let '(userStreams, totals) := group startTime endTime processedStreams in
      let summary :=
        mkSummary (totalStreamCount totals) (incompleteStreamCount totals)
          (totalStreamTime totals) (length userStreams) in
      let users :=
        if daily then Js.sortDesc (fun kv => usTotalDuration (snd kv)) userStreams
        else userStreams in
      let allStreamEntries := entriesOf users in
      let estimatedPageCount :=
        ceilDiv (totalStreamCount totals) MAX_STREAMS_PER_PAGE in
      let? _ := creatingPagesStep in
      paginate (fst <$> users) userStreams summary estimatedPageCount allStreamEntries
  end.

(** [try { ... } catch (error) { return [errorEmbed] }] *)
Definition generateHourlyReport (storeUp : bool) (guildId : string)
    (startTime endTime : Z) (c : Collection) : list Embed :=
  match tryReport false storeUp guildId startTime endTime c with
  | Js.Ok embeds => embeds
  | Js.Throw message => [ErrorReport message]
  end.

(** The window is the previous day in the guild's time zone; the
    [GuildConfig.findOne] that reads the zone uses the same store. *)
Definition generateDailyReport (storeUp : bool) (guildId : string)
    (startTime endTime : Z) (c : Collection) : list Embed :=
  match
    (let? _ := if storeUp then Js.Ok tt else Js.Throw "store unavailable" in
     tryReport true storeUp guildId startTime endTime c)
  with
  | Js.Ok embeds => embeds
  | Js.Throw message => [ErrorReport message]
  end.

End Report.

(** ** Reading the tracker's records ([src/utils/streamUtils.js]) *)

Module Queries.
Import Model Mongoose.

(** The object returned by [getActiveStream]. *)
Record ActiveInfo := mkActiveInfo {
  ai_startTime : Z;
  ai_channelId : string;
  ai_channelName : string;
  ai_duration : Z
}.

(** [getActiveStream]: [clk] is the [new Date ()] of the duration. *)
Definition getActiveStream (clk : Clock) (uid gid : string) (c : Collection)
    : option ActiveInfo :=
  match findOne uid gid c with
  | Some streamActivity =>
      match latestStream (this streamActivity) with
      | Some latestStream =>
          if isOpen latestStream then
            let duration :=
              Js.floor_div (now clk - startTime latestStream) (1000 * 60) in
            Some (mkActiveInfo (startTime latestStream) (channelId latestStream)
                    (channelName latestStream) duration)
          else None
      | None => None
      end
  | None => None
  end.

(** The object returned by [getCurrentPeriodStats]: the [default] branch
    of its [switch] gives no key. *)
Record PeriodStats := mkPeriodStats {
  ps_key : option string;
  ps_totalMinutes : Z;
  ps_streamCount : Z
}.

(** [this.currentDailyTotal.day] and the two reads that follow it. *)
Definition readTotal (w : option PeriodTotal) : Js.Result PeriodStats :=
  match w with
  | Some w => Js.Ok (mkPeriodStats (Some (periodKey w)) (totalMinutes w) (streamCount w))
  | None => Js.Throw "Cannot read properties of undefined"
  end.

(** [streamActivitySchema.methods.getCurrentPeriodStats] *)
Definition getCurrentPeriodStats (period : string) (a : StreamActivity)
    : Js.Result PeriodStats :=
  if bool_decide (period = "day") then readTotal (currentDailyTotal a)
  else if bool_decide (period = "week") then readTotal (currentWeeklyTotal a)
  else if bool_decide (period = "month") then readTotal (currentMonthlyTotal a)
  else Js.Ok (mkPeriodStats None (totalStreamTime a) (totalStreams a)).

(** The object returned by [getUserStreamStats]; [lastUpdated] is absent
    from the default statistics. *)
Record Stats := mkStats {
  st_totalStreamTime : Z;
  st_totalStreams : Z;
  st_periodStats : option PeriodStats;
  st_lastUpdated : option Z
}.

Definition getUserStreamStats (uid gid period : string) (c : Collection)
    : Js.Result Stats :=
  match findOne uid gid c with
  | None => Js.Ok (mkStats 0 0 None None)
  | Some streamActivity =>
      let? periodStats := getCurrentPeriodStats period (this streamActivity) in
      Js.Ok (mkStats (totalStreamTime (this streamActivity))
               (totalStreams (this streamActivity))
               (Some periodStats) (Some (lastUpdated (this streamActivity))))
  end.

(** An element of the array returned by [getUserStreamHistory]: the
    object built for an interrupted stream has neither [endTime] nor
    [duration]. *)
Record HistoryEntry := mkHistoryEntry {
  he_startTime : Z;
  he_endTime : option Z;
  he_duration : option Z;
  he_channelName : string;
  he_channelId : string;
  he_day : string;
  he_interrupted : bool
}.

(** The callback of [limitedStreams.map]. *)
Definition historyEntryOf (stream : Stream) : HistoryEntry :=
  if interrupted stream then
    mkHistoryEntry (startTime stream) None None
      (channelName stream) (channelId stream) (day stream) true
  else
    mkHistoryEntry (startTime stream) (endTime stream) (Some (duration stream))
      (channelName stream) (channelId stream) (day stream) false.

Definition getUserStreamHistory (uid gid : string) (limit : Z) (c : Collection)
    : list HistoryEntry :=
  match findOne uid gid c with
  | None => []
  | Some streamActivity =>
      match streams (this streamActivity) with
      | [] => []
      | _ =>
          let sortedStreams :=
            Js.sortDesc startTime
              (filter (fun stream => isOpen stream = false)
                 (streams (this streamActivity))) in
          let limitedStreams :=
            if 0 <? limit then Js.slice0 sortedStreams limit else sortedStreams in
          historyEntryOf <$> limitedStreams
      end
  end.

(** [latestStream.notificationMessageId = messageId;
     latestStream.notificationChannelId = channelId] *)
Definition with_notification (messageId channelId : string) (s : Stream) : Stream :=
  mkStream (startTime s) (endTime s) (Model.channelId s) (channelName s) (duration s)
    (day s) (week s) (month s) (interrupted s) (Some messageId) (Some channelId).

(** [saveStreamNotificationId], the store answering: the two assignments
    are made through a document that was just read, and [save ()] sends
    them as positional sets on [streams[length - 1]]. *)
Definition saveStreamNotificationId (uid gid messageId channelId : string)
    (c : Collection) : Collection * bool :=
  match findOne uid gid c with
  | Some streamActivity =>
      match latestStream (this streamActivity) with
      | Some latestStream =>
          if isOpen latestStream then
            (alter (fun a =>
                      with_streams
                        (alter (with_notification messageId channelId)
                           (latestIndex (this streamActivity)) (streams a)) a)
               (_id streamActivity) c,
             true)
          else (c, false)
      | None => (c, false)
      end
  | None => (c, false)
  end.

(** [getStreamNotificationId]: the pair [{ messageId, channelId }] of the
    latest stream, when both are set and not empty. *)
Definition getStreamNotificationId (uid gid : string) (c : Collection)
    : option (string * string) :=
  match findOne uid gid c with
  | Some streamActivity =>
      match latestStream (this streamActivity) with
      | Some latestStream =>
          match notificationMessageId latestStream,
                notificationChannelId latestStream with
          | Some messageId, Some channelId =>
              if negb (bool_decide (messageId = ""))
                 && negb (bool_decide (channelId = ""))
              then Some (messageId, channelId)
              else None
          | _, _ => None
          end
      | None => None
      end
  | None => None
  end.

End Queries.

(** ** Durations as text ([formatTime], [formatDuration]) *)

Module Format.
Import QArith Qround.
Local Open Scope Z_scope.

(** A number is a rational here: the callers pass whole minutes, or
    whole seconds divided by 60.  [Math.trunc]: *)
Definition trunc (x : Q) : Z := if Qlt_le_dec x 0 then Qceiling x else Qfloor x.

(** [a % b]: the remainder has the sign of [a]. *)
Definition rem (a b : Q) : Q := (a - b * inject_Z (trunc (a / b)))%Q.

(** [formatTime]; a template literal prints a whole number in decimal. *)
Definition formatTime (minutes : Q) : string :=
  if Qlt_le_dec minutes 1 then "0m"
  else
    let hours := Qfloor (minutes / 60) in
    let remainingMinutes := Qfloor (rem minutes 60) in
    if hours =? 0 then pretty remainingMinutes +:+ "m"
    else if remainingMinutes =? 0 then pretty hours +:+ "h"
    else pretty hours +:+ "h " +:+ pretty remainingMinutes +:+ "m".

(** [formatDuration]: [duration] is in seconds. *)
Definition formatDuration (duration : Q) (interrupted : bool) : string :=
  if interrupted then "Interrupted"
  else
    let minutes := (duration / 60)%Q in
    formatTime minutes.

End Format.

(** ** Pages with buttons ([createPaginatedEmbed]) *)

Module Paginator.

(** The five buttons of [getRow]: which are disabled, and the label
    [`Page ${currentPage + 1}/${pages.length}`] of the one in the middle. *)
Record Row := mkRow {
  firstDisabled : bool;
  previousDisabled : bool;
  pageIndicator : Z * nat;
  nextDisabled : bool;
  lastDisabled : bool
}.

Definition getRow (length : nat) (currentPage : Z) : Row :=
  mkRow (currentPage =? 0) (currentPage =? 0)
    (currentPage + 1, length)
    (currentPage =? Z.of_nat length - 1) (currentPage =? Z.of_nat length - 1).

(** What the message shows after a reply or an edit: the embed, which is
    [undefined] when the index is out of the array, and the row of
    buttons if there is one. *)
Record Message (E : Type) := mkMessage {
  embed : option E;
  components : option Row
}.
Arguments mkMessage {E} embed components.
Arguments embed {E} m.
Arguments components {E} m.

(** [pages[currentPage]] *)
Definition page {E} (pages : list E) (currentPage : Z) : option E :=
  if currentPage <? 0 then None else pages !! Z.to_nat currentPage.

(** The [switch (buttonInt.customId)] of the collector. *)
Definition press (length : nat) (currentPage : Z) (customId : string) : Z :=
  if bool_decide (customId = "first") then 0
  else if bool_decide (customId = "previous") then Z.max 0 (currentPage - 1)
  else if bool_decide (customId = "next")
       then Z.min (Z.of_nat length - 1) (currentPage + 1)
  else if bool_decide (customId = "last") then Z.of_nat length - 1
  else currentPage.

(** One collected button: the new [currentPage] and the edit made. *)
Definition collect {E} (pages : list E) (st : Z * list (Message E))
    (customId : string) : Z * list (Message E) :=
  let currentPage := press (length pages) (fst st) customId in
  (currentPage,
   snd st ++ [mkMessage (page pages currentPage)
                (Some (getRow (length pages) currentPage))]).

(** [createPaginatedEmbed]: what the message shows, from the first reply
    to the edit made when the collector ends.  [presses] are the buttons
    pressed before that, each with the id of the user who pressed it; the
    collector's filter keeps those of the user who ran the command. *)
Definition createPaginatedEmbed {E} (invoker : string) (pages : list E)
    (presses : list (string * string)) : list (Message E) :=
  match pages with
  | [] => []
  | [only] => [mkMessage (Some only) None]
  | _ =>
      let collected := snd <$> filter (fun i => fst i = invoker) presses in
      let st :=
        fold_left (collect pages) collected
          (0, [mkMessage (page pages 0) (Some (getRow (length pages) 0))]) in
      snd st ++ [mkMessage (page pages (fst st)) None]
  end.

End Paginator.

(** ** The history command ([displayStreamHistory]) *)

Module History.
Import Queries.

Definition STREAMS_PER_PAGE : Z := 5.

(** [Array.prototype.slice (start, end)] *)
Definition slice {A} (l : list A) (start end_ : Z) : list A :=
  let k := Js.slice_end (length l) start in
  let final := Js.slice_end (length l) end_ in
  take (final - k) (drop k l).

(** A field of a page: the stream it shows and, unless the stream was
    interrupted, the text of [formatTime (stream.duration || 0)]. *)
Record Field := mkField {
  fieldStream : HistoryEntry;
  fieldDuration : option string
}.

Definition fieldOf (stream : HistoryEntry) : Field :=
  if he_interrupted stream then mkField stream None
  else mkField stream
         (Some (Format.formatTime
                  (QArith_base.inject_Z (default 0 (he_duration stream))))).

(** An embed: its footer [`Page ${i+1}/${totalPages} • Total Streams:
    ${streams.length}`] and its fields. *)
Record Page := mkPage {
  pageNumber : Z;
  pageCount : Z;
  totalStreams : nat;
  fields : list Field
}.

(** The loop that builds [pages]. *)
Definition pagesOf (streams : list HistoryEntry) : list Page :=
  let totalPages := Report.ceilDiv (Z.of_nat (length streams)) STREAMS_PER_PAGE in
  (fun i =>
     let startIdx := i * STREAMS_PER_PAGE in
     let pageStreams := slice streams startIdx (startIdx + STREAMS_PER_PAGE) in
     mkPage (i + 1) totalPages (length streams) (fieldOf <$> pageStreams))
    <$> seqZ 0 totalPages.

(** What the command answers: the sentence [`${username} hasn't streamed
    yet.`], or what [createPaginatedEmbed] makes of the pages. *)
Inductive Answer :=
| NotStreamedYet (username : string)
| Paginated (messages : list (Paginator.Message Page)).

(** [displayStreamHistory]; [invoker] is the user who ran the command,
    [presses] the buttons pressed afterwards. *)
Definition displayStreamHistory (invoker username uid gid : string) (limit : Z)
    (presses : list (string * string)) (c : Mongoose.Collection) : Answer :=
  let streams := getUserStreamHistory uid gid limit c in
  match streams with
  | [] => NotStreamedYet username
  | _ => Paginated (Paginator.createPaginatedEmbed invoker (pagesOf streams) presses)
  end.

End History.

(** ** Guild settings ([src/utils/configUtils.js]) *)

Module Config.

(** The repository holds two copies of the schema of [GuildConfig]:
    [src/models/GuildConfig.js], the file that [configUtils.js],
    [setreport.js] and [index.js] require, declares the first six paths;
    [src/unnamed/part_005] declares the three report settings as well. *)
Inductive Schema := SixPaths | WithReportSettings.

(** A stored document.  The last three fields are the report settings.
    A process whose schema does not declare them neither reads nor writes
    them; a document that lacks them is one that holds their defaults,
    [false], [false] and ["UTC"]: an absent flag is not [true] for a query
    and reads as falsy, and an absent time zone reads as ["UTC"]. *)
Record GuildConfig := mkGuildConfig {
  guildId : string;
  guildName : string;
  prefix : string;
  notificationChannelId : option string;
  trackStreamActivity : bool;
  lastUpdated : Z;
  hourlyReportEnabled : bool;
  dailyReportEnabled : bool;
  timezone : string
}.

(** The collection, in natural order. *)
Abbreviation Configs := (list GuildConfig).

(** [process.env.DEFAULT_PREFIX || '!'] *)
Definition defaultPrefix (DEFAULT_PREFIX : option string) : string :=
  match DEFAULT_PREFIX with
  | Some p => if bool_decide (p = "") then "!" else p
  | None => "!"
  end.

(** [GuildConfig.findOne ({ guildId })]: the position and the value of the
    first match. *)
Definition findOne (gid : string) (c : Configs) : option (nat * GuildConfig) :=
  list_find (fun g => guildId g = gid) c.

(** A [required] string path holds a string that is not empty. *)
Definition present (s : option string) : bool :=
  match s with
  | Some s => negb (bool_decide (s = ""))
  | None => false
  end.

(** [getOrCreateGuildConfig (guildId, guildName)]: a caller that passes
    one argument leaves [guildName] undefined.  The document is created
    with the defaults of the schema, and [save ()] validates it. *)
Definition getOrCreateGuildConfig (env : option string) (now : Z)
    (gid : string) (gname : option string) (c : Configs)
    : Js.Result (Configs * (nat * GuildConfig)) :=
  match findOne gid c with
  | Some guildConfig => Js.Ok (c, guildConfig)
  | None =>
      if present (Some gid) && present gname then
        let guildConfig :=
          mkGuildConfig gid (default "" gname) (defaultPrefix env) None true now
            false false "UTC" in
        Js.Ok (c ++ [guildConfig], (length c, guildConfig))
      else Js.Throw "GuildConfig validation failed"
  end.

Definition with_notificationChannelId (ch : option string) (now : Z) (g : GuildConfig) :=
  mkGuildConfig (guildId g) (guildName g) (prefix g) ch (trackStreamActivity g) now
    (hourlyReportEnabled g) (dailyReportEnabled g) (timezone g).

Definition with_prefix (p : string) (now : Z) (g : GuildConfig) :=
  mkGuildConfig (guildId g) (guildName g) p (notificationChannelId g)
    (trackStreamActivity g) now
    (hourlyReportEnabled g) (dailyReportEnabled g) (timezone g).

Definition with_trackStreamActivity (b : bool) (now : Z) (g : GuildConfig) :=
  mkGuildConfig (guildId g) (guildName g) (prefix g) (notificationChannelId g) b now
    (hourlyReportEnabled g) (dailyReportEnabled g) (timezone g).

(** The body shared by the three setters: the document is fetched (or
    created) with one argument, changed and saved; an error makes the
    setter answer [false]. *)
Definition update (env : option string) (now : Z) (gid : string)
    (change : GuildConfig -> GuildConfig) (c : Configs) : Configs * bool :=
  match getOrCreateGuildConfig env now gid None c with
  | Js.Ok (c, (i, guildConfig)) => (<[i := change guildConfig]> c, true)
  | Js.Throw _ => (c, false)
  end.

Definition setNotificationChannel (env : option string) (now : Z)
    (gid channelId : string) (c : Configs) : Configs * bool :=
  update env now gid (with_notificationChannelId (Some channelId) now) c.

Definition setGuildPrefix (env : option string) (now : Z)
    (gid prefix : string) (c : Configs) : Configs * bool :=
  update env now gid (with_prefix prefix now) c.

Definition toggleStreamTracking (env : option string) (now : Z)
    (gid : string) (trackStreamActivity : bool) (c : Configs) : Configs * bool :=
  update env now gid (with_trackStreamActivity trackStreamActivity now) c.

Definition getGuildPrefix (env : option string) (gid : string) (c : Configs) : string :=
  match findOne gid c with
  | Some (_, guildConfig) =>
      if negb (bool_decide (prefix guildConfig = "")) then prefix guildConfig
      else defaultPrefix env
  | None => defaultPrefix env
  end.

Definition isStreamTrackingEnabled (gid : string) (c : Configs) : bool :=
  match findOne gid c with
  | Some (_, guildConfig) => trackStreamActivity guildConfig
  | None => true
  end.

Definition getNotificationChannel (gid : string) (c : Configs) : option string :=
  match findOne gid c with
  | Some (_, guildConfig) => notificationChannelId guildConfig
  | None => None
  end.

End Config.

(** ** The bot ([src/index.js]): notifications and voice-state updates *)

Module Bot.
Import Model Mongoose.

(** ['#00ff00'], ['#FFA500'], ['#ff0000'] *)
Inductive Colour := Green | Orange | Red.

(** The embed of a stream notification: its colour, its title ("Stream
    Started" or "Stream Ended"), the user, the channel field (the id, or
    "Unknown channel"), and the fields "Duration" and "Status" when they
    are added. *)
Record StreamEmbed := mkStreamEmbed {
  colour : Colour;
  started : bool;
  user : string;
  channelField : option string;
  durationField : option Z;
  statusInterrupted : bool
}.

(** A message of the bot in a channel: sent as a new message, or as a
    reply to the message [to]. *)
Inductive Outgoing :=
| Sent (channel messageId : string) (embed : StreamEmbed)
| Replied (channel to messageId : string) (embed : StreamEmbed).

(** What the bot sees of Discord: whether a channel of a guild is in the
    cache, the id that Discord gives to the [n]-th message of the bot, and
    whether a message of a channel can still be fetched. *)
Record Discord := mkDiscord {
  channelCached : string -> string -> bool;
  messageId : nat -> string;
  fetchable : string -> string -> bool
}.

(** The two collections and the messages sent so far. *)
Record World := mkWorld {
  activities : Collection;
  configs : Config.Configs;
  outbox : list Outgoing
}.

(** The embed built by [sendStreamNotification]. *)
Definition embedOf (uid : string) (channelId : option string) (isStarting : bool)
    (duration : option Z) (interrupted : bool) : StreamEmbed :=
  mkStreamEmbed
    (if isStarting then Green else if interrupted then Orange else Red)
    isStarting uid
    (match channelId with
     | Some ch => if bool_decide (ch = "") then None else Some ch
     | None => None
     end)
    (if negb isStarting && negb interrupted then
       match duration with
       | Some n => if n =? 0 then None else Some n
       | None => None
       end
     else None)
    (negb isStarting && interrupted).

(** [sendStreamNotification], the store and Discord answering. *)
Definition sendStreamNotification (d : Discord) (gid uid : string)
    (channelId : option string) (isStarting : bool) (duration : option Z)
    (interrupted : bool) (w : World) : World :=
  let trackingEnabled := Config.isStreamTrackingEnabled gid (configs w) in
  if negb trackingEnabled then w
  else
    match Config.getNotificationChannel gid (configs w) with
    | None => w
    | Some notificationChannelId =>
        if bool_decide (notificationChannelId = "") then w
        else if negb (channelCached d gid notificationChannelId) then w
        else
          let embed := embedOf uid channelId isStarting duration interrupted in
          let sentId := messageId d (length (outbox w)) in
          if isStarting then
            mkWorld
              (fst (Queries.saveStreamNotificationId uid gid sentId
                      notificationChannelId (activities w)))
              (configs w)
              (outbox w ++ [Sent notificationChannelId sentId embed])
          else
            match Queries.getStreamNotificationId uid gid (activities w) with
            | Some (original, channel) =>
                if bool_decide (channel = notificationChannelId)
                   && fetchable d notificationChannelId original
                then mkWorld (activities w) (configs w)
                       (outbox w ++ [Replied notificationChannelId original sentId embed])
                else mkWorld (activities w) (configs w)
                       (outbox w ++ [Sent notificationChannelId sentId embed])
            | None =>
                mkWorld (activities w) (configs w)
                  (outbox w ++ [Sent notificationChannelId sentId embed])
            end
    end.

(** A voice state: [channel] is the id of the voice channel and, when the
    channel is in the cache, its name. *)
Record Voice := mkVoice {
  streaming : bool;
  channel : option (string * option string)
}.

Definition channelId (v : Voice) : option string := fst <$> channel v.

(** [state.channel?.name || 'unknown channel'] *)
Definition channelNameOr (v : Voice) : string :=
  match channel v with
  | Some (_, Some name) => if bool_decide (name = "") then "unknown channel" else name
  | _ => "unknown channel"
  end.

(** The member of a voice state with its user: the id, the name that
    [user.username || user.globalName || member.displayName] gives, and
    whether the user is a bot. *)
Record Member := mkMember {
  memberId : string;
  memberName : string;
  isBot : bool
}.

(** A [VoiceStateUpdate] event. *)
Record Update := mkUpdate {
  guildId : string;
  guildName : string;
  oldMember : option Member;
  newMember : option Member;
  oldState : Voice;
  newState : Voice
}.

(** The clock readings of the calls made while an update is handled: of
    [endStreamSession], and of the three steps of [startStreamSession]. *)
Record Ticks := mkTicks {
  atEnd : Clock;
  atCreate : Clock;
  atInnerEnd : Clock;
  atStart : Clock
}.

(** [endStreamSession] followed by the notification of the end. *)
Definition endAndNotify (d : Discord) (t : Ticks) (gid uid : string)
    (old : Voice) (w : World) : World :=
  let '(c, result) := Tracker.endStreamSession (atEnd t) uid gid (activities w) in
  let w := mkWorld c (configs w) (outbox w) in
  match result with
  | Some (_, Some sessionDetails) =>
      sendStreamNotification d gid uid (channelId old) false
        (Some (Tracker.sd_duration sessionDetails)) false w
  | _ => w
  end.

(** [startStreamSession] followed by the notification of the start. *)
Definition startAndNotify (d : Discord) (t : Ticks) (gid gname uid uname : string)
    (ch chName : string) (w : World) : World :=
  let c := fst (Tracker.startStreamSession (atCreate t) (atInnerEnd t) (atStart t)
                  uid uname gid gname ch chName (activities w)) in
  sendStreamNotification d gid uid (Some ch) true None false
    (mkWorld c (configs w) (outbox w)).

(** The handler of [Events.VoiceStateUpdate], the store answering.  An
    exception ends the handler in its [catch]: [newState.channel.name]
    when the channel is not in the cache, and the [save ()] of a stream
    without [channelId]. *)
Definition onVoiceStateUpdate (d : Discord) (t : Ticks) (u : Update) (w : World)
    : World :=
  let bot (m : option Member) := match m with Some m => isBot m | None => false end in
  if bot (oldMember u) || bot (newMember u) then w
  else
    match newMember u with
    | None => w
    | Some member =>
        let userId := memberId member in
        let username := memberName member in
        let old := oldState u in
        let new := newState u in
        if negb (streaming old) && streaming new then
          match channel new with
          | Some (ch, Some name) =>
              startAndNotify d t (guildId u) (guildName u) userId username ch name w
          | _ => w
          end
        else if streaming old && negb (streaming new) then
          endAndNotify d t (guildId u) userId old w
        else if streaming old
                && match channelId old with
                   | Some ch => negb (bool_decide (ch = ""))
                   | None => false
                   end
                && match channelId new with
                   | Some ch => bool_decide (ch = "")
                   | None => true
                   end
        then endAndNotify d t (guildId u) userId old w
        else if streaming old && streaming new
                && negb (bool_decide (channelId old = channelId new)) then
          let w := endAndNotify d t (guildId u) userId old w in
          match channelId new with
          | Some ch =>
              startAndNotify d t (guildId u) (guildName u) userId username ch
                (channelNameOr new) w
          | None =>
              let '(c, _) :=
                Tracker.getOrCreateStreamActivity (atCreate t) userId username
                  (guildId u) (guildName u) (activities w) in
              let '(c, _) := Tracker.endStreamSession (atInnerEnd t) userId (guildId u) c in
              mkWorld c (configs w) (outbox w)
          end
        else w
    end.

(** The worlds that the bot reaches by handling updates one at a time,
    from no records: each update comes with the settings in force when it
    is handled, with Discord as it is then, and with the clock readings of
    its calls, and its handler runs to its end before the next update is
    taken up.  The emitter does not wait for a handler, so this is the
    behaviour of the bot when no update arrives while the handler of
    another is at one of its [await]s. *)
Definition handle (w : World) (e : Config.Configs * Discord * Ticks * Update) : World :=
  let '(settings, d, t, u) := e in
  onVoiceStateUpdate d t u (mkWorld (activities w) settings (outbox w)).

Definition after (events : list (Config.Configs * Discord * Ticks * Update)) : World :=
  fold_left handle events (mkWorld [] [] []).

End Bot.

(** ** Report settings ([src/commands/setreport.js]) and scheduled reports
    ([sendScheduledReports] in [src/index.js]) *)

Module Schedule.
Import Config.

(** What the slash command answers. *)
Inductive Reply :=
| NotConfigured
| NoNotificationChannel
| Info (hourly daily : bool) (timezone channel : string)
| AllDisabled
| SpecifyEnabled
| Hourly (enabled : bool)
| Daily (enabled : bool) (timezone : string)
| SpecifyTimezone
| InvalidTimezone (timezone : string)
| TimezoneSet (timezone : string)
| NoReply.

Definition with_reports (hourly daily : bool) (g : GuildConfig) :=
  mkGuildConfig (guildId g) (guildName g) (prefix g) (notificationChannelId g)
    (trackStreamActivity g) (lastUpdated g) hourly daily (timezone g).

Definition with_timezone (tz : string) (g : GuildConfig) :=
  mkGuildConfig (guildId g) (guildName g) (prefix g) (notificationChannelId g)
    (trackStreamActivity g) (lastUpdated g)
    (hourlyReportEnabled g) (dailyReportEnabled g) tz.

(** [guildConfig.timezone || 'UTC'] *)
Definition timezoneOr (g : GuildConfig) : string :=
  if bool_decide (timezone g = "") then "UTC" else timezone g.

(** The document as the process has it in memory after [findOne]: a path
    that the schema does not declare reads as [undefined]. *)
Definition loaded (schema : Schema) (g : GuildConfig) : GuildConfig :=
  match schema with
  | WithReportSettings => g
  | SixPaths => with_timezone "" (with_reports false false g)
  end.

(** [guildConfig.save ()] after assignments to the report settings: with
    the schema that declares them the document is stored as it is in
    memory; with the strict schema of six paths the assignments are not
    tracked and nothing is written. *)
Definition saved (schema : Schema) (i : nat) (guildConfig : GuildConfig)
    (c : Configs) : Configs :=
  match schema with
  | WithReportSettings => <[i := guildConfig]> c
  | SixPaths => c
  end.

(** [option === 'on'] sets the flag, [option === 'off'] clears it, any
    other value leaves it. *)
Definition switched (enabled : string) (flag : bool) : bool :=
  if bool_decide (enabled = "on") then true
  else if bool_decide (enabled = "off") then false
  else flag.

(** [execute] of the slash command, the store answering: [schema] is the
    copy of the schema the process has loaded; [action], [enabled] and
    [timezone] are the options of the interaction, [None] when an option
    is not given; [validTimezone] tells whether [toLocaleString] accepts a
    time zone.  The answers are read from the document in memory. *)
Definition execute (schema : Schema) (validTimezone : string -> bool) (gid : string)
    (action enabled tz : option string) (c : Configs) : Configs * Reply :=
  match findOne gid c with
  | None => (c, NotConfigured)
  | Some (i, guildConfig) =>
      let guildConfig := loaded schema guildConfig in
      match notificationChannelId guildConfig with
      | None => (c, NoNotificationChannel)
      | Some channel =>
          if bool_decide (channel = "") then (c, NoNotificationChannel)
          else if bool_decide (action = Some "info") then
            (c, Info (hourlyReportEnabled guildConfig) (dailyReportEnabled guildConfig)
                  (timezoneOr guildConfig) channel)
          else if bool_decide (action = Some "off") then
            (saved schema i (with_reports false false guildConfig) c, AllDisabled)
          else if bool_decide (action = Some "hourly") then
            match enabled with
            | None => (c, SpecifyEnabled)
            | Some "" => (c, SpecifyEnabled)
            | Some enabled =>
                let guildConfig :=
                  with_reports (switched enabled (hourlyReportEnabled guildConfig))
                    (dailyReportEnabled guildConfig) guildConfig in
                (saved schema i guildConfig c, Hourly (hourlyReportEnabled guildConfig))
            end
          else if bool_decide (action = Some "daily") then
            match enabled with
            | None => (c, SpecifyEnabled)
            | Some "" => (c, SpecifyEnabled)
            | Some enabled =>
                let guildConfig :=
                  with_reports (hourlyReportEnabled guildConfig)
                    (switched enabled (dailyReportEnabled guildConfig)) guildConfig in
                (saved schema i guildConfig c,
                 Daily (dailyReportEnabled guildConfig) (timezoneOr guildConfig))
            end
          else if bool_decide (action = Some "timezone") then
            match tz with
            | None => (c, SpecifyTimezone)
            | Some "" => (c, SpecifyTimezone)
            | Some tz =>
                if validTimezone tz
                then (saved schema i (with_timezone tz guildConfig) c, TimezoneSet tz)
                else (c, InvalidTimezone tz)
            end
          else (c, NoReply)
      end
  end.

(** What the scheduler sees of Discord: whether a guild and a channel of
    it are in the cache, and whether [channel.send] is rejected there. *)
Record Discord := mkDiscord {
  guildCached : string -> bool;
  channelCached : string -> string -> bool;
  sendRejected : string -> bool
}.

(** A message of reports sent to a channel of a guild. *)
Record Delivery := mkDelivery {
  toGuild : string;
  toChannel : string;
  embeds : list Report.Embed
}.

(** [sendHourlyReportToGuild] and [sendDailyReportToGuild], which differ
    by the generator they call: the delivery made, or none when the
    function returns early or ends in its [catch].  [storeUp] tells
    whether the store answers the generator; [window] is the period of
    the report. *)
Definition sendReportToGuild (daily : bool) (d : Discord) (storeUp : bool)
    (window : Z * Z) (guildConfig : GuildConfig) (streams : Mongoose.Collection)
    : option Delivery :=
  if negb (guildCached d (guildId guildConfig)) then None
  else
    match notificationChannelId guildConfig with
    | None => None
    | Some channel =>
        if negb (channelCached d (guildId guildConfig) channel) then None
        else
          let reportEmbeds :=
            (if daily then Report.generateDailyReport else Report.generateHourlyReport)
              storeUp (guildId guildConfig) (fst window) (snd window) streams in
          if sendRejected d (guildId guildConfig) then None
          else Some (mkDelivery (guildId guildConfig) channel reportEmbeds)
    end.

(** The query of [sendScheduledReports]: it is answered from the stored
    documents, whatever the schema declares.  The filter reaches the store
    as it is written: nothing in the repository sets [strictQuery], and
    without it Mongoose keeps the conditions on paths that the schema does
    not declare. *)
Definition selected (reportType : string) (g : GuildConfig) : bool :=
  match notificationChannelId g with
  | Some _ =>
      if bool_decide (reportType = "hourly") then hourlyReportEnabled g
      else if bool_decide (reportType = "daily") then dailyReportEnabled g
      else true
  | None => false
  end.

(** [sendScheduledReports]: the deliveries made, in order.  [storeUp]
    tells whether the store answers [GuildConfig.find], [streamsUp]
    whether it answers the generator of the report of a guild; [window]
    gives the period of the report of each guild. *)
Definition sendScheduledReports (d : Discord) (storeUp : bool)
    (streamsUp : string -> bool) (reportType : string)
    (window : string -> Z * Z) (c : Configs) (streams : Mongoose.Collection)
    : list Delivery :=
  if storeUp then
    let guilds := filter (fun g => selected reportType g = true) c in
    omap (fun guildConfig =>
            if bool_decide (reportType = "hourly") then
              sendReportToGuild false d (streamsUp (guildId guildConfig))
                (window (guildId guildConfig)) guildConfig streams
            else if bool_decide (reportType = "daily") then
              sendReportToGuild true d (streamsUp (guildId guildConfig))
                (window (guildId guildConfig)) guildConfig streams
            else None)
      guilds
  else [].

End Schedule.

(** ** The rate limits of the commands ([checkCommandLimit] and the
    functions around it) *)

Module RateLimit.

(** A value of [guildCooldowns] and of [cooldownCache.guilds]. *)
Record GuildLimit := mkGuildLimit {
  count : Z;
  resetTime : Z
}.

Record Cache := mkCache {
  lastPersisted : Z;
  users : gmap string (gmap string Z);
  guilds : gmap string GuildLimit
}.

(** The variables of the module. *)
Record State := mkState {
  userCooldowns : gmap string (gmap string Z);
  guildCooldowns : gmap string GuildLimit;
  cooldownCache : Cache
}.

(** The state when the module is loaded, at the time [loaded]. *)
Definition initial (loaded : Z) : State :=
  mkState ∅ ∅ (mkCache loaded ∅ ∅).

Definition MAX_GUILD_REQUESTS_PER_MINUTE : Z := 30.

Record Verdict := mkVerdict {
  isLimited : bool;
  remainingTime : Z;
  reason : option string
}.

(** The timer set by a call that is not limited: its delay, and the
    command and the user its callback is about. *)
Record Timer := mkTimer {
  delay : Z;
  timerCommand : string;
  timerUser : string
}.

(** [Math.ceil (ms / 1000)] *)
Definition ceilSeconds (ms : Z) : Z := - ((- ms) / 1000).

(** [cleanupCache] *)
Definition cleanupCache (now : Z) (cache : Cache) : Cache :=
  let users :=
    filter (fun kv => snd kv <> ∅)
      ((fun perUser : gmap string Z =>
          filter (fun kv => ~ (now - snd kv > 600000)) perUser) <$> users cache) in
  let guilds :=
    filter (fun kv => ~ (now > resetTime (snd kv))) (guilds cache) in
  mkCache (lastPersisted cache) users guilds.

(** A guild id that is given: neither [null] nor empty. *)
Definition given (guildId : option string) : option string :=
  match guildId with
  | Some g => if bool_decide (g = "") then None else Some g
  | None => None
  end.

(** [updateCooldownCache] *)
Definition updateCooldownCache (commandName userId : string) (timestamp : Z)
    (guildId : option string) (cache : Cache) : Cache :=
  let users :=
    <[commandName := <[userId := timestamp]> (default ∅ (users cache !! commandName))]>
      (users cache) in
  let guilds :=
    match given guildId with
    | Some g =>
        let entry := default (mkGuildLimit 0 (timestamp + 60000)) (guilds cache !! g) in
        <[g := mkGuildLimit (count entry + 1) (resetTime entry)]> (guilds cache)
    | None => guilds cache
    end in
  let cache := mkCache (lastPersisted cache) users guilds in
  if 300000 <? timestamp - lastPersisted cache then
    let cache := cleanupCache timestamp cache in
    mkCache timestamp (RateLimit.users cache) (RateLimit.guilds cache)
  else cache.

(** [checkCommandLimit], the clock reading [now]: the state it leaves,
    what it returns and the timer it sets.  [cooldownSeconds] is a whole
    number of seconds. *)
Definition checkCommandLimit (now : Z) (userId commandName : string)
    (cooldownSeconds : Z) (guildId : option string) (st : State)
    : State * Verdict * option Timer :=
  if bool_decide (userId = "") || bool_decide (commandName = "") then
    (st, mkVerdict true cooldownSeconds (Some "Invalid user or command information"),
     None)
  else
    let timestamps := default ∅ (userCooldowns st !! commandName) in
    let userCooldowns := <[commandName := timestamps]> (userCooldowns st) in
    let lastUsage := timestamps !! userId in
    let cooldownMs := cooldownSeconds * 1000 in
    let onCooldown :=
      match lastUsage with
      | Some lastUsage =>
          negb (lastUsage =? 0) && (now <? lastUsage + cooldownMs)
      | None => false
      end in
    if onCooldown then
      (mkState userCooldowns (guildCooldowns st) (cooldownCache st),
       mkVerdict true (ceilSeconds (default 0 lastUsage + cooldownMs - now))
         (Some "User cooldown"),
       None)
    else
      let accept guildCooldowns :=
        (mkState (<[commandName := <[userId := now]> timestamps]> userCooldowns)
           guildCooldowns
           (updateCooldownCache commandName userId now guildId (cooldownCache st)),
         mkVerdict false 0 None,
         Some (mkTimer cooldownMs commandName userId)) in
      match given guildId with
      | Some g =>
          let guildLimit :=
            default (mkGuildLimit 0 (now + 60000)) (guildCooldowns st !! g) in
          let guildLimit :=
            if resetTime guildLimit <? now then mkGuildLimit 0 (now + 60000)
            else guildLimit in
          if MAX_GUILD_REQUESTS_PER_MINUTE <=? count guildLimit then
            (mkState userCooldowns (<[g := guildLimit]> (guildCooldowns st))
               (cooldownCache st),
             mkVerdict true (ceilSeconds (resetTime guildLimit - now))
               (Some "Guild rate limit exceeded"),
             None)
          else
            accept (<[g := mkGuildLimit (count guildLimit + 1) (resetTime guildLimit)]>
                      (guildCooldowns st))
      | None => accept (guildCooldowns st)
      end.

(** The callback of the timer of a call: [timestamps] is the map of the
    command, which is never replaced once it is there. *)
Definition expire (commandName userId : string) (st : State) : State :=
  let cache := cooldownCache st in
  mkState
    (alter (delete userId) commandName (userCooldowns st))
    (guildCooldowns st)
    (match users cache !! commandName with
     | Some perUser =>
         match perUser !! userId with
         | Some timestamp =>
             if timestamp =? 0 then cache
             else mkCache (lastPersisted cache)
                    (<[commandName := delete userId perUser]> (users cache))
                    (guilds cache)
         | None => cache
         end
     | None => cache
     end).

(** [resetRateLimits] *)
Definition resetRateLimits (id : string) (isGuild : bool) (st : State) : State :=
  let cache := cooldownCache st in
  if isGuild then
    mkState (userCooldowns st) (delete id (guildCooldowns st))
      (mkCache (lastPersisted cache) (users cache) (delete id (guilds cache)))
  else
    mkState (delete id <$> userCooldowns st) (guildCooldowns st)
      (mkCache (lastPersisted cache)
         ((fun perUser : gmap string Z =>
             match perUser !! id with
             | Some timestamp => if timestamp =? 0 then perUser else delete id perUser
             | None => perUser
             end) <$> users cache)
         (guilds cache)).

(** [parseInt (process.env.X) || fallback]: [parsed] is the number
    [parseInt] reads, [None] when it reads none. *)
Definition parsedOr (parsed : option Z) (fallback : Z) : Z :=
  match parsed with
  | Some n => if n =? 0 then fallback else n
  | None => fallback
  end.

(** The numbers [parseInt] reads in the three variables of the
    environment. *)
Record Env := mkEnv {
  DEFAULT_COOLDOWN : option Z;
  ADMIN_COOLDOWN : option Z;
  STATS_COOLDOWN : option Z
}.

(** [getDefaultCooldown] *)
Definition getDefaultCooldown (env : Env) (commandName : string) : Z :=
  if bool_decide (commandName = "") then parsedOr (DEFAULT_COOLDOWN env) 3
  else if bool_decide (commandName ∈ ["reload"; "setprefix"; "setnoti"])
  then parsedOr (ADMIN_COOLDOWN env) 0
  else if bool_decide (commandName ∈ ["stats"; "leaderboard"])
  then parsedOr (STATS_COOLDOWN env) 5
  else parsedOr (DEFAULT_COOLDOWN env) 3.

End RateLimit.

(** ** The logger ([src/utils/logger.js]) *)

Module Logger.

Inductive Level := ERROR | WARN | INFO | DEBUG.

#[global] Instance Level_eq_dec : EqDecision Level.
Proof. solve_decision. Defined.

Definition LOG_LEVELS (level : Level) : Z :=
  match level with
  | ERROR => 0
  | WARN => 1
  | INFO => 2
  | DEBUG => 3
  end.

(** [LOG_LEVELS[name]], [None] for a name that is not a key. *)
Definition levelNamed (name : string) : option Z :=
  if bool_decide (name = "ERROR") then Some (LOG_LEVELS ERROR)
  else if bool_decide (name = "WARN") then Some (LOG_LEVELS WARN)
  else if bool_decide (name = "INFO") then Some (LOG_LEVELS INFO)
  else if bool_decide (name = "DEBUG") then Some (LOG_LEVELS DEBUG)
  else None.

(** The two variables of the environment that the module reads:
    [LOG_LEVEL_upper] is [process.env.LOG_LEVEL.toUpperCase ()], [None]
    when the variable is not set or is empty. *)
Record Env := mkEnv {
  LOG_LEVEL_upper : option string;
  DEBUG_variable : option string
}.

(** [process.env.DEBUG === 'true'] *)
Definition isDebugEnabled (env : Env) : bool :=
  bool_decide (DEBUG_variable env = Some "true").

(** [LOG_LEVELS[...] || LOG_LEVELS.INFO]: the level 0 counts as absent. *)
Definition currentLogLevel (env : Env) : Z :=
  match LOG_LEVEL_upper env with
  | Some name =>
      match levelNamed name with
      | Some n => if n =? 0 then LOG_LEVELS INFO else n
      | None => LOG_LEVELS INFO
      end
  | None => if isDebugEnabled env then LOG_LEVELS DEBUG else LOG_LEVELS INFO
  end.

Definition MAX_MEMORY_LOGS : nat := 100.

Inductive Sink := ErrorLog | CombinedLog | ConsoleError | ConsoleWarn | ConsoleLog.

Record Stats := mkStats {
  errors : Z;
  warnings : Z;
  infos : Z;
  debugs : Z
}.

Section WithMeta.
Variable Meta : Type.

(** An element of [memoryLogs.errors]. *)
Record Entry := mkEntry {
  timestamp : Z;
  message : string;
  meta : Meta
}.

(** A line written to a file or to the console, by what it is formatted
    from. *)
Record Line := mkLine {
  sink : Sink;
  lineLevel : Level;
  lineMessage : string;
  lineMeta : Meta
}.

(** [memoryLogs.errors] and [memoryLogs.stats], and the lines written so
    far, oldest first. *)
Record State := mkState {
  memoryErrors : list Entry;
  stats : Stats;
  written : list Line
}.

Definition initial : State := mkState [] (mkStats 0 0 0 0) [].

(** [unshift] followed by one [pop] when the array has grown beyond
    [MAX_MEMORY_LOGS]. *)
Definition remember (entry : Entry) (errors : list Entry) : list Entry :=
  let errors := entry :: errors in
  if (MAX_MEMORY_LOGS <? length errors)%nat then removelast errors else errors.

Definition console (level : Level) : Sink :=
  match level with
  | ERROR => ConsoleError
  | WARN => ConsoleWarn
  | INFO | DEBUG => ConsoleLog
  end.

(** [log (level, message, meta)], the clock reading [now]. *)
Definition log (env : Env) (now : Z) (level : Level) (message : string) (meta : Meta)
    (st : State) : State :=
  if currentLogLevel env <? LOG_LEVELS level then st
  else
    let line (s : Sink) : Line := mkLine s level message meta in
    let counts := stats st in
    let st :=
      match level with
      | ERROR =>
          mkState (remember (mkEntry now message meta) (memoryErrors st))
            (mkStats (errors counts + 1) (warnings counts) (infos counts) (debugs counts))
            (written st ++ if isDebugEnabled env then [line ErrorLog] else [])
      | WARN =>
          mkState (memoryErrors st)
            (mkStats (errors counts) (warnings counts + 1) (infos counts) (debugs counts))
            (written st)
      | INFO =>
          mkState (memoryErrors st)
            (mkStats (errors counts) (warnings counts) (infos counts + 1) (debugs counts))
            (written st)
      | DEBUG =>
          mkState (memoryErrors st)
            (mkStats (errors counts) (warnings counts) (infos counts) (debugs counts + 1))
            (written st)
      end in
    let st :=
      mkState (memoryErrors st) (stats st)
        (written st ++ if isDebugEnabled env then [line CombinedLog] else []) in
    mkState (memoryErrors st) (stats st)
      (written st ++
       if isDebugEnabled env || bool_decide (level = ERROR)
       then [line (console level)] else []).

(** [getRecentErrors] *)
Definition getRecentErrors (st : State) : list Entry := memoryErrors st.

End WithMeta.

Arguments mkEntry {Meta}.
Arguments timestamp {Meta}.
Arguments message {Meta}.
Arguments meta {Meta}.
Arguments mkLine {Meta}.
Arguments sink {Meta}.
Arguments lineLevel {Meta}.
Arguments lineMessage {Meta}.
Arguments lineMeta {Meta}.
Arguments mkState {Meta}.
Arguments memoryErrors {Meta}.
Arguments stats {Meta}.
Arguments written {Meta}.
Arguments initial {Meta}.
Arguments remember {Meta}.
Arguments log {Meta}.
Arguments getRecentErrors {Meta}.

End Logger.

(** ** The connection to the store ([src/config/database.js]) *)

Module Database.

Definition MAX_RECONNECT_ATTEMPTS : Z := 5.
Definition RECONNECT_INTERVAL : Z := 5000.

(** What a call of [connectDB] does, in order. *)
Inductive Action :=
| Connect (attempt : Z)
| SetupConnectionHandlers
| LogConnectionError
| Wait (ms : Z)
| LogMaximumReached
| Exit (code : Z).

(** How a call ends: the promise resolves with the connection, or the
    process exits; [OutOfFuel] when the recursion is cut. *)
Inductive Outcome := Resolved | Exited | OutOfFuel.

Record Run := mkRun {
  connectionAttempts : Z;
  actions : list Action;
  outcome : Outcome
}.

(** [connectDB], the counter [connectionAttempts] holding [attempts] when
    it is called; [connects n] tells whether [mongoose.connect] succeeds
    when the counter holds [n].  No event of the connection arrives
    meanwhile. *)
Fixpoint connectDB (fuel : nat) (connects : Z -> bool) (attempts : Z) : Run :=
  match fuel with
  | O => mkRun attempts [] OutOfFuel
  | S fuel =>
      let connectionAttempts := attempts + 1 in
      if connects connectionAttempts then
        mkRun connectionAttempts
          (Connect connectionAttempts
           :: if connectionAttempts =? 1 then [SetupConnectionHandlers] else [])
          Resolved
      else if connectionAttempts <? MAX_RECONNECT_ATTEMPTS then
        let again := connectDB fuel connects connectionAttempts in
        mkRun (Database.connectionAttempts again)
          (Connect connectionAttempts :: LogConnectionError
           :: Wait RECONNECT_INTERVAL :: actions again)
          (outcome again)
      else
        mkRun connectionAttempts
          [Connect connectionAttempts; LogConnectionError; LogMaximumReached; Exit 1]
          Exited
  end.

End Database.

(** ** The vocabulary of the statements *)

Module Spec.
Import Model Mongoose Tracker.

#[global] Instance Period_eq_dec : EqDecision Period.
Proof. solve_decision. Defined.

(** What an assignment leaves alone. *)
Definition identity (a : StreamActivity) : string * string * string * string :=
  (userId a, username a, guildId a, guildName a).

(** A document is coherent with the stored value [a0] it was read from
    when replaying its remembered assignments on [a0] gives its in-memory
    value. *)
Definition coherent (a0 : StreamActivity) (d : Document) : Prop :=
  this d = fold_left apply (modified d) a0.

(** [a'] has the identity, the sessions and the lifetime counters of [a]. *)
Definition untouched (a a' : StreamActivity) : Prop :=
  identity a' = identity a /\ streams a' = streams a /\
  totalStreams a' = totalStreams a /\ totalStreamTime a' = totalStreamTime a.

(** The total of period [p] once it exists. *)
Definition initialised (p : Period) (ps : Periods) (w : option PeriodTotal) : PeriodTotal :=
  match w with
  | Some w' => if missing w then mkPeriodTotal (tag p ps) 0 0 else w'
  | None => mkPeriodTotal (tag p ps) 0 0
  end.

(** ... once it is reset when its key is stale ... *)
Definition current (p : Period) (ps : Periods) (w : PeriodTotal) : PeriodTotal :=
  if bool_decide (periodKey w = tag p ps) then w
  else mkPeriodTotal (tag p ps) 0 0.

(** ... and once a closed session is added to it. *)
Definition accumulated (n : Z) (w : PeriodTotal) : PeriodTotal :=
  mkPeriodTotal (periodKey w) (totalMinutes w + n) (streamCount w + 1).

(** The session [s] as [endStream] closes it: at time [t], with [d]
    minutes. *)
Definition closeAt (t d : Z) (s : Stream) : Stream :=
  with_duration d (with_endTime t s).

(** The total of period [p] after [endStream] has added [n] minutes. *)
Definition rolled (p : Period) (ps : Periods) (n : Z) (w : option PeriodTotal) :=
  accumulated n (current p ps (initialised p ps w)).

(** The session [s] as [markStreamAsInterrupted] closes it. *)
Definition interruptAt (t d : Z) (s : Stream) : Stream :=
  with_duration d (with_endTime t (with_interrupted true s)).

(** One more session, no more minutes. *)
Definition counted (w : PeriodTotal) : PeriodTotal :=
  mkPeriodTotal (periodKey w) (totalMinutes w) (streamCount w + 1).

(** The session that [startStream] pushes. *)
Definition newStream (clk : Clock) (channelId channelName : string) : Stream :=
  mkStream (now clk) None channelId channelName 0
    (p_day (today clk)) (p_week (today clk)) (p_month (today clk))
    false None None.

(** The assignment that [initTotal] made through a copy whose total was
    [stale], replayed on [a]. *)
Definition replayInit (p : Period) (ps : Periods) (stale : option PeriodTotal)
    (a : StreamActivity) : StreamActivity :=
  if missing stale then with_total p (Some (mkPeriodTotal (tag p ps) 0 0)) a else a.

(** The session has an [endTime]. *)
Definition closed (s : Stream) : Prop := isOpen s = false.

(** Only the latest session may be open. *)
Definition onlyLatestOpen (a : StreamActivity) : Prop :=
  Forall closed (take (latestIndex a) (streams a)).

(** A session that contributes no minutes: still open, or interrupted. *)
Definition quiet (s : Stream) : Prop := isOpen s = true \/ interrupted s = true.

(** No minutes are recorded, in the lifetime total or in a rolling total. *)
Definition noMinutes (a : StreamActivity) : Prop :=
  totalStreamTime a = 0 /\
  forall p w, total p a = Some w -> totalMinutes w = 0.

(** What the tracker maintains of every aggregate: only the latest
    session may be open; the three rolling totals exist; an open session is
    not flagged [interrupted]; and as long as every session is open or
    interrupted, no minutes are recorded. *)
Record sound (a : StreamActivity) : Prop := mkSound {
  sound_latest : onlyLatestOpen a;
  sound_totals : forall p, is_Some (total p a);
  sound_open : Forall (fun s => isOpen s = true -> interrupted s = false) (streams a);
  sound_minutes : Forall quiet (streams a) -> noMinutes a
}.

(** The key of an aggregate. *)
Definition key (a : StreamActivity) : string * string := (userId a, guildId a).

(** One document per [(userId, guildId)], each of them sound. *)
Definition Inv (c : Collection) : Prop :=
  NoDup (key <$> c) /\ Forall sound c.

(** What [endStreamSession] leaves behind for the key it is called on. *)
Definition closedFrom (clk : Clock) (a1 a2 : StreamActivity) : Prop :=
  (Forall closed (streams a1) /\ a2 = a1) \/
  (exists l s,
      streams a1 = l ++ [s] /\ isOpen s = true /\
      streams a2 = l ++ [closeAt (now clk)
                           (Js.floor_div (now clk - startTime s) (1000 * 60)) s]).

(** The [duration] recorded on the key's latest session once
    [endStreamSession] has run. *)
Definition recordedDuration (clk : Clock) (uid gid : string) (c : Collection)
    : option Z :=
  match findOne uid gid (fst (endStreamSession clk uid gid c)) with
  | Some d => duration <$> latestStream (this d)
  | None => None
  end.

(** The clipping rule in the words of the specification:
    [max (0, round ((min (end ?? windowEnd, windowEnd) - max (start,
    windowStart)) / 1000))]. *)
Definition clippedDurationSeconds (windowStart windowEnd start : Z)
    (end_ : option Z) : Z :=
  Z.max 0 (Js.round_div
             (Z.min (default windowEnd end_) windowEnd - Z.max start windowStart)
             1000).

(** No session of guild [g] overlaps the window. *)
Definition noOverlap (g : string) (windowStart windowEnd : Z) (c : Collection) : bool :=
  forallb (fun a => negb (bool_decide (guildId a = g))
                    || forallb (fun s => negb (Report.overlaps windowStart windowEnd s))
                         (streams a)) c.

(** The number of sessions of a user's block. *)
Definition blockSize (b : string * Report.UserStreams) : Z :=
  Z.of_nat (length (Report.usStreams (snd b))).

(** The pagination rule in the words of the specification: the blocks of
    the users are placed in order; a new page begins exactly when the
    sessions on the current page have reached [MAX_STREAMS_PER_PAGE] and a
    user's block is to be placed.  [count] is the number of sessions on
    the page [current]. *)
Fixpoint pagesFrom (count : Z) (current rest : Report.UserMap)
    : list Report.UserMap :=
  match rest with
  | [] => match current with [] => [] | _ => [current] end
  | b :: rest' =>
      match current with
      | [] => pagesFrom (blockSize b) [b] rest'
      | _ =>
          if Report.MAX_STREAMS_PER_PAGE <=? count
          then current :: pagesFrom (blockSize b) [b] rest'
          else pagesFrom (count + blockSize b) (current ++ [b]) rest'
      end
  end.

(** The field that shows a user's whole block. *)
Definition fieldOf (b : string * Report.UserStreams) : Report.UserField :=
  Report.mkUserField (snd b) (Report.usStreams (snd b)).

(** A block of the report: the user is in [userStreams] under this id, is
    the one that the search by username finds, and has a session. *)
Definition listed (keys : list string) (users : Report.UserMap)
    (b : string * Report.UserStreams) : Prop :=
  Report.lookupUser users (fst b) = Some (snd b) /\
  Report.findByUsername keys users (Report.usUsername (snd b)) = Report.Id (fst b) /\
  Report.usStreams (snd b) <> [].

(** The state of the pagination loop between two blocks: [done] are the
    pages pushed, [cur] the blocks whose fields are on the current page,
    [last] the block held in [currentUserContent], [count] the sessions
    on the current page. *)
Definition between (st : Report.Loop) (done : list Report.UserMap)
    (cur : Report.UserMap) (last : string * Report.UserStreams) (count : Z)
    : Prop :=
  Report.pageFields <$> Report.embeds st = (fun bs => fieldOf <$> bs) <$> done /\
  (exists t s, Report.currentEmbed st = Some (Report.Page t s (fieldOf <$> cur))) /\
  Report.currentUserContent st = Report.usStreams (snd last) /\
  Report.currentUserId st = Report.Id (fst last) /\
  Report.streamsOnCurrentPage st = count.

(** Of a page: the users shown and how many sessions each field lists. *)
Definition pageShape (e : Report.Embed) : list (string * nat) :=
  (fun f => (Report.usUsername (Report.fieldUser f), length (Report.fieldStreams f)))
    <$> Report.pageFields e.

(** Each element is at least as large as every later one. *)
Definition descending {A} (key : A -> Z) : list A -> Prop :=
  StronglySorted (fun x y => key y <= key x).


(** What [markStreamAsInterrupted] makes of an aggregate: its latest
    session interrupted if it is open, the aggregate itself otherwise. *)
Definition interruptIfOpen (clk : Clock) (a : StreamActivity) : StreamActivity :=
  match latestStream a with
  | Some latest =>
      if isOpen latest then this (interruptLatest clk latest (mkDocument 0 a []))
      else a
  | None => a
  end.

(** The element of [getAllActiveStreams] that an aggregate gives rise to. *)
Definition activeOf (a : StreamActivity) : option Recovery.ActiveStream :=
  match latestStream a with
  | Some latest =>
      if isOpen latest then
        Some (Recovery.mkActiveStream (userId a) (username a) (guildId a)
                (guildName a) (channelId latest) (channelName latest)
                (startTime latest))
      else None
  | None => None
  end.

(** The three tests of the loop that lead to [markStreamAsInterrupted]. *)
Definition interrupts (env : Recovery.Env) (s : Recovery.ActiveStream) : bool :=
  negb (Recovery.guildCached env (Recovery.guildId s))
  || negb (Recovery.userFetched env (Recovery.userId s))
  || negb (Recovery.isCurrentlyStreaming env s).

(** What the pass makes of one aggregate when the store answers. *)
Definition recovered (env : Recovery.Env) (clk : Clock) (a : StreamActivity)
    : StreamActivity :=
  match activeOf a with
  | Some s => if interrupts env s then interruptIfOpen clk a else a
  | None => a
  end.

(** The member can be resolved and is streaming in channel [A] now. *)
Definition streamingIn (env : Recovery.Env) (uid gid A : string) : Prop :=
  Recovery.guildCached env gid = true /\
  Recovery.userFetched env uid = true /\
  exists voice,
    Recovery.memberVoice env gid uid = Some voice /\
    Recovery.voiceChannelId voice = Some A /\
    Recovery.streaming voice = true.

(** Some stream of [L] of the key of [b] leads to [markStreamAsInterrupted]. *)
Definition touched (env : Recovery.Env) (L : list Recovery.ActiveStream)
    (b : StreamActivity) : bool :=
  existsb (fun s => bool_decide ((Recovery.userId s, Recovery.guildId s) = key b)
                    && interrupts env s) L.

(** The users whose latest session is open. *)
Definition openKeys (c : Collection) : list string :=
  omap (fun a => if bool_decide (activeOf a = None) then None else Some (userId a)) c.

End Spec.

(** ** Scenarios *)

Import Model Mongoose Tracker Spec.

(** Values used to exercise the statements below. *)
Definition apr29 (t : Z) : Clock := mkClock t (mkPeriods "2025-04-29" "2025-18" "2025-04").
Definition apr30 (t : Z) : Clock := mkClock t (mkPeriods "2025-04-30" "2025-18" "2025-04").

(** One user who went live in channel ["A"] on 29 April. *)
Definition oneLive : list Op :=
  [StartSession (apr29 0) (apr29 0) (apr29 0) "u1" "Ann" "g" "Guild" "A" "General"].

(** What the store holds then. *)
Definition oneLiveSession : Stream :=
  mkStream 0 None "A" "General" 0 "2025-04-29" "2025-18" "2025-04" false None None.

Definition oneLiveActivity : StreamActivity :=
  mkStreamActivity "u1" "Ann" "g" "Guild" [oneLiveSession]
    (Some (mkPeriodTotal "2025-04-29" 0 0))
    (Some (mkPeriodTotal "2025-18" 0 0))
    (Some (mkPeriodTotal "2025-04" 0 0)) 0 0 0.

(** Ann streamed for seven minutes on 29 April and went live again the
    same day, eight minutes after midnight. *)
Definition stalePast : list Op :=
  [StartSession (apr29 0) (apr29 0) (apr29 0) "u1" "Ann" "g" "Guild" "A" "General";
   EndSession (apr29 420000) "u1" "g";
   StartSession (apr29 480000) (apr29 480000) (apr29 480000)
     "u1" "Ann" "g" "Guild" "A" "General"].

(** What the store holds then: the three totals hold the seven minutes
    and the one stream of 29 April. *)
Definition staleSession : Stream :=
  mkStream 480000 None "A" "General" 0 "2025-04-29" "2025-18" "2025-04"
    false None None.

Definition staleActivity : StreamActivity :=
  mkStreamActivity "u1" "Ann" "g" "Guild"
    [mkStream 0 (Some 420000) "A" "General" 7 "2025-04-29" "2025-18" "2025-04"
       false None None;
     staleSession]
    (Some (mkPeriodTotal "2025-04-29" 7 1))
    (Some (mkPeriodTotal "2025-18" 7 1))
    (Some (mkPeriodTotal "2025-04" 7 1)) 1 7 480000.

(** Times of day on 1 January 2025, in milliseconds since midnight. *)
Definition jan1 (t : Z) : Clock := mkClock t (mkPeriods "2025-01-01" "2025-01" "2025-01").
Definition t10_00 : Z := 36000000.
Definition t10_50 : Z := 39000000.
Definition t11_00 : Z := 39600000.
Definition t11_10 : Z := 40200000.
Definition t12_00 : Z := 43200000.

(** A session from 10:50 to 11:10, recorded by the tracker. *)
Definition straddling : Collection :=
  run [StartSession (jan1 t10_50) (jan1 t10_50) (jan1 t10_50)
         "u1" "Ann" "g" "Guild" "A" "General";
       EndSession (jan1 t11_10) "u1" "g"] [].

(** The same session as the reports of that morning see it. *)
Definition straddlingStreams : list Report.ProcessedStream :=
  Report.processStreams t10_00 t12_00 straddling.

(** One hour of 1 January 2025 in guild ["g"]: Bob streams once, then Ann
    goes live eight times in a row. *)
Definition minute (n : Z) : Clock := jan1 (n * 60000).

Definition busyHour : Collection :=
  run ([StartSession (minute 1) (minute 1) (minute 1)
          "u2" "Bob" "g" "Guild" "A" "General";
        EndSession (minute 2) "u2" "g"]
       ++ ((fun n => StartSession (minute n) (minute n) (minute n)
                       "u1" "Ann" "g" "Guild" "A" "General")
             <$> [3; 4; 5; 6; 7; 8; 9; 10])
       ++ [EndSession (minute 11) "u1" "g"]) [].

(** What the report has built when it reaches the pagination. *)
Definition busyHourGroup : Report.UserMap * Report.Totals :=
  Report.group 0 3600000
    (Js.sortDesc Report.startTime (Report.processStreams 0 3600000 busyHour)).

Definition busyHourUsers : Report.UserMap := fst busyHourGroup.

Definition busyHourSummary : Report.Summary :=
  Report.mkSummary (Report.totalStreamCount (snd busyHourGroup))
    (Report.incompleteStreamCount (snd busyHourGroup))
    (Report.totalStreamTime (snd busyHourGroup)) (length busyHourUsers).

(** Two users of guild ["g"]: Ann's only session was interrupted, Bob
    streamed for two minutes. *)
Definition annInterrupted : list Op :=
  [StartSession (minute 1) (minute 1) (minute 1) "u1" "Ann" "g" "Guild" "A" "General";
   MarkInterrupted (minute 30) "u1" "g";
   StartSession (minute 31) (minute 31) (minute 31) "u2" "Bob" "g" "Guild" "A" "General";
   EndSession (minute 33) "u2" "g"].

(** Ann's aggregate in that store. *)
Definition annActivity : StreamActivity :=
  mkStreamActivity "u1" "Ann" "g" "Guild"
    [mkStream 60000 (Some 1800000) "A" "General" 29
       "2025-01-01" "2025-01" "2025-01" true None None]
    (Some (mkPeriodTotal "2025-01-01" 0 1))
    (Some (mkPeriodTotal "2025-01" 0 1))
    (Some (mkPeriodTotal "2025-01" 0 1)) 1 0 1800000.

(** Ann's session was recorded in channel ["A"]; the guild and both
    members can be resolved; every member is now streaming in ["B"]. *)
Definition movedToB : Recovery.Env :=
  Recovery.mkEnv true (fun _ => true) (fun _ => true)
    (fun _ _ => Some (Recovery.mkVoiceState (Some "B") true))
    (fun _ _ => false).

(** The same, every member still streaming in ["A"]. *)
Definition stillInA : Recovery.Env :=
  Recovery.mkEnv true (fun _ => true) (fun _ => true)
    (fun _ _ => Some (Recovery.mkVoiceState (Some "A") true))
    (fun _ _ => false).

(** Two users of guild ["g"] were live when the process stopped. *)
Definition twoLive : Collection :=
  run [StartSession (minute 1) (minute 1) (minute 1)
         "u1" "Ann" "g" "Guild" "A" "General";
       StartSession (minute 2) (minute 2) (minute 2)
         "u2" "Bob" "g" "Guild" "A" "General"] [].

(** At restart nobody is in a voice channel; the store rejects the calls
    made for the keys that [rejected] holds. *)
Definition nobodyLive (rejected : string -> string -> bool) : Recovery.Env :=
  Recovery.mkEnv true (fun _ => true) (fun _ => true)
    (fun _ _ => Some (Recovery.mkVoiceState None false)) rejected.

(** The member of one user cannot be fetched. *)
Definition unresolved (uid : string) : Recovery.Env :=
  Recovery.mkEnv true (fun _ => true) (fun _ => true)
    (fun _ u => if bool_decide (u = uid) then None
                else Some (Recovery.mkVoiceState None false))
    (fun _ _ => false).

(** ** The vocabulary of the further statements *)

Module Laws.
Import Model Mongoose Tracker Spec.

Definition sumZ (l : list Z) : Z := foldr Z.add 0 l.

(** The sessions of an aggregate that have an [endTime]. *)
Definition ended (a : StreamActivity) : list Stream :=
  filter (fun s => isOpen s = false) (streams a).

(** The minutes recorded on those of the sessions [l] that were not
    interrupted. *)
Definition completedMinutes (l : list Stream) : Z :=
  sumZ (duration <$> filter (fun s => interrupted s = false) l).

(** The lifetime counters of an aggregate account for its sessions: one
    stream per ended session, and the minutes of the ended sessions that
    were not interrupted. *)
Definition accounted (a : StreamActivity) : Prop :=
  totalStreams a = Z.of_nat (length (ended a)) /\
  totalStreamTime a = completedMinutes (ended a).

(** The minutes that a history shows: an interrupted entry shows none. *)
Definition minutesShown (h : list Queries.HistoryEntry) : Z :=
  sumZ ((fun e => default 0 (Queries.he_duration e)) <$> h).

(** The ended sessions recorded for a key. *)
Definition endedOf (uid gid : string) (c : Collection) : list Stream :=
  match findOne uid gid c with
  | Some d => ended (this d)
  | None => []
  end.

(** What an entry of the history shows of a session: an interrupted one
    shows neither end nor duration, another one shows both. *)
Definition wellShown (e : Queries.HistoryEntry) : Prop :=
  if Queries.he_interrupted e
  then Queries.he_endTime e = None /\ Queries.he_duration e = None
  else is_Some (Queries.he_endTime e) /\ is_Some (Queries.he_duration e).

(** The key that a tracker call is made for. *)
Definition opKey (o : Op) : string * string :=
  match o with
  | StartSession _ _ _ uid _ gid _ _ _ => (uid, gid)
  | EndSession _ uid gid => (uid, gid)
  | MarkInterrupted _ uid gid => (uid, gid)
  end.

(** An aggregate whose latest session carries the ids of its
    notification. *)
Definition notified (messageId channelId : string) (a : StreamActivity)
    : StreamActivity :=
  with_streams
    (alter (Queries.with_notification messageId channelId) (latestIndex a)
       (streams a)) a.

(** What [getStreamNotificationId] reads from a session. *)
Definition notificationOf (s : Stream) : option (string * string) :=
  match notificationMessageId s, notificationChannelId s with
  | Some messageId, Some channelId =>
      if negb (bool_decide (messageId = "")) && negb (bool_decide (channelId = ""))
      then Some (messageId, channelId)
      else None
  | _, _ => None
  end.

(** A call that writes to the collection of aggregates: one of the three
    tracker calls, [getOrCreateStreamActivity], or
    [saveStreamNotificationId]. *)
Inductive Call :=
| Track (o : Op)
| Ensure (clk : Clock) (uid uname gid gname : string)
| SaveNotification (uid gid messageId channelId : string).

Definition perform (c : Collection) (k : Call) : Collection :=
  match k with
  | Track o => step c o
  | Ensure clk uid uname gid gname =>
      fst (getOrCreateStreamActivity clk uid uname gid gname c)
  | SaveNotification uid gid messageId channelId =>
      fst (Queries.saveStreamNotificationId uid gid messageId channelId c)
  end.

(** The collection after the calls [calls], in this order, on the empty
    collection. *)
Definition reach (calls : list Call) : Collection := fold_left perform calls [].

Definition callKey (k : Call) : string * string :=
  match k with
  | Track o => opKey o
  | Ensure _ uid _ gid _ => (uid, gid)
  | SaveNotification uid gid _ _ => (uid, gid)
  end.

(** What stays of a session whatever happens to it later: its start and
    its channel, and the whole session once it has ended. *)
Definition sameSession (s s' : Stream) : Prop :=
  startTime s' = startTime s /\ channelId s' = channelId s /\
  channelName s' = channelName s /\ day s' = day s /\
  (isOpen s = false -> s' = s).

(** [a'] is a later state of the aggregate [a]: the same user and guild
    under the same names, and the sessions of [a] at their places. *)
Definition laterOf (a a' : StreamActivity) : Prop :=
  identity a' = identity a /\
  forall j s, streams a !! j = Some s ->
              exists s', streams a' !! j = Some s' /\ sameSession s s'.

(** Two calls of [startStreamSession] for one user of a guild that are in
    progress together, as the handlers of two voice-state updates make
    them: the steps of the two calls are taken in turn at their [await]s.
    Both calls read (or create) the aggregate, both run their
    [endStreamSession], and each then adds its session and saves through
    the copy it has read at first.  The clock readings are those of the
    steps. *)
Definition startedTogether
    (clkNew1 clkNew2 clkEnd1 clkEnd2 clkStart1 clkStart2 : Clock)
    (uid uname gid gname ch1 chn1 ch2 chn2 : string) (c : Collection) : Collection :=
  let '(c, first) := getOrCreateStreamActivity clkNew1 uid uname gid gname c in
  let '(c, second) := getOrCreateStreamActivity clkNew2 uid uname gid gname c in
  let '(c, _) := endStreamSession clkEnd1 uid gid c in
  let '(c, _) := endStreamSession clkEnd2 uid gid c in
  let '(c, _) := save (startStream clkStart1 ch1 chn1 first) c in
  fst (save (startStream clkStart2 ch2 chn2 second) c).

(** The key has a session in progress: its latest session is open. *)
Definition live (uid gid : string) (c : Collection) : Prop :=
  exists d s, findOne uid gid c = Some d /\ latestStream (this d) = Some s /\
              isOpen s = true.

(** The row of buttons that goes with page [i] of [n] pages: the two
    buttons that go back are disabled on the first page, the two that go
    forward on the last, and the label counts pages from 1. *)
Definition rowFor (n i : nat) : Paginator.Row :=
  Paginator.mkRow (bool_decide (i = 0%nat)) (bool_decide (i = 0%nat))
    (Z.of_nat i + 1, n)
    (bool_decide (S i = n)) (bool_decide (S i = n)).

(** The message shows one of the pages, with the buttons for that page
    or without buttons. *)
Definition showsPage {E} (pages : list E) (m : Paginator.Message E) : Prop :=
  exists i p,
    pages !! i = Some p /\ Paginator.embed m = Some p /\
    (Paginator.components m = None \/
     Paginator.components m = Some (rowFor (length pages) i)).

(** The update is about the member [m], who is not a bot, and the ids
    of the voice channels it names are not empty. *)
Definition human (u : Bot.Update) (m : Bot.Member) : Prop :=
  Bot.oldMember u = Some m /\ Bot.newMember u = Some m /\ Bot.isBot m = false /\
  Bot.channelId (Bot.oldState u) <> Some "" /\
  Bot.channelId (Bot.newState u) <> Some "".

(** The settings send the notifications of guild [gid] to the channel
    [n], which Discord [d] has in its cache. *)
Definition notifies (settings : Config.Configs) (d : Bot.Discord) (gid n : string)
    : Prop :=
  Config.isStreamTrackingEnabled gid settings = true /\
  Config.getNotificationChannel gid settings = Some n /\
  n <> "" /\ Bot.channelCached d gid n = true.

(** The channel that a message of the bot goes to. *)
Definition channelOf (o : Bot.Outgoing) : string :=
  match o with
  | Bot.Sent channel _ _ => channel
  | Bot.Replied channel _ _ _ => channel
  end.

(** The message goes where the settings of the guild send the
    notifications: the guild has not switched them off, and the channel
    is the one it has set, which is in the cache. *)
Definition allowed (settings : Config.Configs) (d : Bot.Discord) (gid : string)
    (o : Bot.Outgoing) : Prop :=
  Config.isStreamTrackingEnabled gid settings = true /\
  Config.getNotificationChannel gid settings = Some (channelOf o) /\
  Bot.channelCached d gid (channelOf o) = true.

(** What is shown for a whole number of minutes. *)
Definition shown (m : Z) : string :=
  if m <? 1 then "0m"
  else if m / 60 =? 0 then pretty (m mod 60) +:+ "m"
  else if m mod 60 =? 0 then pretty (m / 60) +:+ "h"
  else pretty (m / 60) +:+ "h " +:+ pretty (m mod 60) +:+ "m".

Import Stdlib.Strings.Ascii.

(** The characters of a text. *)
Fixpoint chars (s : string) : list ascii :=
  match s with
  | EmptyString => []
  | String c s' => c :: chars s'
  end.

(** A text without the letter that ends the hours. *)
Definition plain (s : string) : Prop :=
  Forall (fun c => c <> "h"%char) (chars s).

End Laws.

(** ** The settings of the guilds *)

Module Settings.
Import Config.

(** What the three getters of [configUtils] answer for a guild. *)
Record Answers := mkAnswers {
  thePrefix : string;
  tracking : bool;
  theChannel : option string
}.

Definition answers (env : option string) (gid : string) (c : Configs) : Answers :=
  mkAnswers (getGuildPrefix env gid c) (isStreamTrackingEnabled gid c)
    (getNotificationChannel gid c).

(** The prefix read back after [p] was stored. *)
Definition prefixRead (env : option string) (p : string) : string :=
  if bool_decide (p = "") then defaultPrefix env else p.

(** The calls that write the collection of the settings; a call of the
    [setreport] command comes with the copy of the schema that the process
    that runs it has loaded. *)
Inductive Change :=
| GetOrCreate (now : Z) (gid : string) (gname : option string)
| SetNotificationChannel (now : Z) (gid channelId : string)
| SetGuildPrefix (now : Z) (gid prefix : string)
| ToggleStreamTracking (now : Z) (gid : string) (trackStreamActivity : bool)
| SetReport (schema : Schema) (validTimezone : string -> bool) (gid : string)
    (action enabled tz : option string).

Definition perform (env : option string) (c : Configs) (x : Change) : Configs :=
  match x with
  | GetOrCreate now gid gname =>
      match getOrCreateGuildConfig env now gid gname c with
      | Js.Ok (c', _) => c'
      | Js.Throw _ => c
      end
  | SetNotificationChannel now gid channelId =>
      fst (setNotificationChannel env now gid channelId c)
  | SetGuildPrefix now gid p => fst (setGuildPrefix env now gid p c)
  | ToggleStreamTracking now gid b => fst (toggleStreamTracking env now gid b c)
  | SetReport schema validTimezone gid action enabled tz =>
      fst (Schedule.execute schema validTimezone gid action enabled tz c)
  end.

(** The collection after a sequence of calls on the empty one. *)
Definition reach (env : option string) (changes : list Change) : Configs :=
  fold_left (perform env) changes [].

(** One configuration for a guild, with the id and the name of a guild. *)
Definition wellFormed (c : Configs) : Prop :=
  NoDup (guildId <$> c) /\
  Forall (fun g => guildId g <> "" /\ guildName g <> "") c.

(** The flag that switches the reports of a type on. *)
Definition enabledFor (reportType : string) (g : GuildConfig) : bool :=
  if bool_decide (reportType = "hourly") then hourlyReportEnabled g
  else if bool_decide (reportType = "daily") then dailyReportEnabled g
  else false.

(** The messages of the scheduler that go to a guild, and the others. *)
Definition toThe (gid : string) (sent : list Schedule.Delivery) :=
  filter (fun m => Schedule.toGuild m = gid) sent.

Definition toOthers (gid : string) (sent : list Schedule.Delivery) :=
  filter (fun m => Schedule.toGuild m <> gid) sent.

(** The scheduler can reach the channel [ch] of the guild [gid]. *)
Definition reachable (d : Schedule.Discord) (gid ch : string) : bool :=
  Schedule.guildCached d gid && Schedule.channelCached d gid ch
  && negb (Schedule.sendRejected d gid).

(** The guild has a notification channel, so that [setreport] goes on to
    its action. *)
Definition ready (gid : string) (c : Configs) : Prop :=
  exists ch, getNotificationChannel gid c = Some ch /\ ch <> "".

(** No call was made by a process whose schema declares the report
    settings. *)
Definition sixPathsOnly (changes : list Change) : Prop :=
  Forall (fun x => match x with
                   | SetReport WithReportSettings _ _ _ _ _ => False
                   | _ => True
                   end) changes.

(** No report is switched on in a stored configuration. *)
Definition reportsOff (c : Configs) : Prop :=
  Forall (fun g => hourlyReportEnabled g = false /\ dailyReportEnabled g = false) c.

(** What [sendScheduledReports] does with one configuration. *)
Definition deliver (d : Schedule.Discord) (streamsUp : string -> bool) (reportType : string)
    (window : string -> Z * Z) (streams : Mongoose.Collection) (g : GuildConfig)
    : option Schedule.Delivery :=
  if Schedule.selected reportType g then
    if bool_decide (reportType = "hourly") then
      Schedule.sendReportToGuild false d (streamsUp (guildId g)) (window (guildId g)) g streams
    else if bool_decide (reportType = "daily") then
      Schedule.sendReportToGuild true d (streamsUp (guildId g)) (window (guildId g)) g streams
    else None
  else None.

End Settings.

(** ** The rate limits over time *)

Module Limits.
Import RateLimit.

(** What happens to the state of the rate limits: a call of
    [checkCommandLimit], the callback of a timer it has set, and a call
    of [resetRateLimits]. *)
Inductive Event :=
| Check (now : Z) (userId commandName : string) (cooldownSeconds : Z)
    (guildId : option string)
| Expire (commandName userId : string)
| Reset (id : string) (isGuild : bool).

Definition step (st : State) (e : Event) : State * option Verdict :=
  match e with
  | Check now userId commandName cooldownSeconds guildId =>
      let r := checkCommandLimit now userId commandName cooldownSeconds guildId st in
      (r.1.1, Some r.1.2)
  | Expire commandName userId => (expire commandName userId st, None)
  | Reset id isGuild => (resetRateLimits id isGuild st, None)
  end.

(** The state after the events, and the calls that were not limited,
    oldest first. *)
Fixpoint run (events : list Event) (st : State) : State * list Event :=
  match events with
  | [] => (st, [])
  | e :: rest =>
      let '(st, verdict) := step st e in
      let '(st, passed) := run rest st in
      (st,
       match verdict with
       | Some v => if isLimited v then passed else e :: passed
       | None => passed
       end)
  end.

(** A call made in the guild [g]. *)
Definition inGuild (g : string) (e : Event) : bool :=
  match e with
  | Check _ _ _ _ guildId => bool_decide (given guildId = Some g)
  | _ => false
  end.

(** The calls made in the guild [g] read the clock within the minute
    that starts at [t], and the limits of [g] are not reset. *)
Definition withinMinute (g : string) (t : Z) (e : Event) : Prop :=
  match e with
  | Check now _ _ _ guildId => given guildId = Some g -> t <= now <= t + 60000
  | Expire _ _ => True
  | Reset id isGuild => isGuild = true -> id <> g
  end.

(** The calls the entry of the guild [g] still lets through. *)
Definition room (g : string) (st : State) : Z :=
  match guildCooldowns st !! g with
  | Some guildLimit => MAX_GUILD_REQUESTS_PER_MINUTE - count guildLimit
  | None => MAX_GUILD_REQUESTS_PER_MINUTE
  end.

(** The entry of the guild [g], if there is one, is not reset within the
    minute that starts at [t], and has not gone over the limit. *)
Definition minuteOpen (g : string) (t : Z) (st : State) : Prop :=
  match guildCooldowns st !! g with
  | Some guildLimit =>
      t + 60000 <= resetTime guildLimit /\
      count guildLimit <= MAX_GUILD_REQUESTS_PER_MINUTE
  | None => True
  end.

(** [userCooldowns.get (commandName)?.get (userId)] *)
Definition lastUsage (userId commandName : string) (st : State) : option Z :=
  match userCooldowns st !! commandName with
  | Some timestamps => timestamps !! userId
  | None => None
  end.

(** The event is not about the command [commandName] of the user
    [userId]. *)
Definition leaves (userId commandName : string) (e : Event) : Prop :=
  match e with
  | Check _ u c _ _ => u <> userId \/ c <> commandName
  | Expire c u => u <> userId \/ c <> commandName
  | Reset id isGuild => isGuild = true \/ id <> userId
  end.

End Limits.

(** ** The log over time *)

Module Logs.
Import Logger.

Section WithMeta.
Variable Meta : Type.

(** A call of [log]: the time, and the three arguments. *)
Record Call := mkCall {
  at_ : Z;
  level : Level;
  text : string;
  about : Meta
}.

(** The state after the calls, from the start of the module. *)
Definition after (env : Env) (calls : list Call) : State Meta :=
  fold_left (fun st c => log env (at_ c) (level c) (text c) (about c) st)
    calls initial.

(** The calls made at a level. *)
Definition atLevel (l : Level) (calls : list Call) : list Call :=
  filter (fun c => level c = l) calls.

Definition entryOf (c : Call) : Entry Meta :=
  mkEntry (at_ c) (text c) (about c).

(** The level is one the module processes. *)
Definition processed (env : Env) (l : Level) : bool :=
  LOG_LEVELS l <=? currentLogLevel env.

(** The number of calls counted at a level. *)
Definition counted (env : Env) (l : Level) (calls : list Call) : Z :=
  if processed env l then Z.of_nat (length (atLevel l calls)) else 0.

End WithMeta.

Arguments mkCall {Meta}.
Arguments at_ {Meta}.
Arguments level {Meta}.
Arguments text {Meta}.
Arguments about {Meta}.
Arguments after {Meta}.
Arguments atLevel {Meta}.
Arguments entryOf {Meta}.
Arguments counted {Meta}.

End Logs.

(** ** The attempts to connect *)

Module Connecting.
Import Database.

(** The attempts made, and the time spent waiting. *)
Definition attemptsOf (actions : list Action) : list Z :=
  omap (fun a => match a with Connect n => Some n | _ => None end) actions.

Definition waited (actions : list Action) : Z :=
  foldr Z.add 0
    (omap (fun a => match a with Wait ms => Some ms | _ => None end) actions).

(** The first of the attempts 1 to 5 at which the store can be reached. *)
Definition firstSuccess (connects : Z -> bool) : option Z :=
  snd <$> list_find (fun n => connects n = true) (seqZ 1 MAX_RECONNECT_ATTEMPTS).

End Connecting.

(** ** The window of a report and the grouping *)

Module Windows.
Import Model.

(** A session ends no earlier than it starts. *)
Definition orderly (s : Stream) : Prop :=
  forall e, endTime s = Some e -> startTime s <= e.

(** The session, from its start to its end (or without end while it is
    open), meets the window, both ends included. *)
Definition meets (windowStart windowEnd : Z) (s : Stream) : Prop :=
  startTime s <= windowEnd /\ forall e, endTime s = Some e -> windowStart <= e.

(** The identity under which a processed stream is remembered. *)
Definition idOf (p : Report.ProcessedStream) : Report.StreamId :=
  (Report.userId p, (Report.startTime p, Report.channelId p)).

(** The processed streams of a user. *)
Definition mine (id : string) (processed : list Report.ProcessedStream)
    : list Report.ProcessedStream :=
  filter (fun p => Report.userId p = id) processed.

(** The line of a processed stream in the report of a window. *)
Definition streamOf (windowStart windowEnd : Z) (p : Report.ProcessedStream)
    : Report.ReportStream :=
  Report.mkReportStream (Report.channelId p) (Report.channelName p)
    (Report.startTime p) (Report.endTime p)
    (Report.durationSec windowStart windowEnd p)
    (Report.interrupted p) (Report.isIncomplete p).

Definition seconds (windowStart windowEnd : Z)
    (processed : list Report.ProcessedStream) : Z :=
  foldr Z.add 0 (Report.durationSec windowStart windowEnd <$> processed).

Definition incomplete (processed : list Report.ProcessedStream) : Z :=
  Z.of_nat (length (filter (fun p => Report.isIncomplete p = true) processed)).

(** The block of a user whose processed streams are [ps], under the name
    [name]. *)
Definition blockOf (windowStart windowEnd : Z) (name : string)
    (ps : list Report.ProcessedStream) : Report.UserStreams :=
  Report.mkUserStreams name (Z.of_nat (length ps))
    (seconds windowStart windowEnd ps) (incomplete ps)
    (streamOf windowStart windowEnd <$> ps).

(** The block is the one of the processed streams of the user, under the
    name of the first of them. *)
Definition groups (windowStart windowEnd : Z)
    (processed : list Report.ProcessedStream)
    (kv : string * Report.UserStreams) : Prop :=
  exists first rest,
    mine (fst kv) processed = first :: rest /\
    snd kv = blockOf windowStart windowEnd (Report.username first) (first :: rest).

End Windows.

(** ** Further scenarios *)

(** Guild ["g"] sends its notifications to the channel ["n"]. *)
Definition gSettings : Config.Configs :=
  [Config.mkGuildConfig "g" "Guild" "!" (Some "n") true 0 false false "UTC"].

(** Discord with every channel in the cache and every message at hand;
    the messages of the bot get the ids ["m0"], ["m1"], ... *)
Definition discord : Bot.Discord :=
  Bot.mkDiscord (fun _ _ => true) (fun k => "m" +:+ pretty k) (fun _ _ => true).

Definition ann : Bot.Member := Bot.mkMember "u1" "Ann" false.

(** All the calls of one update read the clock at [t] on 29 April. *)
Definition ticksAt (t : Z) : Bot.Ticks :=
  Bot.mkTicks (apr29 t) (apr29 t) (apr29 t) (apr29 t).

Definition inGeneral (streaming : bool) : Bot.Voice :=
  Bot.mkVoice streaming (Some ("A", Some "General")).

(** Ann goes live in ["General"], and stops. *)
Definition annStarts : Bot.Update :=
  Bot.mkUpdate "g" "Guild" (Some ann) (Some ann) (inGeneral false) (inGeneral true).

(** Thirty-one users of the guild ["g"] ask for their statistics in the
    same second. *)
Definition burst : list Limits.Event :=
  (fun k : nat => Limits.Check 1000 ("u" +:+ pretty k) "stats" 5 (Some "g")) <$> seq 0 31.

(** The guild ["g"] is met and sets the channel ["n"] for its
    notifications. *)
Definition gChanges : list Settings.Change :=
  [Settings.GetOrCreate 0 "g" (Some "Guild");
   Settings.SetNotificationChannel 1 "g" "n"].

(** Discord with every guild and channel in the cache, accepting every
    message. *)
Definition everywhere : Schedule.Discord :=
  Schedule.mkDiscord (fun _ => true) (fun _ _ => true) (fun _ => false).

Definition annStops : Bot.Update :=
  Bot.mkUpdate "g" "Guild" (Some ann) (Some ann) (inGeneral true) (inGeneral false).

(** ** Facts about documents *)

Module DocFacts.

Lemma apply_identity a u : identity (apply a u) = identity a.
Proof. destruct u; reflexivity. Qed.

Lemma total_with_total p q w a :
  total q (with_total p w a) = if decide (p = q) then w else total q a.
Proof. destruct p, q; reflexivity. Qed.

Lemma coherent_assign a0 u d : coherent a0 d -> coherent a0 (assign u d).
Proof.
  unfold coherent, assign; simpl; intros ->.
  rewrite fold_left_app. reflexivity.
Qed.

Lemma coherent_initTotal a0 p ps d : coherent a0 d -> coherent a0 (initTotal p ps d).
Proof. unfold initTotal. destruct (missing _); auto using coherent_assign. Qed.

Lemma coherent_resetTotal a0 p ps d : coherent a0 d -> coherent a0 (resetTotal p ps d).
Proof.
  unfold resetTotal. destruct (total _ _); [|auto].
  case_bool_decide; auto using coherent_assign.
Qed.

Lemma coherent_addToTotal a0 p n d : coherent a0 d -> coherent a0 (addToTotal p n d).
Proof. unfold addToTotal. auto using coherent_assign. Qed.

Lemma coherent_countOnly a0 p d : coherent a0 d -> coherent a0 (countOnly p d).
Proof. unfold countOnly. destruct (total _ _); auto using coherent_assign. Qed.

Lemma coherent_addTotalStreamTime a0 n d :
  coherent a0 d -> coherent a0 (addTotalStreamTime n d).
Proof. apply coherent_assign. Qed.

Lemma coherent_incTotalStreams a0 d : coherent a0 d -> coherent a0 (incTotalStreams d).
Proof. apply coherent_assign. Qed.

Create HintDb doc.

#[global] Hint Resolve coherent_assign coherent_initTotal coherent_resetTotal
  coherent_addToTotal coherent_countOnly coherent_addTotalStreamTime
  coherent_incTotalStreams : doc.

Lemma coherent_startStream a0 clk ch chn d :
  coherent a0 d -> coherent a0 (startStream clk ch chn d).
Proof. intros H. unfold startStream. cbv zeta. auto 20 with doc. Qed.

Lemma coherent_endStream a0 clk d : coherent a0 d -> coherent a0 (endStream clk d).
Proof.
  intros H. unfold endStream. destruct (latestStream _); [|auto].
  destruct (isOpen _); [|auto]. cbv zeta. auto 20 with doc.
Qed.

(** Saving a coherent document stores its in-memory value. *)
Lemma save_coherent a0 d c :
  c !! _id d = Some a0 -> coherent a0 d ->
  fst (save d c) = <[_id d := this d]> c.
Proof.
  unfold coherent, save; simpl; intros Hi ->.
  apply list_eq; intros j.
  destruct (decide (_id d = j)) as [<-|Hne].
  - rewrite list_lookup_alter_eq, Hi. simpl.
    symmetry. apply list_lookup_insert_eq. eapply lookup_lt_Some; eauto.
  - rewrite list_lookup_alter_ne, list_lookup_insert_ne; auto.
Qed.

(** The [_id] never changes. *)
Lemma id_initTotal p ps d : _id (initTotal p ps d) = _id d.
Proof. unfold initTotal. destruct (missing _); reflexivity. Qed.

Lemma id_resetTotal p ps d : _id (resetTotal p ps d) = _id d.
Proof.
  unfold resetTotal. destruct (total _ _); [|reflexivity].
  case_bool_decide; reflexivity.
Qed.

Lemma id_countOnly p d : _id (countOnly p d) = _id d.
Proof. unfold countOnly. destruct (total _ _); reflexivity. Qed.

Lemma id_assign u d : _id (assign u d) = _id d.
Proof. reflexivity. Qed.

Lemma id_addToTotal p n d : _id (addToTotal p n d) = _id d.
Proof. reflexivity. Qed.

Lemma id_addTotalStreamTime n d : _id (addTotalStreamTime n d) = _id d.
Proof. reflexivity. Qed.

Lemma id_incTotalStreams d : _id (incTotalStreams d) = _id d.
Proof. reflexivity. Qed.

Ltac rewrite_id :=
  repeat first [ rewrite id_assign | rewrite id_addToTotal
               | rewrite id_resetTotal | rewrite id_initTotal
               | rewrite id_countOnly | rewrite id_addTotalStreamTime
               | rewrite id_incTotalStreams ].

Lemma id_startStream clk ch chn d : _id (startStream clk ch chn d) = _id d.
Proof. unfold startStream. cbv zeta. rewrite_id. reflexivity. Qed.

Lemma id_endStream clk d : _id (endStream clk d) = _id d.
Proof.
  unfold endStream. destruct (latestStream _); [|reflexivity].
  destruct (isOpen _); [|reflexivity]. cbv zeta. rewrite_id. reflexivity.
Qed.

(** *** The period blocks, one total at a time *)

Lemma untouched_refl a : untouched a a.
Proof. repeat split. Qed.

Lemma untouched_trans a b c : untouched a b -> untouched b c -> untouched a c.
Proof. unfold untouched. intuition congruence. Qed.

Lemma untouched_with_total p w a : untouched a (with_total p w a).
Proof. repeat split. Qed.

Lemma untouched_with_lastUpdated t a : untouched a (with_lastUpdated t a).
Proof. repeat split. Qed.

Lemma untouched_initTotal p ps d : untouched (this d) (this (initTotal p ps d)).
Proof.
  unfold initTotal. destruct (missing _); simpl;
    auto using untouched_refl, untouched_with_total.
Qed.

Lemma untouched_resetTotal p ps d : untouched (this d) (this (resetTotal p ps d)).
Proof.
  unfold resetTotal. destruct (total _ _); [|apply untouched_refl].
  case_bool_decide; simpl; auto using untouched_refl, untouched_with_total.
Qed.

Lemma untouched_addToTotal p n d : untouched (this d) (this (addToTotal p n d)).
Proof.
  unfold addToTotal; simpl.
  eapply untouched_trans; apply untouched_with_total.
Qed.

Lemma untouched_countOnly p d : untouched (this d) (this (countOnly p d)).
Proof.
  unfold countOnly. destruct (total _ _); simpl;
    auto using untouched_refl, untouched_with_total.
Qed.

Lemma total_initTotal p q ps d :
  total q (this (initTotal p ps d)) =
  if decide (p = q) then Some (initialised p ps (total p (this d)))
  else total q (this d).
Proof.
  unfold initTotal, initialised.
  destruct (total p (this d)) as [w|] eqn:E; simpl.
  - destruct (bool_decide _); simpl.
    + apply total_with_total.
    + destruct (decide (p = q)); congruence.
  - apply total_with_total.
Qed.

Lemma total_resetTotal p q ps d :
  total q (this (resetTotal p ps d)) =
  if decide (p = q) then current p ps <$> total p (this d)
  else total q (this d).
Proof.
  unfold resetTotal, current.
  destruct (total p (this d)) as [w|] eqn:E; simpl.
  - case_bool_decide; simpl.
    + destruct (decide (p = q)); congruence.
    + apply total_with_total.
  - destruct (decide (p = q)); congruence.
Qed.

Lemma total_addToTotal p q n d :
  total q (this (addToTotal p n d)) =
  if decide (p = q) then Some (accumulated n (orBlank (total p (this d))))
  else total q (this d).
Proof.
  unfold addToTotal, accumulated; simpl.
  rewrite !total_with_total; simpl.
  destruct (decide (p = p)); [|congruence].
  destruct (decide (p = q)); reflexivity.
Qed.

Lemma total_countOnly p q d :
  total q (this (countOnly p d)) =
  if decide (p = q) then counted <$> total p (this d) else total q (this d).
Proof.
  unfold countOnly. destruct (total p (this d)) as [w|] eqn:E; simpl.
  - rewrite total_with_total, E. destruct (decide (p = q)); reflexivity.
  - destruct (decide (p = q)); congruence.
Qed.

Lemma total_with_lastUpdated p t a : total p (with_lastUpdated t a) = total p a.
Proof. destruct p; reflexivity. Qed.

Lemma total_assign_lastUpdated p t d :
  total p (this (assign (SetLastUpdated t) d)) = total p (this d).
Proof. destruct p; reflexivity. Qed.

(** Three blocks in a row, one per period, each touching its own total. *)
Lemma three_blocks (f : Period -> Document -> Document)
    (G : Period -> option PeriodTotal -> option PeriodTotal) :
  (forall p q d, total q (this (f p d)) =
                 if decide (p = q) then G p (total p (this d))
                 else total q (this d)) ->
  forall q d, total q (this (f Monthly (f Weekly (f Daily d))))
              = G q (total q (this d)).
Proof.
  intros H q d.
  destruct q;
    repeat (rewrite H;
            match goal with
            | |- context [decide (?a = ?b)] =>
                destruct (decide (a = b));
                [try discriminate | try congruence]
            end);
    reflexivity.
Qed.

Lemma untouched_three (f : Period -> Document -> Document) :
  (forall p d, untouched (this d) (this (f p d))) ->
  forall d, untouched (this d) (this (f Monthly (f Weekly (f Daily d)))).
Proof. intros H d. eauto using untouched_trans. Qed.

(** *** What [endStream] does to an aggregate whose latest session is open *)

Lemma endStream_open clk d latest :
  latestStream (this d) = Some latest -> isOpen latest = true ->
  let n := Js.floor_div (now clk - startTime latest) (1000 * 60) in
  let a' := this (endStream clk d) in
  identity a' = identity (this d) /\
  streams a' = alter (closeAt (now clk) n) (latestIndex (this d)) (streams (this d)) /\
  totalStreams a' = totalStreams (this d) + 1 /\
  totalStreamTime a' = totalStreamTime (this d) + n /\
  (forall p, total p a' = Some (rolled p (today clk) n (total p (this d)))).
Proof.
  intros Hl Ho n. cbv zeta. unfold endStream. rewrite Hl, Ho. cbv zeta. fold n.
  set (d4 := incTotalStreams _).
  set (d7 := initTotal Monthly _ (initTotal Weekly _ (initTotal Daily _ d4))).
  set (d10 := resetTotal Monthly _ (resetTotal Weekly _ (resetTotal Daily _ d7))).
  set (d13 := addToTotal Monthly n (addToTotal Weekly n (addToTotal Daily n d10))).
  assert (U7 : untouched (this d4) (this d7)).
  { apply (untouched_three (fun p => initTotal p (today clk))).
    intros; apply untouched_initTotal. }
  assert (U10 : untouched (this d7) (this d10)).
  { apply (untouched_three (fun p => resetTotal p (today clk))).
    intros; apply untouched_resetTotal. }
  assert (U13 : untouched (this d10) (this d13)).
  { apply (untouched_three (fun p => addToTotal p n)).
    intros; apply untouched_addToTotal. }
  assert (U : untouched (this d4) (this d13)) by eauto using untouched_trans.
  set (a' := this (assign (SetLastUpdated _) d13)).
  assert (U' : untouched (this d4) a').
  { eapply untouched_trans; [exact U|]. apply untouched_with_lastUpdated. }
  destruct U' as (U1 & U2 & U3 & U4).
  split; [rewrite U1; reflexivity|].
  split; [rewrite U2; simpl; rewrite list_alter_alter_eq; reflexivity|].
  split; [rewrite U3; reflexivity|].
  split; [rewrite U4; reflexivity|].
  intros p.
  subst a'. rewrite total_assign_lastUpdated.
  pose proof (three_blocks (fun p => addToTotal p n)
                (fun p w => Some (accumulated n (orBlank w)))
                (fun p q d => total_addToTotal p q n d) p d10) as R13.
  pose proof (three_blocks (fun p => resetTotal p (today clk))
                (fun p w => current p (today clk) <$> w)
                (fun p q d => total_resetTotal p q (today clk) d) p d7) as R10.
  pose proof (three_blocks (fun p => initTotal p (today clk))
                (fun p w => Some (initialised p (today clk) w))
                (fun p q d => total_initTotal p q (today clk) d) p d4) as R7.
  cbv beta in R13, R10, R7.
  fold d7 in R7. fold d10 in R10. fold d13 in R13.
  rewrite R13, R10, R7.
  replace (total p (this d4)) with (total p (this d)) by (destruct p; reflexivity).
  reflexivity.
Qed.

(** *** What [interruptLatest] does *)

Lemma coherent_interruptLatest a0 clk latest d :
  coherent a0 d -> coherent a0 (interruptLatest clk latest d).
Proof. intros H. unfold interruptLatest. cbv zeta. auto 20 with doc. Qed.

Lemma id_interruptLatest clk latest d : _id (interruptLatest clk latest d) = _id d.
Proof. unfold interruptLatest. cbv zeta. rewrite_id. reflexivity. Qed.

Lemma interruptLatest_open clk d latest :
  let n := Js.floor_div (now clk - startTime latest) (1000 * 60) in
  let a' := this (interruptLatest clk latest d) in
  identity a' = identity (this d) /\
  streams a' = alter (interruptAt (now clk) n) (latestIndex (this d)) (streams (this d)) /\
  totalStreams a' = totalStreams (this d) + 1 /\
  totalStreamTime a' = totalStreamTime (this d) /\
  (forall p, total p a' = counted <$> total p (this d)).
Proof.
  intros n. cbv zeta. unfold interruptLatest. cbv zeta. fold n.
  set (d4 := incTotalStreams _).
  set (d7 := countOnly Monthly (countOnly Weekly (countOnly Daily d4))).
  assert (U7 : untouched (this d4) (this d7)).
  { apply (untouched_three countOnly). intros; apply untouched_countOnly. }
  set (a' := this (assign (SetLastUpdated _) d7)).
  assert (U' : untouched (this d4) a').
  { eapply untouched_trans; [exact U7|]. apply untouched_with_lastUpdated. }
  destruct U' as (U1 & U2 & U3 & U4).
  split; [rewrite U1; reflexivity|].
  split; [rewrite U2; simpl; rewrite !list_alter_alter_eq; reflexivity|].
  split; [rewrite U3; reflexivity|].
  split; [rewrite U4; reflexivity|].
  intros p. subst a'. rewrite total_assign_lastUpdated.
  pose proof (three_blocks countOnly (fun p w => counted <$> w)
                total_countOnly p d4) as R7.
  cbv beta in R7. fold d7 in R7. rewrite R7.
  replace (total p (this d4)) with (total p (this d)) by (destruct p; reflexivity).
  reflexivity.
Qed.

(** *** Replaying the assignments of [startStream] on another value

    [startStreamSession] saves a document that was read before
    [endStreamSession] changed the stored value: what reaches the store is
    the replay of [startStream]'s assignments on the stored value. *)

Lemma modified_initTotal p ps d :
  modified (initTotal p ps d) =
  modified d ++ (if missing (total p (this d))
                 then [SetTotal p (mkPeriodTotal (tag p ps) 0 0)] else []).
Proof.
  unfold initTotal. destruct (missing _); simpl; [reflexivity|].
  symmetry; apply app_nil_r.
Qed.

Lemma replay_initTotal p ps d a :
  fold_left apply (modified (initTotal p ps d)) a =
  replayInit p ps (total p (this d)) (fold_left apply (modified d) a).
Proof.
  rewrite modified_initTotal, fold_left_app. unfold replayInit.
  destruct (missing _); reflexivity.
Qed.

Lemma untouched_replayInit p ps w a : untouched a (replayInit p ps w a).
Proof.
  unfold replayInit. destruct (missing w);
    auto using untouched_refl, untouched_with_total.
Qed.

Lemma total_replayInit p q ps w a :
  total q (replayInit p ps w a) =
  if decide (p = q)
  then (if missing w then Some (mkPeriodTotal (tag p ps) 0 0) else total p a)
  else total q a.
Proof.
  unfold replayInit. destruct (missing w).
  - apply total_with_total.
  - destruct (decide (p = q)); congruence.
Qed.

Lemma startStream_replay clk ch chn d a1 :
  modified d = [] ->
  let a' := fold_left apply (modified (startStream clk ch chn d)) a1 in
  identity a' = identity a1 /\
  streams a' = streams a1 ++ [newStream clk ch chn] /\
  totalStreams a' = totalStreams a1 /\
  totalStreamTime a' = totalStreamTime a1 /\
  (forall p, total p a' =
             if missing (total p (this d))
             then Some (mkPeriodTotal (tag p (today clk)) 0 0)
             else total p a1).
Proof.
  intros Hm. cbv zeta. unfold startStream. cbv zeta.
  set (d1 := assign (Push _) d).
  set (d2 := initTotal Daily _ d1).
  set (d3 := initTotal Weekly _ d2).
  set (d4 := initTotal Monthly _ d3).
  change (modified (assign (SetLastUpdated (now clk)) d4))
    with (modified d4 ++ [SetLastUpdated (now clk)]).
  rewrite fold_left_app. subst d4. rewrite replay_initTotal.
  subst d3. rewrite replay_initTotal. subst d2. rewrite replay_initTotal.
  assert (E1 : fold_left apply (modified d1) a1
               = with_streams (streams a1 ++ [newStream clk ch chn]) a1).
  { subst d1. unfold assign; simpl. rewrite Hm. reflexivity. }
  rewrite E1. clear E1.
  set (b1 := with_streams _ a1).
  set (w1 := total Daily (this d1)).
  set (w2 := total Weekly _).
  set (w3 := total Monthly _).
  assert (Hw1 : w1 = total Daily (this d)) by reflexivity.
  assert (Hw2 : w2 = total Weekly (this d)).
  { subst w2. rewrite total_initTotal. reflexivity. }
  assert (Hw3 : w3 = total Monthly (this d)).
  { subst w3. rewrite !total_initTotal. reflexivity. }
  clearbody w1 w2 w3. subst w1 w2 w3.
  set (b4 := replayInit Monthly _ _ (replayInit Weekly _ _ (replayInit Daily _ _ b1))).
  change (fold_left apply [SetLastUpdated (now clk)] b4)
    with (with_lastUpdated (now clk) b4).
  assert (U : untouched b1 (with_lastUpdated (now clk) b4)).
  { eapply untouched_trans; [|apply untouched_with_lastUpdated].
    subst b4.
    eapply untouched_trans; [|apply untouched_replayInit].
    eapply untouched_trans; [|apply untouched_replayInit].
    apply untouched_replayInit. }
  destruct U as (U1 & U2 & U3 & U4).
  split; [rewrite U1; reflexivity|].
  split; [rewrite U2; reflexivity|].
  split; [rewrite U3; reflexivity|].
  split; [rewrite U4; reflexivity|].
  intros p. rewrite total_with_lastUpdated.
  subst b4. destruct p; rewrite !total_replayInit; simpl; reflexivity.
Qed.

End DocFacts.

(** ** Facts about the tracker *)

Module TrackerFacts.
Import DocFacts.

(** *** Lists of sessions *)

Lemma latest_snoc a s :
  latestStream a = Some s ->
  exists l, streams a = l ++ [s] /\ latestIndex a = length l.
Proof.
  unfold latestStream, latestIndex. intros H.
  apply last_Some in H as [l Hl]. exists l. rewrite Hl. split; [reflexivity|].
  rewrite length_app. simpl. lia.
Qed.

Lemma latest_None a : latestStream a = None -> streams a = [].
Proof.
  unfold latestStream. destruct (streams a) as [|x l] using rev_ind; [reflexivity|].
  rewrite last_snoc. discriminate.
Qed.

Lemma alter_snoc {A} (f : A -> A) (l : list A) (x : A) :
  alter f (length l) (l ++ [x]) = l ++ [f x].
Proof.
  replace (length l) with (length l + 0)%nat by lia.
  rewrite alter_app_r. reflexivity.
Qed.

Lemma filter_open_closed l :
  Forall closed l -> filter (fun s => isOpen s = true) l = [].
Proof.
  induction 1 as [|s l Hs _ IH]; [reflexivity|].
  rewrite filter_cons. destruct (decide (isOpen s = true)) as [E|_]; [|exact IH].
  unfold closed in Hs. congruence.
Qed.

Lemma openCount_closed a : Forall closed (streams a) -> openCount a = 0%nat.
Proof. intros H. unfold openCount. rewrite filter_open_closed; auto. Qed.

Lemma closed_closeAt t n s : closed (closeAt t n s).
Proof. reflexivity. Qed.

Lemma closed_interruptAt t n s : closed (interruptAt t n s).
Proof. reflexivity. Qed.

(** *** The invariant of an aggregate *)

Lemma onlyLatestOpen_snoc a l s :
  streams a = l ++ [s] -> onlyLatestOpen a <-> Forall closed l.
Proof.
  intros E. unfold onlyLatestOpen, latestIndex. rewrite E.
  rewrite length_app. simpl.
  replace (pred (length l + 1)) with (length l) by lia.
  rewrite take_app_length. reflexivity.
Qed.

Lemma onlyLatestOpen_all a : Forall closed (streams a) -> onlyLatestOpen a.
Proof. apply Forall_take. Qed.

Lemma openCount_le_1 a : onlyLatestOpen a -> (openCount a <= 1)%nat.
Proof.
  intros H. destruct (latestStream a) as [s|] eqn:E.
  - apply latest_snoc in E as (l & El & _).
    apply (onlyLatestOpen_snoc _ _ _ El) in H.
    unfold openCount. rewrite El, filter_app, filter_open_closed by exact H.
    simpl. rewrite filter_cons, filter_nil.
    destruct (decide _); simpl; lia.
  - apply latest_None in E. unfold openCount. rewrite E. simpl. lia.
Qed.

(** An aggregate none of whose sessions is open. *)
Lemma sound_closed_latest a s :
  sound a -> latestStream a = Some s -> isOpen s = false ->
  Forall closed (streams a).
Proof.
  intros Hs El Ho. pose proof (sound_latest _ Hs) as H.
  apply latest_snoc in El as (l & El & _).
  apply (onlyLatestOpen_snoc _ _ _ El) in H.
  rewrite El. apply Forall_app; split; [exact H|]. constructor; auto.
Qed.

Lemma sound_new clk uid uname gid gname :
  sound (newStreamActivity clk uid uname gid gname).
Proof.
  split.
  - constructor.
  - intros []; eexists; reflexivity.
  - constructor.
  - intros _. split; [reflexivity|].
    intros [] w E; simpl in E; inversion E; reflexivity.
Qed.

Lemma sound_endStream clk d latest :
  sound (this d) -> latestStream (this d) = Some latest -> isOpen latest = true ->
  sound (this (endStream clk d)) /\
  Forall closed (streams (this (endStream clk d))).
Proof.
  intros Hs El Ho.
  destruct (endStream_open clk d latest El Ho) as (_ & E2 & _ & _ & E5).
  destruct (latest_snoc _ _ El) as (l & Hl & Hi).
  rewrite Hl, Hi, alter_snoc in E2.
  assert (Hc : Forall closed l).
  { apply (onlyLatestOpen_snoc _ _ _ Hl). apply Hs. }
  assert (Hall : Forall closed (streams (this (endStream clk d)))).
  { rewrite E2. apply Forall_app; split; [exact Hc|].
    constructor; [apply closed_closeAt|constructor]. }
  split; [|exact Hall]. split.
  - apply onlyLatestOpen_all, Hall.
  - intros p. rewrite E5. eexists; reflexivity.
  - eapply Forall_impl; [exact Hall|]. unfold closed. intros s Hs' H. congruence.
  - rewrite E2. intros Hq. exfalso.
    apply Forall_app in Hq as [_ Hq]. inversion Hq as [|? ? [H|H] _]; subst.
    + discriminate H.
    + pose proof (sound_open _ Hs) as Hop. rewrite Hl in Hop.
      apply Forall_app in Hop as [_ Hop]. inversion Hop as [|? ? H' _]; subst.
      specialize (H' Ho). simpl in H. congruence.
Qed.

Lemma sound_interruptLatest clk d latest :
  sound (this d) -> latestStream (this d) = Some latest -> isOpen latest = true ->
  sound (this (interruptLatest clk latest d)) /\
  Forall closed (streams (this (interruptLatest clk latest d))).
Proof.
  intros Hs El Ho.
  destruct (interruptLatest_open clk d latest) as (_ & E2 & _ & E4 & E5).
  destruct (latest_snoc _ _ El) as (l & Hl & Hi).
  rewrite Hl, Hi, alter_snoc in E2.
  assert (Hc : Forall closed l).
  { apply (onlyLatestOpen_snoc _ _ _ Hl). apply Hs. }
  assert (Hall : Forall closed (streams (this (interruptLatest clk latest d)))).
  { rewrite E2. apply Forall_app; split; [exact Hc|].
    constructor; [apply closed_interruptAt|constructor]. }
  split; [|exact Hall]. split.
  - apply onlyLatestOpen_all, Hall.
  - intros p. rewrite E5. destruct (sound_totals _ Hs p) as [w ->].
    eexists; reflexivity.
  - eapply Forall_impl; [exact Hall|]. unfold closed. intros s Hs' H. congruence.
  - rewrite E2. intros Hq.
    assert (Hq0 : Forall quiet (streams (this d))).
    { rewrite Hl. apply Forall_app in Hq as [Hq _].
      apply Forall_app; split; [exact Hq|].
      constructor; [left; exact Ho|constructor]. }
    destruct (sound_minutes _ Hs Hq0) as [Z0 Zp].
    split; [congruence|].
    intros p w. rewrite E5. destruct (total p (this d)) as [w0|] eqn:E0; [|discriminate].
    simpl. intros [= <-]. simpl. eauto.
Qed.

(** Appending a new open session to an aggregate whose sessions are all
    closed, the totals being kept or initialised. *)
Lemma sound_started a2 a3 s :
  sound a2 -> Forall closed (streams a2) ->
  isOpen s = true -> interrupted s = false ->
  streams a3 = streams a2 ++ [s] ->
  totalStreamTime a3 = totalStreamTime a2 ->
  (forall p, total p a3 = total p a2 \/
             exists k, total p a3 = Some (mkPeriodTotal k 0 0)) ->
  sound a3.
Proof.
  intros Hs Hc Ho Hi E Et Ep. split.
  - apply (onlyLatestOpen_snoc _ _ _ E). exact Hc.
  - intros p. destruct (Ep p) as [->|[k ->]]; [apply Hs|eexists; reflexivity].
  - rewrite E. apply Forall_app; split.
    + eapply Forall_impl; [exact Hc|]. unfold closed. intros; congruence.
    + constructor; auto.
  - rewrite E. intros Hq. apply Forall_app in Hq as [Hq _].
    destruct (sound_minutes _ Hs Hq) as [Z0 Zp].
    split; [congruence|].
    intros p w. destruct (Ep p) as [->|[k ->]]; [apply Zp|].
    intros [= <-]. reflexivity.
Qed.

(** *** The collection *)

Lemma identity_key a b : identity a = identity b -> key a = key b.
Proof. unfold identity, key. intros [= -> _ -> _]. reflexivity. Qed.

Lemma findOne_Some uid gid c d :
  findOne uid gid c = Some d ->
  modified d = [] /\ c !! _id d = Some (this d) /\ key (this d) = (uid, gid).
Proof.
  unfold findOne. destruct (list_find _ c) as [[i a]|] eqn:E; [|discriminate].
  intros [= <-]. apply list_find_Some in E as (Hi & [Hu Hg] & _).
  simpl. unfold key. rewrite Hu, Hg. auto.
Qed.

Lemma findOne_None uid gid c :
  findOne uid gid c = None -> Forall (fun a => key a <> (uid, gid)) c.
Proof.
  unfold findOne. destruct (list_find _ c) as [[i a]|] eqn:E; [discriminate|].
  intros _. apply list_find_None in E.
  eapply Forall_impl; [exact E|]. unfold key. intros a H [= Hu Hg]. auto.
Qed.

Lemma findOne_snoc uid gid c a :
  findOne uid gid c = None -> key a = (uid, gid) ->
  findOne uid gid (c ++ [a]) = Some (mkDocument (length c) a []).
Proof.
  intros Hn Hk. unfold findOne in *.
  destruct (list_find _ c) as [[i b]|] eqn:E; [discriminate|].
  assert (H : list_find (fun a => userId a = uid /\ guildId a = gid) (c ++ [a])
              = Some (length c, a)).
  { apply list_find_Some. split; [|split].
    - apply list_lookup_middle. reflexivity.
    - unfold key in Hk. inversion Hk; auto.
    - intros j y Hj Hlt. rewrite lookup_app_l in Hj by exact Hlt.
      apply list_find_None in E. rewrite Forall_forall in E.
      apply E. eapply list_elem_of_lookup_2; eauto. }
  rewrite H. reflexivity.
Qed.

Lemma findOne_unique c i a :
  NoDup (key <$> c) -> c !! i = Some a ->
  findOne (userId a) (guildId a) c = Some (mkDocument i a []).
Proof.
  intros Hnd Hi. unfold findOne.
  destruct (list_find _ c) as [[j b]|] eqn:E.
  - apply list_find_Some in E as (Hj & [Hu Hg] & _).
    assert (j = i).
    { eapply NoDup_lookup; [exact Hnd| |].
      - rewrite list_lookup_fmap, Hj. reflexivity.
      - rewrite list_lookup_fmap, Hi. simpl. unfold key. rewrite Hu, Hg. reflexivity. }
    subst j. rewrite Hi in Hj. inversion Hj; subst. reflexivity.
  - apply list_find_None in E. rewrite Forall_forall in E.
    exfalso. eapply E; [|split; reflexivity].
    eapply list_elem_of_lookup_2; eauto.
Qed.

Lemma alter_insert {A} (f : A -> A) (l : list A) i x :
  l !! i = Some x -> alter f i l = <[i := f x]> l.
Proof.
  intros Hi. apply list_eq; intros j.
  destruct (decide (i = j)) as [<-|Hne].
  - rewrite list_lookup_alter_eq, Hi. simpl.
    symmetry. apply list_lookup_insert_eq. eapply lookup_lt_Some; eauto.
  - rewrite list_lookup_alter_ne, list_lookup_insert_ne; auto.
Qed.

Lemma Inv_insert c i a a' :
  Inv c -> c !! i = Some a -> key a' = key a -> sound a' -> Inv (<[i := a']> c).
Proof.
  intros [Hnd Hs] Hi Hk Ha. split.
  - rewrite list_fmap_insert, list_insert_id; [exact Hnd|].
    rewrite list_lookup_fmap, Hi. simpl. congruence.
  - apply Forall_insert; assumption.
Qed.

Lemma Inv_lookup c i a : Inv c -> c !! i = Some a -> sound a.
Proof.
  intros [_ Hs] Hi. rewrite Forall_forall in Hs. apply Hs.
  eapply list_elem_of_lookup_2; eauto.
Qed.

Lemma Inv_nil : Inv [].
Proof. split; constructor. Qed.

(** *** The three operations on the collection *)

Lemma endStreamSession_fst clk uid gid c :
  fst (endStreamSession clk uid gid c) =
  match findOne uid gid c with
  | Some d =>
      match latestStream (this d) with
      | Some latest =>
          if isOpen latest then <[_id d := this (endStream clk d)]> c else c
      | None => c
      end
  | None => c
  end.
Proof.
  unfold endStreamSession.
  destruct (findOne uid gid c) as [d|] eqn:Hf; [|reflexivity].
  destruct (latestStream (this d)) as [latest|]; [|reflexivity].
  destruct (isOpen latest); [|reflexivity].
  apply findOne_Some in Hf as (Hm & Hi & _).
  change (fst (save (endStream clk d) c) = <[_id d:=this (endStream clk d)]> c).
  pose proof (save_coherent (this d) (endStream clk d) c) as H.
  rewrite id_endStream in H. apply H; [exact Hi|].
  apply coherent_endStream. unfold coherent. rewrite Hm. reflexivity.
Qed.

Lemma markStreamAsInterrupted_fst clk uid gid c :
  fst (markStreamAsInterrupted clk uid gid c) =
  match findOne uid gid c with
  | Some d =>
      match latestStream (this d) with
      | Some latest =>
          if isOpen latest
          then <[_id d := this (interruptLatest clk latest d)]> c else c
      | None => c
      end
  | None => c
  end.
Proof.
  unfold markStreamAsInterrupted.
  destruct (findOne uid gid c) as [d|] eqn:Hf; [|reflexivity].
  destruct (latestStream (this d)) as [latest|]; [|reflexivity].
  destruct (isOpen latest); [|reflexivity].
  apply findOne_Some in Hf as (Hm & Hi & _).
  change (fst (save (interruptLatest clk latest d) c)
          = <[_id d:=this (interruptLatest clk latest d)]> c).
  pose proof (save_coherent (this d) (interruptLatest clk latest d) c) as H.
  rewrite id_interruptLatest in H. apply H; [exact Hi|].
  apply coherent_interruptLatest. unfold coherent. rewrite Hm. reflexivity.
Qed.

Lemma Inv_endStreamSession clk uid gid c :
  Inv c -> Inv (fst (endStreamSession clk uid gid c)).
Proof.
  intros HI. rewrite endStreamSession_fst.
  destruct (findOne uid gid c) as [d|] eqn:Hf; [|exact HI].
  destruct (latestStream (this d)) as [latest|] eqn:El; [|exact HI].
  destruct (isOpen latest) eqn:Ho; [|exact HI].
  apply findOne_Some in Hf as (_ & Hi & _).
  eapply Inv_insert; eauto.
  - apply identity_key. apply (endStream_open clk d latest El Ho).
  - apply (sound_endStream clk d latest); eauto using Inv_lookup.
Qed.

Lemma Inv_markStreamAsInterrupted clk uid gid c :
  Inv c -> Inv (fst (markStreamAsInterrupted clk uid gid c)).
Proof.
  intros HI. rewrite markStreamAsInterrupted_fst.
  destruct (findOne uid gid c) as [d|] eqn:Hf; [|exact HI].
  destruct (latestStream (this d)) as [latest|] eqn:El; [|exact HI].
  destruct (isOpen latest) eqn:Ho; [|exact HI].
  apply findOne_Some in Hf as (_ & Hi & _).
  eapply Inv_insert; eauto.
  - apply identity_key. apply (interruptLatest_open clk d latest).
  - apply (sound_interruptLatest clk d latest); eauto using Inv_lookup.
Qed.

Lemma getOrCreateStreamActivity_spec clk uid uname gid gname c :
  Inv c ->
  let r := getOrCreateStreamActivity clk uid uname gid gname c in
  Inv (fst r) /\ findOne uid gid (fst r) = Some (snd r).
Proof.
  intros HI. unfold getOrCreateStreamActivity.
  destruct (findOne uid gid c) as [d|] eqn:Hf; simpl; [auto|].
  split.
  - destruct HI as [Hnd Hs]. split.
    + rewrite fmap_app. apply NoDup_app. split; [exact Hnd|]. split.
      * intros k Hk Hk'. apply list_elem_of_fmap in Hk as (a & -> & Ha).
        apply findOne_None in Hf. rewrite Forall_forall in Hf.
        apply (Hf a Ha). simpl in Hk'. apply list_elem_of_singleton in Hk'.
        exact Hk'.
      * simpl. apply NoDup_singleton.
    + apply Forall_app; split; [exact Hs|].
      constructor; [apply sound_new|constructor].
  - apply findOne_snoc; [exact Hf|reflexivity].
Qed.

Lemma endStreamSession_closed clk uid gid c d :
  Inv c -> findOne uid gid c = Some d ->
  exists a2,
    fst (endStreamSession clk uid gid c) = <[_id d := a2]> c /\
    key a2 = (uid, gid) /\ sound a2 /\ Forall closed (streams a2) /\
    closedFrom clk (this d) a2.
Proof.
  intros HI Hf. rewrite endStreamSession_fst, Hf.
  destruct (findOne_Some _ _ _ _ Hf) as (_ & Hi & Hk).
  pose proof (Inv_lookup _ _ _ HI Hi) as Hs.
  destruct (latestStream (this d)) as [latest|] eqn:El.
  - destruct (isOpen latest) eqn:Ho.
    + exists (this (endStream clk d)).
      destruct (sound_endStream clk d latest Hs El Ho) as [Hs' Hc'].
      destruct (endStream_open clk d latest El Ho) as (E1 & E2 & _).
      split; [reflexivity|]. split; [rewrite (identity_key _ _ E1); exact Hk|].
      split; [exact Hs'|]. split; [exact Hc'|].
      right. destruct (latest_snoc _ _ El) as (l & Hl & Hidx).
      exists l, latest. rewrite E2, Hl, Hidx, alter_snoc. auto.
    + exists (this d). split; [symmetry; apply list_insert_id; exact Hi|].
      pose proof (sound_closed_latest _ _ Hs El Ho) as Hc.
      split; [exact Hk|]. split; [exact Hs|]. split; [exact Hc|]. left; auto.
  - exists (this d). split; [symmetry; apply list_insert_id; exact Hi|].
    assert (Hc : Forall closed (streams (this d))).
    { rewrite (latest_None _ El). constructor. }
    split; [exact Hk|]. split; [exact Hs|]. split; [exact Hc|]. left; auto.
Qed.

Lemma startStreamSession_fst clkNew clkEnd clkStart uid uname gid gname ch chn c :
  fst (startStreamSession clkNew clkEnd clkStart uid uname gid gname ch chn c) =
  let r := getOrCreateStreamActivity clkNew uid uname gid gname c in
  let c2 := fst (endStreamSession clkEnd uid gid (fst r)) in
  alter (fun a => fold_left apply
                    (modified (startStream clkStart ch chn (snd r))) a)
    (_id (snd r)) c2.
Proof.
  unfold startStreamSession.
  destruct (getOrCreateStreamActivity _ _ _ _ _ c) as [c1 A]. cbn [fst snd].
  destruct (endStreamSession clkEnd uid gid c1) as [c2 e]. cbn [fst snd].
  unfold save. cbn [fst]. rewrite id_startStream. reflexivity.
Qed.

(** [startStreamSession] step by step: the aggregate of the key is found
    or created ([c1]), [endStreamSession] closes its open session if there
    is one ([c2]), and the new open session is appended to what
    [endStreamSession] stored ([c3]). *)
Lemma startStreamSession_spec clkNew clkEnd clkStart uid uname gid gname ch chn c :
  Inv c ->
  let c1 := fst (getOrCreateStreamActivity clkNew uid uname gid gname c) in
  let c2 := fst (endStreamSession clkEnd uid gid c1) in
  let c3 := fst (startStreamSession clkNew clkEnd clkStart
                   uid uname gid gname ch chn c) in
  exists i a1 a2 a3,
    c1 !! i = Some a1 /\ key a1 = (uid, gid) /\
    c2 = <[i := a2]> c1 /\ closedFrom clkEnd a1 a2 /\
    Forall closed (streams a2) /\
    c3 = <[i := a3]> c2 /\
    streams a3 = streams a2 ++ [newStream clkStart ch chn] /\
    totalStreams a3 = totalStreams a2 /\
    totalStreamTime a3 = totalStreamTime a2 /\
    Inv c2 /\ Inv c3.
Proof.
  intros HI. cbv zeta. rewrite startStreamSession_fst. cbv zeta.
  destruct (getOrCreateStreamActivity_spec clkNew uid uname gid gname c HI)
    as [HI1 Hf1].
  set (r := getOrCreateStreamActivity clkNew uid uname gid gname c) in *.
  destruct (findOne_Some _ _ _ _ Hf1) as (Hm & Hi & Hk).
  destruct (endStreamSession_closed clkEnd uid gid (fst r) (snd r) HI1 Hf1)
    as (a2 & E2 & Hk2 & Hs2 & Hc2 & Hcf).
  set (c2 := fst (endStreamSession clkEnd uid gid (fst r))) in *.
  assert (Hi2 : c2 !! _id (snd r) = Some a2).
  { rewrite E2. apply list_lookup_insert_eq. eapply lookup_lt_Some; eauto. }
  assert (HI2 : Inv c2).
  { rewrite E2. eapply Inv_insert; eauto. congruence. }
  set (a3 := fold_left apply (modified (startStream clkStart ch chn (snd r))) a2).
  destruct (startStream_replay clkStart ch chn (snd r) a2 Hm)
    as (F1 & F2 & F3 & F4 & F5). fold a3 in F1, F2, F3, F4, F5.
  assert (Hs3 : sound a3).
  { apply (sound_started a2 a3 (newStream clkStart ch chn)); auto.
    intros p. rewrite F5. destruct (missing _); eauto. }
  rewrite (alter_insert _ _ _ _ Hi2). fold a3.
  exists (_id (snd r)), (this (snd r)), a2, a3.
  split; [exact Hi|]. split; [exact Hk|]. split; [exact E2|].
  split; [exact Hcf|]. split; [exact Hc2|].
  split; [reflexivity|].
  split; [exact F2|]. split; [exact F3|]. split; [exact F4|].
  split; [exact HI2|].
  eapply Inv_insert; eauto. apply identity_key. exact F1.
Qed.

Lemma Inv_startStreamSession clkNew clkEnd clkStart uid uname gid gname ch chn c :
  Inv c ->
  Inv (fst (startStreamSession clkNew clkEnd clkStart uid uname gid gname ch chn c)).
Proof.
  intros HI.
  destruct (startStreamSession_spec clkNew clkEnd clkStart
              uid uname gid gname ch chn c HI) as (i & a1 & a2 & a3 & H).
  apply H.
Qed.

Lemma Inv_step c o : Inv c -> Inv (step c o).
Proof.
  destruct o; simpl;
    auto using Inv_startStreamSession, Inv_endStreamSession,
      Inv_markStreamAsInterrupted.
Qed.

Lemma Inv_run ops c : Inv c -> Inv (run ops c).
Proof.
  unfold run. revert c. induction ops as [|o ops IH]; intros c HI; simpl; [exact HI|].
  apply IH, Inv_step, HI.
Qed.

End TrackerFacts.

(** * The properties *)

Import DocFacts TrackerFacts.

(** ** Session tracker *)

(** C1.  Whatever calls of [startStreamSession], [endStreamSession] and
    [markStreamAsInterrupted] were made on an initially empty store (on one
    key or on several), every stored aggregate has at most one session
    without [endTime].  Moreover a further [startStreamSession] on that
    store works in two stored steps: [endStreamSession] first closes the
    open session of the key's aggregate, or changes nothing when all its
    sessions are closed ([closedFrom]), which leaves no open session; then
    the new open session is appended to that stored list, which leaves
    exactly one. *)
Theorem at_most_one_open_session (ops : list Op) :
  let c := run ops [] in
  Forall (fun a => (openCount a <= 1)%nat) c /\
  forall clkNew clkEnd clkStart uid uname gid gname ch chn,
    let c1 := fst (getOrCreateStreamActivity clkNew uid uname gid gname c) in
    let c2 := fst (endStreamSession clkEnd uid gid c1) in
    let c3 := fst (startStreamSession clkNew clkEnd clkStart
                     uid uname gid gname ch chn c) in
    exists i a1 a2 a3,
      c1 !! i = Some a1 /\ key a1 = (uid, gid) /\
      c2 = <[i := a2]> c1 /\ closedFrom clkEnd a1 a2 /\ openCount a2 = 0%nat /\
      c3 = <[i := a3]> c2 /\
      streams a3 = streams a2 ++ [newStream clkStart ch chn] /\
      openCount a3 = 1%nat.
Proof.
  intros c. assert (HI : Inv c) by apply Inv_run, Inv_nil.
  split.
  - destruct HI as [_ Hs]. eapply Forall_impl; [exact Hs|].
    intros a Ha. apply openCount_le_1, Ha.
  - intros clkNew clkEnd clkStart uid uname gid gname ch chn. cbv zeta.
    destruct (startStreamSession_spec clkNew clkEnd clkStart
                uid uname gid gname ch chn c HI)
      as (i & a1 & a2 & a3 & H1 & H2 & H3 & H4 & H5 & H6 & H7 & _).
    exists i, a1, a2, a3.
    repeat (split; [assumption|]).
    split; [apply openCount_closed, H5|].
    repeat (split; [assumption|]).
    unfold openCount. rewrite H7, filter_app, filter_open_closed by exact H5.
    reflexivity.
Qed.

Example run_oneLive : run oneLive [] = [oneLiveActivity].
Proof. reflexivity. Qed.

(** The document that [startStreamSession] returns is not the stored
    aggregate but the copy read before [endStreamSession] ran: when a
    session was open it still lists that session as open, next to the new
    one, while the store holds one open session.  ([src/index.js] ignores
    the returned value.) *)
Remark returned_copy_is_stale :
  let r := startStreamSession (apr29 60000) (apr29 60000) (apr29 60000)
             "u1" "Ann" "g" "Guild" "B" "Music" (run oneLive []) in
  openCount <$> fst r = [1%nat] /\ openCount (this (snd r)) = 2%nat.
Proof. split; reflexivity. Qed.

(** C3.  On a store reached by tracker calls, a [markStreamAsInterrupted]
    that finds the key's latest session open stores an aggregate whose
    [totalStreamTime] and whose daily, weekly and monthly [totalMinutes]
    are those of before, whose [totalStreams] is one more, and whose
    three [streamCount]s are one more; the session is closed at the
    current time and flagged [interrupted]. *)
Theorem interrupted_counts_only (ops : list Op) clk uid gid d latest :
  findOne uid gid (run ops []) = Some d ->
  latestStream (this d) = Some latest ->
  isOpen latest = true ->
  exists a',
    fst (markStreamAsInterrupted clk uid gid (run ops [])) = <[_id d := a']> (run ops []) /\
    totalStreamTime a' = totalStreamTime (this d) /\
    totalStreams a' = totalStreams (this d) + 1 /\
    (forall p, exists w,
        total p (this d) = Some w /\
        total p a' = Some (mkPeriodTotal (periodKey w) (totalMinutes w)
                             (streamCount w + 1))) /\
    exists s', latestStream a' = Some s' /\
               endTime s' = Some (now clk) /\ interrupted s' = true.
Proof.
  intros Hf El Ho.
  assert (HI : Inv (run ops [])) by apply Inv_run, Inv_nil.
  destruct (findOne_Some _ _ _ _ Hf) as (_ & Hi & _).
  pose proof (Inv_lookup _ _ _ HI Hi) as Hs.
  exists (this (interruptLatest clk latest d)).
  rewrite markStreamAsInterrupted_fst, Hf, El, Ho.
  destruct (interruptLatest_open clk d latest) as (_ & E2 & E3 & E4 & E5).
  split; [reflexivity|]. split; [exact E4|]. split; [exact E3|]. split.
  - intros p. destruct (sound_totals _ Hs p) as [w Hw].
    exists w. split; [exact Hw|]. rewrite E5, Hw. reflexivity.
  - destruct (latest_snoc _ _ El) as (l & Hl & Hidx).
    rewrite Hl, Hidx, alter_snoc in E2.
    eexists. split; [unfold latestStream; rewrite E2; apply last_snoc|].
    split; reflexivity.
Qed.

Lemma interrupted_counts_only_witness :
  exists a',
    fst (markStreamAsInterrupted (apr29 120000) "u1" "g" (run oneLive []))
    = <[0%nat := a']> (run oneLive []) /\
    totalStreamTime a' = 0 /\
    totalStreams a' = 0 + 1 /\
    (forall p, exists w,
        total p oneLiveActivity = Some w /\
        total p a' = Some (mkPeriodTotal (periodKey w) (totalMinutes w)
                             (streamCount w + 1))) /\
    exists s', latestStream a' = Some s' /\
               endTime s' = Some 120000 /\ interrupted s' = true.
Proof.
  apply (interrupted_counts_only oneLive (apr29 120000) "u1" "g"
           (mkDocument 0 oneLiveActivity []) oneLiveSession);
    reflexivity.
Defined.

(** C4.  When [endStreamSession] closes a session and the stored key of a
    rolling total differs from the tag of the closing moment, the stored
    total becomes [{ key: tag, totalMinutes: duration, streamCount: 1 }]:
    it is reset before the closed session is added. *)
Theorem rolling_window_reset clk uid gid c d latest p w :
  findOne uid gid c = Some d ->
  latestStream (this d) = Some latest ->
  isOpen latest = true ->
  total p (this d) = Some w ->
  periodKey w <> tag p (today clk) ->
  exists a',
    fst (endStreamSession clk uid gid c) !! _id d = Some a' /\
    total p a' =
      Some (mkPeriodTotal (tag p (today clk))
              (Js.floor_div (now clk - startTime latest) (1000 * 60)) 1).
Proof.
  intros Hf El Ho Hw Hne.
  destruct (findOne_Some _ _ _ _ Hf) as (_ & Hi & _).
  exists (this (endStream clk d)).
  rewrite endStreamSession_fst, Hf, El, Ho.
  split; [apply list_lookup_insert_eq; eapply lookup_lt_Some; eauto|].
  destruct (endStream_open clk d latest El Ho) as (_ & _ & _ & _ & E5).
  rewrite E5, Hw. unfold rolled, accumulated, current, initialised, missing.
  destruct (bool_decide (periodKey w = "")); simpl.
  - rewrite bool_decide_eq_true_2 by reflexivity. reflexivity.
  - rewrite bool_decide_eq_false_2 by exact Hne. reflexivity.
Qed.

(** The daily total keyed ["2025-04-29"] holds seven minutes and one
    stream; the session in progress is closed two minutes after its start,
    on ["2025-04-30"]: the daily total is then two minutes and one stream
    under the new key, not nine minutes and two streams. *)
Lemma rolling_window_reset_witness :
  run stalePast [] = [staleActivity] /\
  total Daily staleActivity = Some (mkPeriodTotal "2025-04-29" 7 1) /\
  exists a',
    fst (endStreamSession (apr30 600000) "u1" "g" (run stalePast [])) !! 0%nat
    = Some a' /\
    total Daily a' = Some (mkPeriodTotal "2025-04-30" 2 1).
Proof.
  split; [reflexivity|]. split; [reflexivity|].
  apply (rolling_window_reset (apr30 600000) "u1" "g" (run stalePast [])
           (mkDocument 0 staleActivity []) staleSession Daily
           (mkPeriodTotal "2025-04-29" 7 1)); try reflexivity.
  simpl. discriminate.
Defined.

(** In the same closing, the weekly and the monthly totals, whose keys are
    those of the closing moment, add the two minutes to the seven. *)
Example stale_day_is_dropped :
  (fun a' => (total Daily a', total Weekly a', total Monthly a'))
    <$> fst (endStreamSession (apr30 600000) "u1" "g" (run stalePast [])) !! 0%nat
  = Some (Some (mkPeriodTotal "2025-04-30" 2 1),
          Some (mkPeriodTotal "2025-18" 9 2),
          Some (mkPeriodTotal "2025-04" 9 2)).
Proof. reflexivity. Qed.

(** C6, as the code has it.  When [endStreamSession] closes at time [T1] a
    session started at [T0], the recorded [duration] is
    [Math.floor ((T1 - T0) / 60000)]: the number [q] of whole minutes with
    [60000 * q <= T1 - T0 < 60000 * (q + 1)].  The same number is returned
    in [sessionDetails]. *)
Theorem duration_is_floor clk uid gid c d latest :
  findOne uid gid c = Some d ->
  latestStream (this d) = Some latest ->
  isOpen latest = true ->
  exists q,
    recordedDuration clk uid gid c = Some q /\
    q = (now clk - startTime latest) / 60000 /\
    60000 * q <= now clk - startTime latest < 60000 * (q + 1) /\
    exists doc details,
      snd (endStreamSession clk uid gid c) = Some (doc, Some details) /\
      sd_startTime details = startTime latest /\
      sd_endTime details = Some (now clk) /\
      sd_duration details = q.
Proof.
  intros Hf El Ho.
  destruct (findOne_Some _ _ _ _ Hf) as (Hm & Hi & Hk).
  destruct (endStream_open clk d latest El Ho) as (E1 & E2 & _).
  destruct (latest_snoc _ _ El) as (l & Hl & Hidx).
  rewrite Hl, Hidx, alter_snoc in E2.
  set (q := (now clk - startTime latest) / 60000).
  assert (Hlast : latestStream (this (endStream clk d))
                  = Some (closeAt (now clk) q latest)).
  { unfold latestStream. rewrite E2. apply last_snoc. }
  exists q. split; [|split; [reflexivity|split]].
  - unfold recordedDuration. rewrite endStreamSession_fst, Hf, El, Ho.
    assert (Hf' : findOne uid gid (<[_id d:=this (endStream clk d)]> c)
                  = Some (mkDocument (_id d) (this (endStream clk d)) [])).
    { unfold findOne in *.
      destruct (list_find _ c) as [[i a]|] eqn:E; [|discriminate].
      inversion Hf; subst d; simpl in *.
      apply list_find_Some in E as (Hia & HP & Hmin).
      assert (E' : list_find (fun a => userId a = uid /\ guildId a = gid)
                     (<[i:=this (endStream clk (mkDocument i a []))]> c)
                   = Some (i, this (endStream clk (mkDocument i a [])))).
      { apply list_find_Some. split; [|split].
        - apply list_lookup_insert_eq. eapply lookup_lt_Some; eauto.
        - apply identity_key in E1. unfold key in E1. simpl in E1.
          inversion E1 as [[Hu Hg]]. rewrite Hu, Hg. exact HP.
        - intros j y Hj Hlt. rewrite list_lookup_insert_ne in Hj by lia.
          eauto. }
      rewrite E'. reflexivity. }
    rewrite Hf'. simpl. rewrite Hlast. reflexivity.
  - subst q. pose proof (Z.div_mod (now clk - startTime latest) 60000).
    pose proof (Z.mod_pos_bound (now clk - startTime latest) 60000). lia.
  - unfold endStreamSession. rewrite Hf, El, Ho. unfold save. cbn [snd].
    unfold detailsOf. cbn [this]. rewrite Hlast.
    eexists _, _. split; [reflexivity|]. repeat split.
Qed.

Lemma duration_is_floor_witness :
  exists q,
    recordedDuration (apr29 45000) "u1" "g" [oneLiveActivity] = Some q /\
    q = (45000 - 0) / 60000 /\
    60000 * q <= 45000 - 0 < 60000 * (q + 1) /\
    exists doc details,
      snd (endStreamSession (apr29 45000) "u1" "g" [oneLiveActivity])
      = Some (doc, Some details) /\
      sd_startTime details = 0 /\
      sd_endTime details = Some 45000 /\
      sd_duration details = q.
Proof.
  apply (duration_is_floor (apr29 45000) "u1" "g" [oneLiveActivity]
           (mkDocument 0 oneLiveActivity []) oneLiveSession);
    reflexivity.
Defined.

(** C6 as stated fails: a session closed 45 seconds after its start is
    recorded with 0 minutes, while 45000 / 60000 rounds to 1. *)
Lemma duration_is_not_rounded :
  recordedDuration (apr29 45000) "u1" "g" [oneLiveActivity]
  <> Some (Js.round_div (45000 - 0) 60000).
Proof. vm_compute. discriminate. Qed.

(** ** Reports *)

Example straddling_recorded :
  (fun s => (Report.startTime s, Report.endTime s, Report.duration s))
    <$> straddlingStreams
  = [(t10_50, Some t11_10, 20)].
Proof. reflexivity. Qed.

(** C2, as the code has it.  The seconds that the report of the window
    [[windowStart, windowEnd]] counts for a session are: for an open
    session, the clipped duration up to [windowEnd]; for a closed session
    with a positive recorded [duration], that many minutes in full,
    [duration * 60], whatever the window; for a closed session recorded
    with no minutes, the clipped duration.  The 10:50-11:10 session is
    recorded with 20 minutes and is counted for 1200 seconds in the window
    10:00-11:00 and for 1200 seconds in the window 11:00-12:00. *)
Theorem report_duration_of_session :
  (forall windowStart windowEnd activity stream,
      Report.durationSec windowStart windowEnd (Report.processedOf activity stream)
      = if isOpen stream
        then clippedDurationSeconds windowStart windowEnd (startTime stream) None
        else if 0 <? duration stream then duration stream * 60
        else clippedDurationSeconds windowStart windowEnd
               (startTime stream) (endTime stream)) /\
  Report.durationSec t10_00 t11_00 <$> straddlingStreams = [1200] /\
  Report.durationSec t11_00 t12_00 <$> straddlingStreams = [1200].
Proof.
  split; [|split; reflexivity].
  intros ws we activity stream.
  unfold Report.durationSec, Report.processedOf, clippedDurationSeconds, isOpen.
  cbn [Report.isIncomplete Report.duration Report.startTime Report.endTime].
  assert (Hs : (if ws <? startTime stream then startTime stream else ws)
               = Z.max (startTime stream) ws).
  { destruct (Z.ltb_spec ws (startTime stream)); lia. }
  rewrite Hs.
  destruct (endTime stream) as [e|]; simpl.
  - destruct (0 <? duration stream); [reflexivity|].
    replace (if e <? we then e else we) with (Z.min e we)
      by (destruct (Z.ltb_spec e we); lia).
    reflexivity.
  - rewrite Z.min_id. reflexivity.
Qed.

(** C2 as stated fails: in the window 10:00-11:00 the 10:50-11:10 session
    is counted for its 20 recorded minutes, not for the 10 minutes (600
    seconds) that fall in the window. *)
Lemma report_duration_not_clipped :
  Report.durationSec t10_00 t11_00 <$> straddlingStreams
  <> (fun s => clippedDurationSeconds t10_00 t11_00
                 (Report.startTime s) (Report.endTime s))
       <$> straddlingStreams.
Proof. vm_compute. discriminate. Qed.

Module ReportFacts.
Import Report.

Lemma insertDesc_not_nil {A} (key : A -> Z) x l : Js.insertDesc key x l <> [].
Proof. destruct l; simpl; [discriminate|]. destruct (_ <? _); discriminate. Qed.

Lemma sortDesc_nil {A} (key : A -> Z) l : Js.sortDesc key l = [] <-> l = [].
Proof.
  split; [|intros ->; reflexivity].
  destruct l as [|x l]; [reflexivity|]. simpl. intros H.
  exfalso. eapply insertDesc_not_nil; eauto.
Qed.

Lemma visit_grows ws we L seen ps :
  ps <> [] -> snd (fold_left (visit ws we) L (seen, ps)) <> [].
Proof.
  revert seen ps. induction L as [|[a s] L IH]; intros seen ps Hps; simpl; [exact Hps|].
  destruct (overlaps ws we s); [|auto].
  destruct (bool_decide _); [auto|].
  apply IH. destruct ps; discriminate.
Qed.

Lemma visit_nil ws we L :
  snd (fold_left (visit ws we) L ([], [])) = [] <->
  Forall (fun x => overlaps ws we (snd x) = false) L.
Proof.
  induction L as [|[a s] L IH]; simpl.
  - split; [constructor|reflexivity].
  - destruct (overlaps ws we s) eqn:E.
    + split.
      * intros H. exfalso. revert H. apply visit_grows. discriminate.
      * intros H. inversion H as [|? ? H1 _]; subst. simpl in H1. congruence.
    + rewrite IH. split; [intros H; constructor; auto|].
      intros H. inversion H; auto.
Qed.

Lemma noOverlap_find g ws we c :
  find true g ws we c = Js.Ok [] <-> noOverlap g ws we c = true.
Proof.
  unfold find, noOverlap. induction c as [|a c IH]; simpl.
  - split; reflexivity.
  - rewrite filter_cons. rewrite andb_true_iff, <- IH. clear IH.
    destruct (decide _) as [[Hg Hex]|Hn].
    + split; [intros [=]|]. intros [H _]. exfalso.
      rewrite bool_decide_eq_true_2 in H by exact Hg. simpl in H.
      rewrite forallb_forall in H. apply Exists_exists in Hex as (s & Hs & Ho).
      apply list_elem_of_In in Hs. specialize (H s Hs). rewrite Ho in H. discriminate.
    + split; [|intros [_ H]; exact H].
      intros H. split; [|exact H].
      destruct (decide (guildId a = g)) as [Hg|Hg].
      * rewrite bool_decide_eq_true_2 by exact Hg. simpl.
        apply forallb_forall. intros s Hs.
        destruct (overlaps ws we s) eqn:Ho; [|reflexivity].
        exfalso. apply Hn. split; [exact Hg|].
        apply Exists_exists. exists s. split; [apply list_elem_of_In; exact Hs|exact Ho].
      * rewrite bool_decide_eq_false_2 by exact Hg. reflexivity.
Qed.

Lemma processStreams_found_nil g ws we c acts :
  find true g ws we c = Js.Ok acts ->
  processStreams ws we acts = [] <-> acts = [].
Proof.
  intros Hf. split; [|intros ->; reflexivity].
  unfold processStreams. rewrite visit_nil.
  destruct acts as [|a acts]; [reflexivity|]. intros H. exfalso.
  assert (Ha : a ∈ filter (fun a => Model.guildId a = g /\
                            Exists (fun s => overlaps ws we s = true)
                              (Model.streams a)) c).
  { unfold find in Hf. inversion Hf as [Hf']. rewrite Hf'. left. }
  apply list_elem_of_filter in Ha as [[_ Hex] _].
  apply Exists_exists in Hex as (s & Hs & Ho).
  rewrite Forall_forall in H.
  specialize (H (a, s)). simpl in H. rewrite Ho in H.
  assert (false = true -> False) by discriminate.
  apply H0. symmetry. apply H.
  simpl. apply elem_of_app. left. apply list_elem_of_fmap. eauto.
Qed.

(** The [try] block of both reports. *)
Lemma tryReport_cases daily storeUp g ws we c :
  tryReport daily storeUp g ws we c =
  if storeUp then
    if noOverlap g ws we c then Js.Ok [NoStreams]
    else Js.Throw "pageCount is not defined"
  else Js.Throw "store unavailable".
Proof.
  unfold tryReport. destruct storeUp; [|reflexivity].
  destruct (find true g ws we c) as [acts|m] eqn:Hf; [|discriminate Hf].
  simpl.
  destruct (noOverlap g ws we c) eqn:Hn.
  - apply noOverlap_find in Hn. rewrite Hn in Hf. inversion Hf; subst.
    reflexivity.
  - destruct (Js.sortDesc startTime (processStreams ws we acts)) as [|p ps] eqn:Hs.
    + exfalso. apply sortDesc_nil in Hs.
      apply (processStreams_found_nil g ws we c acts Hf) in Hs. subst acts.
      apply noOverlap_find in Hf. congruence.
    + destruct (group ws we (p :: ps)) as [userStreams totals]. reflexivity.
Qed.

End ReportFacts.

(** C9.  Both report generators return a list of exactly one page in each
    of these cases, and never throw: the error page when the store rejects
    the query, the "No Streams" page when the store answers and no session
    of the guild overlaps the window, and the error page of the
    [ReferenceError] ("pageCount is not defined") raised in the middle of
    the generation when some session overlaps the window. *)
Theorem reports_never_throw (storeUp : bool) g windowStart windowEnd c :
  let expected :=
    if storeUp then
      if noOverlap g windowStart windowEnd c then [Report.NoStreams]
      else [Report.ErrorReport "pageCount is not defined"]
    else [Report.ErrorReport "store unavailable"] in
  Report.generateHourlyReport storeUp g windowStart windowEnd c = expected /\
  Report.generateDailyReport storeUp g windowStart windowEnd c = expected /\
  length expected = 1%nat.
Proof.
  cbv zeta. unfold Report.generateHourlyReport, Report.generateDailyReport.
  rewrite !ReportFacts.tryReport_cases.
  destruct storeUp; simpl; [|auto].
  destruct (noOverlap g windowStart windowEnd c); auto.
Qed.

Module PaginationFacts.
Import Report.

Section Loop.
Variables (keys : list string) (users : UserMap) (summary : Summary) (est : Z).

Local Abbreviation loop := (paginateLoop keys users summary est).
Local Abbreviation one := (paginateOne keys users summary est).

Lemma loop_app l1 l2 st :
  loop (l1 ++ l2) st = Js.bind (loop l1 st) (loop l2).
Proof.
  revert st. induction l1 as [|e l1 IH]; intros st; simpl; [reflexivity|].
  destruct (one st e) as [st'|m]; simpl; [apply IH|reflexivity].
Qed.

Lemma one_stream s st e :
  currentEmbed st = Some e ->
  one st (StreamEntry s) =
  Js.Ok (mkLoop (embeds st) (currentPage st) (streamsOnCurrentPage st + 1)
           (currentEmbed st) (currentUserContent st ++ [s]) (currentUserId st)).
Proof.
  intros He. unfold paginateOne. rewrite He. cbn [isUserHeader].
  rewrite andb_false_r. simpl. rewrite He. reflexivity.
Qed.

Lemma loop_cons e l st : loop (e :: l) st = Js.bind (one st e) (loop l).
Proof. reflexivity. Qed.

Lemma loop_streams ss st e :
  currentEmbed st = Some e ->
  loop (StreamEntry <$> ss) st =
  Js.Ok (mkLoop (embeds st) (currentPage st)
           (streamsOnCurrentPage st + Z.of_nat (length ss))
           (currentEmbed st) (currentUserContent st ++ ss) (currentUserId st)).
Proof.
  revert st. induction ss as [|s ss IH]; intros st He.
  - simpl. rewrite Z.add_0_r, app_nil_r. destruct st; reflexivity.
  - rewrite fmap_cons, loop_cons, (one_stream s st e He). cbn [Js.bind].
    rewrite IH by exact He. cbn [embeds currentPage streamsOnCurrentPage currentEmbed currentUserContent currentUserId].
    f_equal. f_equal; [rewrite length_cons; lia|].
    rewrite <- app_assoc. reflexivity.
Qed.

Lemma userOf_listed b : listed keys users b -> userOf users (Id (fst b)) = Js.Ok (snd b).
Proof. intros (H & _). unfold userOf. rewrite H. reflexivity. Qed.

Lemma one_header_break em cp n t s fields x xs id u name a b c :
  lookupUser users id = Some u ->
  (MAX_STREAMS_PER_PAGE <=? n) = true ->
  one (mkLoop em cp n (Some (Page t s fields)) (x :: xs) (Id id))
      (UserHeader name a b c) =
  Js.Ok (mkLoop (em ++ [Page t s (fields ++ [mkUserField u (x :: xs)])])
           (cp + 1) 0
           (Some (Page (if 1 <? est then PageNumber (cp + 1) else Plain) summary []))
           [] (findByUsername keys users name)).
Proof.
  intros Hu Hn. unfold paginateOne. simpl. rewrite Hn. simpl. rewrite ?Hu. simpl. rewrite ?Hu. reflexivity.
Qed.

Lemma one_header_same em cp n t s fields x xs id u name a b c :
  lookupUser users id = Some u ->
  (MAX_STREAMS_PER_PAGE <=? n) = false ->
  one (mkLoop em cp n (Some (Page t s fields)) (x :: xs) (Id id))
      (UserHeader name a b c) =
  Js.Ok (mkLoop em cp n (Some (Page t s (fields ++ [mkUserField u (x :: xs)])))
           [] (findByUsername keys users name)).
Proof.
  intros Hu Hn. unfold paginateOne. simpl. rewrite Hn. simpl. rewrite ?Hu. simpl. rewrite ?Hu. reflexivity.
Qed.

Lemma one_header_first name a b c :
  one (mkLoop [] 0 0 None [] Null) (UserHeader name a b c) =
  Js.Ok (mkLoop [] 1 0
           (Some (Page (if 1 <? est then PageNumber 1 else Plain) summary []))
           [] (findByUsername keys users name)).
Proof. reflexivity. Qed.

(** One block after another one. *)
Lemma loop_block b st done cur last count :
  listed keys users last -> listed keys users b ->
  between st done cur last count ->
  exists st',
    loop (UserHeader (usUsername (snd b)) (usStreamCount (snd b))
            (usTotalDuration (snd b)) (usIncompleteCount (snd b))
          :: (StreamEntry <$> usStreams (snd b))) st = Js.Ok st' /\
    if MAX_STREAMS_PER_PAGE <=? count
    then between st' (done ++ [cur ++ [last]]) [] b (blockSize b)
    else between st' done (cur ++ [last]) b (count + blockSize b).
Proof.
  intros (Hl1 & Hl2 & Hl3) (Hb1 & Hb2 & Hb3) (Hd & (t & s & He) & Hc & Hi & Hn).
  destruct st as [em cp n ce cc ci]. simpl in Hd, He, Hc, Hi, Hn. subst ce cc ci n.
  destruct (usStreams (snd last)) as [|x xs] eqn:Hx; [contradiction|].
  rewrite loop_cons.
  destruct (MAX_STREAMS_PER_PAGE <=? count) eqn:Hcmp.
  - rewrite (one_header_break _ _ _ _ _ _ _ _ _ _ _ _ _ _ Hl1 Hcmp). cbn [Js.bind].
    erewrite loop_streams by reflexivity.
    eexists. split; [reflexivity|].
    unfold between. simpl.
    split.
    { rewrite !fmap_app, Hd. simpl. rewrite fmap_app, <- Hx. reflexivity. }
    split; [eexists _, _; reflexivity|].
    split; [reflexivity|]. split; [exact Hb2|].
    unfold blockSize. lia.
  - rewrite (one_header_same _ _ _ _ _ _ _ _ _ _ _ _ _ _ Hl1 Hcmp). cbn [Js.bind].
    erewrite loop_streams by reflexivity.
    eexists. split; [reflexivity|].
    unfold between. simpl.
    split; [exact Hd|].
    split. { eexists _, _. rewrite fmap_app, <- Hx. reflexivity. }
    split; [reflexivity|]. split; [exact Hb2|].
    unfold blockSize. lia.
Qed.


(** The first block. *)
Lemma loop_first b :
  listed keys users b ->
  exists st',
    loop (UserHeader (usUsername (snd b)) (usStreamCount (snd b))
            (usTotalDuration (snd b)) (usIncompleteCount (snd b))
          :: (StreamEntry <$> usStreams (snd b))) (mkLoop [] 0 0 None [] Null)
    = Js.Ok st' /\
    between st' [] [] b (blockSize b).
Proof.
  intros (Hb1 & Hb2 & Hb3).
  rewrite loop_cons, one_header_first. cbn [Js.bind].
  erewrite loop_streams by reflexivity.
  eexists. split; [reflexivity|].
  unfold between. simpl.
  split; [reflexivity|]. split; [eexists _, _; reflexivity|].
  split; [reflexivity|]. split; [exact Hb2|]. unfold blockSize. lia.
Qed.

Lemma entriesOf_cons b rest :
  entriesOf (b :: rest) =
  (UserHeader (usUsername (snd b)) (usStreamCount (snd b))
     (usTotalDuration (snd b)) (usIncompleteCount (snd b))
   :: (StreamEntry <$> usStreams (snd b))) ++ entriesOf rest.
Proof. destruct b as [id u]. reflexivity. Qed.

Lemma loop_rest rest : forall st done cur last count,
  Forall (listed keys users) rest -> listed keys users last ->
  between st done cur last count ->
  exists pages,
    Js.bind (loop (entriesOf rest) st) (finish users) = Js.Ok pages /\
    pageFields <$> pages =
    (fun bs => fieldOf <$> bs) <$> (done ++ pagesFrom count (cur ++ [last]) rest).
Proof.
  induction rest as [|b rest IH]; intros st done cur last count Hrest Hlast Hst.
  - destruct Hst as (Hd & (t & s & He) & Hc & Hi & Hn).
    destruct Hlast as (Hl1 & Hl2 & Hl3).
    simpl. unfold finish. rewrite He, Hc, Hi.
    destruct (usStreams (snd last)) as [|x xs] eqn:Hx; [contradiction|].
    unfold userOf. rewrite Hl1. cbn [Js.bind].
    eexists. split; [reflexivity|].
    rewrite !fmap_app, Hd.
    destruct (cur ++ [last]) eqn:E; [destruct cur; discriminate|]. rewrite <- E.
    simpl. rewrite fmap_app, <- Hx. reflexivity.
  - inversion Hrest as [|? ? Hb Hrest']; subst.
    rewrite entriesOf_cons, loop_app.
    destruct (loop_block b st done cur last count Hlast Hb Hst) as (st' & -> & Hst').
    cbn [Js.bind].
    assert (Hne : cur ++ [last] <> []) by (destruct cur; discriminate).
    cbn [pagesFrom].
    destruct (cur ++ [last]) as [|c0 cs] eqn:E; [contradiction|].
    destruct (MAX_STREAMS_PER_PAGE <=? count).
    + destruct (IH st' _ _ _ _ Hrest' Hb Hst') as (pages & Hp & Hf).
      exists pages. split; [exact Hp|]. rewrite Hf, <- app_assoc. reflexivity.
    + destruct (IH st' _ _ _ _ Hrest' Hb Hst') as (pages & Hp & Hf).
      exists pages. split; [exact Hp|]. exact Hf.
Qed.

End Loop.

Lemma pageFields_retitle pages : pageFields <$> retitle pages = pageFields <$> pages.
Proof.
  unfold retitle. destruct (1 <? length pages)%nat; [|reflexivity].
  generalize (length pages). intros n.
  change S with (S ∘ id). generalize (@id nat).
  induction pages as [|e pages IH]; intros f; [reflexivity|].
  simpl. f_equal; [destruct e; reflexivity|]. apply (IH (f ∘ S)).
Qed.

End PaginationFacts.

(** The pagination loop follows the rule: on the entries of blocks that
    are [listed], it succeeds, and its pages hold, in order, the blocks
    that [pagesFrom] puts on them, each user's sessions in one field of one
    page. *)
Theorem paginate_follows_rule keys users summary est shown :
  Forall (listed keys users) shown ->
  exists pages,
    Report.paginate keys users summary est (Report.entriesOf shown) = Js.Ok pages /\
    Report.pageFields <$> pages = (fun bs => fieldOf <$> bs) <$> pagesFrom 0 [] shown.
Proof.
  intros Hs. unfold Report.paginate.
  destruct shown as [|b rest].
  - exists []. split; reflexivity.
  - inversion Hs as [|? ? Hb Hrest]; subst.
    rewrite PaginationFacts.entriesOf_cons, PaginationFacts.loop_app.
    destruct (PaginationFacts.loop_first keys users summary est b Hb)
      as (st' & -> & Hst').
    cbn [Js.bind].
    destruct (PaginationFacts.loop_rest keys users summary est rest
                st' [] [] b (blockSize b) Hrest Hb Hst') as (pages & Hp & Hf).
    destruct (Report.paginateLoop keys users summary est (Report.entriesOf rest) st')
      as [st''|m]; [|discriminate Hp].
    cbn [Js.bind] in Hp |- *. rewrite Hp. cbn [Js.bind].
    eexists. split; [reflexivity|].
    rewrite PaginationFacts.pageFields_retitle. exact Hf.
Qed.


(** C8 at its own example.  The window holds Ann's eight sessions and
    Bob's one, Ann first.  The pagination loop, run on the entries of this
    report, puts Ann's eight sessions on page 1 and starts page 2 for Bob.
    But the report never reaches the loop: the statement before it throws
    the [ReferenceError], and both generators return the single error
    page. *)
Theorem pagination_not_reached :
  (fun r => match r with
            | Js.Ok pages => Some (pageShape <$> pages)
            | Js.Throw _ => None
            end)
    (Report.paginate (fst <$> busyHourUsers) busyHourUsers busyHourSummary
       (Report.ceilDiv (Report.sumTotalStreams busyHourSummary)
          Report.MAX_STREAMS_PER_PAGE)
       (Report.entriesOf busyHourUsers))
  = Some [[("Ann", 8%nat)]; [("Bob", 1%nat)]] /\
  Report.generateHourlyReport true "g" 0 3600000 busyHour
  = [Report.ErrorReport "pageCount is not defined"] /\
  Report.generateDailyReport true "g" 0 3600000 busyHour
  = [Report.ErrorReport "pageCount is not defined"].
Proof. repeat split; vm_compute; reflexivity. Qed.

(** ** Leaderboard *)

Module LeaderboardFacts.
Import Leaderboard.

Section Sorting.
Context {A : Type} (key : A -> Z).

Lemma Forall_insertDesc (P : A -> Prop) x l :
  P x -> Forall P l -> Forall P (Js.insertDesc key x l).
Proof.
  intros Hx Hl. induction Hl as [|y l Hy Hl IH]; simpl.
  - constructor; auto.
  - destruct (key x <? key y); constructor; auto.
Qed.

Lemma Forall_sortDesc (P : A -> Prop) l :
  Forall P l -> Forall P (Js.sortDesc key l).
Proof.
  induction 1 as [|x l Hx Hl IH]; simpl; [constructor|].
  apply Forall_insertDesc; assumption.
Qed.

Lemma descending_insertDesc x l :
  descending key l -> descending key (Js.insertDesc key x l).
Proof.
  unfold descending. induction 1 as [|y l Hl IH Hy]; simpl.
  - constructor; constructor.
  - destruct (Z.ltb_spec (key x) (key y)) as [Hlt|Hge].
    + constructor; [exact IH|].
      apply Forall_insertDesc; [lia|exact Hy].
    + constructor; [constructor; assumption|].
      constructor; [exact Hge|].
      eapply Forall_impl; [exact Hy|]. simpl. intros z Hz. lia.
Qed.

Lemma descending_sortDesc l : descending key (Js.sortDesc key l).
Proof.
  induction l as [|x l IH]; simpl; [constructor|].
  apply descending_insertDesc, IH.
Qed.

Lemma descending_take n l : descending key l -> descending key (take n l).
Proof.
  unfold descending. intros H. revert n.
  induction H as [|x l Hl IH Hx]; intros [|n]; simpl; try constructor; auto.
  apply Forall_take, Hx.
Qed.




End Sorting.

Lemma slice_end_le len n : (0 <= n -> Z.of_nat (Js.slice_end len n) <= n)%Z.
Proof.
  intros Hn. unfold Js.slice_end.
  destruct (Z.ltb_spec n 0); lia.
Qed.


Lemma userId_entryOf period a : userId (entryOf period a) = Model.userId a.
Proof.
  unfold entryOf.
  repeat case_bool_decide;
    repeat match goal with
           | |- context [match ?w with Some _ => _ | None => _ end] => destruct w
           end; reflexivity.
Qed.

Lemma key_inj c a a' :
  NoDup (key <$> c) -> a ∈ c -> a' ∈ c -> key a = key a' -> a = a'.
Proof.
  intros Hnd Ha Ha' Hk.
  apply list_elem_of_lookup in Ha as [i Hi].
  apply list_elem_of_lookup in Ha' as [j Hj].
  assert (i = j).
  { eapply NoDup_lookup; [exact Hnd| |].
    - rewrite list_lookup_fmap, Hi. reflexivity.
    - rewrite list_lookup_fmap, Hj. simpl. congruence. }
  subst j. congruence.
Qed.



Lemma leaderboard_entries g period limit c :
  let r := getServerStreamLeaderboard g period limit c in
  Forall (fun e => 0 < streamTime e /\
                   exists a, a ∈ c /\ guildId a = g /\ e = entryOf period a) r /\
  descending streamTime r /\
  (0 <= limit -> Z.of_nat (length r) <= limit).
Proof.
  cbv zeta. unfold getServerStreamLeaderboard.
  destruct (filter (fun a => guildId a = g) c) as [|u users] eqn:Hu.
  { split; [constructor|]. split; [constructor|]. simpl. lia. }
  rewrite <- Hu. clear Hu u users.
  set (full := Js.sortDesc streamTime _).
  assert (Hfull : Forall (fun e => 0 < streamTime e /\
                     exists a, a ∈ c /\ guildId a = g /\ e = entryOf period a) full).
  { apply Forall_sortDesc. apply Forall_forall. intros e He.
    apply list_elem_of_filter in He as [Hpos He].
    apply list_elem_of_fmap in He as (a & -> & Ha).
    apply list_elem_of_filter in Ha as [Hg Ha].
    split; [exact Hpos|]. exists a. auto. }
  unfold Js.slice0. split; [apply Forall_take, Hfull|].
  split; [apply descending_take, descending_sortDesc|].
  intros Hl. rewrite length_take.
  pose proof (slice_end_le (length full) limit Hl). lia.
Qed.

End LeaderboardFacts.

Example annInterrupted_board :
  Leaderboard.getServerStreamLeaderboard "g" "all" 10 (run annInterrupted [])
  = [Leaderboard.mkEntry "u2" "Bob" 2 1].
Proof. reflexivity. Qed.



(** ** Crash recovery *)

Module RecoveryFacts.
Import Recovery.

(** The in-memory value after a method depends on the in-memory value
    before it only. *)
Lemma this_assign u d d' : this d = this d' -> this (assign u d) = this (assign u d').
Proof. unfold assign; simpl. intros ->. reflexivity. Qed.

Lemma this_incTotalStreams d d' :
  this d = this d' -> this (incTotalStreams d) = this (incTotalStreams d').
Proof. unfold incTotalStreams, assign; simpl. intros ->. reflexivity. Qed.

Lemma this_countOnly p d d' :
  this d = this d' -> this (countOnly p d) = this (countOnly p d').
Proof.
  unfold countOnly. intros H. rewrite H.
  destruct (total p (this d')); [|exact H].
  unfold assign; simpl. rewrite H. reflexivity.
Qed.

Lemma this_interruptLatest clk latest d d' :
  this d = this d' ->
  this (interruptLatest clk latest d) = this (interruptLatest clk latest d').
Proof.
  intros H. unfold interruptLatest. cbv zeta. rewrite H.
  apply this_assign. do 3 apply this_countOnly.
  apply this_incTotalStreams. do 3 apply this_assign. exact H.
Qed.

Lemma key_interruptIfOpen clk a : key (interruptIfOpen clk a) = key a.
Proof.
  unfold interruptIfOpen. destruct (latestStream a) as [s|]; [|reflexivity].
  destruct (isOpen s); [|reflexivity].
  apply identity_key. apply (interruptLatest_open clk (mkDocument 0 a []) s).
Qed.

Lemma interruptIfOpen_idem clk a :
  interruptIfOpen clk (interruptIfOpen clk a) = interruptIfOpen clk a.
Proof.
  unfold interruptIfOpen at 2 3. destruct (latestStream a) as [s|] eqn:El.
  - destruct (isOpen s) eqn:Ho.
    + destruct (interruptLatest_open clk (mkDocument 0 a []) s) as (_ & E2 & _).
      destruct (latest_snoc _ _ El) as (l & Hl & Hidx).
      cbn [this] in E2. rewrite Hl, Hidx, alter_snoc in E2.
      unfold interruptIfOpen, latestStream. rewrite E2, last_snoc. reflexivity.
    + unfold interruptIfOpen. rewrite El, Ho. reflexivity.
  - unfold interruptIfOpen. rewrite El. reflexivity.
Qed.

(** With one document per key, altering the document of a key is a map. *)
Lemma map_at_key (G : StreamActivity -> StreamActivity) c i a :
  NoDup (key <$> c) -> c !! i = Some a ->
  (fun b => if decide (key b = key a) then G b else b) <$> c = <[i := G a]> c.
Proof.
  intros Hnd Hi. apply list_eq. intros j. rewrite list_lookup_fmap.
  destruct (decide (i = j)) as [<-|Hne].
  - rewrite Hi. simpl. rewrite decide_True by reflexivity.
    symmetry. apply list_lookup_insert_eq. eapply lookup_lt_Some; eauto.
  - rewrite list_lookup_insert_ne by exact Hne.
    destruct (c !! j) as [b|] eqn:Hj; [|reflexivity]. simpl.
    rewrite decide_False; [reflexivity|]. intros Hk. apply Hne.
    eapply NoDup_lookup; [exact Hnd| |].
    + rewrite list_lookup_fmap, Hi. reflexivity.
    + rewrite list_lookup_fmap, Hj. simpl. congruence.
Qed.

Lemma markStreamAsInterrupted_map clk uid gid c :
  NoDup (key <$> c) ->
  fst (Tracker.markStreamAsInterrupted clk uid gid c) =
  (fun b => if decide (key b = (uid, gid)) then interruptIfOpen clk b else b) <$> c.
Proof.
  intros Hnd. rewrite markStreamAsInterrupted_fst.
  destruct (findOne uid gid c) as [d|] eqn:Hf.
  - destruct (findOne_Some _ _ _ _ Hf) as (_ & Hi & Hk).
    rewrite <- Hk, (map_at_key (interruptIfOpen clk) c (_id d) (this d) Hnd Hi).
    unfold interruptIfOpen.
    destruct (latestStream (this d)) as [s|];
      [|symmetry; apply list_insert_id; exact Hi].
    destruct (isOpen s); [|symmetry; apply list_insert_id; exact Hi].
    f_equal. apply this_interruptLatest. reflexivity.
  - apply findOne_None in Hf. symmetry.
    transitivity (id <$> c); [|apply list_fmap_id].
    apply Forall_fmap_ext_1. eapply Forall_impl; [exact Hf|].
    intros b Hb. simpl. rewrite decide_False by exact Hb. reflexivity.
Qed.

(** [getAllActiveStreams] lists the aggregates whose latest session is
    open, in the order of the collection. *)
Lemma getAllActiveStreams_omap env c :
  storeReady env = true -> getAllActiveStreams env c = omap activeOf c.
Proof.
  intros Hr. unfold getAllActiveStreams. rewrite Hr.
  set (f := fun (activeStreams : list ActiveStream) (activity : StreamActivity) => _).
  assert (Hfold : forall l acc, fold_left f l acc = acc ++ omap activeOf l).
  { induction l as [|a l IH]; intros acc; simpl; [symmetry; apply app_nil_r|].
    rewrite IH. subst f. cbv beta. unfold activeOf at 2.
    destruct (latestStream a) as [s|]; [|reflexivity].
    destruct (isOpen s); [|reflexivity].
    rewrite <- app_assoc. reflexivity. }
  rewrite Hfold. simpl. clear Hfold f.
  induction c as [|a c IH]; [reflexivity|].
  assert (Hcons : forall l, omap activeOf (a :: l)
                            = match activeOf a with
                              | Some y => y :: omap activeOf l
                              | None => omap activeOf l
                              end) by reflexivity.
  rewrite filter_cons. destruct (decide _) as [Hex|Hn].
  - rewrite !Hcons, IH. reflexivity.
  - rewrite Hcons, IH. unfold activeOf at 2.
    destruct (latestStream a) as [s|] eqn:El; [|reflexivity].
    destruct (isOpen s) eqn:Ho; [|reflexivity].
    exfalso. apply Hn. apply Exists_exists. exists s. split; [|exact Ho].
    apply last_Some_elem_of. exact El.
Qed.

Lemma reconcile_ok env clk s c :
  (forall u g, storeRejects env u g = false) ->
  exists events,
    reconcile env clk s c =
    Js.Ok (if interrupts env s
           then fst (Tracker.markStreamAsInterrupted clk (userId s) (guildId s) c)
           else c, events).
Proof.
  intros Hok. unfold reconcile, interrupts, Recovery.markStreamAsInterrupted.
  rewrite Hok.
  destruct (guildCached env (guildId s)); simpl; [|eexists; reflexivity].
  destruct (userFetched env (userId s)); simpl; [|eexists; reflexivity].
  destruct (isCurrentlyStreaming env s); simpl; [eexists; reflexivity|].
  destruct (snd (Tracker.markStreamAsInterrupted clk (userId s) (guildId s) c))
    as [[? [?|]]|]; eexists; reflexivity.
Qed.

Lemma key_activeOf a s :
  activeOf a = Some s -> (userId s, guildId s) = key a.
Proof.
  unfold activeOf. destruct (latestStream a) as [l|]; [|discriminate].
  destruct (isOpen l); [|discriminate]. intros [= <-]. reflexivity.
Qed.

Lemma interruptIfOpen_closed clk a : activeOf a = None -> interruptIfOpen clk a = a.
Proof.
  unfold activeOf, interruptIfOpen. destruct (latestStream a) as [l|]; [|reflexivity].
  destruct (isOpen l); [discriminate|reflexivity].
Qed.

Lemma forEach_map env clk L :
  (forall u g, storeRejects env u g = false) ->
  forall c log,
    NoDup (key <$> c) ->
    exists log',
      forEach env clk L c log =
      ((fun b => if touched env L b then interruptIfOpen clk b else b) <$> c,
       log', None).
Proof.
  intros Hok. induction L as [|s L IH]; intros c log Hnd.
  - exists log. simpl. rewrite list_fmap_id. reflexivity.
  - simpl. destruct (reconcile_ok env clk s c Hok) as [events ->].
    set (c1 := if interrupts env s then _ else c).
    assert (Hc1 : c1 = (fun b => if bool_decide ((userId s, guildId s) = key b)
                                      && interrupts env s
                                 then interruptIfOpen clk b else b) <$> c).
    { subst c1. destruct (interrupts env s).
      - rewrite markStreamAsInterrupted_map by exact Hnd.
        apply Forall_fmap_ext_1, Forall_forall. intros b _.
        rewrite andb_true_r.
        destruct (decide (key b = (userId s, guildId s))) as [E|E].
        + rewrite bool_decide_eq_true_2 by congruence. reflexivity.
        + rewrite bool_decide_eq_false_2 by congruence. reflexivity.
      - transitivity (id <$> c); [symmetry; apply list_fmap_id|].
        apply Forall_fmap_ext_1, Forall_forall. intros b _.
        rewrite andb_false_r. reflexivity. }
    assert (Hnd1 : NoDup (key <$> c1)).
    { rewrite Hc1, <- list_fmap_compose.
      replace (key ∘ _ <$> c) with (key <$> c); [exact Hnd|].
      apply Forall_fmap_ext_1, Forall_forall. intros b _. simpl.
      destruct (_ && _); [|reflexivity]. symmetry. apply key_interruptIfOpen. }
    destruct (IH c1 (log ++ events) Hnd1) as [log' ->].
    exists log'. f_equal. f_equal.
    rewrite Hc1, <- list_fmap_compose.
    apply Forall_fmap_ext_1, Forall_forall. intros b _. simpl.
    destruct (bool_decide ((userId s, guildId s) = key b) && interrupts env s); simpl.
    + destruct (touched env L (interruptIfOpen clk b));
        [apply interruptIfOpen_idem|reflexivity].
    + reflexivity.
Qed.

(** The pass as a map over the collection, when the store answers. *)
Lemma checkPreviousSessionStreams_recovered env clk c :
  storeReady env = true ->
  (forall u g, storeRejects env u g = false) ->
  NoDup (key <$> c) ->
  exists log,
    checkPreviousSessionStreams env clk c = (recovered env clk <$> c, log, None).
Proof.
  intros Hr Hok Hnd. unfold checkPreviousSessionStreams.
  rewrite getAllActiveStreams_omap by exact Hr.
  destruct (forEach_map env clk (omap activeOf c) Hok c [] Hnd) as [log ->].
  exists log. f_equal. f_equal.
  apply Forall_fmap_ext_1, Forall_forall. intros b Hb.
  unfold recovered. destruct (activeOf b) as [s|] eqn:Hs.
  - destruct (interrupts env s) eqn:Hi.
    + replace (touched env (omap activeOf c) b) with true; [reflexivity|].
      symmetry. apply existsb_exists. exists s. split.
      * apply list_elem_of_In, list_elem_of_omap. eauto.
      * rewrite bool_decide_eq_true_2 by (apply key_activeOf; exact Hs).
        exact Hi.
    + replace (touched env (omap activeOf c) b) with false; [reflexivity|].
      symmetry. apply not_true_is_false. intros Ht.
      apply existsb_exists in Ht as (s' & Hs' & Hcond).
      apply andb_true_iff in Hcond as [Hk Hi'].
      apply bool_decide_eq_true_1 in Hk.
      apply list_elem_of_In, list_elem_of_omap in Hs' as (b' & Hb' & Hsb').
      assert (b' = b).
      { apply (LeaderboardFacts.key_inj c); auto.
        rewrite <- (key_activeOf _ _ Hsb'). exact Hk. }
      subst b'. congruence.
  - destruct (touched env _ b); [apply interruptIfOpen_closed; exact Hs|reflexivity].
Qed.

Lemma interrupts_streamingIn env a latest s :
  latestStream a = Some latest -> isOpen latest = true ->
  Model.channelId latest <> "" ->
  activeOf a = Some s ->
  (interrupts env s = false <->
   streamingIn env (Model.userId a) (Model.guildId a) (Model.channelId latest)).
Proof.
  intros El Ho Hch. unfold activeOf. rewrite El, Ho. intros [= <-].
  unfold interrupts, streamingIn, isCurrentlyStreaming. simpl.
  destruct (guildCached env (Model.guildId a)); simpl;
    [|split; [discriminate|intros [? _]; discriminate]].
  destruct (userFetched env (Model.userId a)); simpl;
    [|split; [discriminate|intros (_ & ? & _); discriminate]].
  destruct (memberVoice env (Model.guildId a) (Model.userId a)) as [v|]; simpl;
    [|split; [discriminate|intros (_ & _ & v & ? & _); discriminate]].
  destruct (voiceChannelId v) as [ch|] eqn:Hv; simpl;
    [|split; [discriminate|intros (_ & _ & v' & [= <-] & ? & _); congruence]].
  split.
  - intros H. apply negb_false_iff in H.
    apply andb_true_iff in H as [H H3]. apply andb_true_iff in H as [H1 H2].
    apply bool_decide_eq_true_1 in H3. subst ch.
    split; [reflexivity|]. split; [reflexivity|].
    exists v. auto.
  - intros (_ & _ & v' & [= <-] & Hv' & Hst).
    rewrite Hv in Hv'. inversion Hv'; subst ch.
    apply negb_false_iff. rewrite Hst.
    rewrite bool_decide_eq_false_2 by exact Hch.
    rewrite bool_decide_eq_true_2 by reflexivity. reflexivity.
Qed.

End RecoveryFacts.

(** C5.  The store answering and holding one aggregate per key: for an
    aggregate whose latest session is open and was recorded in channel [A],
    the pass leaves the aggregate as it is when the member can be resolved
    and is streaming in [A]; otherwise (guild or user or member not
    resolved, not in a voice channel, not streaming, or streaming in
    another channel) it closes the session at the current time with
    [interrupted = true], still recorded in [A].  The session is open
    after the pass exactly when the member is streaming in [A]. *)
Theorem recovery_same_channel_only env clk c i a latest :
  Recovery.storeReady env = true ->
  (forall u g, Recovery.storeRejects env u g = false) ->
  NoDup (key <$> c) ->
  c !! i = Some a ->
  latestStream a = Some latest ->
  isOpen latest = true ->
  channelId latest <> "" ->
  let c' := fst (fst (Recovery.checkPreviousSessionStreams env clk c)) in
  let live := streamingIn env (userId a) (guildId a) (channelId latest) in
  exists a',
    c' !! i = Some a' /\
    (live -> a' = a) /\
    (~ live ->
     exists s', latestStream a' = Some s' /\ interrupted s' = true /\
                endTime s' = Some (now clk) /\ channelId s' = channelId latest) /\
    ((exists s', latestStream a' = Some s' /\ isOpen s' = true) <-> live).
Proof.
  intros Hr Hok Hnd Hi El Ho Hch. cbv zeta.
  destruct (RecoveryFacts.checkPreviousSessionStreams_recovered env clk c Hr Hok Hnd)
    as [log ->]. cbn [fst].
  exists (recovered env clk a).
  split; [rewrite list_lookup_fmap, Hi; reflexivity|].
  unfold recovered.
  destruct (activeOf a) as [s|] eqn:Hs;
    [|unfold activeOf in Hs; rewrite El, Ho in Hs; discriminate].
  pose proof (RecoveryFacts.interrupts_streamingIn env a latest s El Ho Hch Hs) as Hlive.
  destruct (interrupts env s).
  - assert (Hn : ~ streamingIn env (userId a) (guildId a) (channelId latest)).
    { intros H. apply Hlive in H. discriminate. }
    assert (Hlast : latestStream (interruptIfOpen clk a)
                    = Some (interruptAt (now clk)
                              (Js.floor_div (now clk - startTime latest) (1000 * 60))
                              latest)).
    { unfold interruptIfOpen. rewrite El, Ho.
      destruct (interruptLatest_open clk (mkDocument 0 a []) latest) as (_ & E2 & _).
      destruct (latest_snoc _ _ El) as (l & Hl & Hidx).
      cbn [this] in E2. rewrite Hl, Hidx, alter_snoc in E2.
      unfold latestStream. rewrite E2. apply last_snoc. }
    split; [intros H; contradiction|]. split.
    + intros _. eexists. split; [exact Hlast|]. repeat split.
    + split; [|intros H; contradiction].
      intros (s' & Hs' & Ho'). rewrite Hlast in Hs'. inversion Hs'; subst s'.
      discriminate Ho'.
  - assert (Hl : streamingIn env (userId a) (guildId a) (channelId latest))
      by (apply Hlive; reflexivity).
    split; [reflexivity|]. split; [intros H; contradiction|].
    split; [intros _; exact Hl|]. intros _. eauto.
Qed.

Lemma recovery_same_channel_only_witness :
  exists a',
    fst (fst (Recovery.checkPreviousSessionStreams movedToB (apr29 120000)
                [oneLiveActivity])) !! 0%nat = Some a' /\
    (streamingIn movedToB "u1" "g" "A" -> a' = oneLiveActivity) /\
    (~ streamingIn movedToB "u1" "g" "A" ->
     exists s', latestStream a' = Some s' /\ interrupted s' = true /\
                endTime s' = Some 120000 /\ channelId s' = "A") /\
    ((exists s', latestStream a' = Some s' /\ isOpen s' = true)
     <-> streamingIn movedToB "u1" "g" "A").
Proof.
  apply (recovery_same_channel_only movedToB (apr29 120000) [oneLiveActivity]
           0%nat oneLiveActivity oneLiveSession); try reflexivity.
  - simpl. apply NoDup_singleton.
  - simpl. discriminate.
Defined.

(** The two outcomes for Ann's session recorded in ["A"]: left alone when
    she still streams in ["A"], interrupted with a notice when she streams
    in ["B"]. *)
Example recovery_outcomes :
  Recovery.checkPreviousSessionStreams stillInA (apr29 120000) [oneLiveActivity]
  = ([oneLiveActivity], [Recovery.StillStreaming "u1" "g"], None) /\
  snd (fst (Recovery.checkPreviousSessionStreams movedToB (apr29 120000)
              [oneLiveActivity]))
  = [Recovery.MarkedInterrupted "u1" "g";
     Recovery.NotifiedInterrupted "u1" "g" "A" 2].
Proof. split; reflexivity. Qed.

(** C7 at a failing input.  With the store answering, both sessions are
    closed as interrupted, also when Ann's member cannot be fetched.  With
    the store rejecting the calls made for Ann, the pass ends in its
    [catch] at Ann: Bob's session is not examined and stays open. *)
Theorem recovery_aborted_by_store_failure :
  let pass env := Recovery.checkPreviousSessionStreams env (minute 60) twoLive in
  openKeys twoLive = ["u1"; "u2"] /\
  openKeys (fst (fst (pass (nobodyLive (fun _ _ => false))))) = [] /\
  openKeys (fst (fst (pass (unresolved "u1")))) = [] /\
  pass (nobodyLive (fun u _ => bool_decide (u = "u1")))
  = (twoLive, [], Some "store unavailable").
Proof. repeat split; vm_compute; reflexivity. Qed.

(** * Further properties of the code *)

(** ** Records and queries of the tracker *)

Module QueryFacts.
Import Laws Queries.

Lemma sumZ_app l1 l2 : sumZ (l1 ++ l2) = sumZ l1 + sumZ l2.
Proof. unfold sumZ. induction l1 as [|x l1 IH]; simpl; lia. Qed.

Lemma sumZ_Permutation l1 l2 : l1 ≡ₚ l2 -> sumZ l1 = sumZ l2.
Proof. unfold sumZ. induction 1; simpl; lia. Qed.

Lemma insertDesc_Permutation {A} (key : A -> Z) x l :
  Js.insertDesc key x l ≡ₚ x :: l.
Proof.
  induction l as [|y l IH]; simpl; [reflexivity|].
  destruct (key x <? key y); [|reflexivity].
  rewrite IH. apply Permutation_swap.
Qed.

Lemma sortDesc_Permutation {A} (key : A -> Z) l : Js.sortDesc key l ≡ₚ l.
Proof.
  induction l as [|x l IH]; simpl; [reflexivity|].
  rewrite insertDesc_Permutation, IH. reflexivity.
Qed.

Lemma completedMinutes_Permutation l1 l2 :
  l1 ≡ₚ l2 -> completedMinutes l1 = completedMinutes l2.
Proof.
  intros H. unfold completedMinutes. apply sumZ_Permutation.
  apply fmap_Permutation. rewrite H. reflexivity.
Qed.

Lemma completedMinutes_app l1 l2 :
  completedMinutes (l1 ++ l2) = completedMinutes l1 + completedMinutes l2.
Proof. unfold completedMinutes. rewrite filter_app, fmap_app. apply sumZ_app. Qed.

Lemma minutesShown_history l :
  minutesShown (historyEntryOf <$> l) = completedMinutes l.
Proof.
  induction l as [|s l IH]; [reflexivity|].
  change (default 0 (he_duration (historyEntryOf s))
          + minutesShown (historyEntryOf <$> l) = completedMinutes ([s] ++ l)).
  rewrite completedMinutes_app, IH. f_equal.
  unfold completedMinutes, historyEntryOf. rewrite filter_cons, filter_nil.
  destruct (interrupted s) eqn:E.
  - rewrite decide_False by discriminate. reflexivity.
  - rewrite decide_True by reflexivity. simpl. lia.
Qed.

(** *** The sessions that have ended *)

Lemma ended_snoc_open a l s :
  streams a = l ++ [s] -> isOpen s = true ->
  ended a = filter (fun s => isOpen s = false) l.
Proof.
  intros E H. unfold ended. rewrite E, filter_app, filter_cons, filter_nil.
  rewrite decide_False by (rewrite H; discriminate). apply app_nil_r.
Qed.

Lemma ended_snoc_closed a l s :
  streams a = l ++ [s] -> isOpen s = false ->
  ended a = filter (fun s => isOpen s = false) l ++ [s].
Proof.
  intros E H. unfold ended. rewrite E, filter_app, filter_cons, filter_nil.
  rewrite decide_True by exact H. reflexivity.
Qed.

Lemma accounted_new clk uid uname gid gname :
  accounted (newStreamActivity clk uid uname gid gname).
Proof. split; reflexivity. Qed.

(** Closing the open latest session, its minutes added or not. *)
Lemma accounted_close a a' l s s' n :
  accounted a -> streams a = l ++ [s] -> isOpen s = true ->
  streams a' = l ++ [s'] -> isOpen s' = false ->
  totalStreams a' = totalStreams a + 1 ->
  totalStreamTime a' = totalStreamTime a + n ->
  (if interrupted s' then n = 0 else n = duration s') ->
  accounted a'.
Proof.
  intros [H1 H2] E O E' C T1 T2 Hn. unfold accounted.
  rewrite (ended_snoc_closed _ _ _ E' C), T1, T2, H1, H2.
  rewrite (ended_snoc_open _ _ _ E O).
  rewrite length_app, completedMinutes_app. split; [simpl; lia|].
  f_equal. unfold completedMinutes. rewrite filter_cons, filter_nil.
  destruct (interrupted s').
  - rewrite decide_False by discriminate. subst n. reflexivity.
  - rewrite decide_True by reflexivity. subst n. simpl. lia.
Qed.

Lemma accounted_push a a' s :
  accounted a -> streams a' = streams a ++ [s] -> isOpen s = true ->
  totalStreams a' = totalStreams a -> totalStreamTime a' = totalStreamTime a ->
  accounted a'.
Proof.
  intros [H1 H2] E O T1 T2. unfold accounted.
  rewrite T1, T2, H1, H2. unfold ended. rewrite E, filter_app, filter_cons, filter_nil.
  rewrite decide_False by (rewrite O; discriminate). rewrite app_nil_r. split; reflexivity.
Qed.

(** *** The counters are kept by the three operations *)

Lemma accounted_endStreamSession clk uid gid c :
  Inv c -> Forall accounted c ->
  Forall accounted (fst (endStreamSession clk uid gid c)).
Proof.
  intros HI HA. rewrite endStreamSession_fst.
  destruct (findOne uid gid c) as [d|] eqn:Hf; [|exact HA].
  destruct (latestStream (this d)) as [latest|] eqn:Hl; [|exact HA].
  destruct (isOpen latest) eqn:Ho; [|exact HA].
  destruct (findOne_Some _ _ _ _ Hf) as (_ & Hd & _).
  apply Forall_insert; [exact HA|].
  destruct (endStream_open clk d latest Hl Ho) as (_ & Hs & Hn & Ht & _).
  destruct (latest_snoc _ _ Hl) as (l & El & Ei).
  rewrite Ei, El, alter_snoc in Hs.
  eapply (accounted_close (this d) _ l latest);
    [ | exact El | exact Ho | exact Hs | reflexivity | exact Hn | exact Ht | ].
  - eapply Forall_lookup_1 in HA; eauto.
  - cbn. pose proof (sound_open _ (Inv_lookup _ _ _ HI Hd)) as Hso.
    rewrite El, Forall_app, Forall_singleton in Hso. destruct Hso as [_ Hso].
    rewrite (Hso Ho). reflexivity.
Qed.

Lemma accounted_markStreamAsInterrupted clk uid gid c :
  Inv c -> Forall accounted c ->
  Forall accounted (fst (markStreamAsInterrupted clk uid gid c)).
Proof.
  intros HI HA. rewrite markStreamAsInterrupted_fst.
  destruct (findOne uid gid c) as [d|] eqn:Hf; [|exact HA].
  destruct (latestStream (this d)) as [latest|] eqn:Hl; [|exact HA].
  destruct (isOpen latest) eqn:Ho; [|exact HA].
  destruct (findOne_Some _ _ _ _ Hf) as (_ & Hd & _).
  apply Forall_insert; [exact HA|].
  destruct (interruptLatest_open clk d latest) as (_ & Hs & Hn & Ht & _).
  destruct (latest_snoc _ _ Hl) as (l & El & Ei).
  rewrite Ei, El, alter_snoc in Hs.
  eapply (accounted_close (this d) _ l latest _ 0);
    [ | exact El | exact Ho | exact Hs | reflexivity | exact Hn | | reflexivity ].
  - eapply Forall_lookup_1 in HA; eauto.
  - rewrite Ht. lia.
Qed.

Lemma accounted_getOrCreateStreamActivity clk uid uname gid gname c :
  Forall accounted c ->
  Forall accounted (fst (getOrCreateStreamActivity clk uid uname gid gname c)).
Proof.
  intros HA. unfold getOrCreateStreamActivity.
  destruct (findOne uid gid c); [exact HA|].
  cbn. apply Forall_app. split; [exact HA|].
  apply Forall_singleton, accounted_new.
Qed.

Lemma accounted_startStreamSession clkNew clkEnd clkStart uid uname gid gname ch chn c :
  Inv c -> Forall accounted c ->
  Forall accounted
    (fst (startStreamSession clkNew clkEnd clkStart uid uname gid gname ch chn c)).
Proof.
  intros HI HA.
  destruct (startStreamSession_spec clkNew clkEnd clkStart uid uname gid gname ch chn c HI)
    as (i & a1 & a2 & a3 & H1 & _ & E2 & _ & _ & E3 & Hs & Ht1 & Ht2 & _ & _).
  pose proof (accounted_getOrCreateStreamActivity clkNew uid uname gid gname c HA) as HA1.
  destruct (getOrCreateStreamActivity_spec clkNew uid uname gid gname c HI) as [HI1 _].
  pose proof (accounted_endStreamSession clkEnd uid gid _ HI1 HA1) as HA2.
  rewrite E3. apply Forall_insert; [exact HA2|].
  assert (accounted a2) as Ha2.
  { eapply Forall_lookup_1; [exact HA2|]. rewrite E2.
    apply list_lookup_insert_eq. eapply lookup_lt_Some; eauto. }
  eapply accounted_push; eauto.
Qed.

Lemma accounted_step c o : Inv c -> Forall accounted c -> Forall accounted (step c o).
Proof.
  destruct o; simpl.
  - apply accounted_startStreamSession.
  - apply accounted_endStreamSession.
  - apply accounted_markStreamAsInterrupted.
Qed.

Lemma accounted_run ops : forall c,
  Inv c -> Forall accounted c -> Forall accounted (run ops c).
Proof.
  induction ops as [|o ops IH]; intros c HI HA; [exact HA|].
  apply IH; [apply Inv_step; exact HI | apply accounted_step; assumption].
Qed.

(** *** The history *)

Lemma getUserStreamHistory_sorted uid gid limit c :
  getUserStreamHistory uid gid limit c =
  historyEntryOf <$>
    (if 0 <? limit
     then Js.slice0 (Js.sortDesc startTime (endedOf uid gid c)) limit
     else Js.sortDesc startTime (endedOf uid gid c)).
Proof.
  assert (forall n, historyEntryOf <$> Js.slice0 (Js.sortDesc startTime []) n = [])
    as Hnil by (intros n; unfold Js.slice0; cbn; rewrite take_nil; reflexivity).
  unfold getUserStreamHistory, endedOf, ended.
  destruct (findOne uid gid c) as [d|];
    [|destruct (0 <? limit); [rewrite Hnil|]; reflexivity].
  destruct (streams (this d)) eqn:E; [|reflexivity].
  rewrite filter_nil. destruct (0 <? limit); [rewrite Hnil|]; reflexivity.
Qed.

Lemma descending_fmap {A B} (f : A -> B) (key : A -> Z) (key' : B -> Z) l :
  (forall x, key' (f x) = key x) ->
  descending key l -> descending key' (f <$> l).
Proof.
  intros Hk. unfold descending. induction 1 as [|x l Hl IH Hx]; simpl; constructor.
  - exact IH.
  - apply Forall_fmap. eapply Forall_impl; [exact Hx|].
    intros y Hy. simpl. rewrite !Hk. exact Hy.
Qed.

Lemma wellShown_ended s : isOpen s = false -> wellShown (historyEntryOf s).
Proof.
  intros H. unfold wellShown, historyEntryOf, isOpen in *.
  destruct (interrupted s); simpl; [split; reflexivity|].
  destruct (endTime s); [split; eexists; reflexivity | discriminate].
Qed.

Lemma slice0_take {A} (l : list A) n :
  Js.slice0 l n = take (Js.slice_end (length l) n) l.
Proof. reflexivity. Qed.

Lemma slice_end_pos len n :
  0 < n -> Z.of_nat (Js.slice_end len n) = Z.min n (Z.of_nat len).
Proof.
  intros H. unfold Js.slice_end.
  destruct (n <? 0) eqn:E; [apply Z.ltb_lt in E; lia|]. lia.
Qed.

(** *** Documents found again after an update *)

Lemma findOne_insert uid gid c i a a' :
  c !! i = Some a -> key a' = key a ->
  findOne uid gid (<[i := a']> c) =
  (fun d => if decide (_id d = i) then mkDocument i a' [] else d)
    <$> findOne uid gid c.
Proof.
  intros Hi Hk. unfold findOne.
  set (P := fun a : StreamActivity => userId a = uid /\ guildId a = gid).
  assert (P a' <-> P a) as HP.
  { unfold P. unfold key in Hk. split; intros [? ?]; split; congruence. }
  destruct (list_find P c) as [[j y]|] eqn:E.
  - apply list_find_Some in E as (Hj & Py & Hmin). cbn.
    destruct (decide (j = i)) as [->|Hne].
    + assert (y = a) as -> by congruence.
      assert (list_find P (<[i:=a']> c) = Some (i, a')) as ->; [|reflexivity].
      apply list_find_Some. split; [|split].
      * apply list_lookup_insert_eq. eapply lookup_lt_Some; eauto.
      * apply HP, Py.
      * intros j' y' Hj' Hlt. rewrite list_lookup_insert_ne in Hj' by lia. eauto.
    + assert (list_find P (<[i:=a']> c) = Some (j, y)) as ->; [|reflexivity].
      apply list_find_Some. split; [|split].
      * rewrite list_lookup_insert_ne by congruence. exact Hj.
      * exact Py.
      * intros j' y' Hj' Hlt. destruct (decide (j' = i)) as [->|Hne'].
        -- rewrite list_lookup_insert_eq in Hj' by (eapply lookup_lt_Some; eauto).
           injection Hj' as <-. rewrite HP. eauto.
        -- rewrite list_lookup_insert_ne in Hj' by congruence. eauto.
  - assert (list_find P (<[i:=a']> c) = None) as ->; [|reflexivity].
    apply list_find_None. rewrite list_find_None in E.
    apply Forall_insert; [exact E|].
    rewrite HP. eapply Forall_lookup_1 in E; eauto.
Qed.

Lemma findOne_insert_found uid gid c d a' :
  findOne uid gid c = Some d -> key a' = (uid, gid) ->
  findOne uid gid (<[_id d := a']> c) = Some (mkDocument (_id d) a' []).
Proof.
  intros Hf Hk. destruct (findOne_Some _ _ _ _ Hf) as (_ & Hd & Hkd).
  rewrite (findOne_insert _ _ _ _ (this d)) by congruence.
  rewrite Hf. cbn. rewrite decide_True by reflexivity. reflexivity.
Qed.

(** *** [saveStreamNotificationId] *)

Lemma notified_snoc m ch a l s :
  streams a = l ++ [s] ->
  streams (notified m ch a) = l ++ [with_notification m ch s].
Proof.
  intros E. unfold notified, latestIndex. cbn. rewrite E, length_app. cbn.
  replace (pred (length l + 1)) with (length l) by lia. apply alter_snoc.
Qed.

Lemma saveStreamNotificationId_fst uid gid m ch c :
  fst (saveStreamNotificationId uid gid m ch c) =
  match findOne uid gid c with
  | Some d =>
      match latestStream (this d) with
      | Some latest =>
          if isOpen latest then <[_id d := notified m ch (this d)]> c else c
      | None => c
      end
  | None => c
  end.
Proof.
  unfold saveStreamNotificationId.
  destruct (findOne uid gid c) as [d|] eqn:Hf; [|reflexivity].
  destruct (latestStream (this d)) as [latest|]; [|reflexivity].
  destruct (isOpen latest); [|reflexivity].
  destruct (findOne_Some _ _ _ _ Hf) as (_ & Hd & _).
  cbn. rewrite (alter_insert _ _ _ _ Hd). reflexivity.
Qed.

Lemma saveStreamNotificationId_snd uid gid m ch c :
  snd (saveStreamNotificationId uid gid m ch c) = true <-> live uid gid c.
Proof.
  unfold saveStreamNotificationId, live.
  destruct (findOne uid gid c) as [d|] eqn:Hf.
  - destruct (latestStream (this d)) as [latest|] eqn:Hl.
    + destruct (isOpen latest) eqn:Ho; cbn.
      * split; [intros _; eauto|reflexivity].
      * split; [discriminate|]. intros (d' & s & Hd' & Hs & Hos).
        injection Hd' as <-. congruence.
    + cbn. split; [discriminate|]. intros (d' & s & Hd' & Hs & _).
      injection Hd' as <-. congruence.
  - cbn. split; [discriminate|]. intros (d' & s & Hd' & _). discriminate.
Qed.

Lemma identity_notified m ch a : identity (notified m ch a) = identity a.
Proof. reflexivity. Qed.

Lemma total_notified p m ch a : total p (notified m ch a) = total p a.
Proof. destruct p; reflexivity. Qed.

Lemma sound_notified m ch a s :
  latestStream a = Some s -> sound a -> sound (notified m ch a).
Proof.
  intros Hl [H1 H2 H3 H4].
  destruct (latest_snoc _ _ Hl) as (l & El & Ei).
  pose proof (notified_snoc m ch a l s El) as En.
  split.
  - apply (onlyLatestOpen_snoc _ _ _ En). apply (onlyLatestOpen_snoc _ _ _ El), H1.
  - intros p. rewrite total_notified. apply H2.
  - rewrite En. rewrite El in H3. rewrite Forall_app, Forall_singleton in *.
    destruct H3 as [Ha Hb]. split; [exact Ha|]. exact Hb.
  - intros Hq. rewrite En in Hq.
    assert (Forall quiet (streams a)) as Hq'.
    { rewrite El. rewrite Forall_app, Forall_singleton in *.
      destruct Hq as [Ha Hb]. split; [exact Ha|]. exact Hb. }
    destruct (H4 Hq') as [Hm1 Hm2]. split; [exact Hm1|].
    intros p w. rewrite total_notified. apply Hm2.
Qed.

Lemma accounted_notified m ch a s :
  latestStream a = Some s -> isOpen s = true ->
  accounted a -> accounted (notified m ch a).
Proof.
  intros Hl Ho [H1 H2].
  destruct (latest_snoc _ _ Hl) as (l & El & Ei).
  pose proof (notified_snoc m ch a l s El) as En.
  assert (ended (notified m ch a) = ended a) as Ee.
  { unfold ended. rewrite En, El, !filter_app. f_equal.
    rewrite !filter_cons, !filter_nil.
    change (isOpen (with_notification m ch s)) with (isOpen s).
    rewrite !decide_False by (rewrite Ho; discriminate). reflexivity. }
  unfold accounted. rewrite Ee. split; [exact H1 | exact H2].
Qed.

(** *** Every call keeps the invariants *)

Lemma Inv_saveStreamNotificationId uid gid m ch c :
  Inv c -> Inv (fst (saveStreamNotificationId uid gid m ch c)).
Proof.
  intros HI. rewrite saveStreamNotificationId_fst.
  destruct (findOne uid gid c) as [d|] eqn:Hf; [|exact HI].
  destruct (latestStream (this d)) as [latest|] eqn:Hl; [|exact HI].
  destruct (isOpen latest) eqn:Ho; [|exact HI].
  destruct (findOne_Some _ _ _ _ Hf) as (_ & Hd & _).
  eapply Inv_insert; eauto.
  eapply sound_notified; eauto. eapply Inv_lookup; eauto.
Qed.

Lemma accounted_saveStreamNotificationId uid gid m ch c :
  Forall accounted c ->
  Forall accounted (fst (saveStreamNotificationId uid gid m ch c)).
Proof.
  intros HA. rewrite saveStreamNotificationId_fst.
  destruct (findOne uid gid c) as [d|] eqn:Hf; [|exact HA].
  destruct (latestStream (this d)) as [latest|] eqn:Hl; [|exact HA].
  destruct (isOpen latest) eqn:Ho; [|exact HA].
  destruct (findOne_Some _ _ _ _ Hf) as (_ & Hd & _).
  apply Forall_insert; [exact HA|].
  eapply accounted_notified; eauto. eapply Forall_lookup_1; eauto.
Qed.

Lemma Inv_perform c k : Inv c -> Inv (perform c k).
Proof.
  destruct k; simpl;
    [apply Inv_step | | apply Inv_saveStreamNotificationId].
  intros HI. apply (getOrCreateStreamActivity_spec clk uid uname gid gname c HI).
Qed.

Lemma accounted_perform c k :
  Inv c -> Forall accounted c -> Forall accounted (perform c k).
Proof.
  destruct k; simpl; [apply accounted_step| |].
  - intros _. apply accounted_getOrCreateStreamActivity.
  - intros _. apply accounted_saveStreamNotificationId.
Qed.

Lemma Inv_performs calls : forall c,
  Inv c -> Forall accounted c ->
  Inv (fold_left perform calls c) /\ Forall accounted (fold_left perform calls c).
Proof.
  induction calls as [|k calls IH]; intros c HI HA; [split; assumption|].
  cbn. apply IH; [apply Inv_perform, HI | apply accounted_perform; assumption].
Qed.

Lemma reach_snoc calls k : reach (calls ++ [k]) = perform (reach calls) k.
Proof. unfold reach. rewrite fold_left_app. reflexivity. Qed.

Lemma Inv_reach calls : Inv (reach calls) /\ Forall accounted (reach calls).
Proof.
  induction calls as [|k calls IH] using rev_ind; [split; [apply Inv_nil|constructor]|].
  rewrite reach_snoc. destruct IH as [HI HA].
  split; [apply Inv_perform, HI | apply accounted_perform; assumption].
Qed.

(** The tracker calls alone. *)
Lemma reach_Track ops : reach (Track <$> ops) = run ops [].
Proof.
  unfold reach, run. generalize (@nil StreamActivity).
  induction ops as [|o ops IH]; intros c; [reflexivity|]. simpl. apply IH.
Qed.

(** *** The latest session after a call *)

Lemma latest_endStream clk d latest :
  latestStream (this d) = Some latest -> isOpen latest = true ->
  latestStream (this (endStream clk d))
  = Some (closeAt (now clk)
            (Js.floor_div (now clk - startTime latest) (1000 * 60)) latest).
Proof.
  intros Hl Ho.
  destruct (endStream_open clk d latest Hl Ho) as (_ & E & _).
  destruct (latest_snoc _ _ Hl) as (l & El & Ei).
  rewrite El, Ei, alter_snoc in E.
  unfold latestStream. rewrite E. apply last_snoc.
Qed.

Lemma latest_interruptLatest clk d latest :
  latestStream (this d) = Some latest ->
  latestStream (this (interruptLatest clk latest d))
  = Some (interruptAt (now clk)
            (Js.floor_div (now clk - startTime latest) (1000 * 60)) latest).
Proof.
  intros Hl.
  destruct (interruptLatest_open clk d latest) as (_ & E & _).
  destruct (latest_snoc _ _ Hl) as (l & El & Ei).
  rewrite El, Ei, alter_snoc in E.
  unfold latestStream. rewrite E. apply last_snoc.
Qed.

Lemma latest_notified m ch a s :
  latestStream a = Some s ->
  latestStream (notified m ch a) = Some (with_notification m ch s).
Proof.
  intros Hl. destruct (latest_snoc _ _ Hl) as (l & El & _).
  unfold latestStream. rewrite (notified_snoc m ch a l s El). apply last_snoc.
Qed.

Lemma key_endStream clk d : key (this (endStream clk d)) = key (this d).
Proof.
  unfold endStream.
  destruct (latestStream (this d)) as [latest|] eqn:Hl; [|reflexivity].
  destruct (isOpen latest) eqn:Ho; [|reflexivity].
  destruct (endStream_open clk d latest Hl Ho) as (E & _).
  unfold endStream in E. rewrite Hl, Ho in E. apply identity_key, E.
Qed.

Lemma key_interruptLatest clk latest d :
  key (this (interruptLatest clk latest d)) = key (this d).
Proof.
  destruct (interruptLatest_open clk d latest) as (E & _). apply identity_key, E.
Qed.

Lemma getStreamNotificationId_found uid gid c d :
  findOne uid gid c = Some d ->
  getStreamNotificationId uid gid c = latestStream (this d) ≫= notificationOf.
Proof.
  intros Hf. unfold getStreamNotificationId. rewrite Hf.
  destruct (latestStream (this d)); reflexivity.
Qed.

(** The aggregate of the key after [startStreamSession]. *)
Lemma startStreamSession_found clkNew clkEnd clkStart uid uname gid gname ch chn c :
  Inv c ->
  exists i a3,
    findOne uid gid
      (fst (startStreamSession clkNew clkEnd clkStart uid uname gid gname ch chn c))
    = Some (mkDocument i a3 []) /\
    latestStream a3 = Some (newStream clkStart ch chn).
Proof.
  intros HI. rewrite startStreamSession_fst. cbv zeta.
  destruct (getOrCreateStreamActivity_spec clkNew uid uname gid gname c HI)
    as [HI1 Hf1].
  set (r := getOrCreateStreamActivity clkNew uid uname gid gname c) in *.
  destruct (endStreamSession_closed clkEnd uid gid _ _ HI1 Hf1)
    as (a2 & E2 & Hk2 & _ & _ & _).
  destruct (findOne_Some _ _ _ _ Hf1) as (Hm & Hd & _).
  pose proof (findOne_insert_found uid gid _ _ a2 Hf1 Hk2) as Hf2.
  rewrite <- E2 in Hf2.
  destruct (findOne_Some _ _ _ _ Hf2) as (_ & Hd2 & _). cbn [_id this] in Hd2.
  rewrite (alter_insert _ _ _ _ Hd2).
  destruct (startStream_replay clkStart ch chn (snd r) a2 Hm) as (Ei & Es & _).
  eexists _, _. split.
  - apply (findOne_insert_found uid gid _ _ _ Hf2).
    rewrite <- Hk2. apply identity_key, Ei.
  - unfold latestStream. rewrite Es. apply last_snoc.
Qed.

(** The aggregate of a live key after each of the calls that keep or
    close its latest session. *)
Lemma findOne_saveStreamNotificationId uid gid m ch c d s :
  findOne uid gid c = Some d -> latestStream (this d) = Some s -> isOpen s = true ->
  exists a',
    findOne uid gid (fst (saveStreamNotificationId uid gid m ch c))
    = Some (mkDocument (_id d) a' []) /\
    latestStream a' = Some (with_notification m ch s).
Proof.
  intros Hf Hl Ho. rewrite saveStreamNotificationId_fst, Hf, Hl, Ho.
  destruct (findOne_Some _ _ _ _ Hf) as (_ & _ & Hk).
  eexists. split.
  - apply (findOne_insert_found _ _ _ _ _ Hf). exact Hk.
  - apply latest_notified, Hl.
Qed.

Lemma findOne_endStreamSession clk uid gid c d s :
  findOne uid gid c = Some d -> latestStream (this d) = Some s -> isOpen s = true ->
  exists a',
    findOne uid gid (fst (endStreamSession clk uid gid c))
    = Some (mkDocument (_id d) a' []) /\
    latestStream a'
    = Some (closeAt (now clk) (Js.floor_div (now clk - startTime s) (1000 * 60)) s).
Proof.
  intros Hf Hl Ho. rewrite endStreamSession_fst, Hf, Hl, Ho.
  destruct (findOne_Some _ _ _ _ Hf) as (_ & _ & Hk).
  eexists. split.
  - apply (findOne_insert_found _ _ _ _ _ Hf). rewrite key_endStream. exact Hk.
  - apply latest_endStream; assumption.
Qed.

Lemma findOne_markStreamAsInterrupted clk uid gid c d s :
  findOne uid gid c = Some d -> latestStream (this d) = Some s -> isOpen s = true ->
  exists a',
    findOne uid gid (fst (markStreamAsInterrupted clk uid gid c))
    = Some (mkDocument (_id d) a' []) /\
    latestStream a'
    = Some (interruptAt (now clk)
              (Js.floor_div (now clk - startTime s) (1000 * 60)) s).
Proof.
  intros Hf Hl Ho. rewrite markStreamAsInterrupted_fst, Hf, Hl, Ho.
  destruct (findOne_Some _ _ _ _ Hf) as (_ & _ & Hk).
  eexists. split.
  - apply (findOne_insert_found _ _ _ _ _ Hf). rewrite key_interruptLatest. exact Hk.
  - apply latest_interruptLatest; assumption.
Qed.

Lemma notificationOf_set m ch s :
  m <> "" -> ch <> "" -> notificationOf (with_notification m ch s) = Some (m, ch).
Proof.
  intros Hm Hc. unfold notificationOf. cbn.
  rewrite !bool_decide_eq_false_2 by assumption. reflexivity.
Qed.

(** *** What a call leaves in place *)

Lemma sameSession_refl s : sameSession s s.
Proof. repeat split. Qed.

Lemma sameSession_trans s1 s2 s3 :
  sameSession s1 s2 -> sameSession s2 s3 -> sameSession s1 s3.
Proof.
  intros (A1 & A2 & A3 & A4 & A5) (B1 & B2 & B3 & B4 & B5).
  repeat split; try congruence.
  intros H. rewrite <- (A5 H). apply B5. rewrite (A5 H). exact H.
Qed.

Lemma laterOf_refl a : laterOf a a.
Proof. split; [reflexivity|]. intros j s H. exists s. split; [exact H|apply sameSession_refl]. Qed.

Lemma laterOf_trans a b c : laterOf a b -> laterOf b c -> laterOf a c.
Proof.
  intros [I1 S1] [I2 S2]. split; [congruence|].
  intros j s H. destruct (S1 j s H) as (s' & H' & R1).
  destruct (S2 j s' H') as (s'' & H'' & R2).
  exists s''. split; [exact H''|]. eapply sameSession_trans; eauto.
Qed.

(** The latest session, open, is changed by [f]. *)
Lemma laterOf_alter_latest (f : Stream -> Stream) a a' latest :
  latestStream a = Some latest -> isOpen latest = true ->
  identity a' = identity a ->
  streams a' = alter f (latestIndex a) (streams a) ->
  (forall s, startTime (f s) = startTime s /\ channelId (f s) = channelId s /\
             channelName (f s) = channelName s /\ day (f s) = day s) ->
  laterOf a a'.
Proof.
  intros Hl Ho Hi Hs Hf. split; [exact Hi|].
  destruct (latest_snoc _ _ Hl) as (l & El & Ei).
  intros j s Hj. rewrite Hs.
  destruct (decide (j = latestIndex a)) as [->|Hne].
  - exists (f s). rewrite list_lookup_alter_eq, Hj. split; [reflexivity|].
    assert (s = latest) as ->.
    { rewrite El, Ei in Hj. rewrite lookup_app_r in Hj by lia.
      rewrite Nat.sub_diag in Hj. cbn in Hj. congruence. }
    destruct (Hf latest) as (? & ? & ? & ?). repeat split; try assumption.
    rewrite Ho. discriminate.
  - exists s. rewrite list_lookup_alter_ne by congruence.
    split; [exact Hj | apply sameSession_refl].
Qed.

Lemma laterOf_endStream clk d latest :
  latestStream (this d) = Some latest -> isOpen latest = true ->
  laterOf (this d) (this (endStream clk d)).
Proof.
  intros Hl Ho. destruct (endStream_open clk d latest Hl Ho) as (Hi & Hs & _).
  eapply laterOf_alter_latest; eauto; intros s; repeat split.
Qed.

Lemma laterOf_interruptLatest clk d latest :
  latestStream (this d) = Some latest -> isOpen latest = true ->
  laterOf (this d) (this (interruptLatest clk latest d)).
Proof.
  intros Hl Ho. destruct (interruptLatest_open clk d latest) as (Hi & Hs & _).
  eapply laterOf_alter_latest; eauto; intros s; repeat split.
Qed.

Lemma laterOf_notified m ch a latest :
  latestStream a = Some latest -> isOpen latest = true ->
  laterOf a (notified m ch a).
Proof.
  intros Hl Ho. eapply (laterOf_alter_latest (with_notification m ch)); eauto;
    intros s; repeat split.
Qed.

Lemma laterOf_push a a' s :
  identity a' = identity a -> streams a' = streams a ++ [s] -> laterOf a a'.
Proof.
  intros Hi Hs. split; [exact Hi|]. intros j x Hj. exists x. rewrite Hs.
  split; [apply lookup_app_l_Some, Hj | apply sameSession_refl].
Qed.

(** What a collection is to an earlier one: every aggregate is still at
    its place, a later state of itself, and unchanged unless its key is
    among [keys]. *)
Lemma insert_at (c : Collection) (i : nat) a a'
    (P : StreamActivity -> StreamActivity -> Prop) :
  c !! i = Some a -> P a a' -> (forall x, P x x) ->
  forall j x, c !! j = Some x ->
    exists x', <[i := a']> c !! j = Some x' /\ P x x' /\ (j <> i -> x' = x).
Proof.
  intros Hi HP Hr j x Hj. destruct (decide (j = i)) as [->|Hne].
  - exists a'. rewrite list_lookup_insert_eq by (eapply lookup_lt_Some; eauto).
    assert (x = a) as -> by congruence. split; [reflexivity|]. split; [exact HP|].
    intros H. contradiction.
  - exists x. rewrite list_lookup_insert_ne by congruence.
    split; [exact Hj|]. split; [apply Hr | reflexivity].
Qed.

Lemma endStreamSession_at clk uid gid c j x :
  c !! j = Some x ->
  exists x', fst (endStreamSession clk uid gid c) !! j = Some x' /\
             laterOf x x' /\ (key x <> (uid, gid) -> x' = x).
Proof.
  intros Hj. rewrite endStreamSession_fst.
  assert (exists x', c !! j = Some x' /\ laterOf x x' /\
                     (key x <> (uid, gid) -> x' = x)) as Hsame
    by (exists x; split; [exact Hj|]; split; [apply laterOf_refl | reflexivity]).
  destruct (findOne uid gid c) as [d|] eqn:Hf; [|exact Hsame].
  destruct (latestStream (this d)) as [latest|] eqn:Hl; [|exact Hsame].
  destruct (isOpen latest) eqn:Ho; [|exact Hsame].
  destruct (findOne_Some _ _ _ _ Hf) as (_ & Hd & Hk).
  destruct (insert_at c (_id d) (this d) (this (endStream clk d)) laterOf Hd
              (laterOf_endStream clk d latest Hl Ho) laterOf_refl j x Hj)
    as (x' & H1 & H2 & H3).
  exists x'. split; [exact H1|]. split; [exact H2|].
  intros Hne. apply H3. intros ->. congruence.
Qed.

Lemma markStreamAsInterrupted_at clk uid gid c j x :
  c !! j = Some x ->
  exists x', fst (markStreamAsInterrupted clk uid gid c) !! j = Some x' /\
             laterOf x x' /\ (key x <> (uid, gid) -> x' = x).
Proof.
  intros Hj. rewrite markStreamAsInterrupted_fst.
  assert (exists x', c !! j = Some x' /\ laterOf x x' /\
                     (key x <> (uid, gid) -> x' = x)) as Hsame
    by (exists x; split; [exact Hj|]; split; [apply laterOf_refl | reflexivity]).
  destruct (findOne uid gid c) as [d|] eqn:Hf; [|exact Hsame].
  destruct (latestStream (this d)) as [latest|] eqn:Hl; [|exact Hsame].
  destruct (isOpen latest) eqn:Ho; [|exact Hsame].
  destruct (findOne_Some _ _ _ _ Hf) as (_ & Hd & Hk).
  destruct (insert_at c (_id d) (this d) (this (interruptLatest clk latest d)) laterOf Hd
              (laterOf_interruptLatest clk d latest Hl Ho) laterOf_refl j x Hj)
    as (x' & H1 & H2 & H3).
  exists x'. split; [exact H1|]. split; [exact H2|].
  intros Hne. apply H3. intros ->. congruence.
Qed.

Lemma saveStreamNotificationId_at uid gid m ch c j x :
  c !! j = Some x ->
  exists x', fst (saveStreamNotificationId uid gid m ch c) !! j = Some x' /\
             laterOf x x' /\ (key x <> (uid, gid) -> x' = x).
Proof.
  intros Hj. rewrite saveStreamNotificationId_fst.
  assert (exists x', c !! j = Some x' /\ laterOf x x' /\
                     (key x <> (uid, gid) -> x' = x)) as Hsame
    by (exists x; split; [exact Hj|]; split; [apply laterOf_refl | reflexivity]).
  destruct (findOne uid gid c) as [d|] eqn:Hf; [|exact Hsame].
  destruct (latestStream (this d)) as [latest|] eqn:Hl; [|exact Hsame].
  destruct (isOpen latest) eqn:Ho; [|exact Hsame].
  destruct (findOne_Some _ _ _ _ Hf) as (_ & Hd & Hk).
  destruct (insert_at c (_id d) (this d) (notified m ch (this d)) laterOf Hd
              (laterOf_notified m ch _ latest Hl Ho) laterOf_refl j x Hj)
    as (x' & H1 & H2 & H3).
  exists x'. split; [exact H1|]. split; [exact H2|].
  intros Hne. apply H3. intros ->. congruence.
Qed.

Lemma getOrCreateStreamActivity_at clk uid uname gid gname c :
  let r := getOrCreateStreamActivity clk uid uname gid gname c in
  modified (snd r) = [] /\
  fst r !! _id (snd r) = Some (this (snd r)) /\
  key (this (snd r)) = (uid, gid) /\
  forall j x, c !! j = Some x -> fst r !! j = Some x.
Proof.
  unfold getOrCreateStreamActivity.
  destruct (findOne uid gid c) as [d|] eqn:Hf; cbn.
  - destruct (findOne_Some _ _ _ _ Hf) as (Hm & Hd & Hk). repeat split; auto.
  - split; [reflexivity|]. split; [|split].
    + rewrite lookup_app_r by lia. rewrite Nat.sub_diag. reflexivity.
    + reflexivity.
    + intros j x Hj. apply lookup_app_l_Some, Hj.
Qed.

Lemma startStreamSession_at clkNew clkEnd clkStart uid uname gid gname ch chn c j x :
  c !! j = Some x ->
  exists x',
    fst (startStreamSession clkNew clkEnd clkStart uid uname gid gname ch chn c) !! j
    = Some x' /\
    laterOf x x' /\ (key x <> (uid, gid) -> x' = x).
Proof.
  intros Hj. rewrite startStreamSession_fst. cbv zeta.
  destruct (getOrCreateStreamActivity_at clkNew uid uname gid gname c)
    as (Hm & Hd & Hk & Hold).
  set (r := getOrCreateStreamActivity clkNew uid uname gid gname c) in *.
  destruct (endStreamSession_at clkEnd uid gid (fst r) j x (Hold j x Hj))
    as (x2 & H2 & L2 & F2).
  destruct (endStreamSession_at clkEnd uid gid (fst r) _ _ Hd)
    as (a2 & Ha2 & La2 & _).
  rewrite (alter_insert _ _ _ _ Ha2).
  destruct (startStream_replay clkStart ch chn (snd r) a2 Hm) as (Ei & Es & _).
  destruct (insert_at _ (_id (snd r)) a2 _ laterOf Ha2
              (laterOf_push _ _ _ Ei Es) laterOf_refl j x2 H2)
    as (x' & H1 & L1 & F1).
  exists x'. split; [exact H1|]. split; [eapply laterOf_trans; eauto|].
  intros Hne. rewrite F1; [apply F2, Hne|].
  intros ->. apply Hne. pose proof (Hold _ _ Hj) as Hx.
  rewrite Hd in Hx. injection Hx as <-. exact Hk.
Qed.

Lemma perform_at c k j x :
  c !! j = Some x ->
  exists x', perform c k !! j = Some x' /\
             laterOf x x' /\ (key x <> callKey k -> x' = x).
Proof.
  destruct k as [[]| |]; cbn.
  - apply startStreamSession_at.
  - apply endStreamSession_at.
  - apply markStreamAsInterrupted_at.
  - intros Hj. exists x.
    destruct (getOrCreateStreamActivity_at clk uid uname gid gname c)
      as (_ & _ & _ & Hold).
    split; [apply Hold, Hj|]. split; [apply laterOf_refl | reflexivity].
  - apply saveStreamNotificationId_at.
Qed.

Lemma performs_at calls : forall c j x,
  c !! j = Some x ->
  exists x', fold_left perform calls c !! j = Some x' /\
             laterOf x x' /\
             (Forall (fun k => callKey k <> key x) calls -> x' = x).
Proof.
  induction calls as [|k calls IH]; intros c j x Hj.
  - exists x. split; [exact Hj|]. split; [apply laterOf_refl | reflexivity].
  - destruct (perform_at c k j x Hj) as (x1 & H1 & L1 & F1).
    destruct (IH _ j x1 H1) as (x2 & H2 & L2 & F2).
    exists x2. cbn. split; [exact H2|]. split; [eapply laterOf_trans; eauto|].
    intros HF. apply Forall_cons in HF as [Hk HF].
    assert (x1 = x) as -> by (apply F1; congruence).
    apply F2, HF.
Qed.

Lemma notificationOf_closeAt t k s : notificationOf (closeAt t k s) = notificationOf s.
Proof. reflexivity. Qed.

Lemma endStreamSession_snd_live clk uid gid c d s :
  findOne uid gid c = Some d -> latestStream (this d) = Some s -> isOpen s = true ->
  exists doc details,
    snd (endStreamSession clk uid gid c) = Some (doc, Some details) /\
    sd_duration details = Js.floor_div (now clk - startTime s) (1000 * 60).
Proof.
  intros Hf Hl Ho. unfold endStreamSession. rewrite Hf, Hl, Ho.
  unfold save, detailsOf. cbn [fst snd this].
  rewrite (latest_endStream clk d s Hl Ho).
  eexists _, _. split; reflexivity.
Qed.

End QueryFacts.

(** ** Durations as text *)

Module FormatFacts.
Import QArith Qround Stdlib.Strings.Ascii Format Laws.
Local Open Scope Z_scope.

Lemma Qfloor_div60 (q : Q) : Qfloor (q / 60) = Qfloor q / 60.
Proof.
  destruct q as [a b]. unfold Qfloor, Qdiv, Qmult, Qinv. cbn.
  rewrite Z.mul_1_r, Pos2Z.inj_mul. rewrite Z.div_div by lia. reflexivity.
Qed.

Lemma Qfloor_ge1 q : (1 <= q)%Q -> 1 <= Qfloor q.
Proof.
  intros H. change 1 with (Qfloor (inject_Z 1)). apply Qfloor_resp_le, H.
Qed.

Lemma Qfloor_lt1 q : (q < 1)%Q -> Qfloor q < 1.
Proof.
  intros H. destruct q as [a b]. unfold Qlt in H. cbn in *.
  apply Z.div_lt_upper_bound; lia.
Qed.

Lemma trunc_nonneg q : (0 <= q)%Q -> trunc q = Qfloor q.
Proof.
  intros H. unfold trunc. destruct (Qlt_le_dec q 0) as [L|L]; [|reflexivity].
  exfalso. apply (Qlt_not_le _ _ L H).
Qed.

Lemma Qfloor_rem60 q : (1 <= q)%Q -> Qfloor (rem q 60) = Qfloor q mod 60.
Proof.
  intros H. unfold rem. rewrite trunc_nonneg.
  2:{ apply Qle_shift_div_l; [reflexivity|]. rewrite Qmult_0_l.
      eapply Qle_trans; [|exact H]. discriminate. }
  rewrite Qfloor_div60.
  destruct q as [a b]. unfold Qfloor at 1. unfold Qminus, Qplus, Qopp, Qmult, inject_Z.
  cbn [Qnum Qden]. unfold Qfloor.
  set (h := a / Z.pos b / 60).
  change (Z.pos (1 * 1)) with 1. change (b * (1 * 1))%positive with (b * 1)%positive.
  rewrite Pos.mul_1_r, Z.mul_1_r.
  rewrite Z.div_add by lia. subst h.
  rewrite (Z.mod_eq (a / Z.pos b) 60) by lia. lia.
Qed.

Lemma formatTime_shown q : formatTime q = shown (Qfloor q).
Proof.
  unfold formatTime, shown. destruct (Qlt_le_dec q 1) as [L|L].
  - pose proof (Qfloor_lt1 q L). rewrite (proj2 (Z.ltb_lt _ _)) by lia. reflexivity.
  - pose proof (Qfloor_ge1 q L). rewrite (proj2 (Z.ltb_ge _ _)) by lia.
    cbv zeta. rewrite Qfloor_div60, Qfloor_rem60 by exact L. reflexivity.
Qed.

Lemma formatDuration_shown (s : Z) :
  formatDuration (inject_Z s) false = shown (s / 60).
Proof.
  unfold formatDuration. rewrite formatTime_shown. f_equal.
  symmetry. apply Zdiv_Qdiv.
Qed.

(** *** The characters of what is shown *)

Lemma chars_app s1 s2 : chars (s1 +:+ s2) = chars s1 ++ chars s2.
Proof. induction s1 as [|c s1 IH]; [reflexivity|]. cbn. rewrite <- IH. reflexivity. Qed.

Lemma pretty_N_char_plain x : pretty_N_char x <> "h"%char.
Proof. unfold pretty_N_char. repeat case_match; discriminate. Qed.

Lemma plain_pretty_N_go x : forall s, plain s -> plain (pretty_N_go x s).
Proof.
  induction x as [x IH] using (well_founded_induction N.lt_wf_0). intros s Hs.
  destruct (decide (x = 0%N)) as [->|Hx]; [rewrite pretty_N_go_0; exact Hs|].
  rewrite pretty_N_go_step by lia. apply IH.
  - apply N.div_lt; lia.
  - constructor; [apply pretty_N_char_plain | exact Hs].
Qed.

Lemma plain_pretty (z : Z) : 0 <= z -> plain (pretty z).
Proof.
  intros H. destruct z as [|p|p]; [repeat constructor; discriminate| |lia].
  change (pretty (Z.pos p)) with (pretty_N_go (N.pos p) "").
  apply plain_pretty_N_go. constructor.
Qed.

(** A plain text before the first ["h"] determines both parts. *)
Lemma cut_h l1 l2 r1 r2 :
  Forall (fun c => c <> "h"%char) l1 -> Forall (fun c => c <> "h"%char) l2 ->
  l1 ++ "h"%char :: r1 = l2 ++ "h"%char :: r2 -> l1 = l2 /\ r1 = r2.
Proof.
  intros H1. revert l2. induction H1 as [|c l1 Hc H1 IH]; intros l2 H2 E.
  - destruct H2 as [|c' l2 Hc' H2]; cbn in E.
    + injection E as ->. split; reflexivity.
    + injection E as E1 E2. congruence.
  - destruct H2 as [|c' l2 Hc' H2]; cbn in E.
    + injection E as E1 E2. congruence.
    + injection E as -> E. destruct (IH _ H2 E) as [-> ->]. split; reflexivity.
Qed.

Lemma plain_no_h l1 l2 r :
  Forall (fun c => c <> "h"%char) l1 -> l1 <> l2 ++ "h"%char :: r.
Proof.
  intros H E. rewrite E in H. apply Forall_app in H as [_ H].
  apply Forall_cons in H as [H _]. congruence.
Qed.

Lemma chars_inj s1 s2 : chars s1 = chars s2 -> s1 = s2.
Proof.
  revert s2. induction s1 as [|c s1 IH]; intros [|c' s2] E; try discriminate.
  - reflexivity.
  - injection E as -> E. f_equal. apply IH, E.
Qed.

Lemma shown_inj m n : 0 <= m -> 0 <= n -> shown m = shown n -> m = n.
Proof.
  intros Hm Hn E.
  assert (forall k, 0 <= k ->
            exists h r, k = 60 * h + r /\ 0 <= h /\ 0 <= r < 60 /\
              chars (shown k) =
              if h =? 0 then chars (pretty r) ++ ["m"%char]
              else if r =? 0 then chars (pretty h) ++ ["h"%char]
              else chars (pretty h) ++ "h"%char :: " "%char :: chars (pretty r) ++ ["m"%char])
    as Hshape.
  { intros k Hk. exists (k / 60), (k mod 60).
    pose proof (Z.div_mod k 60). pose proof (Z.mod_pos_bound k 60).
    assert (0 <= k / 60) by (apply Z.div_pos; lia).
    split; [lia|]. split; [lia|]. split; [lia|].
    unfold shown. destruct (k <? 1) eqn:E1.
    - apply Z.ltb_lt in E1. assert (k = 0) as -> by lia. reflexivity.
    - destruct (k / 60 =? 0); [rewrite chars_app; reflexivity|].
      destruct (k mod 60 =? 0); [rewrite chars_app; reflexivity|].
      rewrite !chars_app. reflexivity. }
  destruct (Hshape m Hm) as (h & r & -> & Hh & Hr & Sm).
  destruct (Hshape n Hn) as (h' & r' & -> & Hh' & Hr' & Sn).
  apply (f_equal chars) in E. rewrite Sm, Sn in E. clear Sm Sn Hshape Hm Hn.
  pose proof (plain_pretty h Hh) as Ph. pose proof (plain_pretty h' Hh') as Ph'.
  pose proof (plain_pretty r (proj1 Hr)) as Pr.
  pose proof (plain_pretty r' (proj1 Hr')) as Pr'.
  assert (forall z, 0 <= z ->
            Forall (fun c => c <> "h"%char) (chars (pretty z) ++ ["m"%char])) as Pm.
  { intros z Hz. apply Forall_app. split; [apply plain_pretty, Hz|].
    repeat constructor. discriminate. }
  destruct (h =? 0) eqn:E1; destruct (h' =? 0) eqn:E1';
    [| | |destruct (r =? 0) eqn:E2; destruct (r' =? 0) eqn:E2'];
    try apply Z.eqb_eq in E1; try apply Z.eqb_eq in E1';
    try apply Z.eqb_eq in E2; try apply Z.eqb_eq in E2'.
  - apply app_inv_tail, chars_inj, pretty_Z_inj in E. lia.
  - exfalso. destruct (r' =? 0); eapply plain_no_h; try exact E; apply Pm; lia.
  - exfalso. symmetry in E.
    destruct (r =? 0); eapply plain_no_h; try exact E; apply Pm; lia.
  - apply app_inv_tail, chars_inj, pretty_Z_inj in E. lia.
  - apply cut_h in E as [_ E]; [discriminate| |]; assumption.
  - apply cut_h in E as [_ E]; [discriminate| |]; assumption.
  - apply cut_h in E as [E1'' E2'']; [| |]; try assumption.
    apply chars_inj, pretty_Z_inj in E1''.
    injection E2'' as E2''. apply app_inv_tail, chars_inj, pretty_Z_inj in E2''. lia.
Qed.

End FormatFacts.

(** ** Pages *)

Module PageFacts.
Import Laws Paginator History.

Lemma getRow_rowFor n (i : nat) : getRow n (Z.of_nat i) = rowFor n i.
Proof.
  unfold getRow, rowFor. f_equal.
  - destruct (decide (i = 0%nat)) as [->|H]; [reflexivity|].
    rewrite bool_decide_eq_false_2 by exact H. apply Z.eqb_neq. lia.
  - destruct (decide (i = 0%nat)) as [->|H]; [reflexivity|].
    rewrite bool_decide_eq_false_2 by exact H. apply Z.eqb_neq. lia.
  - destruct (decide (S i = n)) as [H|H].
    + rewrite bool_decide_eq_true_2 by exact H. apply Z.eqb_eq. lia.
    + rewrite bool_decide_eq_false_2 by exact H. apply Z.eqb_neq. lia.
  - destruct (decide (S i = n)) as [H|H].
    + rewrite bool_decide_eq_true_2 by exact H. apply Z.eqb_eq. lia.
    + rewrite bool_decide_eq_false_2 by exact H. apply Z.eqb_neq. lia.
Qed.

Lemma press_bounds n cur customId :
  (0 < n)%nat -> 0 <= cur < Z.of_nat n -> 0 <= press n cur customId < Z.of_nat n.
Proof. intros Hn Hc. unfold press. repeat case_bool_decide; lia. Qed.

Lemma page_in_bounds {E} (pages : list E) cur :
  0 <= cur < Z.of_nat (length pages) ->
  exists p, pages !! Z.to_nat cur = Some p /\ page pages cur = Some p.
Proof.
  intros H. destruct (lookup_lt_is_Some_2 pages (Z.to_nat cur)) as [p Hp]; [lia|].
  exists p. split; [exact Hp|]. unfold page.
  rewrite (proj2 (Z.ltb_ge _ _)) by lia. exact Hp.
Qed.

Lemma showsPage_at {E} (pages : list E) cur (buttons : bool) :
  0 <= cur < Z.of_nat (length pages) ->
  showsPage pages
    (mkMessage (page pages cur)
       (if buttons then Some (getRow (length pages) cur) else None)).
Proof.
  intros H. destruct (page_in_bounds pages cur H) as (p & Hp & Hpage).
  exists (Z.to_nat cur), p. split; [exact Hp|]. split; [exact Hpage|].
  destruct buttons; [right|left; reflexivity]. cbn.
  rewrite <- getRow_rowFor. rewrite Z2Nat.id by lia. reflexivity.
Qed.

Lemma collect_inv {E} (pages : list E) customIds : forall st,
  (0 < length pages)%nat ->
  0 <= fst st < Z.of_nat (length pages) -> Forall (showsPage pages) (snd st) ->
  let st' := fold_left (collect pages) customIds st in
  0 <= fst st' < Z.of_nat (length pages) /\ Forall (showsPage pages) (snd st').
Proof.
  induction customIds as [|b bs IH]; intros st Hn Hb Hs; [split; assumption|].
  cbn. apply IH; [exact Hn| |].
  - apply press_bounds; assumption.
  - cbn. apply Forall_app. split; [exact Hs|]. apply Forall_singleton.
    apply (showsPage_at pages _ true), press_bounds; assumption.
Qed.

(** *** Slices of five *)

Lemma slice_nat {A} (l : list A) (a b : nat) :
  slice l (Z.of_nat a) (Z.of_nat a + Z.of_nat b) = take b (drop a l).
Proof.
  unfold slice, Js.slice_end.
  rewrite !(proj2 (Z.ltb_ge _ _)) by lia.
  destruct (decide (a <= length l)%nat) as [H|H].
  - replace (Z.to_nat (Z.min (Z.of_nat a) (Z.of_nat (length l)))) with a by lia.
    destruct (decide (a + b <= length l)%nat) as [H'|H'].
    + f_equal. lia.
    + rewrite !take_ge; [reflexivity| |]; rewrite length_drop; lia.
  - replace (Z.to_nat (Z.min (Z.of_nat a) (Z.of_nat (length l)))) with (length l) by lia.
    rewrite !drop_ge by lia. rewrite !take_nil. reflexivity.
Qed.

Lemma ceilDiv_5 (n : nat) :
  Report.ceilDiv (Z.of_nat n) STREAMS_PER_PAGE = Z.of_nat ((n + 4) / 5).
Proof.
  unfold Report.ceilDiv, STREAMS_PER_PAGE.
  rewrite Nat2Z.inj_div, Nat2Z.inj_add. cbn [Z.of_nat Pos.of_succ_nat Pos.succ].
  pose proof (Z.div_mod (- Z.of_nat n) 5). pose proof (Z.mod_pos_bound (- Z.of_nat n) 5).
  pose proof (Z.div_mod (Z.of_nat n + 4) 5).
  pose proof (Z.mod_pos_bound (Z.of_nat n + 4) 5). lia.
Qed.

Lemma seqZ_nat (k : nat) : seqZ 0 (Z.of_nat k) = Z.of_nat <$> seq 0 k.
Proof.
  unfold seqZ. rewrite Nat2Z.id.
  apply list_fmap_ext. intros _ j _. lia.
Qed.

(** The chunks of five of a list, as many as it takes. *)
Lemma chunks_concat {A} (k : nat) : forall (l : list A),
  (length l <= 5 * k)%nat ->
  concat ((fun j => take 5 (drop (5 * j) l)) <$> seq 0 k) = l.
Proof.
  induction k as [|k IH]; intros l Hl.
  - destruct l; [reflexivity|cbn in Hl; lia].
  - cbn [seq fmap list_fmap concat]. rewrite <- fmap_S_seq, <- list_fmap_compose.
    rewrite Nat.mul_0_r, drop_0.
    rewrite (list_fmap_ext _ (fun j => take 5 (drop (5 * j) (drop 5 l)))).
    + rewrite IH by (rewrite length_drop; lia). apply take_drop.
    + intros _ j _. cbn [compose]. rewrite drop_drop. f_equal. f_equal. lia.
Qed.

Lemma pagesOf_chunks streams :
  pagesOf streams =
  (fun j => mkPage (Z.of_nat j + 1) (Z.of_nat ((length streams + 4) / 5))
              (length streams) (fieldOf <$> take 5 (drop (5 * j) streams)))
    <$> seq 0 ((length streams + 4) / 5).
Proof.
  unfold pagesOf. rewrite ceilDiv_5, seqZ_nat, <- list_fmap_compose.
  apply list_fmap_ext. intros _ j _. cbn [compose]. f_equal. f_equal.
  unfold STREAMS_PER_PAGE.
  replace (Z.of_nat j * 5) with (Z.of_nat (5 * j)) by lia.
  apply (slice_nat streams (5 * j) 5).
Qed.

End PageFacts.

(** ** The bot *)

Module BotFacts.
Import Laws Queries Bot.

Lemma world_eta w : mkWorld (activities w) (configs w) (outbox w) = w.
Proof. destruct w; reflexivity. Qed.

(** *** What a notification does to the records *)

Lemma sendStreamNotification_activities d gid uid ch isStarting dur intr w :
  activities (sendStreamNotification d gid uid ch isStarting dur intr w)
  = activities w \/
  isStarting = true /\
  exists m n,
    activities (sendStreamNotification d gid uid ch isStarting dur intr w)
    = fst (saveStreamNotificationId uid gid m n (activities w)).
Proof.
  unfold sendStreamNotification.
  destruct (negb (Config.isStreamTrackingEnabled gid (configs w))); [left; reflexivity|].
  destruct (Config.getNotificationChannel gid (configs w)) as [n|]; [|left; reflexivity].
  destruct (bool_decide (n = "")); [left; reflexivity|].
  destruct (negb (channelCached d gid n)); [left; reflexivity|].
  destruct isStarting.
  - right. split; [reflexivity|]. eexists _, _. reflexivity.
  - left. destruct (getStreamNotificationId uid gid (activities w)) as [[o c]|];
      [destruct (bool_decide (c = n) && fetchable d n o)|]; reflexivity.
Qed.

Lemma sendStreamNotification_configs d gid uid ch isStarting dur intr w :
  configs (sendStreamNotification d gid uid ch isStarting dur intr w) = configs w.
Proof.
  unfold sendStreamNotification.
  destruct (negb (Config.isStreamTrackingEnabled gid (configs w))); [reflexivity|].
  destruct (Config.getNotificationChannel gid (configs w)) as [n|]; [|reflexivity].
  destruct (bool_decide (n = "")); [reflexivity|].
  destruct (negb (channelCached d gid n)); [reflexivity|].
  destruct isStarting; [reflexivity|].
  destruct (getStreamNotificationId uid gid (activities w)) as [[o c]|];
    [destruct (bool_decide (c = n) && fetchable d n o)|]; reflexivity.
Qed.

Lemma sendStreamNotification_calls d gid uid ch isStarting dur intr w :
  exists calls,
    activities (sendStreamNotification d gid uid ch isStarting dur intr w)
    = fold_left perform calls (activities w).
Proof.
  destruct (sendStreamNotification_activities d gid uid ch isStarting dur intr w)
    as [E|(_ & m & n & E)].
  - exists []. exact E.
  - exists [SaveNotification uid gid m n]. exact E.
Qed.

Lemma endAndNotify_calls d t gid uid old w :
  exists calls,
    activities (endAndNotify d t gid uid old w)
    = fold_left perform calls (activities w).
Proof.
  unfold endAndNotify.
  destruct (endStreamSession (atEnd t) uid gid (activities w)) as [c r] eqn:E.
  assert (c = perform (activities w) (Track (EndSession (atEnd t) uid gid))) as Hc
    by (cbn; rewrite E; reflexivity).
  destruct r as [[doc [details|]]|].
  - destruct (sendStreamNotification_calls d gid uid (channelId old) false
                (Some (sd_duration details)) false
                (mkWorld c (configs w) (outbox w))) as [calls Hcalls].
    exists (Track (EndSession (atEnd t) uid gid) :: calls).
    rewrite Hcalls. cbn [activities fold_left]. rewrite Hc. reflexivity.
  - exists [Track (EndSession (atEnd t) uid gid)]. cbn [activities fold_left].
    rewrite Hc. reflexivity.
  - exists [Track (EndSession (atEnd t) uid gid)]. cbn [activities fold_left].
    rewrite Hc. reflexivity.
Qed.

Lemma startAndNotify_calls d t gid gname uid uname ch name w :
  exists calls,
    activities (startAndNotify d t gid gname uid uname ch name w)
    = fold_left perform calls (activities w).
Proof.
  unfold startAndNotify.
  match goal with |- context [sendStreamNotification d gid uid ?a ?b ?e ?f ?w'] =>
    destruct (sendStreamNotification_calls d gid uid a b e f w') as [calls Hcalls]
  end.
  exists (Track (StartSession (atCreate t) (atInnerEnd t) (atStart t)
                   uid uname gid gname ch name) :: calls).
  rewrite Hcalls. reflexivity.
Qed.

Lemma calls_app c calls1 calls2 :
  fold_left perform calls2 (fold_left perform calls1 c)
  = fold_left perform (calls1 ++ calls2) c.
Proof. rewrite fold_left_app. reflexivity. Qed.

Lemma onVoiceStateUpdate_calls d t u w :
  exists calls,
    activities (onVoiceStateUpdate d t u w) = fold_left perform calls (activities w).
Proof.
  assert (exists calls, activities w = fold_left perform calls (activities w)) as Hsame
    by (exists []; reflexivity).
  unfold onVoiceStateUpdate.
  destruct (_ || _); [exact Hsame|].
  destruct (newMember u) as [member|]; [|exact Hsame]. cbv zeta.
  destruct (negb (streaming (oldState u)) && streaming (newState u)).
  { destruct (channel (newState u)) as [[ch [name|]]|]; try exact Hsame.
    apply startAndNotify_calls. }
  destruct (streaming (oldState u) && negb (streaming (newState u)));
    [apply endAndNotify_calls|].
  destruct (_ && _ && _); [apply endAndNotify_calls|].
  destruct (_ && _ && _); [|exact Hsame].
  destruct (endAndNotify_calls d t (guildId u) (memberId member) (oldState u) w)
    as [calls1 H1].
  destruct (channelId (newState u)) as [ch|].
  - destruct (startAndNotify_calls d t (guildId u) (guildName u) (memberId member)
                (memberName member) ch (channelNameOr (newState u))
                (endAndNotify d t (guildId u) (memberId member) (oldState u) w))
      as [calls2 H2].
    exists (calls1 ++ calls2). rewrite H2, H1. apply calls_app.
  - destruct (getOrCreateStreamActivity _ _ _ _ _ _) as [c1 d1] eqn:E1.
    destruct (endStreamSession _ _ _ c1) as [c2 r2] eqn:E2.
    exists (calls1 ++ [Ensure (atCreate t) (memberId member) (memberName member)
                         (guildId u) (guildName u);
                       Track (EndSession (atInnerEnd t) (memberId member) (guildId u))]).
    rewrite <- calls_app, <- H1. cbn [activities fold_left perform step].
    rewrite E1. cbn [fst]. rewrite E2. reflexivity.
Qed.

Lemma after_reach events : exists calls, activities (after events) = reach calls.
Proof.
  unfold after.
  induction events as [|e events IH] using rev_ind; [exists []; reflexivity|].
  rewrite fold_left_app. cbn [fold_left]. destruct IH as [calls IH].
  destruct e as [[[settings d] t] u]. unfold handle at 1.
  destruct (onVoiceStateUpdate_calls d t u
              (mkWorld (activities (fold_left handle events (mkWorld [] [] [])))
                 settings (outbox (fold_left handle events (mkWorld [] [] [])))))
    as [calls' H'].
  exists (calls ++ calls'). rewrite H'. cbn [activities]. rewrite IH.
  unfold reach. apply calls_app.
Qed.

(** *** What the bot reports after an update *)

Lemma Inv_calls calls : forall c, Inv c -> Inv (fold_left perform calls c).
Proof.
  induction calls as [|k calls IH]; intros c HI; [exact HI|].
  cbn. apply IH, QueryFacts.Inv_perform, HI.
Qed.

Lemma getActiveStream_saveStreamNotificationId clk u g uid gid m n c :
  getActiveStream clk u g (fst (saveStreamNotificationId uid gid m n c))
  = getActiveStream clk u g c.
Proof.
  rewrite QueryFacts.saveStreamNotificationId_fst.
  destruct (findOne uid gid c) as [d|] eqn:Hf; [|reflexivity].
  destruct (latestStream (this d)) as [latest|] eqn:Hl; [|reflexivity].
  destruct (isOpen latest) eqn:Ho; [|reflexivity].
  destruct (findOne_Some _ _ _ _ Hf) as (_ & Hd & _).
  unfold getActiveStream.
  rewrite (QueryFacts.findOne_insert u g c (_id d) (this d)) by (exact Hd || reflexivity).
  destruct (findOne u g c) as [d'|] eqn:Hf'; [|reflexivity]. cbn [fmap option_fmap option_map].
  destruct (decide (_id d' = _id d)) as [E|E]; [|reflexivity].
  destruct (findOne_Some _ _ _ _ Hf') as (_ & Hd' & _).
  rewrite E, Hd in Hd'. injection Hd' as Hd'. rewrite <- Hd'. cbn [this].
  rewrite (QueryFacts.latest_notified m n _ _ Hl), Hl.
  change (isOpen (with_notification m n latest)) with (isOpen latest).
  rewrite Ho. reflexivity.
Qed.

Lemma getActiveStream_sendStreamNotification clk u g d gid uid ch isStarting dur intr w :
  getActiveStream clk u g
    (activities (sendStreamNotification d gid uid ch isStarting dur intr w))
  = getActiveStream clk u g (activities w).
Proof.
  destruct (sendStreamNotification_activities d gid uid ch isStarting dur intr w)
    as [->|(_ & m & n & ->)]; [reflexivity|].
  apply getActiveStream_saveStreamNotificationId.
Qed.

Lemma Inv_endAndNotify d t gid uid old w :
  Inv (activities w) -> Inv (activities (endAndNotify d t gid uid old w)).
Proof.
  intros HI. destruct (endAndNotify_calls d t gid uid old w) as [calls ->].
  apply Inv_calls, HI.
Qed.

Lemma startAndNotify_live clk d t gid gname uid uname ch name w :
  Inv (activities w) ->
  getActiveStream clk uid gid
    (activities (startAndNotify d t gid gname uid uname ch name w))
  = Some (mkActiveInfo (now (atStart t)) ch name
            ((now clk - now (atStart t)) / 60000)).
Proof.
  intros HI. unfold startAndNotify.
  rewrite getActiveStream_sendStreamNotification. cbn [activities].
  destruct (QueryFacts.startStreamSession_found (atCreate t) (atInnerEnd t) (atStart t)
              uid uname gid gname ch name _ HI) as (i & a3 & Hf & Hl).
  unfold getActiveStream. rewrite Hf. cbn [this]. rewrite Hl. reflexivity.
Qed.

Lemma endStreamSession_not_live clk clk' uid gid c :
  getActiveStream clk uid gid (fst (endStreamSession clk' uid gid c)) = None.
Proof.
  rewrite endStreamSession_fst. unfold getActiveStream at 1.
  destruct (findOne uid gid c) as [d|] eqn:Hf; [|rewrite Hf; reflexivity].
  destruct (latestStream (this d)) as [latest|] eqn:Hl; [|rewrite Hf, Hl; reflexivity].
  destruct (isOpen latest) eqn:Ho; [|rewrite Hf, Hl, Ho; reflexivity].
  destruct (findOne_Some _ _ _ _ Hf) as (_ & _ & Hk).
  rewrite (QueryFacts.findOne_insert_found _ _ _ _ _ Hf)
    by (rewrite QueryFacts.key_endStream; exact Hk).
  cbn [this]. rewrite (QueryFacts.latest_endStream clk' d latest Hl Ho). reflexivity.
Qed.

Lemma endAndNotify_not_live clk d t gid uid old w :
  getActiveStream clk uid gid (activities (endAndNotify d t gid uid old w)) = None.
Proof.
  unfold endAndNotify.
  pose proof (endStreamSession_not_live clk (atEnd t) uid gid (activities w)) as H.
  destruct (endStreamSession (atEnd t) uid gid (activities w)) as [c r].
  cbn [fst] in H.
  destruct r as [[doc [details|]]|]; [|exact H|exact H].
  rewrite getActiveStream_sendStreamNotification. exact H.
Qed.

(** *** The two notifications of a session *)

Lemma sendStreamNotification_start settings d gid n uid ch c out :
  notifies settings d gid n ->
  sendStreamNotification d gid uid ch true None false (mkWorld c settings out)
  = mkWorld (fst (saveStreamNotificationId uid gid (messageId d (length out)) n c))
      settings
      (out ++ [Sent n (messageId d (length out)) (embedOf uid ch true None false)]).
Proof.
  intros (H1 & H2 & H3 & H4). unfold sendStreamNotification. cbn [configs activities outbox].
  rewrite H1, H2, H4. rewrite (bool_decide_eq_false_2 _ H3). reflexivity.
Qed.

Lemma sendStreamNotification_end settings d gid n uid ch dur intr c out :
  notifies settings d gid n ->
  sendStreamNotification d gid uid ch false dur intr (mkWorld c settings out)
  = mkWorld c settings
      (out ++
       [match getStreamNotificationId uid gid c with
        | Some (original, channel) =>
            if bool_decide (channel = n) && fetchable d n original
            then Replied n original (messageId d (length out))
                   (embedOf uid ch false dur intr)
            else Sent n (messageId d (length out)) (embedOf uid ch false dur intr)
        | None => Sent n (messageId d (length out)) (embedOf uid ch false dur intr)
        end]).
Proof.
  intros (H1 & H2 & H3 & H4). unfold sendStreamNotification. cbn [configs activities outbox].
  rewrite H1, H2, H4. rewrite (bool_decide_eq_false_2 _ H3). cbn [negb].
  destruct (getStreamNotificationId uid gid c) as [[o ch']|]; [|reflexivity].
  destruct (bool_decide (ch' = n) && fetchable d n o); reflexivity.
Qed.

(** *** The messages of an update *)

Lemma sendStreamNotification_outbox d gid uid ch isStarting dur intr w :
  exists new,
    outbox (sendStreamNotification d gid uid ch isStarting dur intr w)
    = outbox w ++ new /\
    (length new <= 1)%nat /\ Forall (allowed (configs w) d gid) new.
Proof.
  assert (exists new, outbox w = outbox w ++ new /\ (length new <= 1)%nat /\
                      Forall (allowed (configs w) d gid) new) as Hnone.
  { exists []. rewrite app_nil_r. split; [reflexivity|]. split; [cbn; lia|constructor]. }
  unfold sendStreamNotification.
  destruct (Config.isStreamTrackingEnabled gid (configs w)) eqn:H1; [|exact Hnone].
  destruct (Config.getNotificationChannel gid (configs w)) as [n|] eqn:H2; [|exact Hnone].
  destruct (bool_decide (n = "")); [exact Hnone|].
  destruct (channelCached d gid n) eqn:H4; [|exact Hnone]. cbn [negb].
  assert (forall o, channelOf o = n -> Forall (allowed (configs w) d gid) [o]) as Hok.
  { intros o <-. apply Forall_singleton. repeat split; assumption. }
  destruct isStarting.
  - eexists. split; [reflexivity|]. split; [cbn; lia|]. apply Hok. reflexivity.
  - destruct (getStreamNotificationId uid gid (activities w)) as [[o c]|];
      [destruct (bool_decide (c = n) && fetchable d n o)|];
      (eexists; split; [reflexivity|]; split; [cbn; lia|]; apply Hok; reflexivity).
Qed.

Lemma endAndNotify_outbox d t gid uid old w :
  exists new,
    outbox (endAndNotify d t gid uid old w) = outbox w ++ new /\
    (length new <= 1)%nat /\ Forall (allowed (configs w) d gid) new.
Proof.
  unfold endAndNotify.
  destruct (endStreamSession (atEnd t) uid gid (activities w)) as [c r].
  destruct r as [[doc [details|]]|].
  - apply (sendStreamNotification_outbox d gid uid _ false _ false
             (mkWorld c (configs w) (outbox w))).
  - exists []. rewrite app_nil_r. split; [reflexivity|]. split; [cbn; lia|constructor].
  - exists []. rewrite app_nil_r. split; [reflexivity|]. split; [cbn; lia|constructor].
Qed.

Lemma endAndNotify_configs d t gid uid old w :
  configs (endAndNotify d t gid uid old w) = configs w.
Proof.
  unfold endAndNotify.
  destruct (endStreamSession (atEnd t) uid gid (activities w)) as [c r].
  destruct r as [[doc [details|]]|]; try reflexivity.
  rewrite sendStreamNotification_configs. reflexivity.
Qed.

Lemma startAndNotify_outbox d t gid gname uid uname ch name w :
  exists new,
    outbox (startAndNotify d t gid gname uid uname ch name w) = outbox w ++ new /\
    (length new <= 1)%nat /\ Forall (allowed (configs w) d gid) new.
Proof.
  unfold startAndNotify.
  match goal with |- context [sendStreamNotification d gid uid ?a ?b ?e ?f ?w'] =>
    apply (sendStreamNotification_outbox d gid uid a b e f w')
  end.
Qed.

Lemma onVoiceStateUpdate_outbox d t u w :
  exists new,
    outbox (onVoiceStateUpdate d t u w) = outbox w ++ new /\
    (length new <= 2)%nat /\ Forall (allowed (configs w) d (guildId u)) new.
Proof.
  assert (exists new, outbox w = outbox w ++ new /\ (length new <= 2)%nat /\
                      Forall (allowed (configs w) d (guildId u)) new) as Hnone.
  { exists []. rewrite app_nil_r. split; [reflexivity|]. split; [cbn; lia|constructor]. }
  assert (forall w',
            (exists new, outbox w' = outbox w ++ new /\ (length new <= 1)%nat /\
                         Forall (allowed (configs w) d (guildId u)) new) ->
            exists new, outbox w' = outbox w ++ new /\ (length new <= 2)%nat /\
                        Forall (allowed (configs w) d (guildId u)) new) as Hone.
  { intros w' (new & E & L & F). exists new. split; [exact E|]. split; [lia|exact F]. }
  unfold onVoiceStateUpdate.
  destruct (_ || _); [exact Hnone|].
  destruct (newMember u) as [member|]; [|exact Hnone]. cbv zeta.
  destruct (negb (streaming (oldState u)) && streaming (newState u)).
  { destruct (channel (newState u)) as [[ch [name|]]|]; try exact Hnone.
    apply Hone, startAndNotify_outbox. }
  destruct (streaming (oldState u) && negb (streaming (newState u)));
    [apply Hone, endAndNotify_outbox|].
  destruct (_ && _ && _); [apply Hone, endAndNotify_outbox|].
  destruct (_ && _ && _); [|exact Hnone].
  destruct (endAndNotify_outbox d t (guildId u) (memberId member) (oldState u) w)
    as (new1 & E1 & L1 & F1).
  pose proof (endAndNotify_configs d t (guildId u) (memberId member) (oldState u) w) as Ec.
  destruct (channelId (newState u)) as [ch|].
  - destruct (startAndNotify_outbox d t (guildId u) (guildName u) (memberId member)
                (memberName member) ch (channelNameOr (newState u))
                (endAndNotify d t (guildId u) (memberId member) (oldState u) w))
      as (new2 & E2 & L2 & F2).
    exists (new1 ++ new2). rewrite E2, E1, app_assoc. split; [reflexivity|].
    split; [rewrite length_app; lia|]. apply Forall_app. split; [exact F1|].
    rewrite Ec in F2. exact F2.
  - destruct (getOrCreateStreamActivity _ _ _ _ _ _) as [c1 d1].
    destruct (endStreamSession _ _ _ c1) as [c2 r2]. cbn [outbox].
    exists new1. split; [exact E1|]. split; [lia|exact F1].
Qed.

(** Two calls of [startStreamSession] in progress together leave the two
    sessions they start without [endTime]. *)
Lemma startedTogether_open
    clkNew1 clkNew2 clkEnd1 clkEnd2 clkStart1 clkStart2
    uid uname gid gname ch1 chn1 ch2 chn2 c :
  Inv c ->
  exists i a l,
    startedTogether clkNew1 clkNew2 clkEnd1 clkEnd2 clkStart1 clkStart2
      uid uname gid gname ch1 chn1 ch2 chn2 c !! i = Some a /\
    key a = (uid, gid) /\
    streams a = l ++ [newStream clkStart1 ch1 chn1; newStream clkStart2 ch2 chn2] /\
    Forall closed l.
Proof.
  intros HI. unfold startedTogether.
  destruct (getOrCreateStreamActivity_spec clkNew1 uid uname gid gname c HI)
    as [HI1 Hf1].
  destruct (getOrCreateStreamActivity clkNew1 uid uname gid gname c) as [c1 d1].
  cbn [fst snd] in HI1, Hf1.
  unfold getOrCreateStreamActivity. rewrite Hf1.
  destruct (findOne_Some _ _ _ _ Hf1) as (Hm & Hi & Hk).
  destruct (endStreamSession_closed clkEnd1 uid gid c1 d1 HI1 Hf1)
    as (a2 & E2 & Hk2 & Hs2 & Hc2 & _).
  destruct (endStreamSession clkEnd1 uid gid c1) as [c2 e1]. cbn [fst] in E2. subst c2.
  assert (Inv (<[_id d1 := a2]> c1)) as HI2.
  { eapply Inv_insert; eauto. congruence. }
  assert (<[_id d1 := a2]> c1 !! _id d1 = Some a2) as Hi2.
  { apply list_lookup_insert_eq. eapply lookup_lt_Some; eauto. }
  assert (findOne uid gid (<[_id d1 := a2]> c1) = Some (mkDocument (_id d1) a2 []))
    as Hf2.
  { unfold key in Hk2. injection Hk2 as <- <-.
    apply findOne_unique; [apply HI2|exact Hi2]. }
  assert (fst (endStreamSession clkEnd2 uid gid (<[_id d1 := a2]> c1))
          = <[_id d1 := a2]> c1) as E3.
  { rewrite endStreamSession_fst, Hf2. cbn [this].
    destruct (latestStream a2) as [latest|] eqn:El; [|reflexivity].
    apply latest_snoc in El as (l & El & _).
    pose proof Hc2 as Hlast. rewrite El in Hlast.
    apply Forall_app in Hlast as [_ Hlast].
    apply Forall_inv in Hlast. unfold closed in Hlast. rewrite Hlast. reflexivity. }
  destruct (endStreamSession clkEnd2 uid gid (<[_id d1 := a2]> c1)) as [c3 e2].
  cbn [fst] in E3. subst c3.
  unfold save. cbn [fst _id].
  rewrite !id_startStream.
  rewrite (alter_insert _ _ _ _ Hi2).
  set (a3 := fold_left apply (modified (startStream clkStart1 ch1 chn1 d1)) a2).
  destruct (startStream_replay clkStart1 ch1 chn1 d1 a2 Hm) as (F1 & F2 & _).
  fold a3 in F1, F2.
  assert (<[_id d1 := a3]> (<[_id d1 := a2]> c1) !! _id d1 = Some a3) as Hi3.
  { apply list_lookup_insert_eq. rewrite length_insert. eapply lookup_lt_Some; eauto. }
  rewrite (alter_insert _ _ _ _ Hi3).
  set (a4 := fold_left apply (modified (startStream clkStart2 ch2 chn2 d1)) a3).
  destruct (startStream_replay clkStart2 ch2 chn2 d1 a3 Hm) as (G1 & G2 & _).
  fold a4 in G1, G2.
  exists (_id d1), a4, (streams a2).
  split; [apply list_lookup_insert_eq; rewrite !length_insert;
          eapply lookup_lt_Some; eauto|].
  split; [|split; [|exact Hc2]].
  - rewrite <- Hk2. apply identity_key. congruence.
  - rewrite G2, F2, <- app_assoc. reflexivity.
Qed.

End BotFacts.

(** X1.  On a store reached by calls of the tracker, of
    [getOrCreateStreamActivity] and of [saveStreamNotificationId], the
    statistics of a user are available for
    every period asked, and they agree with the user's full history:
    [totalStreams] is the number of entries of the history, and
    [totalStreamTime] is the sum of the durations that the history shows
    (an interrupted entry shows none). *)
Theorem stats_agree_with_history (calls : list Laws.Call) uid gid period :
  let c := Laws.reach calls in
  exists st,
    Queries.getUserStreamStats uid gid period c = Js.Ok st /\
    Queries.st_totalStreams st
    = Z.of_nat (length (Queries.getUserStreamHistory uid gid 0 c)) /\
    Queries.st_totalStreamTime st
    = Laws.minutesShown (Queries.getUserStreamHistory uid gid 0 c).
Proof.
  intros c.
  destruct (QueryFacts.Inv_reach calls) as [HI HA]. fold c in HI, HA.
  rewrite QueryFacts.getUserStreamHistory_sorted. cbn [Z.ltb Z.compare].
  unfold Queries.getUserStreamStats, Laws.endedOf.
  destruct (findOne uid gid c) as [d|] eqn:Hf.
  - destruct (findOne_Some _ _ _ _ Hf) as (_ & Hd & _).
    pose proof (Inv_lookup _ _ _ HI Hd) as Hs.
    destruct (Forall_lookup_1 _ _ _ _ HA Hd) as [H1 H2].
    assert (exists ps, Queries.getCurrentPeriodStats period (this d) = Js.Ok ps)
      as [ps Hps].
    { unfold Queries.getCurrentPeriodStats.
      destruct (sound_totals _ Hs Daily) as [w1 E1].
      destruct (sound_totals _ Hs Weekly) as [w2 E2].
      destruct (sound_totals _ Hs Monthly) as [w3 E3].
      cbn in E1, E2, E3. rewrite E1, E2, E3.
      repeat case_bool_decide; eexists; reflexivity. }
    rewrite Hps. eexists. split; [reflexivity|]. cbn.
    rewrite length_fmap, QueryFacts.minutesShown_history.
    rewrite (QueryFacts.completedMinutes_Permutation _ _
               (QueryFacts.sortDesc_Permutation _ _)).
    rewrite (Permutation_length (QueryFacts.sortDesc_Permutation _ _)).
    split; assumption.
  - eexists. split; [reflexivity|]. split; reflexivity.
Qed.

(** X2.  The history of a key is made of the key's ended sessions, newest
    first: it is the beginning of the list of all of them in descending
    order of [startTime]; with a positive [limit] it has [limit] entries,
    or all of them if there are fewer, and with [limit] 0 (or less) it has
    them all.  Each entry shows its session as [wellShown] says. *)
Theorem history_newest_first (uid gid : string) (limit : Z) (c : Collection) :
  let h := Queries.getUserStreamHistory uid gid limit c in
  exists rest,
    h ++ rest ≡ₚ Queries.historyEntryOf <$> Laws.endedOf uid gid c /\
    descending Queries.he_startTime (h ++ rest) /\
    Z.of_nat (length h)
    = (if 0 <? limit
       then Z.min limit (Z.of_nat (length (Laws.endedOf uid gid c)))
       else Z.of_nat (length (Laws.endedOf uid gid c))) /\
    Forall Laws.wellShown h.
Proof.
  intros h. subst h. rewrite QueryFacts.getUserStreamHistory_sorted.
  set (sorted := Js.sortDesc startTime (Laws.endedOf uid gid c)).
  assert (sorted ≡ₚ Laws.endedOf uid gid c) as HP
    by apply QueryFacts.sortDesc_Permutation.
  assert (descending Queries.he_startTime (Queries.historyEntryOf <$> sorted)) as HD.
  { apply (QueryFacts.descending_fmap _ startTime).
    - intros s. unfold Queries.historyEntryOf. destruct (interrupted s); reflexivity.
    - apply LeaderboardFacts.descending_sortDesc. }
  assert (Forall Laws.wellShown (Queries.historyEntryOf <$> sorted)) as HW.
  { apply Forall_fmap. rewrite HP. unfold Laws.endedOf.
    destruct (findOne uid gid c); [|constructor].
    unfold Laws.ended. apply Forall_forall. intros s Hs.
    apply list_elem_of_filter in Hs. apply QueryFacts.wellShown_ended, Hs. }
  destruct (0 <? limit) eqn:E.
  - apply Z.ltb_lt in E.
    exists (Queries.historyEntryOf <$>
              drop (Js.slice_end (length sorted) limit) sorted).
    rewrite QueryFacts.slice0_take, <- fmap_app, take_drop.
    split; [rewrite HP; reflexivity|]. split; [exact HD|]. split.
    + rewrite length_fmap, length_take.
      rewrite <- (Permutation_length HP).
      pose proof (QueryFacts.slice_end_pos (length sorted) limit E). lia.
    + rewrite fmap_take. apply Forall_take. exact HW.
  - exists []. rewrite app_nil_r.
    split; [rewrite HP; reflexivity|]. split; [exact HD|]. split; [|exact HW].
    rewrite length_fmap, (Permutation_length HP). reflexivity.
Qed.

(** X3.  [getActiveStream] reports a session exactly when a call of
    [endStreamSession] or [markStreamAsInterrupted] at that moment closes
    one and [saveStreamNotificationId] accepts ids for it; the duration it
    reports is the one that either call records.  When it reports none,
    the three calls change nothing and return their empty answers. *)
Theorem active_stream_is_what_ends clk uid gid messageId channelId c :
  match Queries.getActiveStream clk uid gid c with
  | Some info =>
      (exists doc details,
          snd (endStreamSession clk uid gid c) = Some (doc, Some details) /\
          sd_startTime details = Queries.ai_startTime info /\
          sd_endTime details = Some (now clk) /\
          sd_duration details = Queries.ai_duration info /\
          sd_channelName details = Queries.ai_channelName info) /\
      (exists doc details,
          snd (markStreamAsInterrupted clk uid gid c) = Some (doc, Some details) /\
          sd_startTime details = Queries.ai_startTime info /\
          sd_endTime details = Some (now clk) /\
          sd_duration details = Queries.ai_duration info /\
          sd_interrupted details = true) /\
      snd (Queries.saveStreamNotificationId uid gid messageId channelId c) = true
  | None =>
      endStreamSession clk uid gid c = (c, None) /\
      markStreamAsInterrupted clk uid gid c = (c, None) /\
      Queries.saveStreamNotificationId uid gid messageId channelId c = (c, false)
  end.
Proof.
  unfold Queries.getActiveStream, endStreamSession, markStreamAsInterrupted,
    Queries.saveStreamNotificationId.
  destruct (findOne uid gid c) as [d|] eqn:Hf; [|repeat split].
  destruct (latestStream (this d)) as [latest|] eqn:Hl; [|repeat split].
  destruct (isOpen latest) eqn:Ho; [|repeat split].
  unfold save, detailsOf. cbn [fst snd this Queries.ai_startTime
    Queries.ai_duration Queries.ai_channelName].
  rewrite (QueryFacts.latest_endStream clk d latest Hl Ho).
  rewrite (QueryFacts.latest_interruptLatest clk d latest Hl).
  split; [|split; [|reflexivity]].
  - eexists _, _. split; [reflexivity|]. repeat split.
  - eexists _, _. split; [reflexivity|]. repeat split.
Qed.

(** X4.  The ids saved by [saveStreamNotificationId] for a session in
    progress are the ones that [getStreamNotificationId] returns
    afterwards, and still returns once the session has been closed by
    [endStreamSession] or by [markStreamAsInterrupted] (which is when the
    end notification looks for the message to reply to). *)
Theorem notification_id_round_trip uid gid messageId channelId c :
  messageId <> "" -> channelId <> "" ->
  Laws.live uid gid c ->
  let c' := fst (Queries.saveStreamNotificationId uid gid messageId channelId c) in
  Queries.getStreamNotificationId uid gid c' = Some (messageId, channelId) /\
  (forall clk,
      Queries.getStreamNotificationId uid gid (fst (endStreamSession clk uid gid c'))
      = Some (messageId, channelId)) /\
  (forall clk,
      Queries.getStreamNotificationId uid gid
        (fst (markStreamAsInterrupted clk uid gid c'))
      = Some (messageId, channelId)).
Proof.
  intros Hm Hc (d & s & Hf & Hl & Ho) c'.
  destruct (QueryFacts.findOne_saveStreamNotificationId uid gid messageId channelId
              c d s Hf Hl Ho) as (a1 & Hf1 & Hl1).
  fold c' in Hf1.
  split; [|split; intros clk].
  - rewrite (QueryFacts.getStreamNotificationId_found _ _ _ _ Hf1). cbn [this].
    rewrite Hl1. apply QueryFacts.notificationOf_set; assumption.
  - destruct (QueryFacts.findOne_endStreamSession clk uid gid c' _ _ Hf1 Hl1 Ho)
      as (a2 & Hf2 & Hl2).
    rewrite (QueryFacts.getStreamNotificationId_found _ _ _ _ Hf2). cbn [this].
    rewrite Hl2. apply (QueryFacts.notificationOf_set _ _ s); assumption.
  - destruct (QueryFacts.findOne_markStreamAsInterrupted clk uid gid c' _ _ Hf1 Hl1 Ho)
      as (a2 & Hf2 & Hl2).
    rewrite (QueryFacts.getStreamNotificationId_found _ _ _ _ Hf2). cbn [this].
    rewrite Hl2. apply (QueryFacts.notificationOf_set _ _ s); assumption.
Qed.

Lemma notification_id_round_trip_witness :
  let c' := fst (Queries.saveStreamNotificationId "u1" "g" "m1" "n" [oneLiveActivity]) in
  Queries.getStreamNotificationId "u1" "g" c' = Some ("m1", "n") /\
  (forall clk,
      Queries.getStreamNotificationId "u1" "g" (fst (endStreamSession clk "u1" "g" c'))
      = Some ("m1", "n")) /\
  (forall clk,
      Queries.getStreamNotificationId "u1" "g"
        (fst (markStreamAsInterrupted clk "u1" "g" c'))
      = Some ("m1", "n")).
Proof.
  apply (notification_id_round_trip "u1" "g" "m1" "n" [oneLiveActivity]).
  - discriminate.
  - discriminate.
  - exists (mkDocument 0 oneLiveActivity []), oneLiveSession.
    split; [reflexivity|]. split; reflexivity.
Defined.

(** X5.  After [startStreamSession], on a store reached by calls of the
    tracker, of [getOrCreateStreamActivity] and of
    [saveStreamNotificationId]: [getActiveStream] reports
    the new session, with its channel, its start and the whole minutes
    elapsed since; no notification ids are known for the key, whatever was
    saved for its earlier sessions; and once [endStreamSession] has run,
    [getActiveStream] reports nothing. *)
Theorem started_session_is_reported (calls : list Laws.Call)
    clkNew clkEnd clkStart clk clk' uid uname gid gname ch chn :
  let c := fst (startStreamSession clkNew clkEnd clkStart
                  uid uname gid gname ch chn (Laws.reach calls)) in
  Queries.getActiveStream clk uid gid c
  = Some (Queries.mkActiveInfo (now clkStart) ch chn
            ((now clk - now clkStart) / 60000)) /\
  Queries.getStreamNotificationId uid gid c = None /\
  Queries.getActiveStream clk uid gid (fst (endStreamSession clk' uid gid c)) = None.
Proof.
  intros c.
  destruct (QueryFacts.Inv_reach calls) as [HI _].
  destruct (QueryFacts.startStreamSession_found clkNew clkEnd clkStart
              uid uname gid gname ch chn _ HI) as (i & a3 & Hf & Hl).
  fold c in Hf. split; [|split].
  - unfold Queries.getActiveStream. rewrite Hf. cbn [this]. rewrite Hl. reflexivity.
  - rewrite (QueryFacts.getStreamNotificationId_found _ _ _ _ Hf). cbn [this].
    rewrite Hl. reflexivity.
  - destruct (QueryFacts.findOne_endStreamSession clk' uid gid c _ _ Hf Hl)
      as (a4 & Hf4 & Hl4); [reflexivity|].
    unfold Queries.getActiveStream. rewrite Hf4. cbn [this]. rewrite Hl4. reflexivity.
Qed.

(** X6.  With the store answering and one aggregate per key, the list of
    [getAllActiveStreams] and [getActiveStream] agree: every listed stream
    is the one that [getActiveStream] reports for its user and guild, with
    the same channel and start; and a key for which [getActiveStream]
    reports a session is listed. *)
Theorem active_streams_are_listed env clk c :
  Recovery.storeReady env = true ->
  NoDup (key <$> c) ->
  Forall (fun s =>
            Queries.getActiveStream clk (Recovery.userId s) (Recovery.guildId s) c
            = Some (Queries.mkActiveInfo (Recovery.startTime s)
                      (Recovery.channelId s) (Recovery.channelName s)
                      ((now clk - Recovery.startTime s) / 60000)))
    (Recovery.getAllActiveStreams env c) /\
  forall uid gid,
    is_Some (Queries.getActiveStream clk uid gid c) ->
    exists s, s ∈ Recovery.getAllActiveStreams env c /\
              Recovery.userId s = uid /\ Recovery.guildId s = gid.
Proof.
  intros Hr Hn. rewrite (RecoveryFacts.getAllActiveStreams_omap env c Hr). split.
  - apply Forall_forall. intros s Hs.
    apply list_elem_of_omap in Hs as (a & Ha & Hs).
    apply list_elem_of_lookup in Ha as [i Hi].
    pose proof (findOne_unique c i a Hn Hi) as Hf.
    unfold activeOf in Hs.
    destruct (latestStream a) as [latest|] eqn:Hl; [|discriminate].
    destruct (isOpen latest) eqn:Ho; [|discriminate].
    injection Hs as <-. cbn.
    unfold Queries.getActiveStream. rewrite Hf. cbn [this]. rewrite Hl, Ho.
    reflexivity.
  - intros uid gid [info Hinfo]. unfold Queries.getActiveStream in Hinfo.
    destruct (findOne uid gid c) as [d|] eqn:Hf; [|discriminate].
    destruct (latestStream (this d)) as [latest|] eqn:Hl; [|discriminate].
    destruct (isOpen latest) eqn:Ho; [|discriminate].
    destruct (findOne_Some _ _ _ _ Hf) as (_ & Hd & Hk).
    eexists. split.
    + apply list_elem_of_omap. exists (this d). split.
      * eapply list_elem_of_lookup_2; eauto.
      * unfold activeOf. rewrite Hl, Ho. reflexivity.
    + unfold key in Hk. cbn. split; congruence.
Qed.

Lemma active_streams_are_listed_witness :
  Forall (fun s =>
            Queries.getActiveStream (apr29 120000)
              (Recovery.userId s) (Recovery.guildId s) [oneLiveActivity]
            = Some (Queries.mkActiveInfo (Recovery.startTime s)
                      (Recovery.channelId s) (Recovery.channelName s)
                      ((120000 - Recovery.startTime s) / 60000)))
    (Recovery.getAllActiveStreams stillInA [oneLiveActivity]) /\
  forall uid gid,
    is_Some (Queries.getActiveStream (apr29 120000) uid gid [oneLiveActivity]) ->
    exists s, s ∈ Recovery.getAllActiveStreams stillInA [oneLiveActivity] /\
              Recovery.userId s = uid /\ Recovery.guildId s = gid.
Proof.
  apply (active_streams_are_listed stillInA (apr29 120000) [oneLiveActivity]).
  - reflexivity.
  - apply NoDup_singleton.
Defined.

(** X7.  On a store reached by calls of the tracker, of
    [getOrCreateStreamActivity] and of [saveStreamNotificationId], every
    line of the leaderboard of a guild
    shows, for the period asked, the minutes and the number of streams
    that [getUserStreamStats] gives for that user, guild and period. *)
Theorem leaderboard_matches_stats (calls : list Laws.Call) g period limit :
  Forall (fun e =>
            exists st ps,
              Queries.getUserStreamStats (Leaderboard.userId e) g period
                (Laws.reach calls) = Js.Ok st /\
              Queries.st_periodStats st = Some ps /\
              Queries.ps_totalMinutes ps = Leaderboard.streamTime e /\
              Queries.ps_streamCount ps = Leaderboard.streamCount e)
    (Leaderboard.getServerStreamLeaderboard g period limit (Laws.reach calls)).
Proof.
  destruct (QueryFacts.Inv_reach calls) as [HI _].
  destruct (LeaderboardFacts.leaderboard_entries g period limit (Laws.reach calls))
    as [HE _].
  eapply Forall_impl; [exact HE|]. cbn beta.
  intros e (_ & a & Ha & Hg & ->).
  apply list_elem_of_lookup in Ha as [i Hi].
  pose proof (findOne_unique _ i a (proj1 HI) Hi) as Hf.
  pose proof (Inv_lookup _ _ _ HI Hi) as Hs.
  rewrite LeaderboardFacts.userId_entryOf, <- Hg.
  unfold Queries.getUserStreamStats. rewrite Hf. cbn [this].
  destruct (sound_totals _ Hs Daily) as [w1 E1].
  destruct (sound_totals _ Hs Weekly) as [w2 E2].
  destruct (sound_totals _ Hs Monthly) as [w3 E3].
  cbn in E1, E2, E3.
  unfold Queries.getCurrentPeriodStats, Leaderboard.entryOf.
  rewrite E1, E2, E3.
  repeat case_bool_decide; cbn; eexists _, _; repeat split.
Qed.

(** X8.  Whatever calls of the tracker, of [getOrCreateStreamActivity]
    and of [saveStreamNotificationId] follow, an aggregate stays at its place in the collection with its
    [userId], [username], [guildId] and [guildName] (a later call made
    with another name does not rename it), and it is changed only by calls
    made for its own key. *)
Theorem other_keys_are_untouched (calls : list Laws.Call) (c : Collection) i a :
  c !! i = Some a ->
  exists a',
    fold_left Laws.perform calls c !! i = Some a' /\
    identity a' = identity a /\
    (Forall (fun k => Laws.callKey k <> key a) calls -> a' = a).
Proof.
  intros Hi. destruct (QueryFacts.performs_at calls c i a Hi) as (a' & H1 & [H2 _] & H3).
  exists a'. split; [exact H1|]. split; [exact H2 | exact H3].
Qed.

Lemma other_keys_are_untouched_witness :
  exists a',
    fold_left Laws.perform
      [Laws.Track (StartSession (apr29 60000) (apr29 60000) (apr29 60000)
                     "u1" "Annie" "g" "Guild" "B" "Music");
       Laws.Track (EndSession (apr29 120000) "u2" "g")]
      [oneLiveActivity] !! 0%nat = Some a' /\
    identity a' = identity oneLiveActivity /\
    (Forall (fun k => Laws.callKey k <> key oneLiveActivity)
       [Laws.Track (StartSession (apr29 60000) (apr29 60000) (apr29 60000)
                      "u1" "Annie" "g" "Guild" "B" "Music");
        Laws.Track (EndSession (apr29 120000) "u2" "g")] ->
     a' = oneLiveActivity).
Proof.
  apply (other_keys_are_untouched _ [oneLiveActivity] 0%nat oneLiveActivity).
  reflexivity.
Defined.

(** X9.  The sessions of an aggregate are a log: whatever calls follow, a
    recorded session stays at its index with its start, channel and day,
    and a session that has ended is never changed again. *)
Theorem ended_sessions_are_final (calls : list Laws.Call) (c : Collection) i a j s :
  c !! i = Some a ->
  streams a !! j = Some s ->
  exists a' s',
    fold_left Laws.perform calls c !! i = Some a' /\
    streams a' !! j = Some s' /\
    Laws.sameSession s s'.
Proof.
  intros Hi Hj.
  destruct (QueryFacts.performs_at calls c i a Hi) as (a' & H1 & [_ H2] & _).
  destruct (H2 j s Hj) as (s' & H3 & H4).
  exists a', s'. split; [exact H1|]. split; [exact H3 | exact H4].
Qed.

Lemma ended_sessions_are_final_witness :
  exists a' s',
    fold_left Laws.perform
      [Laws.Track (EndSession (apr29 120000) "u1" "g");
       Laws.Track (StartSession (apr29 180000) (apr29 180000) (apr29 180000)
                     "u1" "Ann" "g" "Guild" "B" "Music")]
      [oneLiveActivity] !! 0%nat = Some a' /\
    streams a' !! 0%nat = Some s' /\
    Laws.sameSession oneLiveSession s'.
Proof.
  apply (ended_sessions_are_final _ [oneLiveActivity] 0%nat oneLiveActivity 0%nat).
  - reflexivity.
  - reflexivity.
Defined.

(** X10.  A duration is shown in whole hours and minutes: [formatTime]
    depends only on the whole minutes of its argument, and
    [formatDuration] of a whole number of seconds shows the whole minutes
    [s / 60], the seconds beyond them dropped; so anything up to 59
    seconds is shown as ["0m"].  An interrupted stream is shown as
    ["Interrupted"] whatever its duration. *)
Theorem durations_show_whole_minutes (q : QArith_base.Q) (s : Z) :
  Format.formatTime q = Laws.shown (Qround.Qfloor q) /\
  Format.formatDuration (QArith_base.inject_Z s) false = Laws.shown (s / 60) /\
  Format.formatDuration (QArith_base.inject_Z (Z.min s 59)) false = "0m" /\
  Format.formatDuration q true = "Interrupted".
Proof.
  split; [apply FormatFacts.formatTime_shown|].
  split; [apply FormatFacts.formatDuration_shown|].
  split; [|reflexivity].
  rewrite FormatFacts.formatDuration_shown. unfold Laws.shown.
  assert (Z.min s 59 / 60 < 1) as Hlt by (apply Z.div_lt_upper_bound; lia).
  rewrite (proj2 (Z.ltb_lt _ _) Hlt). reflexivity.
Qed.

(** X11.  Two different whole numbers of minutes (from 0 on) are never
    shown as the same text by [formatTime]. *)
Theorem shown_minutes_are_distinct (m n : Z) :
  0 <= m -> 0 <= n -> m <> n ->
  Format.formatTime (QArith_base.inject_Z m)
  <> Format.formatTime (QArith_base.inject_Z n).
Proof.
  intros Hm Hn Hne E. apply Hne.
  rewrite !FormatFacts.formatTime_shown, !Qround.Qfloor_Z in E.
  apply FormatFacts.shown_inj; assumption.
Qed.

Lemma shown_minutes_are_distinct_witness :
  Format.formatTime (QArith_base.inject_Z 59)
  <> Format.formatTime (QArith_base.inject_Z 60).
Proof. apply (shown_minutes_are_distinct 59 60); lia. Defined.

(** X12.  Whatever buttons are pressed, and by whom, every state of the
    message of [createPaginatedEmbed] shows a page that exists (never
    [pages[currentPage]] undefined), with either no buttons or the row of
    that page: back buttons disabled on the first page, forward buttons
    on the last, the label counting from 1.  Without pages nothing is
    sent; with pages, the first message shows the first page and the last
    one has no buttons. *)
Theorem paginator_shows_pages {E} (invoker : string) (pages : list E)
    (presses : list (string * string)) :
  let messages := Paginator.createPaginatedEmbed invoker pages presses in
  Forall (Laws.showsPage pages) messages /\
  (Paginator.embed <$> head messages) = Some <$> head pages /\
  (Paginator.components <$> last messages) = (fun _ => None) <$> head pages.
Proof.
  unfold Paginator.createPaginatedEmbed.
  destruct pages as [|p0 [|p1 pages]].
  - repeat split. constructor.
  - split; [|split; reflexivity]. apply Forall_singleton.
    exists 0%nat, p0. repeat split. left. reflexivity.
  - set (ps := p0 :: p1 :: pages).
    set (collected := snd <$> filter (fun i => fst i = invoker) presses).
    assert (0 < length ps)%nat as Hn by (cbn; lia).
    assert (0 <= 0 < Z.of_nat (length ps)) as H0 by (cbn; lia).
    destruct (PageFacts.collect_inv ps collected
                (0, [Paginator.mkMessage (Paginator.page ps 0)
                       (Some (Paginator.getRow (length ps) 0))]) Hn H0)
      as [Hb Hs].
    { apply Forall_singleton. apply (PageFacts.showsPage_at ps 0 true H0). }
    cbv zeta. split; [|split].
    + apply Forall_app. split; [exact Hs|]. apply Forall_singleton.
      apply (PageFacts.showsPage_at ps _ false Hb).
    + assert (forall ids st m rest,
                snd st = m :: rest ->
                head (snd (fold_left (Paginator.collect ps) ids st)) = Some m)
        as Hhead.
      { induction ids as [|b bs IH]; intros st m rest Hst;
          [cbn [fold_left]; rewrite Hst; reflexivity|].
        cbn [fold_left]. apply (IH _ m (rest ++ [Paginator.mkMessage
          (Paginator.page ps (Paginator.press (length ps) (fst st) b))
          (Some (Paginator.getRow (length ps)
                   (Paginator.press (length ps) (fst st) b)))])).
        cbn [snd Paginator.collect]. rewrite Hst. reflexivity. }
      pose proof (Hhead collected
        (0, [Paginator.mkMessage (Paginator.page ps 0)
               (Some (Paginator.getRow (length ps) 0))]) _ [] eq_refl) as Hh.
      destruct (snd (fold_left (Paginator.collect ps) collected _)) eqn:Hfold;
        [discriminate|].
      cbn in Hh. injection Hh as ->. reflexivity.
    + rewrite last_snoc. reflexivity.
Qed.

(** X13.  The pages of the history command hold the streams of the
    history in order, each on one page: five on every page but the last,
    which holds from one to five; the pages are numbered from 1, and each
    footer gives their number and the number of streams. *)
Theorem history_pages_partition (streams : list Queries.HistoryEntry) :
  let pages := History.pagesOf streams in
  concat (History.fields <$> pages) = History.fieldOf <$> streams /\
  Forall (fun p => (1 <= length (History.fields p) <= 5)%nat) pages /\
  Forall (fun p => length (History.fields p) = 5%nat) (removelast pages) /\
  History.pageNumber <$> pages = seqZ 1 (Z.of_nat (length pages)) /\
  Forall (fun p => History.pageCount p = Z.of_nat (length pages) /\
                   History.totalStreams p = length streams) pages.
Proof.
  cbv zeta. rewrite PageFacts.pagesOf_chunks.
  set (n := length streams). set (k := ((n + 4) / 5)%nat).
  assert (n <= 5 * k /\ (k = 0 \/ 5 * (k - 1) < n))%nat as [Hk1 Hk2].
  { subst k. pose proof (Nat.div_mod (n + 4) 5). pose proof (Nat.mod_upper_bound (n + 4) 5).
    lia. }
  split; [|split; [|split; [|split]]].
  - transitivity (History.fieldOf <$>
                    concat ((fun j => take 5 (drop (5 * j) streams)) <$> seq 0 k));
      [|rewrite (PageFacts.chunks_concat k streams Hk1); reflexivity].
    induction (seq 0 k) as [|j js IH]; [reflexivity|].
    cbn. rewrite fmap_app. f_equal. exact IH.
  - apply Forall_fmap, Forall_forall. intros j Hj. apply elem_of_seq in Hj.
    cbn. rewrite length_fmap, length_take, length_drop. fold n. lia.
  - destruct k as [|k']; [constructor|].
    rewrite seq_S, fmap_app. cbn [fmap list_fmap]. rewrite removelast_last.
    apply Forall_fmap, Forall_forall. intros j Hj. apply elem_of_seq in Hj.
    cbn. rewrite length_fmap, length_take, length_drop. fold n. lia.
  - rewrite <- list_fmap_compose, length_fmap, length_seq.
    unfold seqZ. rewrite Nat2Z.id.
    apply list_fmap_ext. intros _ j _. cbn. lia.
  - rewrite length_fmap, length_seq.
    apply Forall_fmap, Forall_forall. intros j _. split; reflexivity.
Qed.

(** X14.  When the bot handles the voice-state updates one at a time,
    each to its end before the next, then whatever the updates, the
    settings and the answers of Discord: every aggregate has at most one
    session without [endTime], its [totalStreams] is the number of its
    ended sessions, and its [totalStreamTime] is the sum of the minutes of
    those of them that were not interrupted.  The condition is needed: the
    emitter does not wait for a handler, and when two calls of
    [startStreamSession] for one user are in progress together (both have
    read the aggregate before either saves), the aggregate is left with
    the two sessions they start, both without [endTime]. *)
Theorem records_are_sound_when_updates_are_handled_in_turn :
  (forall events : list (Config.Configs * Bot.Discord * Bot.Ticks * Bot.Update),
     Forall (fun a => (openCount a <= 1)%nat /\ Laws.accounted a)
       (Bot.activities (Bot.after events))) /\
  (forall (events : list (Config.Configs * Bot.Discord * Bot.Ticks * Bot.Update))
          clkNew1 clkNew2 clkEnd1 clkEnd2 clkStart1 clkStart2
          uid uname gid gname ch1 chn1 ch2 chn2,
     exists i a,
       Laws.startedTogether clkNew1 clkNew2 clkEnd1 clkEnd2 clkStart1 clkStart2
         uid uname gid gname ch1 chn1 ch2 chn2
         (Bot.activities (Bot.after events)) !! i = Some a /\
       key a = (uid, gid) /\
       openCount a = 2%nat).
Proof.
  split.
  - intros events.
    destruct (BotFacts.after_reach events) as [calls ->].
    destruct (QueryFacts.Inv_reach calls) as [[_ HS] HA].
    apply Forall_forall. intros a Ha. split.
    + apply openCount_le_1, sound_latest. eapply Forall_forall in HS; eauto.
    + eapply Forall_forall in HA; eauto.
  - intros events clkNew1 clkNew2 clkEnd1 clkEnd2 clkStart1 clkStart2
      uid uname gid gname ch1 chn1 ch2 chn2.
    destruct (BotFacts.after_reach events) as [calls ->].
    destruct (QueryFacts.Inv_reach calls) as [HI _].
    destruct (BotFacts.startedTogether_open clkNew1 clkNew2 clkEnd1 clkEnd2
                clkStart1 clkStart2 uid uname gid gname ch1 chn1 ch2 chn2 _ HI)
      as (i & a & l & Hi & Hk & Hs & Hc).
    exists i, a. split; [exact Hi|]. split; [exact Hk|].
    unfold openCount. rewrite Hs, filter_app, length_app.
    rewrite (filter_open_closed l Hc). reflexivity.
Qed.

(** X15.  What [getActiveStream] reports for a member who is not a bot
    once the bot has handled a voice-state update about them, whatever
    updates it handled before and whatever the settings:
    - the member starts streaming in a channel that is in the cache: the
      new session, in that channel, started at the time of the call; in a
      channel that is not in the cache: nothing is recorded;
    - the member stops streaming: no session;
    - the member goes on streaming: in another channel, the new session in
      that channel (named "unknown channel" if it is not in the cache); in
      no channel any more, no session; in the same channel, nothing
      changes;
    - the member was not and is not streaming: nothing changes. *)
Theorem voice_update_is_tracked
    (events : list (Config.Configs * Bot.Discord * Bot.Ticks * Bot.Update))
    settings d t u m clk :
  Laws.human u m ->
  let w' := Bot.handle (Bot.after events) (settings, d, t, u) in
  let reported :=
    Queries.getActiveStream clk (Bot.memberId m) (Bot.guildId u) (Bot.activities w') in
  let unchanged := Bot.activities w' = Bot.activities (Bot.after events) in
  match Bot.streaming (Bot.oldState u), Bot.streaming (Bot.newState u) with
  | false, true =>
      match Bot.channel (Bot.newState u) with
      | Some (ch, Some name) =>
          reported = Some (Queries.mkActiveInfo (now (Bot.atStart t)) ch name
                             ((now clk - now (Bot.atStart t)) / 60000))
      | _ => unchanged
      end
  | true, false => reported = None
  | true, true =>
      if bool_decide (Bot.channelId (Bot.oldState u) = Bot.channelId (Bot.newState u))
      then unchanged
      else
        match Bot.channelId (Bot.newState u) with
        | Some ch =>
            reported
            = Some (Queries.mkActiveInfo (now (Bot.atStart t)) ch
                      (Bot.channelNameOr (Bot.newState u))
                      ((now clk - now (Bot.atStart t)) / 60000))
        | None => reported = None
        end
  | false, false => unchanged
  end.
Proof.
  intros (Ho & Hn & Hb & Hco & Hcn). cbv zeta.
  destruct (BotFacts.after_reach events) as [calls Hcalls].
  assert (Inv (Bot.activities (Bot.after events))) as HI
    by (rewrite Hcalls; apply QueryFacts.Inv_reach).
  unfold Bot.handle, Bot.onVoiceStateUpdate. rewrite Ho, Hn, Hb. cbn [orb].
  set (w := Bot.mkWorld (Bot.activities (Bot.after events)) settings
              (Bot.outbox (Bot.after events))).
  change (Bot.activities (Bot.after events)) with (Bot.activities w) in HI |- *.
  destruct (Bot.streaming (Bot.oldState u)) eqn:So;
    destruct (Bot.streaming (Bot.newState u)) eqn:Sn; cbn [negb andb].
  - (* streaming before and after *)
    destruct (Bot.channelId (Bot.oldState u)) as [co|] eqn:Co;
      destruct (Bot.channelId (Bot.newState u)) as [cn|] eqn:Cn.
    + rewrite (bool_decide_eq_false_2 (cn = "")) by congruence.
      rewrite andb_false_r.
      destruct (bool_decide (Some co = Some cn)); [reflexivity|]. cbn [negb].
      apply BotFacts.startAndNotify_live, BotFacts.Inv_endAndNotify, HI.
    + rewrite (bool_decide_eq_false_2 (co = "")) by congruence.
      rewrite (bool_decide_eq_false_2 (Some co = None)) by discriminate.
      cbn [negb andb]. apply BotFacts.endAndNotify_not_live.
    + rewrite (bool_decide_eq_false_2 (None = Some cn)) by discriminate.
      cbn [negb andb].
      apply BotFacts.startAndNotify_live, BotFacts.Inv_endAndNotify, HI.
    + rewrite bool_decide_eq_true_2 by reflexivity. reflexivity.
  - apply BotFacts.endAndNotify_not_live.
  - destruct (Bot.channel (Bot.newState u)) as [[ch [name|]]|]; try reflexivity.
    apply BotFacts.startAndNotify_live, HI.
  - reflexivity.
Qed.

Lemma voice_update_is_tracked_witness :
  Queries.getActiveStream (apr29 120000) "u1" "g"
    (Bot.activities (Bot.handle (Bot.after []) (gSettings, discord, ticksAt 0, annStarts)))
  = Some (Queries.mkActiveInfo 0 "A" "General" ((120000 - 0) / 60000)).
Proof.
  apply (voice_update_is_tracked [] gSettings discord (ticksAt 0) annStarts ann
           (apr29 120000)).
  repeat split; discriminate.
Defined.

(** X16.  The notification of the end of a session answers the
    notification of its start.  When a member who is not a bot starts
    streaming in a cached channel and the guild's notifications go to a
    cached channel [n], the bot sends one message there, whose id [m1] is
    not empty.  When the member then stops streaming, the settings still
    sending to [n], the bot sends one more message: a reply to [m1] if
    that message can be fetched, a new message otherwise.  Its "Duration"
    field holds the whole minutes between the two calls, and is absent
    when there are none. *)
Theorem end_notification_replies_to_start
    (events : list (Config.Configs * Bot.Discord * Bot.Ticks * Bot.Update))
    settings d1 t1 u1 d2 t2 u2 m n ch name :
  Laws.human u1 m -> Laws.human u2 m ->
  Bot.guildId u2 = Bot.guildId u1 ->
  Laws.notifies settings d1 (Bot.guildId u1) n ->
  Laws.notifies settings d2 (Bot.guildId u1) n ->
  Bot.streaming (Bot.oldState u1) = false ->
  Bot.streaming (Bot.newState u1) = true ->
  Bot.channel (Bot.newState u1) = Some (ch, Some name) ->
  Bot.streaming (Bot.oldState u2) = true ->
  Bot.streaming (Bot.newState u2) = false ->
  let w0 := Bot.after events in
  let w1 := Bot.handle w0 (settings, d1, t1, u1) in
  let w2 := Bot.handle w1 (settings, d2, t2, u2) in
  let m1 := Bot.messageId d1 (length (Bot.outbox w0)) in
  let m2 := Bot.messageId d2 (length (Bot.outbox w1)) in
  let minutes := (now (Bot.atEnd t2) - now (Bot.atStart t1)) / 60000 in
  let e2 := Bot.embedOf (Bot.memberId m) (Bot.channelId (Bot.oldState u2)) false
              (Some minutes) false in
  m1 <> "" ->
  Bot.outbox w1
  = Bot.outbox w0
    ++ [Bot.Sent n m1 (Bot.embedOf (Bot.memberId m) (Some ch) true None false)] /\
  Bot.outbox w2
  = Bot.outbox w1
    ++ [if Bot.fetchable d2 n m1 then Bot.Replied n m1 m2 e2 else Bot.Sent n m2 e2] /\
  Bot.durationField e2 = (if minutes =? 0 then None else Some minutes).
Proof.
  intros (Ho1 & Hn1 & Hb & _ & _) (Ho2 & Hn2 & _ & _ & _) Hg N1 N2 S1 S2 C1 S3 S4.
  cbv zeta. intros Hm1.
  destruct (BotFacts.after_reach events) as [calls Hcalls].
  assert (Inv (Bot.activities (Bot.after events))) as HI
    by (rewrite Hcalls; apply QueryFacts.Inv_reach).
  set (w0 := Bot.after events) in *.
  set (uid := Bot.memberId m). set (gid := Bot.guildId u1) in *.
  (* the start *)
  assert (Bot.handle w0 (settings, d1, t1, u1)
          = Bot.mkWorld
              (fst (Queries.saveStreamNotificationId uid gid
                      (Bot.messageId d1 (length (Bot.outbox w0))) n
                      (fst (startStreamSession (Bot.atCreate t1) (Bot.atInnerEnd t1)
                              (Bot.atStart t1) uid (Bot.memberName m) gid
                              (Bot.guildName u1) ch name (Bot.activities w0)))))
              settings
              (Bot.outbox w0
               ++ [Bot.Sent n (Bot.messageId d1 (length (Bot.outbox w0)))
                     (Bot.embedOf uid (Some ch) true None false)])) as E1.
  { unfold Bot.handle, Bot.onVoiceStateUpdate. rewrite Ho1, Hn1, Hb, S1, S2, C1.
    cbn [orb negb andb]. unfold Bot.startAndNotify. cbn [Bot.activities Bot.configs Bot.outbox].
    apply (BotFacts.sendStreamNotification_start settings d1 gid n uid (Some ch) _ _ N1). }
  rewrite E1. cbn [Bot.outbox]. split; [reflexivity|].
  (* the aggregate when the member stops *)
  destruct (QueryFacts.startStreamSession_found (Bot.atCreate t1) (Bot.atInnerEnd t1)
              (Bot.atStart t1) uid (Bot.memberName m) gid (Bot.guildName u1) ch name
              _ HI) as (i & a3 & Hf3 & Hl3).
  destruct (QueryFacts.findOne_saveStreamNotificationId uid gid
              (Bot.messageId d1 (length (Bot.outbox w0))) n _ _ _ Hf3 Hl3 eq_refl)
    as (a4 & Hf4 & Hl4). cbn [_id] in Hf4.
  set (c4 := fst (Queries.saveStreamNotificationId uid gid _ n _)) in *.
  destruct (QueryFacts.endStreamSession_snd_live (Bot.atEnd t2) uid gid c4 _ _
              Hf4 Hl4 eq_refl) as (doc & details & Hsnd & Hdur).
  destruct (QueryFacts.findOne_endStreamSession (Bot.atEnd t2) uid gid c4 _ _
              Hf4 Hl4 eq_refl) as (a5 & Hf5 & Hl5).
  split; [|unfold Bot.embedOf; cbn; reflexivity].
  unfold Bot.handle, Bot.onVoiceStateUpdate. rewrite Ho2, Hn2, Hb, S3, S4, Hg.
  cbn [orb negb andb]. unfold Bot.endAndNotify. cbn [Bot.activities Bot.configs Bot.outbox].
  fold gid uid.
  destruct (endStreamSession (Bot.atEnd t2) uid gid c4) as [c5 r5] eqn:E5.
  cbn [fst snd] in Hsnd, Hf5. subst r5.
  rewrite (BotFacts.sendStreamNotification_end settings d2 gid n uid _ _ _ _ _ N2).
  cbn [Bot.outbox]. f_equal. f_equal.
  rewrite (QueryFacts.getStreamNotificationId_found _ _ _ _ Hf5). cbn [this].
  rewrite Hl5. cbn [mbind option_bind].
  rewrite QueryFacts.notificationOf_closeAt.
  rewrite (QueryFacts.notificationOf_set _ _
             (newStream (Bot.atStart t1) ch name) Hm1 (proj1 (proj2 (proj2 N1)))).
  rewrite bool_decide_eq_true_2 by reflexivity. cbn [andb].
  rewrite Hdur. cbn [startTime newStream]. reflexivity.
Qed.

Lemma end_notification_replies_to_start_witness :
  let w1 := Bot.handle (Bot.after []) (gSettings, discord, ticksAt 0, annStarts) in
  let w2 := Bot.handle w1 (gSettings, discord, ticksAt 120000, annStops) in
  let e2 := Bot.embedOf "u1" (Some "A") false (Some ((120000 - 0) / 60000)) false in
  Bot.outbox w1 = [] ++ [Bot.Sent "n" "m0" (Bot.embedOf "u1" (Some "A") true None false)] /\
  Bot.outbox w2 = Bot.outbox w1 ++ [Bot.Replied "n" "m0" "m1" e2] /\
  Bot.durationField e2 = Some 2.
Proof.
  apply (end_notification_replies_to_start [] gSettings
           discord (ticksAt 0) annStarts discord (ticksAt 120000) annStops
           ann "n" "A" "General").
  - repeat split; discriminate.
  - repeat split; discriminate.
  - reflexivity.
  - repeat split; discriminate.
  - repeat split; discriminate.
  - reflexivity.
  - reflexivity.
  - reflexivity.
  - reflexivity.
  - reflexivity.
  - discriminate.
Defined.

(** X17.  Handling one voice-state update makes the bot send at most two
    messages, and each of them goes where the guild's settings send the
    notifications: the guild has not switched [trackStreamActivity] off,
    the channel is the one set as its notification channel, and that
    channel is in the cache.  So without such a channel nothing is sent
    (while the sessions are recorded all the same). *)
Theorem notifications_follow_the_settings
    (settings : Config.Configs) d t u (w : Bot.World) :
  let w' := Bot.handle w (settings, d, t, u) in
  exists new,
    Bot.outbox w' = Bot.outbox w ++ new /\
    (length new <= 2)%nat /\
    Forall (Laws.allowed settings d (Bot.guildId u)) new.
Proof.
  cbv zeta. unfold Bot.handle.
  apply (BotFacts.onVoiceStateUpdate_outbox d t u
           (Bot.mkWorld (Bot.activities w) settings (Bot.outbox w))).
Qed.

(** ** Facts about the settings *)

Module ConfigFacts.
Import Config Settings.

Lemma config_found gid c i g :
  findOne gid c = Some (i, g) -> c !! i = Some g /\ guildId g = gid.
Proof.
  unfold findOne. intros H. apply list_find_Some in H as (? & ? & _). auto.
Qed.

Lemma config_absent gid c :
  findOne gid c = None <-> gid ∉ guildId <$> c.
Proof.
  unfold findOne. rewrite list_find_None. split.
  - intros H Hin. apply list_elem_of_fmap in Hin as (g & -> & Hg).
    rewrite Forall_forall in H. exact (H g Hg eq_refl).
  - intros H. apply Forall_forall. intros g Hg E. apply H.
    apply list_elem_of_fmap. exists g. auto.
Qed.

Lemma config_replaced gid c i g g' :
  c !! i = Some g -> guildId g' = guildId g ->
  findOne gid (<[i := g']> c) =
  (fun jx => if decide (jx.1 = i) then (i, g') else jx) <$> findOne gid c.
Proof.
  intros Hi Hk. unfold findOne.
  set (P := fun x : GuildConfig => guildId x = gid).
  assert (P g' <-> P g) as HP by (unfold P; split; congruence).
  destruct (list_find P c) as [[j y]|] eqn:E.
  - apply list_find_Some in E as (Hj & Py & Hmin). cbn.
    destruct (decide (j = i)) as [->|Hne].
    + assert (y = g) as -> by congruence.
      apply list_find_Some. split; [|split].
      * apply list_lookup_insert_eq. eapply lookup_lt_Some; eauto.
      * apply HP, Py.
      * intros j' y' Hj' Hlt. rewrite list_lookup_insert_ne in Hj' by lia. eauto.
    + apply list_find_Some. split; [|split].
      * rewrite list_lookup_insert_ne by congruence. exact Hj.
      * exact Py.
      * intros j' y' Hj' Hlt. destruct (decide (j' = i)) as [->|Hne'].
        -- rewrite list_lookup_insert_eq in Hj' by (eapply lookup_lt_Some; eauto).
           injection Hj' as <-. rewrite HP. eauto.
        -- rewrite list_lookup_insert_ne in Hj' by congruence. eauto.
  - cbn. apply list_find_None. rewrite list_find_None in E.
    apply Forall_insert; [exact E|].
    rewrite HP. eapply Forall_lookup_1 in E; eauto.
Qed.

(** The three setters change the configuration the guild has, and fail
    when it has none. *)
Lemma update_spec env now gid change c :
  update env now gid change c =
  match findOne gid c with
  | Some (i, g) => (<[i := change g]> c, true)
  | None => (c, false)
  end.
Proof.
  unfold update, getOrCreateGuildConfig.
  destruct (findOne gid c) as [[i g]|]; [reflexivity|].
  cbn. rewrite andb_false_r. reflexivity.
Qed.

(** What the getters answer once the configuration of a guild is replaced. *)
Lemma answers_insert env c i g g' k :
  findOne (guildId g) c = Some (i, g) -> guildId g' = guildId g ->
  answers env k (<[i := g']> c) =
  if decide (k = guildId g)
  then mkAnswers (prefixRead env (prefix g')) (trackStreamActivity g')
         (notificationChannelId g')
  else answers env k c.
Proof.
  intros Hf Hk. destruct (config_found _ _ _ _ Hf) as (Hi & _).
  unfold answers, getGuildPrefix, isStreamTrackingEnabled, getNotificationChannel.
  rewrite (config_replaced k c i g g' Hi Hk).
  destruct (decide (k = guildId g)) as [->|Hne].
  - rewrite Hf. cbn. rewrite decide_True by reflexivity.
    unfold prefixRead. destruct (bool_decide (prefix g' = "")); reflexivity.
  - destruct (findOne k c) as [[j x]|] eqn:E; [|reflexivity].
    cbn. destruct (decide (j = i)) as [->|Hji]; [|reflexivity].
    exfalso. destruct (config_found _ _ _ _ E) as (Hx & Hgx).
    apply Hne. rewrite <- Hgx. congruence.
Qed.

Lemma answers_found env gid c i g :
  findOne gid c = Some (i, g) ->
  answers env gid c =
  mkAnswers (prefixRead env (prefix g)) (trackStreamActivity g)
    (notificationChannelId g).
Proof.
  intros Hf. unfold answers, getGuildPrefix, isStreamTrackingEnabled,
    getNotificationChannel. rewrite Hf.
  unfold prefixRead. destruct (bool_decide (prefix g = "")); reflexivity.
Qed.

(** A setter that keeps the paths it does not set. *)
Lemma update_answers env now gid change c k
    (Hid : forall g, guildId (change g) = guildId g) :
  let known := bool_decide (is_Some (findOne gid c)) in
  (update env now gid change c).2 = known /\
  (known = false -> (update env now gid change c).1 = c) /\
  answers env k (update env now gid change c).1 =
  match findOne gid c with
  | Some (_, g) =>
      if decide (k = gid)
      then mkAnswers (prefixRead env (prefix (change g)))
             (trackStreamActivity (change g)) (notificationChannelId (change g))
      else answers env k c
  | None => answers env k c
  end.
Proof.
  cbv zeta. rewrite update_spec.
  destruct (findOne gid c) as [[i g]|] eqn:Hf.
  - rewrite (bool_decide_eq_true_2 (is_Some (Some (i, g)))) by eauto.
    cbn. split; [reflexivity|]. split; [discriminate|].
    destruct (config_found _ _ _ _ Hf) as (Hi & Hg). subst gid.
    apply answers_insert; auto.
  - rewrite (bool_decide_eq_false_2 (is_Some (@None (nat * GuildConfig))))
      by (intros [? ?]; discriminate).
    cbn. auto.
Qed.

Lemma wellFormed_insert c i g g' :
  wellFormed c -> c !! i = Some g ->
  guildId g' = guildId g -> guildName g' = guildName g ->
  wellFormed (<[i := g']> c).
Proof.
  intros [Hnd Hall] Hi Hid Hname. split.
  - rewrite list_fmap_insert, Hid.
    rewrite list_insert_id; [exact Hnd|].
    rewrite list_lookup_fmap, Hi. reflexivity.
  - apply Forall_insert; [exact Hall|].
    rewrite Hid, Hname. eapply Forall_lookup_1 in Hall; eauto.
Qed.

Lemma wellFormed_update env now gid change c
    (Hid : forall g, guildId (change g) = guildId g)
    (Hname : forall g, guildName (change g) = guildName g) :
  wellFormed c -> wellFormed (update env now gid change c).1.
Proof.
  intros H. rewrite update_spec.
  destruct (findOne gid c) as [[i g]|] eqn:Hf; [|exact H].
  destruct (config_found _ _ _ _ Hf) as (Hi & _).
  cbn. eapply wellFormed_insert; eauto.
Qed.

(** With the schema of six paths, [execute] of [setreport] stores
    nothing. *)
Lemma execute_six v gid action enabled tz c :
  (Schedule.execute SixPaths v gid action enabled tz c).1 = c.
Proof.
  unfold Schedule.execute.
  destruct (findOne gid c) as [[i g]|]; [|reflexivity]. cbv zeta.
  destruct (notificationChannelId (Schedule.loaded SixPaths g)); [|reflexivity].
  case_bool_decide; [reflexivity|].
  case_bool_decide; [reflexivity|].
  case_bool_decide; [reflexivity|].
  case_bool_decide; [destruct enabled as [[|a e]|]; reflexivity|].
  case_bool_decide; [destruct enabled as [[|a e]|]; reflexivity|].
  case_bool_decide; [|reflexivity].
  destruct tz as [[|a e]|]; try reflexivity.
  destruct (v (String a e)); reflexivity.
Qed.

(** What [execute] of [setreport] stores. *)
Lemma execute_fst schema v gid action enabled tz c :
  (Schedule.execute schema v gid action enabled tz c).1 = c \/
  exists i g g',
    findOne gid c = Some (i, g) /\
    (Schedule.execute schema v gid action enabled tz c).1 = <[i := g']> c /\
    guildId g' = guildId g /\ guildName g' = guildName g /\
    prefix g' = prefix g /\ trackStreamActivity g' = trackStreamActivity g /\
    notificationChannelId g' = notificationChannelId g.
Proof.
  destruct schema; [left; apply execute_six|].
  unfold Schedule.execute.
  destruct (findOne gid c) as [[i g]|] eqn:Hf; [|left; reflexivity].
  cbn [Schedule.loaded Schedule.saved]. cbv zeta.
  destruct (notificationChannelId g) as [ch|] eqn:Hch; [|left; reflexivity].
  assert (forall g' r,
    guildId g' = guildId g -> guildName g' = guildName g ->
    prefix g' = prefix g -> trackStreamActivity g' = trackStreamActivity g ->
    notificationChannelId g' = Some ch ->
    (<[i := g']> c, r).1 = c \/
    exists i0 g0 g1 : _,
      Some (i, g) = Some (i0, g0) /\ (<[i := g']> c, r : Schedule.Reply).1 = <[i0 := g1]> c /\
      guildId g1 = guildId g0 /\ guildName g1 = guildName g0 /\
      prefix g1 = prefix g0 /\ trackStreamActivity g1 = trackStreamActivity g0 /\
      notificationChannelId g1 = notificationChannelId g0) as Hset.
  { intros g' r ? ? ? ? ?. right. exists i, g, g'. rewrite Hch. auto 10. }
  case_bool_decide; [left; reflexivity|].
  case_bool_decide; [left; reflexivity|].
  case_bool_decide; [apply Hset; cbn; auto|].
  case_bool_decide.
  { destruct enabled as [[|a e]|]; try (left; reflexivity).
    apply Hset; cbn; auto. }
  case_bool_decide.
  { destruct enabled as [[|a e]|]; try (left; reflexivity).
    apply Hset; cbn; auto. }
  case_bool_decide; [|left; reflexivity].
  destruct tz as [[|a e]|]; try (left; reflexivity).
  destruct (v (String a e)); [|left; reflexivity].
  apply Hset; cbn; auto.
Qed.

Lemma wellFormed_perform env c x :
  wellFormed c -> wellFormed (perform env c x).
Proof.
  intros H.
  destruct x as [now gid gname|now gid ch|now gid p|now gid b|schema v gid a e tz]; cbn.
  - unfold getOrCreateGuildConfig.
    destruct (findOne gid c) as [[i g]|] eqn:Hf; [exact H|].
    destruct (present (Some gid) && present gname) eqn:Hp; [|exact H].
    apply andb_true_iff in Hp as [Hg Hn].
    destruct H as [Hnd Hall]. split.
    + rewrite fmap_app. cbn. apply NoDup_app. split; [exact Hnd|].
      split; [|apply NoDup_singleton].
      intros x Hx Hx'. apply list_elem_of_singleton in Hx'. subst x.
      apply config_absent in Hf. contradiction.
    + apply Forall_app. split; [exact Hall|].
      apply Forall_singleton. cbn.
      unfold present in Hg, Hn. destruct gname as [n|]; [|discriminate].
      apply negb_true_iff in Hg, Hn.
      apply bool_decide_eq_false in Hg, Hn. auto.
  - apply wellFormed_update; auto.
  - apply wellFormed_update; auto.
  - apply wellFormed_update; auto.
  - destruct (execute_fst schema v gid a e tz c)
      as [->|(i & g & g' & Hf & -> & Hid & Hname & _)];
      [exact H|].
    destruct (config_found _ _ _ _ Hf) as (Hi & _).
    eapply wellFormed_insert; eauto.
Qed.

Lemma wellFormed_reach env changes : wellFormed (reach env changes).
Proof.
  unfold reach.
  assert (forall c, wellFormed c -> wellFormed (fold_left (perform env) changes c)) as H.
  { induction changes as [|x xs IH]; intros c Hc; [exact Hc|].
    cbn. apply IH, wellFormed_perform, Hc. }
  apply H. split; [constructor|constructor].
Qed.

(** With one configuration for a guild, it is the one found. *)
Lemma config_unique c i g :
  NoDup (guildId <$> c) -> c !! i = Some g -> findOne (guildId g) c = Some (i, g).
Proof.
  intros Hnd Hi. unfold findOne. apply list_find_Some.
  split; [exact Hi|]. split; [reflexivity|].
  intros j y Hj Hlt E.
  assert (j = i); [|lia].
  eapply NoDup_lookup; [exact Hnd| |].
  - rewrite list_lookup_fmap, Hj. cbn. rewrite E. reflexivity.
  - rewrite list_lookup_fmap, Hi. reflexivity.
Qed.

Lemma config_snoc gid c g :
  findOne gid (c ++ [g]) =
  match findOne gid c with
  | Some r => Some r
  | None => if decide (guildId g = gid) then Some (length c, g) else None
  end.
Proof.
  unfold findOne.
  destruct (list_find (fun x => guildId x = gid) c) as [[i x]|] eqn:E.
  - apply list_find_app_l. exact E.
  - rewrite list_find_app_r by exact E. cbn.
    destruct (decide (guildId g = gid)); reflexivity.
Qed.

(** [getOrCreateGuildConfig] with the id and the name of a guild. *)
Lemma getOrCreate_named env now gid gname c :
  gid <> "" -> gname <> "" ->
  perform env c (GetOrCreate now gid (Some gname)) =
  match findOne gid c with
  | Some _ => c
  | None => c ++ [mkGuildConfig gid gname (defaultPrefix env) None true now
                    false false "UTC"]
  end.
Proof.
  intros Hg Hn. cbn. unfold getOrCreateGuildConfig.
  destruct (findOne gid c) as [[i g]|]; [reflexivity|].
  cbn. rewrite !bool_decide_eq_false_2 by assumption. reflexivity.
Qed.

End ConfigFacts.

(** X18.  The three setters of [configUtils] answer [true] exactly when
    the guild has a configuration, and change nothing when it has none.
    When it has one, the getters read back what was set for that guild (an
    empty prefix is read back as the default prefix); the two other
    settings of the guild and every setting of the other guilds are
    answered as before. *)
Theorem settings_are_read_back env now gid (c : Config.Configs) k :
  let old := Settings.answers env k c in
  let known := bool_decide (is_Some (Config.findOne gid c)) in
  let after (r : Config.Configs * bool) (new : Settings.Answers) :=
    r.2 = known /\ (known = false -> r.1 = c) /\
    Settings.answers env k r.1 =
    (if known && bool_decide (k = gid) then new else old) in
  (forall p,
     after (Config.setGuildPrefix env now gid p c)
       (Settings.mkAnswers (Settings.prefixRead env p)
          (Settings.tracking old) (Settings.theChannel old))) /\
  (forall ch,
     after (Config.setNotificationChannel env now gid ch c)
       (Settings.mkAnswers (Settings.thePrefix old)
          (Settings.tracking old) (Some ch))) /\
  (forall b,
     after (Config.toggleStreamTracking env now gid b c)
       (Settings.mkAnswers (Settings.thePrefix old) b (Settings.theChannel old))).
Proof.
  cbv zeta.
  assert (forall change new,
    (forall g, Config.guildId (change g) = Config.guildId g) ->
    (forall i g, Config.findOne gid c = Some (i, g) ->
       Settings.mkAnswers (Settings.prefixRead env (Config.prefix (change g)))
         (Config.trackStreamActivity (change g))
         (Config.notificationChannelId (change g)) = new g) ->
    forall r, r = Config.update env now gid change c ->
    r.2 = bool_decide (is_Some (Config.findOne gid c)) /\
    (bool_decide (is_Some (Config.findOne gid c)) = false -> r.1 = c) /\
    Settings.answers env k r.1 =
    (if bool_decide (is_Some (Config.findOne gid c)) && bool_decide (k = gid)
     then match Config.findOne gid c with
          | Some (_, g) => new g
          | None => Settings.answers env k c
          end
     else Settings.answers env k c)) as Hgen.
  { intros change new Hid Hnew r ->.
    destruct (ConfigFacts.update_answers env now gid change c k Hid)
      as (Hok & Hsame & Hans).
    split; [exact Hok|]. split; [exact Hsame|]. rewrite Hans.
    destruct (Config.findOne gid c) as [[i g]|] eqn:Hf.
    - rewrite (bool_decide_eq_true_2 (is_Some (Some (i, g)))) by eauto. cbn.
      destruct (decide (k = gid)) as [->|Hne].
      + rewrite bool_decide_eq_true_2 by reflexivity. eauto.
      + rewrite bool_decide_eq_false_2 by exact Hne. reflexivity.
    - rewrite (bool_decide_eq_false_2 (is_Some (@None (nat * Config.GuildConfig))))
        by (intros [? ?]; discriminate).
      reflexivity. }
  assert (forall (new : Settings.Answers) (f : Config.GuildConfig -> Settings.Answers),
    (forall i g, Config.findOne gid c = Some (i, g) -> k = gid -> f g = new) ->
    (if bool_decide (is_Some (Config.findOne gid c)) && bool_decide (k = gid)
     then match Config.findOne gid c with
          | Some (_, g) => f g
          | None => Settings.answers env k c
          end
     else Settings.answers env k c) =
    (if bool_decide (is_Some (Config.findOne gid c)) && bool_decide (k = gid)
     then new else Settings.answers env k c)) as Hnew.
  { clear Hgen. intros new f Hf.
    destruct (Config.findOne gid c) as [[i g]|] eqn:E.
    - rewrite (bool_decide_eq_true_2 (is_Some (Some (i, g)))) by eauto. cbn.
      destruct (bool_decide (k = gid)) eqn:Hk; [|reflexivity].
      apply bool_decide_eq_true in Hk. eauto.
    - rewrite (bool_decide_eq_false_2 (is_Some (@None (nat * Config.GuildConfig))))
        by (intros [? ?]; discriminate).
      reflexivity. }
  split; [|split].
  - intros p.
    destruct (Hgen (Config.with_prefix p now)
      (fun g => Settings.mkAnswers (Settings.prefixRead env p)
         (Config.trackStreamActivity g) (Config.notificationChannelId g))
      (fun _ => eq_refl) (fun _ _ _ => eq_refl) _ eq_refl) as (H1 & H2 & H3).
    split; [exact H1|]. split; [exact H2|].
    unfold Config.setGuildPrefix. rewrite H3. apply Hnew.
    intros i g Hf ->. rewrite (ConfigFacts.answers_found env _ _ _ _ Hf). reflexivity.
  - intros ch.
    destruct (Hgen (Config.with_notificationChannelId (Some ch) now)
      (fun g => Settings.mkAnswers (Settings.prefixRead env (Config.prefix g))
         (Config.trackStreamActivity g) (Some ch))
      (fun _ => eq_refl) (fun _ _ _ => eq_refl) _ eq_refl) as (H1 & H2 & H3).
    split; [exact H1|]. split; [exact H2|].
    unfold Config.setNotificationChannel. rewrite H3. apply Hnew.
    intros i g Hf ->. rewrite (ConfigFacts.answers_found env _ _ _ _ Hf). reflexivity.
  - intros b.
    destruct (Hgen (Config.with_trackStreamActivity b now)
      (fun g => Settings.mkAnswers (Settings.prefixRead env (Config.prefix g))
         b (Config.notificationChannelId g))
      (fun _ => eq_refl) (fun _ _ _ => eq_refl) _ eq_refl) as (H1 & H2 & H3).
    split; [exact H1|]. split; [exact H2|].
    unfold Config.toggleStreamTracking. rewrite H3. apply Hnew.
    intros i g Hf ->. rewrite (ConfigFacts.answers_found env _ _ _ _ Hf). reflexivity.
Qed.

(** X19.  Whatever calls of [getOrCreateGuildConfig], of the three
    setters and of the [setreport] command have written the collection of
    the settings, starting from the empty one: no two configurations are
    of the same guild, every configuration has a guild id and a guild name
    that are not empty, and every configuration stored is the one the
    getters read for its guild. *)
Theorem one_configuration_per_guild env (changes : list Settings.Change) :
  let c := Settings.reach env changes in
  Settings.wellFormed c /\
  forall g, g ∈ c ->
    Settings.answers env (Config.guildId g) c =
    Settings.mkAnswers (Settings.prefixRead env (Config.prefix g))
      (Config.trackStreamActivity g) (Config.notificationChannelId g).
Proof.
  cbv zeta. pose proof (ConfigFacts.wellFormed_reach env changes) as Hwf.
  split; [exact Hwf|].
  intros g Hg. apply list_elem_of_lookup in Hg as [i Hi].
  destruct Hwf as [Hnd _].
  eapply ConfigFacts.answers_found, ConfigFacts.config_unique; eauto.
Qed.

(** ** Facts about the scheduled reports *)

Module ScheduleFacts.
Import Config Settings Schedule.

(** Both generators return one page: the page without streams, or the
    page of an error. *)
Lemma generate_one (daily : bool) up g ws we streams :
  exists e,
    (if daily then Report.generateDailyReport else Report.generateHourlyReport)
      up g ws we streams = [e] /\
    (e = Report.NoStreams \/ exists message, e = Report.ErrorReport message).
Proof.
  destruct daily; unfold Report.generateDailyReport, Report.generateHourlyReport;
    rewrite ReportFacts.tryReport_cases;
    destruct up; cbn; try destruct (Spec.noOverlap g ws we streams); cbn; eauto.
Qed.

Lemma omap_filter {A B} (P : A -> bool) (f : A -> option B) (l : list A) :
  omap f (filter (fun x => P x = true) l) =
  omap (fun x => if P x then f x else None) l.
Proof.
  induction l as [|x l IH]; [reflexivity|].
  rewrite filter_cons. cbn. destruct (P x) eqn:E.
  - rewrite decide_True by reflexivity. cbn. rewrite IH. reflexivity.
  - rewrite decide_False by discriminate. exact IH.
Qed.

Lemma sendScheduledReports_omap d sUp rt window c streams :
  sendScheduledReports d true sUp rt window c streams =
  omap (deliver d sUp rt window streams) c.
Proof.
  unfold sendScheduledReports. cbv zeta.
  rewrite (omap_filter (selected rt)). reflexivity.
Qed.

Lemma sendReportToGuild_Some daily d up w g streams m :
  sendReportToGuild daily d up w g streams = Some m <->
  exists ch,
    notificationChannelId g = Some ch /\
    reachable d (guildId g) ch = true /\
    m = mkDelivery (guildId g) ch
          ((if daily then Report.generateDailyReport else Report.generateHourlyReport)
             up (guildId g) w.1 w.2 streams).
Proof.
  unfold sendReportToGuild, reachable.
  destruct (guildCached d (guildId g)); cbn.
  2:{ split; [discriminate|]. intros (ch & _ & ? & _). discriminate. }
  destruct (notificationChannelId g) as [ch|].
  2:{ split; [discriminate|]. intros (ch & ? & _). discriminate. }
  destruct (channelCached d (guildId g) ch) eqn:Hc; cbn.
  2:{ split; [discriminate|]. intros (ch' & [= <-] & H & _).
      rewrite Hc in H. discriminate. }
  destruct (sendRejected d (guildId g)) eqn:Hr; cbn.
  { split; [discriminate|]. intros (ch' & [= <-] & H & _).
    rewrite Hc in H. discriminate. }
  split.
  - intros [= <-]. exists ch. rewrite Hc. auto.
  - intros (ch' & [= <-] & _ & ->). reflexivity.
Qed.

Lemma deliver_Some d sUp rt window streams g m :
  deliver d sUp rt window streams g = Some m <->
  enabledFor rt g = true /\
  exists ch,
    notificationChannelId g = Some ch /\
    reachable d (guildId g) ch = true /\
    m = mkDelivery (guildId g) ch
          ((if bool_decide (rt = "daily")
            then Report.generateDailyReport else Report.generateHourlyReport)
             (sUp (guildId g)) (guildId g) (window (guildId g)).1
             (window (guildId g)).2 streams).
Proof.
  unfold deliver, selected, enabledFor.
  destruct (bool_decide (rt = "hourly")) eqn:Hh.
  - apply bool_decide_eq_true in Hh. subst rt.
    rewrite (bool_decide_eq_false_2 ("hourly" = "daily")) by discriminate.
    destruct (notificationChannelId g) as [ch|] eqn:Hch.
    + destruct (hourlyReportEnabled g).
      * rewrite sendReportToGuild_Some, Hch. intuition.
      * split; [discriminate|]. intros [? _]. discriminate.
    + split; [discriminate|]. intros (_ & ch & ? & _). discriminate.
  - destruct (bool_decide (rt = "daily")) eqn:Hd.
    + destruct (notificationChannelId g) as [ch|] eqn:Hch.
      * destruct (dailyReportEnabled g).
        -- rewrite sendReportToGuild_Some, Hch. intuition.
        -- split; [discriminate|]. intros [? _]. discriminate.
      * split; [discriminate|]. intros (_ & ch & ? & _). discriminate.
    + destruct (notificationChannelId g); (split; [discriminate|]);
        intros [? _]; discriminate.
Qed.

Lemma deliver_toGuild d sUp rt window streams g m :
  deliver d sUp rt window streams g = Some m -> toGuild m = guildId g.
Proof.
  intros H. apply deliver_Some in H as (_ & ch & _ & _ & ->). reflexivity.
Qed.

(** The guilds served are among the guilds configured, in order. *)
Lemma served_sublist d sUp rt window streams c :
  toGuild <$> omap (deliver d sUp rt window streams) c `sublist_of` guildId <$> c.
Proof.
  induction c as [|g c IH]; [constructor|].
  cbn. destruct (deliver d sUp rt window streams g) as [m|] eqn:E.
  - cbn. rewrite (deliver_toGuild _ _ _ _ _ _ _ E). constructor. exact IH.
  - constructor. exact IH.
Qed.

Lemma toThe_absent d sUp rt window streams gid c :
  gid ∉ guildId <$> c ->
  toThe gid (omap (deliver d sUp rt window streams) c) = [].
Proof.
  intros Hn. unfold toThe.
  induction c as [|g c IH]; [reflexivity|].
  cbn in Hn. apply not_elem_of_cons in Hn as [Hg Hc].
  cbn. destruct (deliver d sUp rt window streams g) as [m|] eqn:E.
  - rewrite filter_cons, decide_False; [auto|].
    rewrite (deliver_toGuild _ _ _ _ _ _ _ E). congruence.
  - auto.
Qed.

(** The messages for a guild are those for its configuration; the
    messages for the other guilds do not depend on it. *)
Lemma served_middle d sUp rt window streams l1 g l2 gid :
  guildId g = gid -> gid ∉ guildId <$> l1 -> gid ∉ guildId <$> l2 ->
  toThe gid (omap (deliver d sUp rt window streams) (l1 ++ g :: l2)) =
    option_list (deliver d sUp rt window streams g) /\
  toOthers gid (omap (deliver d sUp rt window streams) (l1 ++ g :: l2)) =
    toOthers gid (omap (deliver d sUp rt window streams) l1)
    ++ toOthers gid (omap (deliver d sUp rt window streams) l2).
Proof.
  intros Hg Hn1 Hn2.
  pose proof (toThe_absent d sUp rt window streams gid l1 Hn1) as H1.
  pose proof (toThe_absent d sUp rt window streams gid l2 Hn2) as H2.
  rewrite omap_app.
  change (omap (deliver d sUp rt window streams) (g :: l2))
    with (match deliver d sUp rt window streams g with
          | Some m => m :: omap (deliver d sUp rt window streams) l2
          | None => omap (deliver d sUp rt window streams) l2
          end).
  unfold toThe, toOthers in *.
  destruct (deliver d sUp rt window streams g) as [m|] eqn:E.
  - pose proof (deliver_toGuild _ _ _ _ _ _ _ E) as Hm. rewrite Hg in Hm.
    rewrite !filter_app, !filter_cons.
    rewrite decide_True by exact Hm.
    rewrite decide_False by (intros H; apply H; exact Hm).
    rewrite H1, H2. split; reflexivity.
  - rewrite !filter_app. rewrite H1, H2. split; reflexivity.
Qed.

Lemma middle c i (g : GuildConfig) gid :
  NoDup (guildId <$> c) -> c !! i = Some g -> guildId g = gid ->
  (gid ∉ guildId <$> take i c) /\ (gid ∉ guildId <$> drop (S i) c).
Proof.
  intros Hnd Hi Hg.
  pose proof (take_drop_middle c i g Hi) as Hc.
  rewrite <- Hc in Hnd. rewrite fmap_app in Hnd. cbn in Hnd.
  apply NoDup_app in Hnd as (_ & Hdis & Hnd2).
  apply NoDup_cons in Hnd2 as [Hn2 _]. rewrite Hg in *.
  split; [|exact Hn2].
  intros Hin. apply (Hdis _ Hin). left.
Qed.

Lemma served_at d sUp rt window streams c i g :
  NoDup (guildId <$> c) -> c !! i = Some g ->
  toThe (guildId g) (omap (deliver d sUp rt window streams) c) =
    option_list (deliver d sUp rt window streams g).
Proof.
  intros Hnd Hi.
  destruct (middle c i g _ Hnd Hi eq_refl) as [H1 H2].
  rewrite <- (take_drop_middle c i g Hi) at 1.
  apply served_middle; auto.
Qed.

(** Replacing the configuration of a guild changes its messages only. *)
Lemma served_insert d sUp rt window streams c i g g' :
  NoDup (guildId <$> c) -> c !! i = Some g -> guildId g' = guildId g ->
  toThe (guildId g) (omap (deliver d sUp rt window streams) (<[i := g']> c)) =
    option_list (deliver d sUp rt window streams g') /\
  toOthers (guildId g) (omap (deliver d sUp rt window streams) (<[i := g']> c)) =
    toOthers (guildId g) (omap (deliver d sUp rt window streams) c).
Proof.
  intros Hnd Hi Hid.
  destruct (middle c i g _ Hnd Hi eq_refl) as [H1 H2].
  rewrite insert_take_drop by (eapply lookup_lt_Some; eauto).
  destruct (served_middle d sUp rt window streams _ g' _ _ Hid H1 H2) as [H3 H4].
  split; [exact H3|]. rewrite H4.
  destruct (served_middle d sUp rt window streams _ g _ _ eq_refl H1 H2) as [_ H5].
  rewrite <- H5. rewrite take_drop_middle by exact Hi. reflexivity.
Qed.

(** *** The [setreport] command, with the schema that declares the report
    settings *)

Lemma switch_with_paths validTimezone gid action enabled tz
    (d : Schedule.Discord) streamsUp reportType window streams (c : Config.Configs) :
  NoDup (Config.guildId <$> c) ->
  let r := Schedule.execute Config.WithReportSettings validTimezone gid
             action enabled tz c in
  let run c := omap (Settings.deliver d streamsUp reportType window streams) c in
  let canReach :=
    exists ch, Config.getNotificationChannel gid c = Some ch /\
               Settings.reachable d gid ch = true in
  Settings.toOthers gid (run r.1) = Settings.toOthers gid (run c) /\
  (r.2 = Schedule.AllDisabled -> Settings.toThe gid (run r.1) = []) /\
  (forall b, r.2 = Schedule.Hourly b -> reportType = "hourly" ->
     (Settings.toThe gid (run r.1) <> [] <-> b = true /\ canReach)) /\
  (forall b zone, r.2 = Schedule.Daily b zone -> reportType = "daily" ->
     (Settings.toThe gid (run r.1) <> [] <-> b = true /\ canReach)).
Proof.
  intros Hnd. cbv zeta. unfold Schedule.execute.
  destruct (Config.findOne gid c) as [[i g]|] eqn:Hf.
  2:{ cbn. split; [reflexivity|]. split; [discriminate|].
      split; intros; discriminate. }
  cbn [Schedule.loaded Schedule.saved]. cbv zeta.
  destruct (ConfigFacts.config_found _ _ _ _ Hf) as (Hi & Hg).
  assert (Config.getNotificationChannel gid c = Config.notificationChannelId g) as Hget.
  { unfold Config.getNotificationChannel. rewrite Hf. reflexivity. }
  rewrite Hget.
  assert (forall g', Config.guildId g' = Config.guildId g ->
    Settings.toThe gid (omap (Settings.deliver d streamsUp reportType window streams)
                          (<[i := g']> c)) =
      option_list (Settings.deliver d streamsUp reportType window streams g') /\
    Settings.toOthers gid (omap (Settings.deliver d streamsUp reportType window streams)
                          (<[i := g']> c)) =
      Settings.toOthers gid
        (omap (Settings.deliver d streamsUp reportType window streams) c)) as Hins.
  { intros g' Hid. rewrite <- Hg.
    apply ScheduleFacts.served_insert; auto. }
  assert (forall g' b,
    Config.guildId g' = Config.guildId g ->
    Config.notificationChannelId g' = Config.notificationChannelId g ->
    Settings.enabledFor reportType g' = b ->
    (option_list (Settings.deliver d streamsUp reportType window streams g') <> [] <->
     b = true /\
     exists ch, Config.notificationChannelId g = Some ch /\
                Settings.reachable d gid ch = true)) as Hdel.
  { intros g' b Hid Hn Hb.
    destruct (Settings.deliver d streamsUp reportType window streams g') as [m|] eqn:E.
    - apply ScheduleFacts.deliver_Some in E as (Hen & ch & Hch & Hr & _).
      cbn. split; [|discriminate]. intros _. split; [congruence|].
      exists ch. rewrite <- Hn, <- Hg, <- Hid. auto.
    - cbn. split; [congruence|]. intros (-> & ch & Hch & Hr). exfalso.
      assert (Settings.deliver d streamsUp reportType window streams g' <> None) as Hne;
        [|congruence].
      intros Habs.
      assert (exists m, Settings.deliver d streamsUp reportType window streams g'
                        = Some m) as [m Hm]; [|congruence].
      eexists. apply ScheduleFacts.deliver_Some. split; [exact Hb|].
      exists ch. rewrite Hn, Hid, Hg. auto. }
  destruct (Config.notificationChannelId g) as [ch|] eqn:Hch.
  2:{ cbn. split; [reflexivity|]. split; [discriminate|].
      split; intros; discriminate. }
  case_bool_decide.
  { cbn. split; [reflexivity|]. split; [discriminate|]. split; intros; discriminate. }
  case_bool_decide.
  { cbn. split; [reflexivity|]. split; [discriminate|]. split; intros; discriminate. }
  case_bool_decide.
  { cbn [fst snd].
    destruct (Hins (Schedule.with_reports false false g) eq_refl) as [Hthe Hoth].
    split; [exact Hoth|]. split; [|split; intros; discriminate].
    intros _. rewrite Hthe.
    destruct (Settings.deliver d streamsUp reportType window streams
                (Schedule.with_reports false false g)) as [m|] eqn:E; [|reflexivity].
    apply ScheduleFacts.deliver_Some in E as (Hen & _). exfalso.
    unfold Settings.enabledFor in Hen. cbn in Hen.
    repeat case_bool_decide; discriminate. }
  case_bool_decide.
  { destruct enabled as [[|a e]|];
      try (cbn; split; [reflexivity|]; split; [discriminate|];
           split; intros; discriminate).
    cbn [fst snd].
    match goal with |- context [<[i := ?x]> c] => set (g' := x) end.
    destruct (Hins g' eq_refl) as [Hthe Hoth].
    split; [exact Hoth|]. split; [discriminate|]. split; [|intros; discriminate].
    intros b [= <-] ->. rewrite Hthe.
    apply (Hdel g'); [reflexivity|exact Hch|].
    unfold Settings.enabledFor. rewrite bool_decide_eq_true_2 by reflexivity.
    reflexivity. }
  case_bool_decide.
  { destruct enabled as [[|a e]|];
      try (cbn; split; [reflexivity|]; split; [discriminate|];
           split; intros; discriminate).
    cbn [fst snd].
    match goal with |- context [<[i := ?x]> c] => set (g' := x) end.
    destruct (Hins g' eq_refl) as [Hthe Hoth].
    split; [exact Hoth|]. split; [discriminate|]. split; [intros; discriminate|].
    intros b zone [= <- _] ->. rewrite Hthe.
    apply (Hdel g'); [reflexivity|exact Hch|].
    unfold Settings.enabledFor.
    rewrite (bool_decide_eq_false_2 ("daily" = "hourly")) by discriminate.
    rewrite bool_decide_eq_true_2 by reflexivity.
    reflexivity. }
  case_bool_decide.
  { destruct tz as [[|a e]|];
      try (cbn; split; [reflexivity|]; split; [discriminate|];
           split; intros; discriminate).
    destruct (validTimezone (String a e)).
    - cbn [fst snd].
      destruct (Hins (Schedule.with_timezone (String a e) g) eq_refl) as [Hthe Hoth].
      split; [exact Hoth|]. split; [discriminate|]. split; intros; discriminate.
    - cbn. split; [reflexivity|]. split; [discriminate|].
      split; intros; discriminate. }
  cbn. split; [reflexivity|]. split; [discriminate|]. split; intros; discriminate.
Qed.

(** *** Without the report settings in the schema *)

Lemma reportsOff_perform env c x :
  match x with
  | Settings.SetReport Config.WithReportSettings _ _ _ _ _ => False
  | _ => True
  end ->
  Settings.reportsOff c -> Settings.reportsOff (Settings.perform env c x).
Proof.
  intros Hx Hc. unfold Settings.reportsOff in *.
  assert (forall now gid change,
    (forall g, Config.hourlyReportEnabled (change g) = Config.hourlyReportEnabled g /\
               Config.dailyReportEnabled (change g) = Config.dailyReportEnabled g) ->
    Forall (fun g => Config.hourlyReportEnabled g = false /\
                     Config.dailyReportEnabled g = false)
      (Config.update env now gid change c).1) as Hup.
  { intros now gid change Hch. rewrite ConfigFacts.update_spec.
    destruct (Config.findOne gid c) as [[i g]|] eqn:Hf; [|exact Hc].
    destruct (ConfigFacts.config_found _ _ _ _ Hf) as (Hi & _).
    cbn. apply Forall_insert; [exact Hc|].
    destruct (Hch g) as [-> ->]. eapply Forall_lookup_1 in Hc; eauto. }
  destruct x as [now gid gname|now gid ch|now gid p|now gid b|schema v gid a e tz]; cbn.
  - unfold Config.getOrCreateGuildConfig.
    destruct (Config.findOne gid c); [exact Hc|].
    destruct (Config.present (Some gid) && Config.present gname); [|exact Hc].
    apply Forall_app. split; [exact Hc|]. apply Forall_singleton. auto.
  - apply Hup. auto.
  - apply Hup. auto.
  - apply Hup. auto.
  - destruct schema; [|contradiction]. rewrite ConfigFacts.execute_six. exact Hc.
Qed.

Lemma reportsOff_reach env changes :
  Settings.sixPathsOnly changes -> Settings.reportsOff (Settings.reach env changes).
Proof.
  unfold Settings.reach, Settings.sixPathsOnly.
  assert (forall c, Settings.reportsOff c ->
    Forall (fun x => match x with
                     | Settings.SetReport Config.WithReportSettings _ _ _ _ _ => False
                     | _ => True
                     end) changes ->
    Settings.reportsOff (fold_left (Settings.perform env) changes c)) as H.
  { induction changes as [|x xs IH]; intros c Hc Hall; [exact Hc|].
    apply Forall_cons in Hall as [Hx Hxs]. cbn.
    apply IH; [|exact Hxs]. apply reportsOff_perform; assumption. }
  intros Hall. apply H; [constructor|exact Hall].
Qed.

(** No report is sent from configurations that have none switched on. *)
Lemma run_reportsOff (d : Schedule.Discord) streamsUp reportType window streams c :
  Settings.reportsOff c ->
  omap (Settings.deliver d streamsUp reportType window streams) c = [].
Proof.
  intros Hc. induction Hc as [|g c [Hh Hd] Hc IH]; [reflexivity|].
  cbn. rewrite IH.
  destruct (Settings.deliver d streamsUp reportType window streams g) as [m|] eqn:E;
    [|reflexivity].
  apply deliver_Some in E as (Hen & _). exfalso.
  unfold Settings.enabledFor in Hen. rewrite Hh, Hd in Hen.
  repeat case_bool_decide; discriminate.
Qed.

(** What the command answers when it is asked to switch reports on. *)
Lemma switch_on_answers schema validTimezone gid tz (c : Config.Configs) :
  Settings.ready gid c ->
  (Schedule.execute schema validTimezone gid (Some "hourly") (Some "on") tz c).2
  = Schedule.Hourly true /\
  exists zone,
    (Schedule.execute schema validTimezone gid (Some "daily") (Some "on") tz c).2
    = Schedule.Daily true zone /\
    (schema = Config.SixPaths -> zone = "UTC").
Proof.
  intros (ch & Hget & Hne). unfold Config.getNotificationChannel in Hget.
  unfold Schedule.execute.
  destruct (Config.findOne gid c) as [[i g]|]; [|discriminate]. cbv zeta.
  assert (Config.notificationChannelId (Schedule.loaded schema g) = Some ch) as ->.
  { destruct schema; exact Hget. }
  rewrite (bool_decide_eq_false_2 (ch = "")) by exact Hne.
  repeat (case_bool_decide; [discriminate|]).
  split.
  - rewrite bool_decide_eq_true_2 by reflexivity. reflexivity.
  - repeat (case_bool_decide; [try discriminate|]); try congruence.
    + eexists. split; [reflexivity|]. intros ->. reflexivity.
Qed.

End ScheduleFacts.

(** X20.  A run of [sendScheduledReports] sends a message to a channel of
    a guild exactly when the store answers the query of the
    configurations, a configuration of the guild names that channel and
    has the reports of the type enabled, the guild and the channel are in
    the cache, and Discord accepts the message; a type other than
    ["hourly"] and ["daily"] sends nothing.  Every message sent carries
    one page, which is the page without streams or the page of an error. *)
Theorem scheduled_reports_go_to_enabled_guilds
    (d : Schedule.Discord) storeUp streamsUp reportType window
    (c : Config.Configs) streams :
  let sent :=
    Schedule.sendScheduledReports d storeUp streamsUp reportType window c streams in
  (forall gid ch,
     (exists m, m ∈ sent /\ Schedule.toGuild m = gid /\ Schedule.toChannel m = ch) <->
     storeUp = true /\
     exists g, g ∈ c /\ Config.guildId g = gid /\
       Config.notificationChannelId g = Some ch /\
       Settings.enabledFor reportType g = true /\
       Settings.reachable d gid ch = true) /\
  (forall m, m ∈ sent ->
     exists e, Schedule.embeds m = [e] /\
       (e = Report.NoStreams \/ exists message, e = Report.ErrorReport message)).
Proof.
  cbv zeta. destruct storeUp.
  2:{ split.
      - intros gid ch. split.
        + intros (m & Hm & _). cbn in Hm. inversion Hm.
        + intros [? _]. discriminate.
      - intros m Hm. cbn in Hm. inversion Hm. }
  rewrite ScheduleFacts.sendScheduledReports_omap. split.
  - intros gid ch. split.
    + intros (m & Hm & Hg & Hch).
      apply list_elem_of_omap in Hm as (g & Hin & Hd).
      apply ScheduleFacts.deliver_Some in Hd as (Hen & ch' & Hn & Hr & ->).
      cbn in Hg, Hch. subst. split; [reflexivity|]. exists g. auto.
    + intros (_ & g & Hin & Hg & Hn & Hen & Hr). subst gid.
      eexists. split; [|split].
      * apply list_elem_of_omap. exists g. split; [exact Hin|].
        apply ScheduleFacts.deliver_Some. split; [exact Hen|].
        exists ch. split; [exact Hn|]. split; [exact Hr|]. reflexivity.
      * reflexivity.
      * reflexivity.
  - intros m Hm. apply list_elem_of_omap in Hm as (g & Hin & Hd).
    apply ScheduleFacts.deliver_Some in Hd as (_ & ch & _ & _ & ->). cbn.
    apply (ScheduleFacts.generate_one (bool_decide (reportType = "daily"))).
Qed.

(** X21.  The [setreport] command and the scheduler, on a collection of
    settings written by the calls of [Settings.Change].  A run of the
    scheduler sends at most one message to a guild, and the command used
    in a guild leaves the messages for the other guilds as they were.
    What the command does for its own guild depends on the copy of the
    schema the process has loaded:
    - with the copy that declares the report settings: once the command
      has answered that all reports are disabled, no run sends a message
      to the guild; once it has answered that the hourly (daily) reports
      are enabled or disabled, an hourly (daily) run sends a message to
      the guild exactly when they are enabled and the notification channel
      of the guild can be reached;
    - with the copy of six paths, the one [src/models/GuildConfig.js]
      holds: the command stores nothing, although for a guild that has a
      notification channel it answers that the hourly (daily) reports are
      enabled; and when no process has ever stored the settings, a run
      sends nothing at all. *)
Theorem report_switch_controls_the_scheduler
    env (changes : list Settings.Change) schema validTimezone gid action enabled tz
    (d : Schedule.Discord) streamsUp reportType window streams :
  let c := Settings.reach env changes in
  let r := Schedule.execute schema validTimezone gid action enabled tz c in
  let run c := Schedule.sendScheduledReports d true streamsUp reportType window c streams in
  let canReach :=
    exists ch, Config.getNotificationChannel gid c = Some ch /\
               Settings.reachable d gid ch = true in
  NoDup (Schedule.toGuild <$> run r.1) /\
  Settings.toOthers gid (run r.1) = Settings.toOthers gid (run c) /\
  match schema with
  | Config.WithReportSettings =>
      (r.2 = Schedule.AllDisabled -> Settings.toThe gid (run r.1) = []) /\
      (forall b, r.2 = Schedule.Hourly b -> reportType = "hourly" ->
         (Settings.toThe gid (run r.1) <> [] <-> b = true /\ canReach)) /\
      (forall b zone, r.2 = Schedule.Daily b zone -> reportType = "daily" ->
         (Settings.toThe gid (run r.1) <> [] <-> b = true /\ canReach))
  | Config.SixPaths =>
      r.1 = c /\
      (Settings.ready gid c ->
       (Schedule.execute Config.SixPaths validTimezone gid
          (Some "hourly") (Some "on") tz c).2 = Schedule.Hourly true /\
       (Schedule.execute Config.SixPaths validTimezone gid
          (Some "daily") (Some "on") tz c).2 = Schedule.Daily true "UTC") /\
      (Settings.sixPathsOnly changes -> run r.1 = [])
  end.
Proof.
  cbv zeta.
  pose proof (ConfigFacts.wellFormed_reach env changes) as [Hnd _].
  set (c := Settings.reach env changes) in *.
  rewrite !ScheduleFacts.sendScheduledReports_omap.
  assert (NoDup (Config.guildId <$>
            (Schedule.execute schema validTimezone gid action enabled tz c).1)) as Hnd'.
  { pose proof (ConfigFacts.wellFormed_reach env
      (changes ++ [Settings.SetReport schema validTimezone gid action enabled tz]))
      as [H _].
    unfold Settings.reach in H. rewrite fold_left_app in H. exact H. }
  split.
  { eapply sublist_NoDup; [exact Hnd'|apply ScheduleFacts.served_sublist]. }
  clear Hnd'. destruct schema.
  - rewrite ConfigFacts.execute_six.
    split; [reflexivity|]. split; [reflexivity|]. split.
    + intros Hready.
      destruct (ScheduleFacts.switch_on_answers Config.SixPaths validTimezone gid tz c
                  Hready) as (Hh & zone & Hd & Hz).
      split; [exact Hh|]. rewrite Hd, (Hz eq_refl). reflexivity.
    + intros Hsix. apply ScheduleFacts.run_reportsOff.
      apply ScheduleFacts.reportsOff_reach. exact Hsix.
  - destruct (ScheduleFacts.switch_with_paths validTimezone gid action enabled tz
                d streamsUp reportType window streams c Hnd) as (Hoth & Hrest).
    split; [exact Hoth|exact Hrest].
Qed.

(** A guild with a notification channel, everything in reach: the command
    answers that the hourly reports are enabled under either copy of the
    schema; with the copy of six paths nothing is stored and the hourly run
    sends nothing, with the other copy the run sends to the channel. *)
Example switch_is_inert_with_six_paths :
  let c := Settings.reach None gChanges in
  let switch schema :=
    Schedule.execute schema (fun _ => true) "g" (Some "hourly") (Some "on") None c in
  let run c :=
    Schedule.sendScheduledReports everywhere true (fun _ => true) "hourly"
      (fun _ => (0, 3600000)) c [] in
  switch Config.SixPaths = (c, Schedule.Hourly true) /\
  run (switch Config.SixPaths).1 = [] /\
  (switch Config.WithReportSettings).2 = Schedule.Hourly true /\
  Schedule.toChannel <$> run (switch Config.WithReportSettings).1 = ["n"].
Proof. vm_compute. auto. Qed.

(** ** Facts about the rate limits *)

Module LimitFacts.
Import RateLimit Limits.

Lemma given_Some guildId g : given guildId = Some g -> guildId = Some g /\ g <> "".
Proof.
  unfold given. destruct guildId as [x|]; [|discriminate].
  case_bool_decide; [discriminate|]. intros [= ->]. auto.
Qed.

(** What a call does to the entry of a guild. *)
Lemma check_guild now u c cd guildId st g :
  let r := checkCommandLimit now u c cd guildId st in
  (isLimited r.1.2 = true \/ given guildId <> Some g ->
   guildCooldowns r.1.1 !! g = guildCooldowns st !! g \/
   given guildId = Some g /\ isLimited r.1.2 = true /\
   exists gl, guildCooldowns r.1.1 !! g = Some gl /\
     gl = (let old := default (mkGuildLimit 0 (now + 60000)) (guildCooldowns st !! g) in
           if resetTime old <? now then mkGuildLimit 0 (now + 60000) else old) /\
     MAX_GUILD_REQUESTS_PER_MINUTE <= count gl) /\
  (isLimited r.1.2 = false -> given guildId = Some g ->
   exists gl, guildCooldowns r.1.1 !! g = Some (mkGuildLimit (count gl + 1) (resetTime gl)) /\
     gl = (let old := default (mkGuildLimit 0 (now + 60000)) (guildCooldowns st !! g) in
           if resetTime old <? now then mkGuildLimit 0 (now + 60000) else old) /\
     count gl < MAX_GUILD_REQUESTS_PER_MINUTE).
Proof.
  cbv zeta. unfold checkCommandLimit.
  destruct (bool_decide (u = "") || bool_decide (c = "")).
  { cbn. split; [auto|]. discriminate. }
  cbv zeta.
  match goal with |- context [if ?b then _ else _] =>
    destruct b eqn:Hcool end.
  { cbn. split; [auto|]. discriminate. }
  destruct (given guildId) as [g'|] eqn:Hg.
  2:{ cbn. split; [auto|]. intros _ ?. discriminate. }
  match goal with |- context [MAX_GUILD_REQUESTS_PER_MINUTE <=? ?x] =>
    destruct (Z.leb_spec MAX_GUILD_REQUESTS_PER_MINUTE x) as [Hfull|Hroom] end.
  - cbn [fst snd guildCooldowns isLimited]. split; [|discriminate].
    intros _. destruct (decide (g' = g)) as [->|Hne].
    + right. split; [reflexivity|]. split; [reflexivity|].
      eexists. rewrite lookup_insert_eq. split; [reflexivity|]. split; [reflexivity|].
      exact Hfull.
    + left. rewrite lookup_insert_ne by exact Hne. reflexivity.
  - cbn [fst snd guildCooldowns isLimited]. split.
    + intros [?|Hne]; [discriminate|]. left.
      rewrite lookup_insert_ne by congruence. reflexivity.
    + intros _ [= ->]. eexists. rewrite lookup_insert_eq.
      split; [reflexivity|]. split; [reflexivity|]. exact Hroom.
Qed.

(** One event within the minute: the entry stays open, and the room
    shrinks by one exactly when a call of the guild is let through. *)
Lemma step_room g t st e :
  minuteOpen g t st -> withinMinute g t e ->
  minuteOpen g t (step st e).1 /\
  room g (step st e).1 =
  room g st -
  match (step st e).2 with
  | Some v => if negb (isLimited v) && inGuild g e then 1 else 0
  | None => 0
  end.
Proof.
  intros Hopen Hin. destruct e as [now u c cd guildId|c u|id isGuild].
  - cbn [step fst snd inGuild]. cbn in Hin.
    destruct (check_guild now u c cd guildId st g) as [Hlim Hacc].
    set (r := checkCommandLimit now u c cd guildId st) in *.
    unfold minuteOpen, room in *.
    destruct (isLimited r.1.2) eqn:Hl.
    + cbn [negb andb].
      destruct (Hlim (or_introl eq_refl)) as [->|(Hg & _ & gl & -> & -> & Hfull)].
      * split; [exact Hopen|lia].
      * specialize (Hin Hg).
        destruct (guildCooldowns st !! g) as [old|] eqn:Hold; cbn [from_option] in *; unfold id in *.
        -- destruct Hopen as [Hr Hc].
           destruct (Z.ltb_spec (resetTime old) now); [lia|].
           split; [auto|lia].
        -- cbn in Hfull. unfold MAX_GUILD_REQUESTS_PER_MINUTE in Hfull.
           destruct (Z.ltb_spec (now + 60000) now); cbn in Hfull; lia.
    + cbn [negb andb]. case_bool_decide as Hg.
      * specialize (Hin Hg).
        destruct (Hacc eq_refl Hg) as (gl & -> & -> & Hroom).
        destruct (guildCooldowns st !! g) as [old|] eqn:Hold; cbn [from_option] in *; unfold id in *.
        -- destruct Hopen as [Hr Hc].
           destruct (Z.ltb_spec (resetTime old) now); [lia|].
           cbn. split; [split; lia|lia].
        -- cbn in *. destruct (now + 60000 <? now); cbn in *;
             unfold MAX_GUILD_REQUESTS_PER_MINUTE in *; (split; [split; lia|lia]).
      * destruct (Hlim (or_intror Hg)) as [->|(Hg' & _)]; [|contradiction].
        split; [exact Hopen|lia].
  - cbn. unfold minuteOpen, room. cbn. split; [exact Hopen|lia].
  - cbn [step fst snd]. unfold minuteOpen, room, resetRateLimits in *.
    destruct isGuild; cbn [guildCooldowns].
    + cbn in Hin. rewrite lookup_delete_ne by (apply Hin; reflexivity).
      split; [exact Hopen|lia].
    + split; [exact Hopen|lia].
Qed.

Lemma room_nonneg g t st : minuteOpen g t st -> 0 <= room g st.
Proof.
  unfold minuteOpen, room. destruct (guildCooldowns st !! g).
  - intros [_ ?]. lia.
  - unfold MAX_GUILD_REQUESTS_PER_MINUTE. lia.
Qed.

(** Within the minute, the calls of the guild let through fit the room. *)
Lemma run_room g t events :
  forall st,
    minuteOpen g t st -> Forall (withinMinute g t) events ->
    Z.of_nat (length (filter (fun e => inGuild g e = true) (run events st).2))
    <= room g st.
Proof.
  induction events as [|e rest IH]; intros st Hopen Hall.
  - cbn. eapply room_nonneg; eauto.
  - apply Forall_cons in Hall as [He Hrest].
    destruct (step_room g t st e Hopen He) as [Hopen' Hroom].
    specialize (IH _ Hopen' Hrest).
    cbn [run]. destruct (step st e) as [st' v] eqn:Hs. cbn [fst snd] in *.
    destruct (run rest st') as [st'' passed] eqn:Hr. cbn [fst snd] in *.
    destruct v as [v|]; [|lia].
    destruct (isLimited v); cbn [negb andb] in Hroom; [lia|].
    rewrite filter_cons. destruct (inGuild g e) eqn:Hg.
    + rewrite decide_True by reflexivity. cbn [length]. lia.
    + rewrite decide_False by discriminate. lia.
Qed.

Lemma state_eta st :
  mkState (userCooldowns st) (guildCooldowns st) (cooldownCache st) = st.
Proof. destruct st. reflexivity. Qed.

(** A call that is let through records the time of the call. *)
Lemma check_passed now u c cd guildId st :
  isLimited (checkCommandLimit now u c cd guildId st).1.2 = false ->
  u <> "" /\ c <> "" /\
  lastUsage u c (checkCommandLimit now u c cd guildId st).1.1 = Some now.
Proof.
  unfold checkCommandLimit.
  destruct (bool_decide (u = "")) eqn:Hu; [discriminate|].
  destruct (bool_decide (c = "")) eqn:Hc; [discriminate|].
  apply bool_decide_eq_false in Hu, Hc. cbn [orb]. cbv zeta.
  match goal with |- context [if ?b then _ else _] => destruct b end;
    [discriminate|].
  assert (forall gc cache,
    lastUsage u c
      (mkState (<[c := <[u := now]> (default ∅ (userCooldowns st !! c))]>
                  (<[c := default ∅ (userCooldowns st !! c)]> (userCooldowns st)))
         gc cache) = Some now) as Hset.
  { intros. unfold lastUsage. cbn. rewrite lookup_insert_eq.
    apply lookup_insert_eq. }
  destruct (given guildId) as [g|].
  - match goal with |- context [MAX_GUILD_REQUESTS_PER_MINUTE <=? ?x] =>
      destruct (MAX_GUILD_REQUESTS_PER_MINUTE <=? x) end; [discriminate|].
    intros _. cbn [fst snd]. auto.
  - intros _. cbn [fst snd]. auto.
Qed.

(** Within the cooldown the call is limited, and nothing changes. *)
Lemma check_on_cooldown now u c cd guildId st t :
  u <> "" -> c <> "" -> lastUsage u c st = Some t -> t <> 0 ->
  now < t + cd * 1000 ->
  checkCommandLimit now u c cd guildId st =
  (st, mkVerdict true (ceilSeconds (t + cd * 1000 - now)) (Some "User cooldown"), None).
Proof.
  intros Hu Hc Hlast Ht Hnow. unfold checkCommandLimit.
  rewrite (bool_decide_eq_false_2 (u = "")) by exact Hu.
  rewrite (bool_decide_eq_false_2 (c = "")) by exact Hc.
  cbn [orb]. cbv zeta. unfold lastUsage in Hlast.
  destruct (userCooldowns st !! c) as [ts|] eqn:Hts; [|discriminate].
  cbn [from_option]. unfold id. rewrite Hlast.
  rewrite (proj2 (Z.eqb_neq t 0) Ht). rewrite (proj2 (Z.ltb_lt _ _) Hnow).
  cbn [negb andb from_option]. unfold id.
  rewrite insert_id by exact Hts. rewrite state_eta. reflexivity.
Qed.

(** An event about another user or another command keeps the time. *)
Lemma step_leaves u c st e :
  leaves u c e -> lastUsage u c (step st e).1 = lastUsage u c st.
Proof.
  intros Hl. destruct e as [now u' c' cd guildId|c' u'|id isGuild].
  - cbn [step fst]. cbn in Hl. unfold checkCommandLimit.
    destruct (bool_decide (u' = "") || bool_decide (c' = "")); [reflexivity|].
    cbv zeta.
    assert (forall gc cache,
      lastUsage u c
        (mkState (<[c' := default ∅ (userCooldowns st !! c')]> (userCooldowns st))
           gc cache) = lastUsage u c st) as Hkeep.
    { intros. unfold lastUsage. cbn.
      destruct (decide (c' = c)) as [->|Hne].
      - rewrite lookup_insert_eq.
        destruct (userCooldowns st !! c) as [ts|]; cbn; [reflexivity|].
        apply lookup_empty.
      - rewrite lookup_insert_ne by exact Hne. reflexivity. }
    assert (forall gc cache,
      lastUsage u c
        (mkState (<[c' := <[u' := now]> (default ∅ (userCooldowns st !! c'))]>
                    (<[c' := default ∅ (userCooldowns st !! c')]> (userCooldowns st)))
           gc cache) = lastUsage u c st) as Hset.
    { intros. unfold lastUsage. cbn.
      destruct (decide (c' = c)) as [->|Hne].
      - rewrite lookup_insert_eq.
        assert (u' <> u) as Hu by (destruct Hl; congruence).
        rewrite lookup_insert_ne by exact Hu.
        destruct (userCooldowns st !! c) as [ts|]; cbn; [reflexivity|].
        apply lookup_empty.
      - rewrite !lookup_insert_ne by exact Hne. reflexivity. }
    match goal with |- context [if ?b then _ else _] => destruct b end;
      [apply Hkeep|].
    destruct (given guildId) as [g|]; [|apply Hset].
    match goal with |- context [MAX_GUILD_REQUESTS_PER_MINUTE <=? ?x] =>
      destruct (MAX_GUILD_REQUESTS_PER_MINUTE <=? x) end; [apply Hkeep|apply Hset].
  - cbn in Hl. cbn [step fst]. unfold lastUsage, expire. cbn [userCooldowns].
    destruct (decide (c' = c)) as [->|Hne].
    + rewrite lookup_alter_eq.
      assert (u' <> u) as Hu by (destruct Hl; congruence).
      destruct (userCooldowns st !! c) as [ts|]; cbn; [|reflexivity].
      apply lookup_delete_ne. exact Hu.
    + rewrite lookup_alter_ne by exact Hne. reflexivity.
  - cbn in Hl. cbn [step fst]. unfold lastUsage, resetRateLimits.
    destruct isGuild; [reflexivity|]. cbn [userCooldowns].
    rewrite lookup_fmap.
    destruct (userCooldowns st !! c) as [ts|]; cbn; [|reflexivity].
    apply lookup_delete_ne. destruct Hl; congruence.
Qed.

Lemma run_leaves u c events :
  forall st, Forall (leaves u c) events ->
    lastUsage u c (run events st).1 = lastUsage u c st.
Proof.
  induction events as [|e rest IH]; intros st Hall; [reflexivity|].
  apply Forall_cons in Hall as [He Hrest].
  cbn [run]. pose proof (step_leaves u c st e He) as Hs.
  destruct (step st e) as [st' v]. cbn [fst] in Hs.
  specialize (IH st' Hrest). destruct (run rest st') as [st'' passed].
  cbn [fst] in *. congruence.
Qed.

Lemma ceilSeconds_bounds ms cd :
  0 < ms <= cd * 1000 -> 1 <= ceilSeconds ms <= cd.
Proof.
  intros H. unfold ceilSeconds.
  pose proof (Z.div_mod (- ms) 1000 ltac:(lia)) as Hdm.
  pose proof (Z.mod_pos_bound (- ms) 1000 ltac:(lia)) as Hb.
  lia.
Qed.

End LimitFacts.

(** X22.  The rate limit of a guild: from the start of the module, among
    calls of [checkCommandLimit] whose calls for a guild all read the
    clock within one minute, at most 30 calls of that guild are let
    through, whatever the users, the commands and the cooldowns, whatever
    calls are made for other guilds, and whatever timers expire in
    between; the limits of the guild are not reset by [resetRateLimits]
    meanwhile. *)
Theorem guild_lets_thirty_calls_through_a_minute
    loaded g t (events : list Limits.Event) :
  Forall (Limits.withinMinute g t) events ->
  (length (filter (fun e => Limits.inGuild g e = true)
             (Limits.run events (RateLimit.initial loaded)).2) <= 30)%nat.
Proof.
  intros Hall.
  pose proof (LimitFacts.run_room g t events (RateLimit.initial loaded)) as H.
  assert (Limits.minuteOpen g t (RateLimit.initial loaded)) as Hopen.
  { unfold Limits.minuteOpen. cbn. rewrite lookup_empty. exact I. }
  specialize (H Hopen Hall).
  unfold Limits.room in H. cbn in H. rewrite lookup_empty in H.
  unfold RateLimit.MAX_GUILD_REQUESTS_PER_MINUTE in H. lia.
Qed.

Lemma guild_lets_thirty_calls_through_a_minute_witness :
  (length (filter (fun e => Limits.inGuild "g" e = true)
             (Limits.run burst (RateLimit.initial 0)).2) <= 30)%nat.
Proof.
  apply (guild_lets_thirty_calls_through_a_minute 0 "g" 1000 burst).
  unfold burst. apply Forall_fmap, Forall_forall. intros k _ _. cbn. lia.
Defined.

(** X23.  The cooldown of a command: once [checkCommandLimit] has let a
    call of a user through, at a time that is not 0, a call of the same
    user for the same command before the cooldown has passed is limited
    with the reason "User cooldown", in whatever guild it is made; the
    time it is told to wait is the rest of the cooldown in whole seconds,
    rounded up, between 1 and the cooldown; and the call changes nothing.
    The calls of other users and for other commands in between do not
    matter; the timer of the user and the command has not expired, and the
    limits of the user are not reset. *)
Theorem cooldown_is_enforced
    st now uid cmd cd gid (others : list Limits.Event) now' gid' :
  let first := RateLimit.checkCommandLimit now uid cmd cd gid st in
  let st' := (Limits.run others first.1.1).1 in
  let wait := RateLimit.ceilSeconds (now + cd * 1000 - now') in
  RateLimit.isLimited first.1.2 = false ->
  now <> 0 ->
  Forall (Limits.leaves uid cmd) others ->
  now <= now' < now + cd * 1000 ->
  RateLimit.checkCommandLimit now' uid cmd cd gid' st' =
    (st', RateLimit.mkVerdict true wait (Some "User cooldown"), None) /\
  1 <= wait <= cd.
Proof.
  cbv zeta. intros Hpass Hnow Hothers Hlt.
  destruct (LimitFacts.check_passed _ _ _ _ _ _ Hpass) as (Hu & Hc & Hlast).
  split.
  - apply LimitFacts.check_on_cooldown; auto; [|lia].
    rewrite LimitFacts.run_leaves by exact Hothers. exact Hlast.
  - apply LimitFacts.ceilSeconds_bounds. lia.
Qed.

Lemma cooldown_is_enforced_witness :
  let first := RateLimit.checkCommandLimit 1000 "u" "stats" 5 (Some "g")
                 (RateLimit.initial 0) in
  let st' :=
    (Limits.run [Limits.Check 2000 "v" "stats" 5 (Some "g")] first.1.1).1 in
  RateLimit.checkCommandLimit 3000 "u" "stats" 5 (Some "g") st' =
    (st', RateLimit.mkVerdict true 3 (Some "User cooldown"), None) /\
  1 <= 3 <= 5.
Proof.
  apply (cooldown_is_enforced (RateLimit.initial 0) 1000 "u" "stats" 5 (Some "g")
           [Limits.Check 2000 "v" "stats" 5 (Some "g")] 3000 (Some "g")).
  - vm_compute. reflexivity.
  - lia.
  - constructor; [left; discriminate|constructor].
  - lia.
Defined.

(** ** Facts about the logger *)

Module LogFacts.
Import Logger Logs.

Lemma currentLogLevel_range env : 1 <= currentLogLevel env <= 3.
Proof.
  unfold currentLogLevel, levelNamed.
  destruct (LOG_LEVEL_upper env) as [name|].
  - repeat case_bool_decide; cbn; lia.
  - destruct (isDebugEnabled env); cbn; lia.
Qed.

Lemma remember_take {Meta} (e : Entry Meta) r :
  remember e (take MAX_MEMORY_LOGS r) = take MAX_MEMORY_LOGS (e :: r).
Proof.
  unfold remember, MAX_MEMORY_LOGS. cbn [length].
  rewrite length_take.
  destruct (Nat.ltb_spec 100 (S (100 `min` length r))) as [Hfull|Hroom].
  - assert (100 <= length r)%nat as Hlen by lia.
    change (take 100 (e :: r)) with (e :: take 99 r).
    destruct (take 100 r) as [|x xs] eqn:Ht.
    { apply (f_equal length) in Ht. rewrite length_take in Ht.
      cbn [length] in Ht. lia. }
    change (removelast (e :: x :: xs)) with (e :: removelast (x :: xs)).
    rewrite <- Ht. f_equal. apply removelast_firstn. lia.
  - assert (length r < 100)%nat as Hlen by lia.
    change (take 100 (e :: r)) with (e :: take 99 r).
    rewrite !take_ge by lia. reflexivity.
Qed.

Lemma after_snoc {Meta} env (calls : list (Call Meta)) c :
  after env (calls ++ [c]) =
  log env (at_ c) (level c) (text c) (about c) (after env calls).
Proof. unfold after. now rewrite fold_left_app. Qed.

Lemma atLevel_snoc {Meta} l (calls : list (Call Meta)) c :
  atLevel l (calls ++ [c]) =
  atLevel l calls ++ (if decide (level c = l) then [c] else []).
Proof.
  unfold atLevel. rewrite filter_app. reflexivity.
Qed.

(** The memory and the counters after the calls. *)
Lemma after_memory {Meta} env (calls : list (Call Meta)) :
  memoryErrors (after env calls) =
    take MAX_MEMORY_LOGS (rev (entryOf <$> atLevel ERROR calls)) /\
  errors (stats (after env calls)) = counted env ERROR calls /\
  warnings (stats (after env calls)) = counted env WARN calls /\
  infos (stats (after env calls)) = counted env INFO calls /\
  debugs (stats (after env calls)) = counted env DEBUG calls.
Proof.
  pose proof (currentLogLevel_range env) as Hr.
  induction calls as [|c calls IH] using rev_ind.
  - unfold counted. cbn. repeat split; destruct (processed env _); reflexivity.
  - destruct IH as (Hm & He & Hw & Hi & Hd).
    rewrite after_snoc. unfold counted in *. rewrite !atLevel_snoc.
    rewrite !length_app, fmap_app, rev_app_distr.
    unfold log, processed in *.
    destruct c as [now l msg m]. cbn [at_ level text about].
    destruct l; cbn [LOG_LEVELS] in *;
      repeat match goal with
        | |- context [decide (?a = ?b)] => destruct (decide (a = b)); try congruence
        end;
      cbn [fmap list_fmap rev app length]; rewrite !Nat.add_0_r;
      match goal with
      | |- context [currentLogLevel env <? ?n] =>
          destruct (Z.ltb_spec (currentLogLevel env) n)
      end;
      try lia;
      cbn [memoryErrors stats errors warnings infos debugs];
      rewrite ?Hm, ?He, ?Hw, ?Hi, ?Hd;
      repeat match goal with
        | |- context [?n <=? currentLogLevel env] =>
            destruct (Z.leb_spec n (currentLogLevel env)); try lia
        end;
      (split; [first [apply remember_take | reflexivity]|]);
      repeat split; lia.
Qed.

(** Without the debug mode, the errors are all that is written. *)
Lemma after_written {Meta} env (calls : list (Call Meta)) :
  isDebugEnabled env = false ->
  written (after env calls) =
  (fun c => mkLine ConsoleError ERROR (text c) (about c)) <$> atLevel ERROR calls.
Proof.
  intros Hdebug. pose proof (currentLogLevel_range env) as Hr.
  induction calls as [|c calls IH] using rev_ind; [reflexivity|].
  rewrite after_snoc, atLevel_snoc, fmap_app. unfold log. rewrite Hdebug.
  destruct c as [now l msg m]. cbn [at_ level text about].
  destruct (decide (l = ERROR)) as [->|Hne].
  - cbn [LOG_LEVELS]. destruct (Z.ltb_spec (currentLogLevel env) 0); [lia|].
    rewrite bool_decide_eq_true_2 by reflexivity.
    cbn [written orb]. rewrite !app_nil_r, IH. reflexivity.
  - rewrite (bool_decide_eq_false_2 (l = ERROR)) by exact Hne.
    cbn [fmap list_fmap].
    destruct (currentLogLevel env <? LOG_LEVELS l); [rewrite app_nil_r; exact IH|].
    destruct l; try congruence; cbn [written orb]; rewrite !app_nil_r; exact IH.
Qed.

End LogFacts.

(** X24.  The memory of the logger: whatever calls of [log] were made
    since the module was loaded, [getRecentErrors] returns the entries of
    the last 100 calls made at the level [ERROR], the newest first, with
    their times, messages and metadata; the counter of the errors is the
    number of all those calls, also beyond 100, and the counter of the
    warnings is the number of the calls made at the level [WARN],
    whatever the environment sets. *)
Theorem recent_errors_are_the_last_hundred {Meta}
    (env : Logger.Env) (calls : list (Logs.Call Meta)) :
  let st := Logs.after env calls in
  let failures := Logs.atLevel Logger.ERROR calls in
  Logger.getRecentErrors st = take 100 (rev (Logs.entryOf <$> failures)) /\
  (length (Logger.getRecentErrors st) <= 100)%nat /\
  Logger.errors (Logger.stats st) = Z.of_nat (length failures) /\
  Logger.warnings (Logger.stats st)
  = Z.of_nat (length (Logs.atLevel Logger.WARN calls)).
Proof.
  cbv zeta.
  destruct (LogFacts.after_memory env calls) as (Hm & He & Hw & _).
  pose proof (LogFacts.currentLogLevel_range env) as Hr.
  unfold Logger.getRecentErrors. rewrite Hm, He, Hw.
  unfold Logs.counted, Logs.processed. cbn [Logger.LOG_LEVELS].
  destruct (Z.leb_spec 0 (Logger.currentLogLevel env)); [|lia].
  destruct (Z.leb_spec 1 (Logger.currentLogLevel env)); [|lia].
  split; [reflexivity|]. split; [|auto].
  rewrite length_take. unfold Logger.MAX_MEMORY_LOGS. lia.
Qed.

(** X25.  The levels of the logger.  Errors and warnings are processed
    whatever the environment sets: [LOG_LEVEL=ERROR] gives the level
    [INFO], as a name that is not a level does.  Infos are dropped
    exactly when [LOG_LEVEL] is [WARN]; debug messages are processed
    exactly when [LOG_LEVEL] is [DEBUG], or is not set while [DEBUG] is
    ["true"].  The counters of the infos and of the debug messages count
    the calls at these levels when they are processed.  Unless [DEBUG] is
    ["true"], no line is written to a file, and the console gets the
    errors and nothing else. *)
Theorem log_levels_follow_the_environment {Meta}
    (env : Logger.Env) (calls : list (Logs.Call Meta)) :
  let st := Logs.after env calls in
  Logs.processed env Logger.ERROR = true /\
  Logs.processed env Logger.WARN = true /\
  (Logs.processed env Logger.INFO = false <->
   Logger.LOG_LEVEL_upper env = Some "WARN") /\
  (Logs.processed env Logger.DEBUG = true <->
   Logger.LOG_LEVEL_upper env = Some "DEBUG" \/
   Logger.LOG_LEVEL_upper env = None /\ Logger.DEBUG_variable env = Some "true") /\
  Logger.infos (Logger.stats st) = Logs.counted env Logger.INFO calls /\
  Logger.debugs (Logger.stats st) = Logs.counted env Logger.DEBUG calls /\
  (Logger.DEBUG_variable env <> Some "true" ->
   Logger.written st =
   (fun c => Logger.mkLine Logger.ConsoleError Logger.ERROR (Logs.text c) (Logs.about c))
     <$> Logs.atLevel Logger.ERROR calls).
Proof.
  cbv zeta.
  destruct (LogFacts.after_memory env calls) as (_ & _ & _ & Hi & Hd).
  pose proof (LogFacts.currentLogLevel_range env) as Hr.
  unfold Logs.processed. cbn [Logger.LOG_LEVELS].
  split; [apply Z.leb_le; lia|]. split; [apply Z.leb_le; lia|].
  split; [|split; [|split; [exact Hi|split; [exact Hd|]]]].
  - rewrite Z.leb_gt. clear. unfold Logger.currentLogLevel, Logger.levelNamed.
    destruct (Logger.LOG_LEVEL_upper env) as [name|].
    + repeat case_bool_decide; subst; try discriminate; cbn;
        split; intros Hx; try lia; try reflexivity; congruence.
    + destruct (Logger.isDebugEnabled env); cbn; (split; [lia|discriminate]).
  - rewrite Z.leb_le. clear. unfold Logger.currentLogLevel, Logger.levelNamed,
      Logger.isDebugEnabled.
    destruct (Logger.LOG_LEVEL_upper env) as [name|].
    + repeat case_bool_decide; subst; try discriminate; cbn;
        split; intros Hx; try lia; auto;
        destruct Hx as [Hx|[Hx _]]; congruence.
    + case_bool_decide as Hd; cbn.
      * split; [auto|lia].
      * split; [lia|]. intros [Hx|[_ Hx]]; congruence.
  - intros Hdebug. apply LogFacts.after_written.
    unfold Logger.isDebugEnabled. apply bool_decide_eq_false_2. exact Hdebug.
Qed.

(** X26.  [connectDB], called when the process starts: [mongoose.connect]
    is tried until it succeeds, at most 5 times, with 5 seconds between
    two tries.  If the try number [k] is the first to succeed, the promise
    resolves after [k] tries; the handlers of the connection are set up
    only if the first try succeeded.  If none of the 5 tries succeeds, the
    process exits with code 1 after 20 seconds of waiting.  The recursion
    never needs more than 5 calls. *)
Theorem connectDB_tries_five_times (fuel : nat) (connects : Z -> bool) :
  (5 <= fuel)%nat ->
  let run := Database.connectDB fuel connects 0 in
  match Connecting.firstSuccess connects with
  | Some k =>
      Database.outcome run = Database.Resolved /\
      Database.connectionAttempts run = k /\
      Connecting.attemptsOf (Database.actions run) = seqZ 1 k /\
      Connecting.waited (Database.actions run) = 5000 * (k - 1) /\
      (Database.SetupConnectionHandlers ∈ Database.actions run <-> k = 1)
  | None =>
      Database.outcome run = Database.Exited /\
      Connecting.attemptsOf (Database.actions run) = seqZ 1 5 /\
      Connecting.waited (Database.actions run) = 20000 /\
      last (Database.actions run) = Some (Database.Exit 1)
  end.
Proof.
  intros Hfuel. cbv zeta.
  destruct fuel as [|[|[|[|[|fuel]]]]]; try lia. clear Hfuel.
  unfold Connecting.firstSuccess.
  change (seqZ 1 Database.MAX_RECONNECT_ATTEMPTS) with [1; 2; 3; 4; 5].
  cbn [Database.connectDB Z.add].
  change (0 + 1) with 1.
  destruct (connects 1) eqn:H1.
  { cbn. rewrite H1. cbn. repeat split; auto. intros _. right. left. }
  change (1 + 1) with 2. change (1 <? Database.MAX_RECONNECT_ATTEMPTS) with true.
  cbn [Database.connectionAttempts Database.actions Database.outcome].
  destruct (connects 2) eqn:H2.
  { cbn. rewrite H1, H2. cbn. repeat split; auto; try discriminate.
    intros Hin. repeat (apply elem_of_cons in Hin as [Hin|Hin]; try discriminate).
    inversion Hin. }
  change (2 + 1) with 3. change (2 <? Database.MAX_RECONNECT_ATTEMPTS) with true.
  cbn [Database.connectionAttempts Database.actions Database.outcome].
  destruct (connects 3) eqn:H3.
  { cbn. rewrite H1, H2, H3. cbn. repeat split; auto; try discriminate.
    intros Hin. repeat (apply elem_of_cons in Hin as [Hin|Hin]; try discriminate).
    inversion Hin. }
  change (3 + 1) with 4. change (3 <? Database.MAX_RECONNECT_ATTEMPTS) with true.
  cbn [Database.connectionAttempts Database.actions Database.outcome].
  destruct (connects 4) eqn:H4.
  { cbn. rewrite H1, H2, H3, H4. cbn. repeat split; auto; try discriminate.
    intros Hin. repeat (apply elem_of_cons in Hin as [Hin|Hin]; try discriminate).
    inversion Hin. }
  change (4 + 1) with 5. change (4 <? Database.MAX_RECONNECT_ATTEMPTS) with true.
  cbn [Database.connectionAttempts Database.actions Database.outcome].
  destruct (connects 5) eqn:H5.
  { cbn. rewrite H1, H2, H3, H4, H5. cbn. repeat split; auto; try discriminate.
    intros Hin. repeat (apply elem_of_cons in Hin as [Hin|Hin]; try discriminate).
    inversion Hin. }
  change (5 <? Database.MAX_RECONNECT_ATTEMPTS) with false.
  cbn. rewrite H1, H2, H3, H4, H5. cbn. repeat split; auto.
Qed.

Lemma connectDB_tries_five_times_witness :
  let run := Database.connectDB 5 (fun n => n =? 3) 0 in
  Database.outcome run = Database.Resolved /\
  Database.connectionAttempts run = 3 /\
  Connecting.attemptsOf (Database.actions run) = seqZ 1 3 /\
  Connecting.waited (Database.actions run) = 5000 * (3 - 1) /\
  (Database.SetupConnectionHandlers ∈ Database.actions run <-> 3 = 1).
Proof.
  apply (connectDB_tries_five_times 5 (fun n => n =? 3)). lia.
Defined.

(** ** Facts about the window of a report *)

Module WindowFacts.
Import Model Windows.

Lemma overlaps_meets ws we s :
  ws <= we -> orderly s ->
  Report.overlaps ws we s = true <-> meets ws we s.
Proof.
  intros Hw Ho. unfold Report.overlaps, meets, orderly in *. cbv zeta.
  destruct (endTime s) as [e|].
  - specialize (Ho e eq_refl).
    rewrite !orb_true_iff, !andb_true_iff, !Z.leb_le. split.
    + intros [[[? ?]|[? ?]]|[? ?]]; (split; [lia|intros ? [= <-]; lia]).
    + intros [? He]. specialize (He e eq_refl). lia.
  - rewrite !orb_true_iff, !andb_true_iff, !Z.leb_le. split.
    + intros [[[? ?]|?]|[? _]]; try discriminate; (split; [lia|discriminate]).
    + intros [? _]. destruct (Z.le_gt_cases ws (startTime s)); [left; left; lia|].
      right. split; [lia|reflexivity].
Qed.

Lemma noOverlap_spec g ws we c :
  Spec.noOverlap g ws we c = true <->
  forall a s, a ∈ c -> guildId a = g -> s ∈ streams a ->
              Report.overlaps ws we s = false.
Proof.
  unfold Spec.noOverlap. rewrite forallb_forall. split.
  - intros H a s Ha Hg Hs. apply list_elem_of_In in Ha.
    specialize (H a Ha). rewrite bool_decide_eq_true_2 in H by exact Hg.
    cbn in H. rewrite forallb_forall in H. apply list_elem_of_In in Hs.
    specialize (H s Hs). apply negb_true_iff in H. exact H.
  - intros H a Ha. apply list_elem_of_In in Ha.
    case_bool_decide as Hg; [|reflexivity]. cbn.
    apply forallb_forall. intros s Hs. apply list_elem_of_In in Hs.
    apply negb_true_iff. eauto.
Qed.

End WindowFacts.

(** X27.  The window of a report is a closed interval.  When the window
    is not empty and no session ends before it starts, the hourly and the
    daily report of a guild are the page without streams exactly when no
    session of the guild meets the window: a session meets it when it
    starts no later than the end of the window and is still open or ends
    no earlier than the start of the window.  So a session that ends at
    the very instant a window starts counts for that window too. *)
Theorem report_window_includes_both_ends g windowStart windowEnd (c : Collection) :
  windowStart <= windowEnd ->
  (forall a s, a ∈ c -> s ∈ streams a -> Windows.orderly s) ->
  let quiet :=
    forall a s, a ∈ c -> guildId a = g -> s ∈ streams a ->
                ~ Windows.meets windowStart windowEnd s in
  (Report.generateHourlyReport true g windowStart windowEnd c = [Report.NoStreams]
   <-> quiet) /\
  (Report.generateDailyReport true g windowStart windowEnd c = [Report.NoStreams]
   <-> quiet).
Proof.
  intros Hw Ho. cbv zeta.
  assert (Spec.noOverlap g windowStart windowEnd c = true <->
          forall a s, a ∈ c -> guildId a = g -> s ∈ streams a ->
                      ~ Windows.meets windowStart windowEnd s) as Hq.
  { rewrite WindowFacts.noOverlap_spec. split; intros H a s Ha Hg Hs.
    - rewrite <- (WindowFacts.overlaps_meets _ _ _ Hw (Ho a s Ha Hs)).
      rewrite (H a s Ha Hg Hs). discriminate.
    - destruct (Report.overlaps windowStart windowEnd s) eqn:E; [|reflexivity].
      exfalso. apply (H a s Ha Hg Hs).
      apply (WindowFacts.overlaps_meets _ _ _ Hw (Ho a s Ha Hs)). exact E. }
  unfold Report.generateHourlyReport, Report.generateDailyReport.
  cbn [Js.bind]. rewrite !ReportFacts.tryReport_cases. rewrite <- Hq.
  destruct (Spec.noOverlap g windowStart windowEnd c); cbn;
    (split; (split; [intros; try reflexivity; discriminate|intros; try reflexivity; discriminate])).
Qed.

Lemma report_window_includes_both_ends_witness :
  (Report.generateHourlyReport true "g" 120000 3600000 [annActivity]
   = [Report.NoStreams]
   <-> forall a s, a ∈ [annActivity] -> guildId a = "g" -> s ∈ streams a ->
                   ~ Windows.meets 120000 3600000 s) /\
  (Report.generateDailyReport true "g" 120000 3600000 [annActivity]
   = [Report.NoStreams]
   <-> forall a s, a ∈ [annActivity] -> guildId a = "g" -> s ∈ streams a ->
                   ~ Windows.meets 120000 3600000 s).
Proof.
  apply (report_window_includes_both_ends "g" 120000 3600000 [annActivity]).
  - lia.
  - intros a s Ha Hs. apply list_elem_of_singleton in Ha. subst a.
    vm_compute in Hs.
    repeat (apply elem_of_cons in Hs as [->|Hs]; [intros e [= <-]; vm_compute; discriminate|]).
    inversion Hs.
Defined.

(** ** Facts about the streams of a report *)

Module GroupFacts.
Import Model Windows.

Lemma idOf_processedOf a s :
  idOf (Report.processedOf a s) = Report.streamIdOf a s.
Proof. reflexivity. Qed.

Lemma elem_of_rev {A} (x : A) l : x ∈ rev l <-> x ∈ l.
Proof. rewrite !list_elem_of_In. symmetry. apply in_rev. Qed.

(** The loop that fills [processedStreams]. *)
Lemma visit_fold ws we xs :
  forall seen out,
    seen = rev (idOf <$> out) -> NoDup (idOf <$> out) ->
    let r := fold_left (Report.visit ws we) xs (seen, out) in
    r.1 = rev (idOf <$> r.2) /\
    NoDup (idOf <$> r.2) /\
    (exists new,
       r.2 = out ++ new /\
       Forall (fun p => exists a s, (a, s) ∈ xs /\
                          Report.overlaps ws we s = true /\
                          p = Report.processedOf a s) new) /\
    (forall a s, (a, s) ∈ xs -> Report.overlaps ws we s = true ->
                 Report.streamIdOf a s ∈ idOf <$> r.2).
Proof.
  induction xs as [|[a s] xs IH]; intros seen out Hseen Hnd; cbv zeta.
  - cbn. split; [exact Hseen|]. split; [exact Hnd|]. split.
    + exists []. rewrite app_nil_r. auto.
    + intros a s Hin. inversion Hin.
  - cbn [fold_left].
    assert (exists seen' out',
      Report.visit ws we (seen, out) (a, s) = (seen', out') /\
      seen' = rev (idOf <$> out') /\ NoDup (idOf <$> out') /\
      (exists new, out' = out ++ new /\
         Forall (fun p => Report.overlaps ws we s = true /\
                          p = Report.processedOf a s) new) /\
      (Report.overlaps ws we s = true -> Report.streamIdOf a s ∈ idOf <$> out'))
      as (seen' & out' & Hv & Hseen' & Hnd' & (new & Hout & Hnew) & Hin').
    { unfold Report.visit.
      destruct (Report.overlaps ws we s) eqn:Ho.
      - case_bool_decide as Hin.
        + eexists _, _. split; [reflexivity|]. split; [exact Hseen|].
          split; [exact Hnd|]. split.
          * exists []. rewrite app_nil_r. auto.
          * intros _. rewrite Hseen in Hin.
            apply (proj1 (elem_of_rev _ _)) in Hin. exact Hin.
        + eexists _, _. split; [reflexivity|].
          rewrite fmap_app, rev_app_distr. cbn. rewrite idOf_processedOf.
          split; [rewrite Hseen; reflexivity|]. split.
          * apply NoDup_app. split; [exact Hnd|]. split; [|apply NoDup_singleton].
            intros x Hx Hx'. apply list_elem_of_singleton in Hx'. subst x.
            apply Hin. rewrite Hseen. apply (proj2 (elem_of_rev _ _)). exact Hx.
          * split.
            -- eexists. split; [reflexivity|]. apply Forall_singleton. auto.
            -- intros _. apply elem_of_app. right. left.
      - eexists _, _. split; [reflexivity|]. split; [exact Hseen|].
        split; [exact Hnd|]. split.
        + exists []. rewrite app_nil_r. auto.
        + discriminate. }
    rewrite Hv.
    destruct (IH seen' out' Hseen' Hnd') as (H1 & H2 & (new' & H3 & H4) & H5).
    split; [exact H1|]. split; [exact H2|]. split.
    + exists (new ++ new'). rewrite H3, Hout, app_assoc. split; [reflexivity|].
      apply Forall_app. split.
      * eapply Forall_impl; [exact Hnew|]. cbn. intros p [Ho ->].
        exists a, s. split; [left|auto].
      * eapply Forall_impl; [exact H4|]. cbn. intros p (a' & s' & Hin & Ho & ->).
        exists a', s'. split; [right; exact Hin|auto].
    + intros a' s' Hin Ho. apply elem_of_cons in Hin as [[= -> ->]|Hin].
      * rewrite H3, fmap_app. apply elem_of_app. left. auto.
      * eauto.
Qed.

(** *** The grouping by user *)

Lemma lookupUser_None (m : Report.UserMap) id :
  Report.lookupUser m id = None <-> id ∉ fst <$> m.
Proof.
  unfold Report.lookupUser.
  destruct (list_find (fun kv => kv.1 = id) m) as [[i kv]|] eqn:E; cbn.
  - split; [discriminate|]. intros Hn. exfalso. apply Hn.
    apply list_find_Some in E as (Hi & Hk & _).
    apply list_elem_of_fmap. exists kv. split; [auto|].
    eapply list_elem_of_lookup_2; eauto.
  - split; [|reflexivity]. intros _ Hin.
    apply list_find_None in E.
    apply list_elem_of_fmap in Hin as (kv & -> & Hkv).
    rewrite Forall_forall in E. exact (E kv Hkv eq_refl).
Qed.

Lemma updateUser_fmap id f (m : Report.UserMap) :
  id ∉ fst <$> m \/ NoDup (fst <$> m) ->
  Report.updateUser id f m =
  (fun kv => if decide (kv.1 = id) then (kv.1, f kv.2) else kv) <$> m.
Proof.
  induction m as [|[k v] m IH]; intros H; [reflexivity|].
  cbn [Report.updateUser fmap list_fmap fst snd].
  case_bool_decide as Hk.
  - subst k. rewrite decide_True by reflexivity. f_equal.
    destruct H as [H|H].
    { exfalso. apply H. left. }
    cbn in H. apply NoDup_cons in H as [Hn _].
    clear IH. induction m as [|[k' v'] m IHm]; [reflexivity|].
    cbn in *. apply not_elem_of_cons in Hn as [Hne Hn].
    rewrite decide_False by congruence. f_equal. auto.
  - rewrite decide_False by exact Hk. f_equal. apply IH.
    destruct H as [H|H].
    + left. cbn in H. apply not_elem_of_cons in H as [_ H]. exact H.
    + right. cbn in H. apply NoDup_cons in H as [_ H]. exact H.
Qed.

Lemma updateUser_keys id f (m : Report.UserMap) :
  fst <$> Report.updateUser id f m = fst <$> m.
Proof.
  induction m as [|[k v] m IH]; [reflexivity|].
  cbn [Report.updateUser]. case_bool_decide; cbn; [reflexivity|].
  f_equal. exact IH.
Qed.

Lemma seconds_snoc ws we l p :
  seconds ws we (l ++ [p]) = seconds ws we l + Report.durationSec ws we p.
Proof.
  unfold seconds. induction l as [|x l IH]; cbn; [lia|].
  cbn in IH. rewrite IH. lia.
Qed.

Lemma incomplete_snoc l p :
  incomplete (l ++ [p]) = incomplete l + (if Report.isIncomplete p then 1 else 0).
Proof.
  unfold incomplete. rewrite filter_app, length_app, filter_cons.
  destruct (Report.isIncomplete p).
  - rewrite decide_True by reflexivity. cbn. lia.
  - rewrite decide_False by discriminate. cbn. lia.
Qed.

Lemma mine_snoc id l p :
  mine id (l ++ [p]) =
  mine id l ++ (if decide (Report.userId p = id) then [p] else []).
Proof. unfold mine. rewrite filter_app. reflexivity. Qed.

Lemma mine_absent id l : id ∉ Report.userId <$> l -> mine id l = [].
Proof.
  intros Hn. unfold mine. induction l as [|x l IH]; [reflexivity|].
  cbn in Hn. apply not_elem_of_cons in Hn as [Hne Hn].
  rewrite filter_cons, decide_False by congruence. auto.
Qed.

(** The block of a user after one more of their streams. *)
Lemma blockOf_snoc ws we name ps p :
  (fun u =>
     Report.mkUserStreams (Report.usUsername u) (Report.usStreamCount u + 1)
       (Report.usTotalDuration u + Report.durationSec ws we p)
       (Report.usIncompleteCount u + (if Report.isIncomplete p then 1 else 0))
       (Report.usStreams u ++
        [Report.mkReportStream (Report.channelId p) (Report.channelName p)
           (Report.startTime p) (Report.endTime p) (Report.durationSec ws we p)
           (Report.interrupted p) (Report.isIncomplete p)]))
    (blockOf ws we name ps)
  = blockOf ws we name (ps ++ [p]).
Proof.
  unfold blockOf. cbn.
  rewrite seconds_snoc, incomplete_snoc, fmap_app, length_app. cbn.
  f_equal. lia.
Qed.

Lemma group_snoc ws we l p :
  Report.group ws we (l ++ [p]) = Report.groupOne ws we (Report.group ws we l) p.
Proof. unfold Report.group. now rewrite fold_left_app. Qed.

(** What the grouping keeps, stream after stream. *)
Lemma group_inv ws we processed :
  NoDup (fst <$> (Report.group ws we processed).1) /\
  (forall id, id ∈ fst <$> (Report.group ws we processed).1 <->
              id ∈ Report.userId <$> processed) /\
  Forall (groups ws we processed) (Report.group ws we processed).1 /\
  Report.totalStreamCount (Report.group ws we processed).2
  = Z.of_nat (length processed) /\
  Report.totalStreamTime (Report.group ws we processed).2
  = seconds ws we processed /\
  Report.incompleteStreamCount (Report.group ws we processed).2
  = incomplete processed.
Proof.
  induction processed as [|p l IH] using rev_ind.
  - cbn. split; [constructor|]. split; [reflexivity|]. split; [constructor|].
    auto.
  - destruct IH as (Hnd & Hkeys & Hall & Hc & Ht & Hi).
    rewrite group_snoc.
    destruct (Report.group ws we l) as [users totals]. cbn [fst snd] in *.
    unfold Report.groupOne. cbv zeta.
    set (users1 :=
      match Report.lookupUser users (Report.userId p) with
      | Some _ => users
      | None => users ++ [(Report.userId p,
                           Report.mkUserStreams (Report.username p) 0 0 0 [])]
      end).
    assert (NoDup (fst <$> users1) /\
            (forall id, id ∈ fst <$> users1 <->
                        id ∈ Report.userId <$> l ++ [p]) /\
            Forall (fun kv =>
                      if decide (kv.1 = Report.userId p)
                      then exists name,
                             kv.2 = blockOf ws we name (mine kv.1 l) /\
                             name = match mine kv.1 l with
                                    | first :: _ => Report.username first
                                    | [] => Report.username p
                                    end
                      else groups ws we l kv) users1) as (Hnd1 & Hkeys1 & Hall1).
    { unfold users1.
      destruct (Report.lookupUser users (Report.userId p)) as [u|] eqn:Hl.
      - assert (Report.userId p ∈ fst <$> users) as Hin.
        { destruct (decide (Report.userId p ∈ fst <$> users)) as [?|Hn]; [auto|].
          apply lookupUser_None in Hn. congruence. }
        split; [exact Hnd|]. split.
        + intros id. rewrite Hkeys, fmap_app, elem_of_app. cbn.
          rewrite list_elem_of_singleton. split; [auto|].
          intros [? | ->]; [auto|]. apply Hkeys. exact Hin.
        + eapply Forall_impl; [exact Hall|]. cbn. intros kv Hg.
          destruct (decide (kv.1 = Report.userId p)); [|exact Hg].
          destruct Hg as (first & rest & Hm & Hb). rewrite Hm.
          exists (Report.username first). auto.
      - apply lookupUser_None in Hl.
        split; [|split].
        + rewrite fmap_app. cbn. apply NoDup_app. split; [exact Hnd|].
          split; [|apply NoDup_singleton].
          intros x Hx Hx'. apply list_elem_of_singleton in Hx'. congruence.
        + intros id. rewrite !fmap_app, !elem_of_app. cbn.
          rewrite !list_elem_of_singleton, Hkeys. reflexivity.
        + apply Forall_app. split.
          * eapply Forall_impl; [exact Hall|]. cbn. intros kv Hg.
            destruct (decide (kv.1 = Report.userId p)) as [E|]; [|exact Hg].
            destruct Hg as (first & rest & Hm & Hb). rewrite Hm.
            exists (Report.username first). auto.
          * apply Forall_singleton. cbn. rewrite decide_True by reflexivity.
            assert (mine (Report.userId p) l = []) as ->.
            { apply mine_absent. rewrite <- Hkeys. exact Hl. }
            exists (Report.username p). auto. }
    clearbody users1.
    rewrite updateUser_fmap by (right; exact Hnd1). cbn [fst snd].
    split; [|split; [|split]].
    + rewrite <- list_fmap_compose.
      erewrite list_fmap_ext; [exact Hnd1|].
      intros i [k v] _. cbn. destruct (decide (k = Report.userId p)); reflexivity.
    + intros id. rewrite <- Hkeys1. rewrite <- list_fmap_compose.
      erewrite list_fmap_ext; [reflexivity|].
      intros i [k v] _. cbn. destruct (decide (k = Report.userId p)); reflexivity.
    + apply Forall_fmap. eapply Forall_impl; [exact Hall1|].
      intros [k v]. cbn. intros Hg. unfold groups.
      destruct (decide (k = Report.userId p)) as [->|Hne].
      * destruct Hg as (name & -> & Hname).
        rewrite blockOf_snoc. cbn [fst snd].
        rewrite mine_snoc, decide_True by reflexivity.
        destruct (mine (Report.userId p) l) as [|first rest] eqn:Hm.
        -- exists p, []. rewrite Hname. auto.
        -- exists first, (rest ++ [p]). rewrite Hname. auto.
      * cbn [fst snd]. rewrite mine_snoc, decide_False by congruence.
        rewrite app_nil_r. exact Hg.
    + cbn [Report.totalStreamCount Report.totalStreamTime
             Report.incompleteStreamCount].
      rewrite Hc, Ht, Hi, seconds_snoc, incomplete_snoc, length_app. cbn.
      repeat split; lia.
Qed.

End GroupFacts.

(** X28.  The grouping of a report by user: the users are those of the
    processed streams, each once; the block of a user holds the lines of
    that user's streams, in order, under the name the first of them
    carries, with their number, the sum of their seconds and the number of
    those still going on; and the totals of the report are the number of
    the processed streams, the sum of their seconds and the number of
    those still going on. *)
Theorem report_groups_streams_by_user
    windowStart windowEnd (processed : list Report.ProcessedStream) :
  let users := (Report.group windowStart windowEnd processed).1 in
  let totals := (Report.group windowStart windowEnd processed).2 in
  NoDup (fst <$> users) /\
  (forall id, id ∈ fst <$> users <-> id ∈ Report.userId <$> processed) /\
  Forall (Windows.groups windowStart windowEnd processed) users /\
  Report.totalStreamCount totals = Z.of_nat (length processed) /\
  Report.totalStreamTime totals = Windows.seconds windowStart windowEnd processed /\
  Report.incompleteStreamCount totals = Windows.incomplete processed.
Proof.
  cbv zeta. apply GroupFacts.group_inv.
Qed.

(** X29.  The streams a report processes: every one of them is a session
    of one of the aggregates found that overlaps the window; every such
    session is among them under its identity (the user, the start and the
    channel); and no identity is processed twice, so a session is never
    counted twice. *)
Theorem report_processes_each_session_once
    windowStart windowEnd (streamActivities : Collection) :
  let out := Report.processStreams windowStart windowEnd streamActivities in
  NoDup (Windows.idOf <$> out) /\
  (forall p, p ∈ out ->
     exists a s, a ∈ streamActivities /\ s ∈ streams a /\
       Report.overlaps windowStart windowEnd s = true /\
       p = Report.processedOf a s) /\
  (forall a s, a ∈ streamActivities -> s ∈ streams a ->
     Report.overlaps windowStart windowEnd s = true ->
     Report.streamIdOf a s ∈ Windows.idOf <$> out).
Proof.
  cbv zeta. unfold Report.processStreams.
  set (pairs := streamActivities ≫= _).
  assert (forall a s, (a, s) ∈ pairs <-> a ∈ streamActivities /\ s ∈ streams a)
    as Hpairs.
  { intros a s. unfold pairs. rewrite list_elem_of_bind. split.
    - intros (a' & Hin & Ha'). apply list_elem_of_fmap in Hin as (s' & [= -> ->] & Hs').
      auto.
    - intros [Ha Hs]. exists a. split; [|exact Ha].
      apply list_elem_of_fmap. exists s. auto. }
  destruct (GroupFacts.visit_fold windowStart windowEnd pairs [] [] eq_refl
              (NoDup_nil_2 (A := Report.StreamId)))
    as (_ & Hnd & (new & Hout & Hnew) & Hall).
  split; [exact Hnd|]. split.
  - intros p Hp. rewrite Hout in Hp. cbn in Hp.
    rewrite Forall_forall in Hnew.
    destruct (Hnew p Hp) as (a & s & Hin & Ho & ->).
    apply Hpairs in Hin as [Ha Hs]. exists a, s. auto.
  - intros a s Ha Hs Ho. apply Hall; [|exact Ho]. apply Hpairs. auto.
Qed.

(** X30.  A guild the bot has met.  The [ready] handler and the
    [GuildCreate] handler call [getOrCreateGuildConfig] with the id and
    the name of the guild.  When neither is empty, the guild has a
    configuration afterwards and the configurations stored before are all
    kept as they were; the settings of every other guild are answered as
    before; a guild that had no configuration gets the default prefix, the
    tracking enabled, no notification channel and no scheduled report; and
    from then on the three setters succeed for the guild. *)
Theorem met_guild_is_configured env now gid gname (c : Config.Configs) k now' :
  gid <> "" -> gname <> "" ->
  let c' := Settings.perform env c (Settings.GetOrCreate now gid (Some gname)) in
  (exists new, c' = c ++ new) /\
  (k <> gid -> Settings.answers env k c' = Settings.answers env k c) /\
  (exists i g,
     Config.findOne gid c' = Some (i, g) /\
     (Config.findOne gid c = None ->
      Settings.answers env gid c'
      = Settings.mkAnswers (Config.defaultPrefix env) true None /\
      Config.hourlyReportEnabled g = false /\
      Config.dailyReportEnabled g = false)) /\
  (forall p, (Config.setGuildPrefix env now' gid p c').2 = true) /\
  (forall ch, (Config.setNotificationChannel env now' gid ch c').2 = true) /\
  (forall b, (Config.toggleStreamTracking env now' gid b c').2 = true).
Proof.
  intros Hg Hn. cbv zeta.
  rewrite (ConfigFacts.getOrCreate_named env now gid gname c Hg Hn).
  set (fresh := Config.mkGuildConfig gid gname (Config.defaultPrefix env) None true now
                  false false "UTC").
  assert (exists i g,
    Config.findOne gid
      match Config.findOne gid c with Some _ => c | None => c ++ [fresh] end
    = Some (i, g) /\
    (Config.findOne gid c = None -> g = fresh)) as (i & g & Hf & Hfresh).
  { destruct (Config.findOne gid c) as [[i g]|] eqn:E.
    - exists i, g. split; [exact E|discriminate].
    - exists (length c), fresh. rewrite ConfigFacts.config_snoc, E.
      cbn. rewrite decide_True by reflexivity. auto. }
  split; [|split; [|split]].
  - destruct (Config.findOne gid c); [exists []; rewrite app_nil_r|exists [fresh]];
      reflexivity.
  - intros Hk. destruct (Config.findOne gid c) as [r|] eqn:E; [reflexivity|].
    unfold Settings.answers, Config.getGuildPrefix, Config.isStreamTrackingEnabled,
      Config.getNotificationChannel.
    rewrite ConfigFacts.config_snoc.
    destruct (Config.findOne k c); [reflexivity|].
    cbn. rewrite decide_False by congruence. reflexivity.
  - exists i, g. split; [exact Hf|]. intros Hnone.
    rewrite (ConfigFacts.answers_found env _ _ _ _ Hf).
    rewrite (Hfresh Hnone). cbn.
    split; [|auto]. f_equal.
    assert (Config.defaultPrefix env <> "") as Hd.
    { unfold Config.defaultPrefix. destruct env as [p|]; [|discriminate].
      case_bool_decide; [discriminate|assumption]. }
    unfold Settings.prefixRead. rewrite bool_decide_eq_false_2 by exact Hd.
    reflexivity.
  - repeat split; intros;
      unfold Config.setGuildPrefix, Config.setNotificationChannel,
        Config.toggleStreamTracking;
      rewrite ConfigFacts.update_spec, Hf; reflexivity.
Qed.

Lemma met_guild_is_configured_witness :
  let c' := Settings.perform None gSettings (Settings.GetOrCreate 5 "h" (Some "Home")) in
  (exists new, c' = gSettings ++ new) /\
  ("g" <> "h" -> Settings.answers None "g" c' = Settings.answers None "g" gSettings) /\
  (exists i g,
     Config.findOne "h" c' = Some (i, g) /\
     (Config.findOne "h" gSettings = None ->
      Settings.answers None "h" c'
      = Settings.mkAnswers (Config.defaultPrefix None) true None /\
      Config.hourlyReportEnabled g = false /\
      Config.dailyReportEnabled g = false)) /\
  (forall p, (Config.setGuildPrefix None 9 "h" p c').2 = true) /\
  (forall ch, (Config.setNotificationChannel None 9 "h" ch c').2 = true) /\
  (forall b, (Config.toggleStreamTracking None 9 "h" b c').2 = true).
Proof.
  apply (met_guild_is_configured None 5 "h" "Home" gSettings "g" 9); discriminate.
Defined.
